(* ===== verification/_CoqProject ===== *)
-Q . S2P
Prelude.v
Crc.v
Frame.v
MsgTable.v
Framer.v
FramerSpec.v
FramerProps.v
FramerWire.v
LruVec.v
Learn.v
SeqTracker.v
Dedup.v
Filters.v
EndpointStats.v
TxQueue.v
Identity.v
Group.v
Decide.v
Router.v
RouterInv.v
Dispatch.v
RouterProps.v
RouterRun.v
Policy.v
RouterExamples.v
RustStr.v
RustNet.v
FilterParse.v
Spec.v
SpecProps.v
Session.v
SessionProps.v
Backoff.v
Endpoint.v
AddrProps.v
UdpServer.v
UdpClient.v
Stream.v
StreamProps.v
TcpServer.v
Transport.v
Spawn.v
Net.v
Relay.v
StatsTask.v
Config.v
ConfigProps.v
BuildTable.v
BuildProps.v
Shutdown.v
Log.v
ErrorText.v
Display.v
Version.v
Socket.v
Program.v
ProgramProps.v
Vendored.v
Dialect.v
Testing.v
TestMavlink.v
TestFilters.v
TestEndpoint.v
TestSpec.v
TestBuild.v
TestConfig.v
TestParsers.v
TestRouter.v
TestTasks.v
TestTransport.v
