(* ===== verification/Prelude.v ===== *)
(** * Verification of the MAVLink router [rmr]

    The program (a Rust crate, [src/src/], with a build script, [src/build.rs]) forwards
    MAVLink telemetry between links.  Endpoint tasks turn bytes from a transport into frames;
    one router task decides for each frame which other endpoints get it; per-endpoint writer
    loops send what the router queued; a stats task prints counters; a configuration layer
    turns command line and TOML file into endpoint specs; a build script compiles the MAVLink
    dialect XML to the table of message ids the framer validates against.

    ** Parts, files and source

    Wire format:
    - [Crc] ([mavlink/crc.rs]), [Frame] ([mavlink/frame.rs]), [MsgTable]
      ([mavlink/msgid_table.rs]), [Framer] ([mavlink/framer.rs]): the CRC accumulator, the
      header types, the binary search and the streaming framer, one definition per function.
      [FramerSpec] describes one scan of the buffer without loops or counters and shows the
      framer computes it; [FramerProps] and [FramerWire] hold the theorems, the latter against
      an encoder of the wire format.

    Router:
    - [Learn] ([router/learn.rs]) and [SeqTracker] ([endpoint/seq_tracker.rs]), with their
      common lemmas in [LruVec]; [Dedup] ([router/dedup.rs]); [Filters]
      ([endpoint/filters.rs]); [Group] ([router/group.rs]); [Decide] ([router/decide.rs]);
    - [EndpointStats] ([endpoint/stats.rs]), [TxQueue] ([endpoint/tx_queue.rs]), [Identity]
      ([endpoint/identity_flags.rs], [endpoint/mod.rs], [endpoint/events.rs]): what the router
      shares with the endpoint tasks;
    - [Router] ([router/mod.rs]): registry, events, frames, sweep, the select loop.  Its
      invariant is in [RouterInv], the effect of the dispatch loop in [Dispatch], the
      guarantees for one frame in [RouterProps], those for whole runs in [RouterRun];
      [RouterExamples] instantiates them on a small router.
    - [Policy]: the specification of routing, a state machine of who is connected, who was
      heard on which side and which frames were accepted when, without queues, tables with
      eviction, hash rings or reference counts, and the proof that the router implements it.

    Endpoints:
    - [Session] and [SessionProps] ([endpoint/session.rs]), [Backoff] ([endpoint/backoff.rs]),
      [Endpoint] ([endpoint/defaults.rs] and naming), [UdpServer], [UdpClient]
      ([endpoint/udp/]), [Stream] and [StreamProps] ([endpoint/tcp/client.rs],
      [endpoint/serial.rs]), [TcpServer] ([endpoint/tcp/server.rs]), [Spawn]
      ([endpoint/spawn.rs], [endpoint/wiring.rs]);
    - [Socket] ([endpoint/socket.rs]): the socket calls of both binds;
    - [AddrProps]: addresses and names printed and read back.

    All together:
    - [Transport]: the interface between a link and the rest (what is read is framed,
      filtered and handed on in order; what is written, or fails to be, is the head of the
      queue), with instances for byte streams, [udpc:] sockets, peers of [udps:] and mixes of
      them;
    - [Net]: the running network from start-up on, links over any [Transport] that come, fail,
      reconnect and go, the shared allocator, the channels, the queues and the router in any interleaving,
      with its invariant;
    - [Relay]: what comes out of a link of this network, against the policy;
    - [Program] and [ProgramProps] ([lib.rs], [main.rs]): start-up, run and exit code.

    Configuration, statistics, shutdown, build:
    - [RustStr] and [RustNet]: the operations on [str] and [std::net] the parsers use;
    - [FilterParse], [Spec] and [SpecProps] ([endpoint/spec/], the parsers of
      [endpoint/filters.rs] and [endpoint/identity_flags.rs]); [Config] and [ConfigProps]
      ([config.rs], [parsers/], [error.rs], parts of [lib.rs]); [ErrorText] (the messages of
      [error.rs], [spec/error.rs] and [dialect_parse.rs]); [Display] (the [Display] and [Debug]
      forms that make up [Config::log_resolved]); [Log] ([log.rs]);
    - [StatsTask] ([stats.rs]), [Shutdown] ([shutdown.rs]);
    - [BuildTable] and [BuildProps] ([build.rs], [build_support/]), [Version] (the version
      string of [build.rs]);
    - [Vendored] (what the files of [src/vendor/mavlink/] contain) and [Dialect] (the build
      script run on them): the very table the shipped router looks messages up in.

    Conformance:
    - [Testing], [TestMavlink], [TestFilters], [TestEndpoint], [TestSpec], [TestBuild],
      [TestConfig], [TestParsers], [TestRouter], [TestTasks], [TestTransport]: the crate's own
      unit tests (the [#[cfg(test)]] modules of [src/src/] and [src/build_support/]) as
      computations on the model, a Module per source file.

    ** How the code is represented

    - Integers are [Z] with wrap-around ([wrap]) or saturation ([sat_add]) written where the
      source has it.  Instants and durations are [Z], in nanoseconds or milliseconds as each
      file says.
    - What can panic (an index, a slice, [advance], [split_to], an assertion, an overflow in
      the build script) returns an [outcome]: [Done], [Panicked], or [OutOfFuel].  A loop
      without a structural measure takes fuel, and the theorems state that the fuel it is
      given is enough: the length of the buffer for the framer, the length of a queue for a
      drain, the number of files for the include walk.  Scripts of outside behaviour (reads,
      connects, ticks) are lists; a task that waits for more than the list has gives
      [OutOfFuel].
    - [Arc]s shared between tasks are handles into a store, [World]: stats objects and
      queues.  Aliasing is equality of handles; that no two endpoints alias is a theorem
      ([Spawn]), not an assumption of the model.
    - A task is a function from a state and the branch its [select!] took to the next state
      (the router, whose select races with the other threads, a function of each poll);
      a run is a sequence of such turns, or a step relation where tasks interleave
      ([RouterRun.sys_step], [TxQueue.queue_system], [TcpServer.tcps_act],
      [Spawn.shared_step], [Net.net_step]).  Atomics are relaxed counters updated in one step.
    - Third-party code is a parameter: [ArrayQueue] and the channels are classes with laws
      ([TxQueue.ArrayQueueLaws], [Router.StatsSenderLaws], [Session.SenderLaws]), the frame
      hash, the edit distance, the resolver, the XML events and the results of socket calls
      are arguments or inputs, and so are the file system, [git] and the clock.  A future
      is known by the moment it resolves ([Shutdown.moment]).  The iteration order of a
      [HashMap] is any permutation of its entries.  Each class has an instance in the file
      that declares it or in [RouterExamples].

    ** What the theorems show

    - Framing: independence of how the stream is cut into reads, conservation of bytes,
      soundness and round trip against the wire format, resynchronisation behind garbage,
      rejection of single-byte corruption, absence of panics, termination.
    - Routing: the exact effect of one frame on every queue, table and counter; no echo
      towards the source or its group; replies find their way back; unroutable frames leave
      no trace; the task never panics under any interleaving; a frame overtakes the
      announcement of its endpoint only if that arrives between the two polls of one select,
      and is then dropped without trace; group reference counts are exact; the final sweep
      finalises every survivor.
    - Policy: the router's events and frames refine those of [Policy].  Learn tables hold 32
      senders per side, so for an endpoint that is not a sniffer the refinement is stated for
      sides that have heard no more; the dedup window is exact at any load.
    - Tables and queues: LRU tables refine finite maps; the dedup window suppresses exactly
      the repetitions of the last accepted frames within its TTL; loss estimates add up; every
      frame that enters a transmit queue is delivered in order, dropped and counted, or still
      there; no wake-up is lost.
    - End to end, from start-up, for streams, [udpc:] and [udps:] peers in any mix, coming and
      going, with failing writes and reconnects: whatever the interleaving, what a link's
      transport accepts is, in order, what the policy gives it of what the other links'
      transports delivered and their filters admit, less the drops it has counted and at most
      one frame for every fault; a byte stream between two registered links crosses the
      router unchanged, and nothing gets stuck.
    - Endpoints: sessions are transparent to chunking and filter exactly; peer tables and the
      router's view agree; a client ignores strangers; no stale frame is sent after a
      reconnect; cancellation cuts any backoff short; sockets are bound with their options
      or not at all; the whole system keeps the router wired as its theorems require.
    - The program: only a checked configuration is run, everything else ends in one message;
      start-up does not panic and starts an endpoint exactly when the router takes its
      announcement, whatever the tasks already up do; [run] returns within the grace period
      after the first signal and the end of start-up.
    - Conformance: the model satisfies the assertions the authors wrote for the code, so a
      definition that strayed from its source would show there; a property test is proved for
      every input instead of sampled.
    - Configuration and build: grammar and addresses round trip, accepted specs are well formed, CLI
      and TOML agree, the merge is characterised completely; the include walk is exact and
      terminates; the generated table satisfies what the lookup assumes, with target offsets
      at the wire positions of the fields, and for the vendored dialects every row is the one
      that MAVLink's serialization rules, written down independently, give the message, whatever
      the order in which the hash map is iterated.
    - Statistics and shutdown: the output stream is determined line by line; shutdown is
      bounded in time and does not cut a task short that is within its budget.

    ** What is not modelled

    Command line and TOML tokenising ([clap], [serde], [toml]) and XML tokenising
    ([quick_xml]), whose typed results are inputs; the help texts of [parsers/cli.rs]; the
    layout of a log line ([tracing_subscriber]) and the log events of the endpoint tasks,
    except where a message is a function's result; JSON serialisation and time stamps of
    stats lines; the generated file's text.  In [Net] shutdown is not a step: it is in
    [RouterRun], [Shutdown] and [Program].  How long start-up waits for room in the event
    channel is an input ([Program.run]).  Fairness of the tokio scheduler is not assumed:
    liveness is stated as the existence of a completing run, or as a bound in terms of when the
    tasks react and how late the timers are.

    Of the tests: those that only exercise [clap], [toml], the operating system's sockets
    ([socket.rs]) or the wall clock, the Windows ones, and the integration tests under [src/tests/], which run
    whole routers over sockets and devices.

    This file holds what the others share: machine integers, results and outcomes with their
    [let] notations, vectors with removal and stable sort, byte buffers, and the hint
    database [rmr]. *)

From stdpp Require Export prelude gmap strings list fin_maps.
From Stdlib Require Export ZArith Lia.
From Stdlib Require Import Sorted.
#[local] Open Scope Z_scope.

(** ** Machine integers

    A [w]-bit unsigned integer is a [Z] in [0, 2^w).  Arithmetic that Rust wraps
    ([AtomicU64::fetch_add], [wrapping_sub]) goes through [wrap]; arithmetic that Rust
    saturates goes through [sat_add] / [sat_sub].  Lengths and indices of buffers are
    [nat]: a [usize] never overflows on the length of a value that is in memory. *)

Definition u8_max : Z := 255.
Definition u16_max : Z := 65535.
Definition u32_max : Z := 4294967295.
Definition u64_max : Z := 18446744073709551615.

Definition wrap (w z : Z) : Z := z mod 2 ^ w.
Definition sat_add (w a b : Z) : Z := Z.min (a + b) (2 ^ w - 1).
Definition sat_sub (a b : Z) : Z := Z.max (a - b) 0.

(** The range predicate of a [w]-bit unsigned integer and its decision procedure. *)
Definition in_width (w z : Z) : Prop := 0 <= z < 2 ^ w.
#[global] Instance in_width_dec w z : Decision (in_width w z).
Proof. unfold in_width. apply _. Defined.

Abbreviation is_u8 := (in_width 8).
Abbreviation is_u16 := (in_width 16).
Abbreviation is_u32 := (in_width 32).
Abbreviation is_u64 := (in_width 64).

(** ** Fallible code: Rust's [Result] and the [?] operator *)

Inductive result (A E : Type) : Type :=
| Ok (a : A)
| Err (e : E).
Arguments Ok {A E} a.
Arguments Err {A E} e.

Declare Scope rust_scope.
Delimit Scope rust_scope with rust.
Open Scope rust_scope.

(** [let? x := e in k] is [let x = e?; k]. *)
Notation "'let?' x := e 'in' k" :=
  (match e with Ok x => k | Err err__ => Err err__ end)
  (at level 10, x pattern, e at level 200, k at level 200) : rust_scope.

Definition map_err {A E F} (f : E -> F) (r : result A E) : result A F :=
  match r with Ok a => Ok a | Err e => Err (f e) end.

Definition ok_or {A E} (o : option A) (e : E) : result A E :=
  match o with Some a => Ok a | None => Err e end.

Definition is_ok {A E} (r : result A E) : bool :=
  match r with Ok _ => true | Err _ => false end.

(** ** Code that can panic or loop

    [outcome] is the result of running code that may hit a Rust panic (an index out of
    range, [expect], [panic!]) or that the model runs on bounded fuel.  [OutOfFuel] never
    stands for a behaviour of the program: the theorems on fuelled loops show [Done]. *)

Inductive outcome (A : Type) : Type :=
| Done (a : A)
| Panicked
| OutOfFuel.
Arguments Done {A} a.
Arguments Panicked {A}.
Arguments OutOfFuel {A}.

Notation "'let!' x := e 'in' k" :=
  (match e with Done x => k | Panicked => Panicked | OutOfFuel => OutOfFuel end)
  (at level 10, x pattern, e at level 200, k at level 200) : rust_scope.

(** ** Slices and vectors

    The iterator adaptors the source uses, as list functions. *)

Section Slices.
Context {A : Type}.

(** [iter().position(p)] *)
Fixpoint position (p : A -> bool) (l : list A) : option nat :=
  match l with
  | [] => None
  | x :: l' => if p x then Some 0%nat else S <$> position p l'
  end.

(** [iter_mut().find(p)] followed by a write through the reference: the first match is
    updated in place, every other element keeps its position. *)
Fixpoint update_first (p : A -> bool) (f : A -> A) (l : list A) : list A :=
  match l with
  | [] => []
  | x :: l' => if p x then f x :: l' else x :: update_first p f l'
  end.

(** [iter().enumerate().min_by_key(key)] projected to the index: Rust returns the first
    of several equal minima. *)
Fixpoint min_index (key : A -> Z) (l : list A) : option nat :=
  match l with
  | [] => None
  | x :: l' =>
      match min_index key l' with
      | None => Some 0%nat
      | Some i =>
          match l' !! i with
          | Some y => if key x <=? key y then Some 0%nat else Some (S i)
          | None => Some 0%nat
          end
      end
  end.

(** [Vec::swap_remove(i)]: the last element replaces element [i].  (When [i] is the last
    index the update is out of range of the shortened vector and does nothing.) *)
Definition swap_remove (i : nat) (l : list A) : list A :=
  match last l with
  | Some x => <[i := x]> (take (length l - 1) l)
  | None => []
  end.
End Slices.

(** [slice::sort_by_key], a stable sort. *)
Section SortByKey.
Context {A : Type} (key : A -> Z).

Fixpoint insert_by_key (x : A) (l : list A) : list A :=
  match l with
  | [] => [x]
  | y :: rest => if key y <=? key x then y :: insert_by_key x rest else x :: l
  end.

Definition sort_by_key (l : list A) : list A := foldl (fun acc x => insert_by_key x acc) [] l.
End SortByKey.

(** Indexing, slicing and the [Buf] operations panic out of range. *)
Section Bytes.
Context {A : Type}.
Implicit Types l : list A.

(** [l[i]] *)
Definition index l (i : nat) : outcome A :=
  match l !! i with Some x => Done x | None => Panicked end.

(** [&l[a..b]] *)
Definition slice l (a b : nat) : outcome (list A) :=
  if ((a <=? b) && (b <=? length l))%nat then Done (take (b - a) (drop a l)) else Panicked.

(** [buf.advance(n)] *)
Definition buf_advance (n : nat) l : outcome (list A) :=
  if (n <=? length l)%nat then Done (drop n l) else Panicked.

(** [buf.split_to(n)]: the head, and what stays in the buffer. *)
Definition buf_split_to (n : nat) l : outcome (list A * list A) :=
  if (n <=? length l)%nat then Done (take n l, drop n l) else Panicked.
End Bytes.

(** The value of an in-range byte index. *)
Definition byte_at (l : list Z) (i : nat) : Z := default 0 (l !! i).

(** ** Automation

    [rmr] collects the lemmas on widths and slices that the components use; [solve_width]
    closes range goals after unfolding the width predicates. *)

Create HintDb rmr discriminated.
Create Rewrite HintDb rmr.

Ltac unfold_width := unfold in_width, wrap, sat_add, sat_sub, u8_max, u16_max, u32_max, u64_max in *.
Ltac solve_width :=
  unfold_width;
  repeat match goal with
         | |- context [?z mod 2 ^ ?w] =>
             pose proof (Z.mod_pos_bound z (2 ^ w) ltac:(lia)); generalize dependent (z mod 2 ^ w); intros
         end; lia.

(** Splits a boolean conjunction, disjunction or comparison in the context into the
    proposition it decides. *)
Ltac bool_hyps :=
  repeat match goal with
  | H : andb _ _ = true |- _ => apply andb_prop in H; destruct H
  | H : orb _ _ = false |- _ => apply orb_false_iff in H; destruct H
  | H : negb _ = true |- _ => apply negb_true_iff in H
  | H : negb _ = false |- _ => apply negb_false_iff in H
  | H : (_ <=? _) = true |- _ => apply Z.leb_le in H
  | H : (_ <=? _) = false |- _ => apply Z.leb_gt in H
  | H : (_ <? _) = true |- _ => apply Z.ltb_lt in H
  | H : (_ <? _) = false |- _ => apply Z.ltb_ge in H
  | H : (_ =? _) = true |- _ => apply Z.eqb_eq in H
  | H : (_ =? _) = false |- _ => apply Z.eqb_neq in H
  end.

(** ** Lemmas on machine integers *)

Lemma wrap_range w z : 0 <= w -> in_width w (wrap w z).
Proof. intros Hw. unfold wrap, in_width. apply Z.mod_pos_bound. lia. Qed.

Lemma wrap_small w z : in_width w z -> wrap w z = z.
Proof. apply Z.mod_small. Qed.

Lemma wrap_wrap_add w a b : wrap w (wrap w a + b) = wrap w (a + b).
Proof. unfold wrap. apply Zplus_mod_idemp_l. Qed.

Lemma wrap_add_wrap w a b : wrap w (a + wrap w b) = wrap w (a + b).
Proof. unfold wrap. apply Zplus_mod_idemp_r. Qed.

Lemma sat_add_small w a b : a + b < 2 ^ w -> sat_add w a b = a + b.
Proof. unfold sat_add. lia. Qed.

(** Saturating addition of naturals is associative in the sense the counters need: adding
    in two steps or in one gives the same reading. *)
Lemma sat_add_assoc w a b c :
  0 <= c -> sat_add w (sat_add w a b) c = sat_add w a (b + c).
Proof. unfold sat_add. lia. Qed.

Lemma sat_add_range w a b : 0 <= w -> 0 <= a + b -> in_width w (sat_add w a b).
Proof. unfold sat_add, in_width. intros. assert (0 < 2 ^ w) by lia. lia. Qed.

Lemma sat_add_0_r w a : in_width w a -> sat_add w a 0 = a.
Proof. unfold in_width, sat_add. lia. Qed.

#[export] Hint Resolve wrap_range sat_add_range : rmr.
#[export] Hint Rewrite wrap_wrap_add wrap_add_wrap : rmr.

(** The last [n] elements. *)
Definition last_n {A} (n : nat) (l : list A) : list A := drop (length l - n) l.

Lemma last_n_snoc {A} n (l : list A) x : (1 <= n)%nat -> last_n n (last_n n l ++ [x]) = last_n n (l ++ [x]).
Proof.
  intros Hn. unfold last_n. rewrite !length_app, length_drop. simpl. rewrite !drop_app, !length_drop, drop_drop.
  f_equal; f_equal; lia.
Qed.

Lemma last_n_short {A} n (l : list A) : (length l <= n)%nat -> last_n n l = l.
Proof. intros Hl. unfold last_n. by replace (length l - n)%nat with 0%nat by lia. Qed.

(** ** Lemmas on slices *)

Section SliceLemmas.
Context {A : Type}.
Implicit Types (l : list A) (p : A -> bool) (key : A -> Z).

Lemma position_Some p l i :
  position p l = Some i ->
  exists x, l !! i = Some x /\ p x = true /\
    (forall j y, (j < i)%nat -> l !! j = Some y -> p y = false).
Proof.
  revert i; induction l as [|x l IH]; intros i; simpl; [done|].
  destruct (p x) eqn:E; [intros [= <-]; exists x; split_and!; auto; lia|].
  destruct (position p l) as [k|]; simpl; [intros [= <-]|done].
  destruct (IH k eq_refl) as (y & ? & ? & Hlt). exists y; split_and!; auto.
  intros [|j] z ?; simpl; [naive_solver|]. apply Hlt. lia.
Qed.

Lemma position_None p l : position p l = None <-> Forall (fun x => p x = false) l.
Proof.
  induction l as [|x l IH]; simpl; [by split|].
  rewrite Forall_cons, <- IH. destruct (p x); [by split; [|intros []]|].
  destruct (position p l); simpl; split; [done|by intros []|done|done].
Qed.

Lemma find_None p l : List.find p l = None <-> Forall (fun x => p x = false) l.
Proof.
  induction l as [|x l IH]; simpl; [by split|].
  rewrite Forall_cons, <- IH. destruct (p x); split; [done|by intros []|done|by intros []].
Qed.

Lemma find_Some p l x : List.find p l = Some x -> x ∈ l /\ p x = true.
Proof. intros H%find_some. by rewrite list_elem_of_In. Qed.

Lemma find_is_Some p l : is_Some (List.find p l) <-> exists x, x ∈ l /\ p x = true.
Proof.
  split.
  - intros [x H]. exists x. by apply find_Some.
  - intros (x & Hx & Hp). destruct (List.find p l) eqn:E; [eauto|].
    apply find_None in E. rewrite Forall_forall in E. specialize (E x Hx). congruence.
Qed.

Lemma existsb_exists' p l : existsb p l = true <-> exists x, x ∈ l /\ p x = true.
Proof. rewrite existsb_exists. setoid_rewrite list_elem_of_In. done. Qed.

Lemma length_update_first p f l : length (update_first p f l) = length l.
Proof. induction l as [|x l IH]; simpl; [done|]. destruct (p x); simpl; lia. Qed.

(** Updating the first match leaves any projection the update preserves unchanged. *)
Lemma update_first_map {B} p f (g : A -> B) l :
  (forall x, g (f x) = g x) -> map g (update_first p f l) = map g l.
Proof.
  intros Hg. induction l as [|x l IH]; simpl; [done|].
  destruct (p x); simpl; by rewrite ?Hg, ?IH.
Qed.

Lemma elem_of_update_first p f l x :
  x ∈ update_first p f l -> x ∈ l \/ exists y, y ∈ l /\ p y = true /\ x = f y.
Proof.
  induction l as [|y l IH]; simpl; [set_solver|]. destruct (p y) eqn:E; set_solver.
Qed.

(** Updating the first match splits the list around it. *)
Lemma update_first_split p f l x :
  List.find p l = Some x ->
  exists l1 l2, l = l1 ++ x :: l2 /\ update_first p f l = l1 ++ f x :: l2 /\
    Forall (fun y => p y = false) l1.
Proof.
  induction l as [|y l IH]; simpl; [done|]. destruct (p y) eqn:E.
  - intros [= <-]. by exists [], l.
  - intros (l1 & l2 & -> & -> & HF)%IH. exists (y :: l1), l2. auto.
Qed.

Lemma min_index_Some key l i :
  min_index key l = Some i ->
  exists x, l !! i = Some x /\
    (forall j y, l !! j = Some y -> key x <= key y) /\
    (forall j y, (j < i)%nat -> l !! j = Some y -> key x < key y).
Proof.
  revert i; induction l as [|x l IH]; intros i; simpl; [done|].
  destruct (min_index key l) as [k|] eqn:E.
  - destruct (IH k eq_refl) as (y & Hy & Hle & Hlt). rewrite Hy.
    destruct (Z.leb_spec (key x) (key y)); intros [= <-].
    + exists x. split_and!; [done| |lia]. intros [|j] z; simpl; [naive_solver lia|].
      intros Hz%Hle. lia.
    + exists y. split_and!; [done| |].
      * intros [|j] z; simpl; [naive_solver lia|]. apply Hle.
      * intros [|j] z; simpl; [naive_solver lia|]. intros ?. apply Hlt. lia.
  - intros [= <-]. destruct l as [|z l]; simpl in E; [|by repeat case_match].
    exists x. split_and!; [done| |lia]. intros [|j] y; simpl; [naive_solver lia|done].
Qed.

Lemma min_index_None key l : min_index key l = None <-> l = [].
Proof. split; [|by intros ->]. destruct l; [done|]; simpl; repeat case_match; done. Qed.

Lemma swap_remove_Permutation i l x :
  l !! i = Some x -> l ≡ₚ x :: swap_remove i l.
Proof.
  intros Hi. unfold swap_remove.
  destruct (last l) as [y|] eqn:El; [|by apply last_None in El; subst].
  apply last_Some in El as [l' ->]. rewrite length_app, Nat.add_sub, take_app_length.
  destruct (decide (i = length l')) as [->|Hne].
  - rewrite list_lookup_middle in Hi by done. injection Hi as <-.
    rewrite list_insert_ge by lia. by rewrite Permutation_app_comm.
  - assert (i < length l')%nat by (apply lookup_lt_Some in Hi; rewrite length_app in Hi; simpl in Hi; lia).
    rewrite lookup_app_l in Hi by done.
    rewrite (insert_take_drop l' i y) by done.
    rewrite <- (take_drop_middle l' i x Hi) at 1. solve_Permutation.
Qed.

Lemma length_swap_remove i l x :
  l !! i = Some x -> length (swap_remove i l) = (length l - 1)%nat.
Proof. intros H%swap_remove_Permutation%Permutation_length. simpl in H. lia. Qed.
End SliceLemmas.

Section ByteLemmas.
Context {A : Type}.
Implicit Types l : list A.

Lemma slice_Done l a b :
  (a <= b)%nat -> (b <= length l)%nat -> slice l a b = Done (take (b - a) (drop a l)).
Proof.
  intros. unfold slice. rewrite (proj2 (Nat.leb_le a b)), (proj2 (Nat.leb_le b (length l))) by done. done.
Qed.

Lemma buf_advance_Done n l : (n <= length l)%nat -> buf_advance n l = Done (drop n l).
Proof. intros. unfold buf_advance. by rewrite (proj2 (Nat.leb_le n (length l))). Qed.

Lemma buf_split_to_Done n l : (n <= length l)%nat -> buf_split_to n l = Done (take n l, drop n l).
Proof. intros. unfold buf_split_to. by rewrite (proj2 (Nat.leb_le n (length l))). Qed.
End ByteLemmas.

Lemma index_Done (l : list Z) i : (i < length l)%nat -> index l i = Done (byte_at l i).
Proof. intros [x Hx]%lookup_lt_is_Some. unfold index, byte_at. by rewrite Hx. Qed.

Lemma byte_at_app_l l k i : (i < length l)%nat -> byte_at (l ++ k) i = byte_at l i.
Proof. intros. unfold byte_at. by rewrite lookup_app_l. Qed.

Lemma byte_at_take n l i : (i < n)%nat -> byte_at (take n l) i = byte_at l i.
Proof. intros. unfold byte_at. by rewrite lookup_take_lt. Qed.

Lemma byte_at_u8 l i : Forall is_u8 l -> is_u8 (byte_at l i).
Proof.
  intros H. unfold byte_at. destruct (l !! i) as [x|] eqn:E; simpl; [|by unfold in_width].
  by eapply Forall_lookup_1 in H.
Qed.

Lemma byte_at_cons_S x l i : byte_at (x :: l) (S i) = byte_at l i.
Proof. done. Qed.

#[export] Hint Resolve byte_at_u8 : rmr.

(** ** The stable sort *)

Section SortByKeyProps.
Context {A : Type} (key : A -> Z).

Lemma insert_by_key_perm x l : insert_by_key key x l ≡ₚ x :: l.
Proof. induction l as [|y l IH]; simpl; [done|]. destruct (key y <=? key x); [|done]. rewrite IH. apply Permutation_swap. Qed.

Lemma sort_by_key_perm l : sort_by_key key l ≡ₚ l.
Proof.
  unfold sort_by_key. cut (forall acc, foldl (fun acc x => insert_by_key key x acc) acc l ≡ₚ acc ++ l); [intros Hc; apply (Hc [])|].
  induction l as [|x l IH]; intros acc; simpl; [by rewrite app_nil_r|]. rewrite IH, insert_by_key_perm.
  by rewrite <- Permutation_middle.
Qed.

Lemma insert_by_key_sorted x l :
  StronglySorted (fun a b => key a <= key b) l -> StronglySorted (fun a b => key a <= key b) (insert_by_key key x l).
Proof.
  induction 1 as [|y l Hs IH Hy]; simpl; [by repeat constructor|]. destruct (Z.leb_spec (key y) (key x)).
  - constructor; [done|]. rewrite insert_by_key_perm. by constructor.
  - constructor; [by constructor|]. constructor; [lia|]. eapply Forall_impl; [exact Hy|]. simpl. lia.
Qed.

Lemma sort_by_key_sorted l : StronglySorted (fun a b => key a <= key b) (sort_by_key key l).
Proof.
  unfold sort_by_key. cut (forall acc, StronglySorted (fun a b => key a <= key b) acc ->
    StronglySorted (fun a b => key a <= key b) (foldl (fun acc x => insert_by_key key x acc) acc l)); [intros Hc; apply Hc; constructor|].
  induction l as [|x l IH]; intros acc Ha; simpl; [done|]. by apply IH, insert_by_key_sorted.
Qed.

(** Stability: elements of one key keep their order. *)
Lemma insert_by_key_filter x l k :
  StronglySorted (fun a b => key a <= key b) l ->
  List.filter (fun y => key y =? k) (insert_by_key key x l) =
  List.filter (fun y => key y =? k) l ++ List.filter (fun y => key y =? k) [x].
Proof.
  induction 1 as [|y l Hs IH Hy]; [done|]. cbn [insert_by_key]. destruct (key y <=? key x) eqn:E.
  - cbn [List.filter]. rewrite IH. by destruct (key y =? k).
  - bool_hyps. cbn [List.filter]. destruct (key x =? k) eqn:Ex; [|by rewrite app_nil_r]. bool_hyps.
    assert (Hnone : List.filter (fun y => key y =? k) l = []).
    { clear -Hy E Ex. induction Hy as [|z l Hz Hy IH]; [done|]. cbn [List.filter]. rewrite IH.
      rewrite (proj2 (Z.eqb_neq _ _)); [done|lia]. }
    rewrite Hnone, (proj2 (Z.eqb_neq (key y) k)) by lia. done.
Qed.

Lemma sort_by_key_stable l k :
  List.filter (fun y => key y =? k) (sort_by_key key l) = List.filter (fun y => key y =? k) l.
Proof.
  induction l as [|x l IH] using rev_ind; [done|]. pose proof (sort_by_key_sorted l) as Hs.
  unfold sort_by_key in *. rewrite foldl_app, List.filter_app. cbn [foldl]. by rewrite insert_by_key_filter, IH.
Qed.
End SortByKeyProps.
