(* ===== verification/Crc.v ===== *)
(** * CRC-16-MCRF4XX, the MAVLink frame CRC ([src/src/mavlink/crc.rs])

    [crc16_update] is the nibble-shift update of the source.  It is shown equal to the
    bit-serial reference (reflected polynomial 0x8408), injective in the state and in the
    byte, and hence able to detect any corruption confined to one byte. *)

From S2P Require Import Prelude.
#[local] Open Scope Z_scope.

Definition CRC_INIT : Z := 0xFFFF.

(** [fn crc16_update(crc: &mut u16, byte: u8)]; [tmp << 4] is a [u8] shift and
    [tmp16 << 8], [tmp16 << 3] are [u16] shifts. *)
Definition crc16_update (crc byte : Z) : Z :=
  let tmp := Z.lxor byte (Z.land crc 0xFF) in
  let tmp := Z.lxor tmp (wrap 8 (Z.shiftl tmp 4)) in
  let tmp16 := tmp in
  Z.lxor (Z.lxor (Z.lxor (Z.shiftr crc 8) (wrap 16 (Z.shiftl tmp16 8)))
                 (wrap 16 (Z.shiftl tmp16 3)))
         (Z.shiftr tmp16 4).

(** The accumulator [Crc16(u16)]. *)
Definition Crc16_new : Z := CRC_INIT.
Definition Crc16_update (crc byte : Z) : Z := crc16_update crc byte.
Fixpoint Crc16_update_slice (crc : Z) (bytes : list Z) : Z :=
  match bytes with
  | [] => crc
  | byte :: rest => Crc16_update_slice (Crc16_update crc byte) rest
  end.
Definition Crc16_finalize (crc : Z) : Z := crc.

(** ** Reference: one bit of the reflected CRC register at a time *)

Definition crc_bit_step (c : Z) : Z :=
  if Z.testbit c 0 then Z.lxor (Z.shiftr c 1) 0x8408 else Z.shiftr c 1.

Definition crc_bitwise (crc byte : Z) : Z := Nat.iter 8 crc_bit_step (Z.lxor crc byte).

(** The contribution of the low byte of the register; [crc16_update] is
    [(crc >> 8) ^ crc_table (byte ^ (crc & 0xFF))]. *)
Definition crc_table (t : Z) : Z :=
  let u := Z.lxor t (wrap 8 (Z.shiftl t 4)) in
  Z.lxor (Z.lxor (wrap 16 (Z.shiftl u 8)) (wrap 16 (Z.shiftl u 3))) (Z.shiftr u 4).

(** ** Bit-level lemmas *)

Lemma crc16_update_table crc byte :
  crc16_update crc byte = Z.lxor (Z.shiftr crc 8) (crc_table (Z.lxor byte (Z.land crc 0xFF))).
Proof. unfold crc16_update, crc_table. by rewrite !Z.lxor_assoc. Qed.

Lemma crc_bit_step_lxor a b :
  crc_bit_step (Z.lxor a b) = Z.lxor (crc_bit_step a) (crc_bit_step b).
Proof.
  unfold crc_bit_step. rewrite Z.lxor_spec, Z.shiftr_lxor.
  destruct (Z.testbit a 0), (Z.testbit b 0); simpl;
    apply Z.bits_inj'; intros n Hn; rewrite !Z.lxor_spec; by repeat destruct (Z.testbit _ _).
Qed.

Lemma crc_bit_steps_lxor n a b :
  Nat.iter n crc_bit_step (Z.lxor a b) =
  Z.lxor (Nat.iter n crc_bit_step a) (Nat.iter n crc_bit_step b).
Proof. induction n as [|n IH]; [done|]. by rewrite !Nat.iter_succ, IH, crc_bit_step_lxor. Qed.

Lemma crc_bit_step_even a : crc_bit_step (Z.shiftl a 1) = a.
Proof.
  unfold crc_bit_step. rewrite Z.shiftl_spec_low by lia.
  by rewrite Z.shiftr_shiftl_l, Z.shiftl_0_r by lia.
Qed.

(** Eight steps shift out a zero low byte. *)
Lemma crc_bit_steps_shift n a : Nat.iter n crc_bit_step (Z.shiftl a (Z.of_nat n)) = a.
Proof.
  revert a; induction n as [|n IH]; intros a; [apply Z.shiftl_0_r|].
  rewrite Nat.iter_succ_r.
  replace (Z.of_nat (S n)) with (Z.of_nat n + 1) by lia.
  rewrite <- Z.shiftl_shiftl by lia. by rewrite crc_bit_step_even, IH.
Qed.

Lemma byte_split x : x = Z.lxor (Z.shiftl (Z.shiftr x 8) 8) (Z.land x 0xFF).
Proof.
  change 0xFF with (Z.ones 8). apply Z.bits_inj'. intros n Hn.
  rewrite Z.lxor_spec, Z.land_spec, Z.testbit_ones by lia.
  destruct (Z.ltb_spec n 8).
  - rewrite Z.shiftl_spec_low by lia.
    by destruct (Z.leb_spec 0 n); [rewrite andb_true_r, xorb_false_l|lia].
  - rewrite Z.shiftl_spec, Z.shiftr_spec by lia.
    replace (n - 8 + 8) with n by lia. by rewrite !andb_false_r, xorb_false_r.
Qed.

Lemma land_ff_range x : is_u8 (Z.land x 0xFF).
Proof. change 0xFF with (Z.ones 8). rewrite Z.land_ones by lia. by apply wrap_range. Qed.

Lemma lxor_width w a b : 0 <= w -> in_width w a -> in_width w b -> in_width w (Z.lxor a b).
Proof.
  intros Hw Ha Hb. enough (Z.lxor a b = wrap w (Z.lxor a b)) as -> by by apply wrap_range.
  rewrite <- (wrap_small w a Ha), <- (wrap_small w b Hb). unfold wrap.
  apply Z.bits_inj'. intros n Hn.
  destruct (Z.ltb_spec n w); [|by rewrite Z.lxor_spec, !Z.mod_pow2_bits_high by lia].
  by rewrite Z.lxor_spec, !Z.mod_pow2_bits_low, Z.lxor_spec, !Z.mod_pow2_bits_low by lia.
Qed.

(** A statement over all bytes is decided by evaluating it on the 256 of them. *)
Lemma forall_u8 (P : Z -> bool) :
  forallb P (seqZ 0 256) = true -> forall z, is_u8 z -> P z = true.
Proof.
  rewrite forallb_forall. intros H z Hz. apply H.
  apply list_elem_of_In, elem_of_seqZ. unfold in_width in Hz. lia.
Qed.

Lemma crc_table_bitwise t : is_u8 t -> crc_table t = Nat.iter 8 crc_bit_step t.
Proof.
  intros Ht. apply Z.eqb_eq.
  apply (forall_u8 (fun t => crc_table t =? Nat.iter 8 crc_bit_step t)); [vm_compute; reflexivity|done].
Qed.

Lemma crc_table_range t : is_u8 t -> is_u16 (crc_table t).
Proof.
  intros Ht. enough (H : (0 <=? crc_table t) && (crc_table t <? 2 ^ 16) = true)
    by (bool_hyps; unfold in_width; lia).
  apply (forall_u8 (fun t => (0 <=? crc_table t) && (crc_table t <? 2 ^ 16))); [vm_compute; reflexivity|done].
Qed.

(** The high byte of the table entry determines the index. *)
Lemma crc_table_high_inj t u :
  is_u8 t -> is_u8 u -> Z.shiftr (crc_table t) 8 = Z.shiftr (crc_table u) 8 -> t = u.
Proof.
  intros Ht Hu Heq.
  set (P t := forallb (fun u => implb (Z.shiftr (crc_table t) 8 =? Z.shiftr (crc_table u) 8) (t =? u)) (seqZ 0 256)).
  assert (HP : P t = true) by (apply forall_u8; [vm_compute; reflexivity|exact Ht]).
  assert (HQ := forall_u8 _ HP u Hu). cbv beta in HQ.
  by rewrite Heq, Z.eqb_refl in HQ; apply Z.eqb_eq in HQ.
Qed.

(** ** The update is a bijection of the register for every byte *)

Lemma crc16_update_bitwise crc byte : is_u8 byte -> crc16_update crc byte = crc_bitwise crc byte.
Proof.
  intros Hb. rewrite crc16_update_table, crc_table_bitwise
    by (apply lxor_width; [lia|done|apply land_ff_range]).
  unfold crc_bitwise. rewrite (byte_split crc) at 3.
  rewrite !crc_bit_steps_lxor, Z.lxor_assoc.
  rewrite (crc_bit_steps_shift 8 (Z.shiftr crc 8) : Nat.iter 8 crc_bit_step (Z.shiftl (Z.shiftr crc 8) 8) = _).
  f_equal. apply Z.lxor_comm.
Qed.

Lemma crc16_update_range crc byte : is_u16 crc -> is_u8 byte -> is_u16 (crc16_update crc byte).
Proof.
  intros Hc Hb. rewrite crc16_update_table. apply lxor_width; [lia| |].
  - rewrite Z.shiftr_div_pow2 by lia. unfold in_width in *. split; [apply Z.div_pos; lia|].
    apply Z.div_lt_upper_bound; lia.
  - apply crc_table_range, lxor_width; [lia|done|apply land_ff_range].
Qed.

Lemma shiftr8_u16 c : is_u16 c -> is_u8 (Z.shiftr c 8).
Proof.
  unfold in_width. intros. rewrite Z.shiftr_div_pow2 by lia.
  split; [apply Z.div_pos; lia|apply Z.div_lt_upper_bound; lia].
Qed.

Lemma lxor_cancel_l a b c : Z.lxor a b = Z.lxor a c -> b = c.
Proof. intros H. by rewrite <- (Z.lxor_0_l b), <- (Z.lxor_0_l c), <- (Z.lxor_nilpotent a), !Z.lxor_assoc, H. Qed.

Lemma crc16_update_inj c c' b b' :
  is_u16 c -> is_u16 c' -> is_u8 b -> is_u8 b' ->
  crc16_update c b = crc16_update c' b' ->
  Z.shiftr c 8 = Z.shiftr c' 8 /\ Z.lxor b (Z.land c 0xFF) = Z.lxor b' (Z.land c' 0xFF).
Proof.
  intros Hc Hc' Hb Hb'. rewrite !crc16_update_table. intros Heq.
  assert (Ht : is_u8 (Z.lxor b (Z.land c 255))) by (apply lxor_width; [lia|done|apply land_ff_range]).
  assert (Ht' : is_u8 (Z.lxor b' (Z.land c' 255))) by (apply lxor_width; [lia|done|apply land_ff_range]).
  assert (H8 : forall d, is_u16 d -> Z.shiftr (Z.shiftr d 8) 8 = 0).
  { intros d Hd%shiftr8_u16. rewrite Z.shiftr_div_pow2 by lia. by apply Z.div_small. }
  assert (Hidx : Z.lxor b (Z.land c 255) = Z.lxor b' (Z.land c' 255)).
  { apply crc_table_high_inj; [done..|].
    apply (f_equal (fun z => Z.shiftr z 8)) in Heq.
    by rewrite !Z.shiftr_lxor, !H8, !Z.lxor_0_l in Heq. }
  split; [|done]. rewrite Hidx, !(Z.lxor_comm (Z.shiftr _ 8)) in Heq. by apply lxor_cancel_l in Heq.
Qed.

Lemma crc16_update_inj_state c c' b :
  is_u16 c -> is_u16 c' -> is_u8 b -> crc16_update c b = crc16_update c' b -> c = c'.
Proof.
  intros Hc Hc' Hb Heq. destruct (crc16_update_inj c c' b b) as [Hhi Hlo%lxor_cancel_l]; [done..|].
  by rewrite (byte_split c), (byte_split c'), Hhi, Hlo.
Qed.

Lemma crc16_update_inj_byte c b b' :
  is_u16 c -> is_u8 b -> is_u8 b' -> crc16_update c b = crc16_update c b' -> b = b'.
Proof.
  intros Hc Hb Hb' Heq. destruct (crc16_update_inj c c b b') as [_ Hlo]; [done..|].
  rewrite !(Z.lxor_comm _ (Z.land c 255)) in Hlo. by apply lxor_cancel_l in Hlo.
Qed.

(** ** The accumulator over slices *)

Lemma Crc16_update_slice_app crc l1 l2 :
  Crc16_update_slice crc (l1 ++ l2) = Crc16_update_slice (Crc16_update_slice crc l1) l2.
Proof. revert crc; induction l1; intros; simpl; auto. Qed.

Lemma Crc16_update_slice_range crc l :
  is_u16 crc -> Forall is_u8 l -> is_u16 (Crc16_update_slice crc l).
Proof.
  intros Hc Hl; revert crc Hc; induction Hl as [|b l Hb Hl IH]; intros; simpl; [done|].
  by apply IH, crc16_update_range.
Qed.

Lemma Crc16_update_slice_inj c c' l :
  is_u16 c -> is_u16 c' -> Forall is_u8 l ->
  Crc16_update_slice c l = Crc16_update_slice c' l -> c = c'.
Proof.
  intros Hc Hc' Hl; revert c c' Hc Hc'; induction Hl as [|b l Hb Hl IH]; intros c c' Hc Hc'; simpl; [done|].
  intros Heq%IH; [|by apply crc16_update_range..]. by apply crc16_update_inj_state in Heq.
Qed.

Lemma CRC_INIT_range : is_u16 CRC_INIT.
Proof. by unfold CRC_INIT, in_width. Qed.

#[export] Hint Resolve crc16_update_range Crc16_update_slice_range CRC_INIT_range : rmr.

Lemma Crc16_update_slice_bitwise crc bytes :
  Forall is_u8 bytes -> Crc16_update_slice crc bytes = fold_left crc_bitwise bytes crc.
Proof.
  intros Hl; revert crc; induction Hl as [|b l Hb Hl IH]; intros crc; simpl; [done|].
  unfold Crc16_update. by rewrite crc16_update_bitwise, IH.
Qed.

(** C40. The accumulator, fed a message in two slices, finalizes to the bit-serial
    CRC-16-MCRF4XX of the whole message (eight steps of the reflected polynomial 0x8408 per
    byte, from 0xFFFF, no final xor), and the value is a [u16]. *)
Theorem crc_streaming_reference l1 l2 :
  Forall is_u8 (l1 ++ l2) ->
  let crc := Crc16_finalize (Crc16_update_slice (Crc16_update_slice Crc16_new l1) l2) in
  crc = fold_left crc_bitwise (l1 ++ l2) CRC_INIT /\ is_u16 crc.
Proof.
  intros Hl. unfold Crc16_finalize, Crc16_new. rewrite <- Crc16_update_slice_app.
  split; [by apply Crc16_update_slice_bitwise|auto with rmr].
Qed.

Lemma crc_streaming_reference_witness :
  Crc16_finalize (Crc16_update_slice (Crc16_update_slice Crc16_new [49; 50; 51]) [52; 53])
  = fold_left crc_bitwise [49; 50; 51; 52; 53] CRC_INIT.
Proof.
  apply (crc_streaming_reference [49; 50; 51] [52; 53]).
  repeat constructor; done.
Defined.

(** Two byte sequences of equal length that differ in exactly one byte never have the
    same CRC, whatever the register started at: a corruption confined to one byte is
    always detected. *)
Lemma crc_single_byte_ne crc l1 b b' l2 :
  is_u16 crc -> Forall is_u8 (l1 ++ b :: l2) -> is_u8 b' -> b <> b' ->
  Crc16_update_slice crc (l1 ++ b :: l2) <> Crc16_update_slice crc (l1 ++ b' :: l2).
Proof.
  rewrite Forall_app, Forall_cons. intros Hc (H1 & Hb & H2) Hb' Hne Heq.
  rewrite !Crc16_update_slice_app in Heq. simpl in Heq.
  apply Crc16_update_slice_inj in Heq; eauto with rmr. by apply crc16_update_inj_byte in Heq; eauto with rmr.
Qed.

(** The published check value of the source's tests. *)
Example crc_check_value :
  Crc16_finalize (Crc16_update_slice Crc16_new [49; 50; 51; 52; 53; 54; 55; 56; 57]) = 0x6F91.
Proof. reflexivity. Qed.
