(* ===== verification/Frame.v ===== *)
(** * MAVLink wire-format types ([src/src/mavlink/frame.rs]) *)

From S2P Require Import Prelude.
#[local] Open Scope Z_scope.

(** [enum Version] *)
Inductive Version := Version_V1 | Version_V2.

Definition STX_V1 : Z := 0xFE.
Definition STX_V2 : Z := 0xFD.
Definition V2_IFLAG_SIGNED : Z := 0x01.
Definition V2_SIGNATURE_LEN : nat := 13.
Definition V1_HEADER_LEN : nat := 6.
Definition V2_HEADER_LEN : nat := 10.
Definition CRC_LEN : nat := 2.

(** [enum Stx]: the start byte the framer is aligned on. *)
Inductive Stx := Stx_V1 | Stx_V2.

Definition Stx_from_byte (byte : Z) : option Stx :=
  if byte =? STX_V1 then Some Stx_V1
  else if byte =? STX_V2 then Some Stx_V2
  else None.

Definition Stx_header_len (stx : Stx) : nat :=
  match stx with Stx_V1 => V1_HEADER_LEN | Stx_V2 => V2_HEADER_LEN end.

(** [struct NodeId]: the [(sysid, compid)] pair. *)
Record NodeId := NodeId_new { sys : Z; comp : Z }.

#[global] Instance Version_eq_dec : EqDecision Version.
Proof. solve_decision. Defined.
#[global] Instance Stx_eq_dec : EqDecision Stx.
Proof. solve_decision. Defined.
#[global] Instance NodeId_eq_dec : EqDecision NodeId.
Proof. solve_decision. Defined.

(** [derive(PartialEq)] on [NodeId] as the boolean the code tests. *)
Definition NodeId_eqb (a b : NodeId) : bool := (sys a =? sys b) && (comp a =? comp b).

(** [struct ParsedHeader] *)
Record ParsedHeader := {
  version : Version;
  source : NodeId;
  msgid : Z;
  seq : Z;
  payload_len : Z;
  target_system : option Z;
  target_component : option Z;
}.

Definition ParsedHeader_payload_start (h : ParsedHeader) : nat :=
  match version h with Version_V1 => V1_HEADER_LEN | Version_V2 => V2_HEADER_LEN end.

(** Struct update syntax [ParsedHeader { target_system, target_component, ..header }]. *)
Definition with_targets (h : ParsedHeader) (ts tc : option Z) : ParsedHeader :=
  {| version := version h; source := source h; msgid := msgid h; seq := seq h;
     payload_len := payload_len h; target_system := ts; target_component := tc |}.

Definition Stx_version (stx : Stx) : Version :=
  match stx with Stx_V1 => Version_V1 | Stx_V2 => Version_V2 end.

Lemma NodeId_eqb_eq a b : NodeId_eqb a b = true <-> a = b.
Proof.
  destruct a, b. unfold NodeId_eqb; simpl. rewrite andb_true_iff, !Z.eqb_eq. naive_solver.
Qed.

Lemma NodeId_eqb_neq a b : NodeId_eqb a b = false <-> a <> b.
Proof. rewrite <- not_true_iff_false. by rewrite NodeId_eqb_eq. Qed.

Lemma NodeId_eqb_refl a : NodeId_eqb a a = true.
Proof. by apply NodeId_eqb_eq. Qed.

Lemma Stx_from_byte_Some b stx :
  Stx_from_byte b = Some stx <-> b = match stx with Stx_V1 => STX_V1 | Stx_V2 => STX_V2 end.
Proof.
  unfold Stx_from_byte, STX_V1, STX_V2.
  destruct (Z.eqb_spec b 254), (Z.eqb_spec b 253); destruct stx; naive_solver lia.
Qed.
