(* ===== verification/MsgTable.v ===== *)
(** * The msgid table and its lookup ([src/src/mavlink/msgid_table.rs])

    The table [SORTED] is generated by the build script; here it is the parameter [MsgTable]
    and [MsgTableOk] is what the lookup relies on: strictly ascending ids, and fields that
    fit their declared widths.  [BuildTable] shows that the build script's pipeline produces
    tables with these laws. *)

From Stdlib Require Import Sorted.
From S2P Require Import Prelude.
#[local] Open Scope Z_scope.

(** [struct MsgEntry] *)
Record MsgEntry := {
  crc_extra : Z;
  target_sys_offset : option Z;
  target_comp_offset : option Z;
}.

(** [const SORTED: &[(u32, MsgEntry)]] *)
Class MsgTable := SORTED : list (Z * MsgEntry).

(** [slice::binary_search_by_key(&key, |(id, _)| *id).ok()]: the loop of the standard
    library keeps the last position whose id is not greater than the key. *)
Fixpoint binary_search_loop (l : list (Z * MsgEntry)) (key : Z) (fuel base size : nat) : nat :=
  match fuel with
  | O => base
  | S fuel' =>
      if (size <=? 1)%nat then base
      else
        let half := (size / 2)%nat in
        let mid := (base + half)%nat in
        let base' := match l !! mid with
                     | Some (id, _) => if key <? id then base else mid
                     | None => base
                     end in
        binary_search_loop l key fuel' base' (size - half)
  end.

Definition binary_search_by_key (l : list (Z * MsgEntry)) (key : Z) : option nat :=
  match length l with
  | O => None
  | S _ =>
      let base := binary_search_loop l key (length l) 0 (length l) in
      match l !! base with
      | Some (id, _) => if id =? key then Some base else None
      | None => None
      end
  end.

(** [fn lookup(msgid: u32) -> Option<&'static MsgEntry>] *)
Definition lookup_msg `{MsgTable} (msgid : Z) : option MsgEntry :=
  match binary_search_by_key SORTED msgid with
  | Some index => snd <$> SORTED !! index
  | None => None
  end.

Definition opt_width (w : Z) (o : option Z) : Prop :=
  match o with Some z => in_width w z | None => True end.

Definition entry_ok (row : Z * MsgEntry) : Prop :=
  is_u32 row.1 /\ is_u8 (crc_extra row.2) /\
  opt_width 8 (target_sys_offset row.2) /\ opt_width 8 (target_comp_offset row.2).

Class MsgTableOk `{MsgTable} : Prop := {
  SORTED_ascending : StronglySorted Z.lt (map fst SORTED);
  SORTED_entries : Forall entry_ok SORTED;
}.

(** ** Correctness of the binary search *)

Section BinarySearch.
Context (l : list (Z * MsgEntry)) (key : Z).
Hypothesis Hsorted : StronglySorted Z.lt (map fst l).

Lemma sorted_lookup i j a b :
  (i < j)%nat -> l !! i = Some a -> l !! j = Some b -> a.1 < b.1.
Proof.
  clear key. revert i j. induction l as [|x l' IH]; intros i j Hij Hi Hj; [done|].
  apply StronglySorted_inv in Hsorted as [Hs Hall].
  destruct i as [|i], j as [|j]; simplify_eq/=; try lia.
  - rewrite Forall_forall in Hall. apply Hall.
    apply list_elem_of_In, in_map, list_elem_of_In. by eapply list_elem_of_lookup_2.
  - eapply (IH Hs i j); eauto. lia.
Qed.

(** Invariant of the loop: the key, if present, is inside [base, base + size). *)
Definition in_window (base size : nat) : Prop :=
  forall i e, l !! i = Some (key, e) -> (base <= i < base + size)%nat.

Lemma binary_search_loop_spec fuel base size :
  (1 <= size <= fuel)%nat -> (base + size <= length l)%nat -> in_window base size ->
  let b := binary_search_loop l key fuel base size in
  (b < length l)%nat /\ in_window b 1.
Proof.
  revert base size. induction fuel as [|fuel IH]; intros base size Hf Hl Hw; [lia|]; cbn [binary_search_loop].
  destruct (Nat.leb_spec size 1).
  - split; [lia|]. by replace 1%nat with size by lia.
  - assert (Hh : (1 <= size / 2 < size)%nat).
    { split; [apply (Nat.div_le_lower_bound size 2 1); lia|apply Nat.div_lt; lia]. }
    assert (H2 : (2 * (size / 2) <= size)%nat) by (apply Nat.Div0.mul_div_le).
    destruct (lookup_lt_is_Some_2 l (base + size / 2)) as [[id e] Hmid]; [lia|].
    rewrite Hmid. destruct (Z.ltb_spec key id) as [Hlt|Hge].
    + apply IH; [lia|lia|]. intros i e' Hi. specialize (Hw i e' Hi).
      destruct (decide (i < base + size / 2)%nat); [lia|exfalso].
      destruct (decide (i = base + size / 2)%nat) as [->|]; [naive_solver lia|].
      assert ((id, e).1 < (key, e').1) by (eapply (sorted_lookup (base + size / 2) i); eauto; lia).
      simpl in *; lia.
    + apply IH; [lia|lia|]. intros i e' Hi. specialize (Hw i e' Hi).
      destruct (decide (base + size / 2 <= i)%nat); [lia|exfalso].
      assert ((key, e').1 < (id, e).1) by (eapply (sorted_lookup i (base + size / 2)); eauto; lia).
      simpl in *; lia.
Qed.

Lemma binary_search_Some i :
  binary_search_by_key l key = Some i <-> exists e, l !! i = Some (key, e).
Proof.
  unfold binary_search_by_key. destruct (length l) as [|n] eqn:Hlen.
  { apply nil_length_inv in Hlen as ->. split; [done|intros [e [=]]]. }
  destruct (binary_search_loop_spec (S n) 0 (S n)) as [Hb Hw]; [lia|lia| |].
  { intros j e Hj%lookup_lt_Some. lia. }
  set (b := binary_search_loop l key (S n) 0 (S n)) in *.
  destruct (lookup_lt_is_Some_2 l b Hb) as [[id e] He]. rewrite He.
  destruct (Z.eqb_spec id key) as [->|Hne]; split.
  - intros [= <-]. eauto.
  - intros [e' He']. f_equal. specialize (Hw i e' He'). lia.
  - done.
  - intros [e' He']. specialize (Hw i e' He'). assert (i = b) as -> by lia. naive_solver.
Qed.
End BinarySearch.

Lemma lookup_msg_elem `{MsgTableOk} m e : lookup_msg m = Some e <-> (m, e) ∈ SORTED.
Proof.
  unfold lookup_msg. rewrite list_elem_of_lookup. destruct (binary_search_by_key SORTED m) as [i|] eqn:E.
  - apply (binary_search_Some _ _ SORTED_ascending) in E as [e' Hi]. rewrite Hi; simpl.
    split; [intros [= <-]; eauto|]. intros [j Hj].
    assert (Hb : binary_search_by_key SORTED m = Some j)
      by (apply (binary_search_Some _ _ SORTED_ascending); eauto).
    assert (Hb' : binary_search_by_key SORTED m = Some i)
      by (apply (binary_search_Some _ _ SORTED_ascending); eauto).
    naive_solver.
  - split; [done|]. intros [j Hj].
    assert (Hb : binary_search_by_key SORTED m = Some j)
      by (apply (binary_search_Some _ _ SORTED_ascending); eauto).
    congruence.
Qed.

(** The binary search is exact on an ascending table: it returns an entry if and only if
    the table holds that entry under that id, and nothing if and only if no row has the id. *)
Theorem lookup_msg_exact `{MsgTableOk} m :
  (forall e, lookup_msg m = Some e <-> (m, e) ∈ SORTED) /\
  (lookup_msg m = None <-> m ∉ map fst SORTED).
Proof.
  split; [apply lookup_msg_elem|]. rewrite list_elem_of_fmap. split.
  - intros Hn ([m' e] & -> & Hin). apply lookup_msg_elem in Hin. simpl in *. congruence.
  - intros Hn. destruct (lookup_msg m) as [e|] eqn:E; [|done].
    destruct Hn. exists (m, e). split; [done|]. by apply lookup_msg_elem.
Qed.

(** A three-row table, for the examples. *)
Module SampleTable.
Definition entry (c : Z) (ts tc : option Z) : MsgEntry :=
  {| crc_extra := c; target_sys_offset := ts; target_comp_offset := tc |}.
Definition rows : list (Z * MsgEntry) :=
  [(0, entry 50 None None); (4, entry 237 (Some 12) (Some 13)); (76, entry 152 (Some 30) (Some 31))].
#[export] Instance sample : MsgTable := rows.
#[export] Instance sample_ok : MsgTableOk.
Proof.
  split; [repeat constructor; done|]. repeat constructor; simpl; done.
Qed.
End SampleTable.

Lemma lookup_msg_exact_witness :
  lookup_msg (H := SampleTable.sample) 4 = Some (SampleTable.entry 237 (Some 12) (Some 13)).
Proof.
  apply (proj1 (@lookup_msg_exact _ SampleTable.sample_ok 4)). vm_compute. repeat constructor.
Defined.
