(* ===== verification/Framer.v ===== *)
(** * The MAVLink framer ([src/src/mavlink/framer.rs])

    The accumulator buffer is a list of bytes ([bytes::BytesMut] seen through its contents);
    every index, slice, [advance] and [split_to] of the source is the panicking operation of
    the prelude, so that "never panics" is a theorem and not a modelling choice. *)

From S2P Require Import Prelude Crc Frame MsgTable.
#[local] Open Scope Z_scope.

(** [struct Framer] *)
Record Framer := {
  buf : list Z;
  resync_bytes : Z;
  crc_errors : Z;
}.

Definition Framer_new : Framer := {| buf := []; resync_bytes := 0; crc_errors := 0 |}.

(** [framer.buffer_mut().extend_from_slice(data)] / [read_buf(framer.buffer_mut())] *)
Definition buffer_extend (f : Framer) (data : list Z) : Framer :=
  {| buf := buf f ++ data; resync_bytes := resync_bytes f; crc_errors := crc_errors f |}.

Definition set_buf (f : Framer) (b : list Z) : Framer :=
  {| buf := b; resync_bytes := resync_bytes f; crc_errors := crc_errors f |}.

(** [fn add_resync(&mut self, count: u64)] *)
Definition add_resync (f : Framer) (count : Z) : Framer :=
  {| buf := buf f; resync_bytes := sat_add 64 (resync_bytes f) count; crc_errors := crc_errors f |}.

Definition add_crc_error (f : Framer) : Framer :=
  {| buf := buf f; resync_bytes := resync_bytes f; crc_errors := sat_add 64 (crc_errors f) 1 |}.

(** [fn discard_byte(&mut self)] *)
Definition discard_byte (f : Framer) : outcome Framer :=
  let f := add_resync f 1 in
  let! b := buf_advance 1 (buf f) in
  Done (set_buf f b).

(** [iter().enumerate().find_map(|(index, &byte)| Stx::from_byte(byte).map(..))] *)
Fixpoint find_stx (l : list Z) : option (nat * Stx) :=
  match l with
  | [] => None
  | byte :: l' =>
      match Stx_from_byte byte with
      | Some stx => Some (0%nat, stx)
      | None => match find_stx l' with Some (i, stx) => Some (S i, stx) | None => None end
      end
  end.

(** [fn align_to_stx(&mut self) -> Option<Stx>] *)
Definition align_to_stx (f : Framer) : outcome (option Stx * Framer) :=
  match find_stx (buf f) with
  | Some (pos, stx) =>
      if (0 <? pos)%nat then
        let f := add_resync f (Z.of_nat pos) in
        let! b := buf_advance pos (buf f) in
        Done (Some stx, set_buf f b)
      else Done (Some stx, f)
  | None =>
      let cleared := length (buf f) in
      let f := add_resync f (Z.of_nat cleared) in
      Done (None, set_buf f [])
  end.

(** [enum FrameLen] *)
Inductive FrameLen := Ready (n : nat) | UnknownIncompatFlag.

(** [fn decide_frame_len(&self, stx: Stx) -> FrameLen] *)
Definition decide_frame_len (f : Framer) (stx : Stx) : outcome FrameLen :=
  let! payload_len := index (buf f) 1 in
  let payload_len := Z.to_nat payload_len in
  match stx with
  | Stx_V1 => Done (Ready (V1_HEADER_LEN + payload_len + CRC_LEN))
  | Stx_V2 =>
      let! iflags := index (buf f) 2 in
      if negb (Z.land iflags (wrap 8 (Z.lnot V2_IFLAG_SIGNED)) =? 0) then Done UnknownIncompatFlag
      else
        let signed_extra :=
          if negb (Z.land iflags V2_IFLAG_SIGNED =? 0) then V2_SIGNATURE_LEN else 0%nat in
        Done (Ready (V2_HEADER_LEN + payload_len + CRC_LEN + signed_extra))
  end.

(** [u32::from_le_bytes([a, b, c, 0])] *)
Definition le_u24 (a b c : Z) : Z := a + b * 256 + c * 65536.
(** [u16::from_le_bytes([a, b])] *)
Definition le_u16 (a b : Z) : Z := a + b * 256.

(** [fn parse_header(frame: &[u8], stx: Stx) -> ParsedHeader] *)
Definition parse_header (frame : list Z) (stx : Stx) : outcome ParsedHeader :=
  match stx with
  | Stx_V1 =>
      let! b1 := index frame 1 in
      let! b2 := index frame 2 in
      let! b3 := index frame 3 in
      let! b4 := index frame 4 in
      let! b5 := index frame 5 in
      Done {| version := Version_V1; payload_len := b1; seq := b2; source := NodeId_new b3 b4;
              msgid := b5; target_system := None; target_component := None |}
  | Stx_V2 =>
      let! b1 := index frame 1 in
      let! b4 := index frame 4 in
      let! b5 := index frame 5 in
      let! b6 := index frame 6 in
      let! b7 := index frame 7 in
      let! b8 := index frame 8 in
      let! b9 := index frame 9 in
      Done {| version := Version_V2; payload_len := b1; seq := b4; source := NodeId_new b5 b6;
              msgid := le_u24 b7 b8 b9; target_system := None; target_component := None |}
  end.

(** [fn validate_crc(frame: &[u8], header: &ParsedHeader, crc_extra: u8) -> bool] *)
Definition validate_crc (frame : list Z) (header : ParsedHeader) (crc_extra : Z) : outcome bool :=
  let header_len := ParsedHeader_payload_start header in
  let payload_end := (header_len + Z.to_nat (payload_len header))%nat in
  let! covered := slice frame 1 payload_end in
  let crc := Crc16_update_slice Crc16_new covered in
  let crc := Crc16_update crc crc_extra in
  let! lo := index frame payload_end in
  let! hi := index frame (payload_end + 1) in
  let expected := le_u16 lo hi in
  Done (Crc16_finalize crc =? expected).

(** The [read_at] closure of [extract_targets]. *)
Definition read_at (frame : list Z) (header : ParsedHeader) (off : Z) : outcome (option Z) :=
  let payload_start := ParsedHeader_payload_start header in
  let payload_len := Z.to_nat (payload_len header) in
  let off := Z.to_nat off in
  if (off <? payload_len)%nat then
    let! b := index frame (payload_start + off) in Done (Some b)
  else Done None.

(** [offset.and_then(read_at)] *)
Definition and_then_read (frame : list Z) (header : ParsedHeader) (off : option Z)
  : outcome (option Z) :=
  match off with Some o => read_at frame header o | None => Done None end.

(** [fn extract_targets(frame, header, entry) -> (Option<u8>, Option<u8>)] *)
Definition extract_targets (frame : list Z) (header : ParsedHeader) (entry : option MsgEntry)
  : outcome (option Z * option Z) :=
  match entry with
  | None => Done (None, None)
  | Some entry =>
      let! ts := and_then_read frame header (target_sys_offset entry) in
      let! tc := and_then_read frame header (target_comp_offset entry) in
      Done (ts, tc)
  end.

Section WithTable.
Context `{MsgTable}.

(** [fn try_validate_and_emit(&mut self, stx, frame_len)] *)
Definition try_validate_and_emit (f : Framer) (stx : Stx) (frame_len : nat)
  : outcome (option (ParsedHeader * list Z) * Framer) :=
  let! frame := slice (buf f) 0 frame_len in
  let! header := parse_header frame stx in
  let entry := lookup_msg (msgid header) in
  let! crc_ok :=
    match entry with
    | Some entry => validate_crc frame header (crc_extra entry)
    | None => Done true
    end in
  if negb crc_ok then
    let f := add_crc_error f in
    let! f := discard_byte f in
    Done (None, f)
  else
    let! (ts, tc) := extract_targets frame header entry in
    let full_header := with_targets header ts tc in
    let! (frame, rest) := buf_split_to frame_len (buf f) in
    Done (Some (full_header, frame), set_buf f rest).

(** One iteration of the loop of [try_next_frame]: [Some r] is [return r], [None] is
    [continue]. *)
Definition loop_body (f : Framer) : outcome (option (option (ParsedHeader * list Z)) * Framer) :=
  let! (stx, f) := align_to_stx f in
  match stx with
  | None => Done (Some None, f)
  | Some stx =>
      if (length (buf f) <? Stx_header_len stx)%nat then Done (Some None, f)
      else
        let! decision := decide_frame_len f stx in
        match decision with
        | UnknownIncompatFlag =>
            let! _ := index (buf f) 2 in
            let! f := discard_byte f in
            Done (None, f)
        | Ready frame_len =>
            if (length (buf f) <? frame_len)%nat then Done (Some None, f)
            else
              let! (emitted, f) := try_validate_and_emit f stx frame_len in
              match emitted with
              | Some frame => Done (Some (Some frame), f)
              | None => Done (None, f)
              end
        end
  end.

Fixpoint try_next_frame_loop (fuel : nat) (f : Framer)
  : outcome (option (ParsedHeader * list Z) * Framer) :=
  match fuel with
  | O => OutOfFuel
  | S fuel' =>
      let! (ret, f) := loop_body f in
      match ret with
      | Some r => Done (r, f)
      | None => try_next_frame_loop fuel' f
      end
  end.

(** [fn try_next_frame(&mut self) -> Option<(ParsedHeader, Bytes)>]: each iteration that
    continues discards at least one byte, so one iteration per byte and a last one are
    enough. *)
Definition try_next_frame (f : Framer) : outcome (option (ParsedHeader * list Z) * Framer) :=
  try_next_frame_loop (S (length (buf f))) f.

(** [while let Some(..) = framer.try_next_frame()]: every frame the buffer holds.  A frame
    is never empty, so one call per byte and a last one are enough. *)
Fixpoint drain_frames_loop (fuel : nat) (f : Framer)
  : outcome (list (ParsedHeader * list Z) * Framer) :=
  match fuel with
  | O => OutOfFuel
  | S fuel' =>
      let! (r, f) := try_next_frame f in
      match r with
      | None => Done ([], f)
      | Some frame =>
          let! (frames, f) := drain_frames_loop fuel' f in
          Done (frame :: frames, f)
      end
  end.

Definition drain_frames (f : Framer) : outcome (list (ParsedHeader * list Z) * Framer) :=
  drain_frames_loop (S (length (buf f))) f.
End WithTable.
