(* ===== verification/FramerSpec.v ===== *)
(** * What the framer computes

    A pure description of one scan of the buffer ([parse]) and the proof that the source's
    loop ([try_next_frame], [drain_frames]) computes it: no index is out of range, the
    fuel is enough, and the counters saturate as the source's do. *)

From S2P Require Import Prelude Crc Frame MsgTable Framer.
#[local] Open Scope Z_scope.

Abbreviation emitted := (ParsedHeader * list Z)%type.

(** ** The head of an aligned buffer, purely *)

Definition header_of (stx : Stx) (b : list Z) : ParsedHeader :=
  match stx with
  | Stx_V1 =>
      {| version := Version_V1; payload_len := byte_at b 1; seq := byte_at b 2;
         source := NodeId_new (byte_at b 3) (byte_at b 4); msgid := byte_at b 5;
         target_system := None; target_component := None |}
  | Stx_V2 =>
      {| version := Version_V2; payload_len := byte_at b 1; seq := byte_at b 4;
         source := NodeId_new (byte_at b 5) (byte_at b 6);
         msgid := le_u24 (byte_at b 7) (byte_at b 8) (byte_at b 9);
         target_system := None; target_component := None |}
  end.

(** The length the header announces; [None] for an unknown v2 incompatibility flag. *)
Definition announced_len (stx : Stx) (b : list Z) : option nat :=
  let plen := Z.to_nat (byte_at b 1) in
  match stx with
  | Stx_V1 => Some (V1_HEADER_LEN + plen + CRC_LEN)%nat
  | Stx_V2 =>
      if Z.land (byte_at b 2) 0xFE =? 0 then
        Some (V2_HEADER_LEN + plen + CRC_LEN +
              (if (Z.land (byte_at b 2) 0x01 =? 0)%Z then 0 else V2_SIGNATURE_LEN))%nat
      else None
  end.

Definition payload_end (stx : Stx) (b : list Z) : nat :=
  (Stx_header_len stx + Z.to_nat (byte_at b 1))%nat.

Definition crc_covered (stx : Stx) (b : list Z) : list Z :=
  take (payload_end stx b - 1) (drop 1 b).

Definition crc_matches (stx : Stx) (b : list Z) (extra : Z) : bool :=
  crc16_update (Crc16_update_slice CRC_INIT (crc_covered stx b)) extra =?
  le_u16 (byte_at b (payload_end stx b)) (byte_at b (payload_end stx b + 1)).

Definition target_at (stx : Stx) (b : list Z) (off : option Z) : option Z :=
  match off with
  | Some o =>
      if (Z.to_nat o <? Z.to_nat (byte_at b 1))%nat
      then Some (byte_at b (Stx_header_len stx + Z.to_nat o)) else None
  | None => None
  end.

Section Spec.
Context `{MsgTable}.

Definition crc_accepts (stx : Stx) (b : list Z) : bool :=
  match lookup_msg (msgid (header_of stx b)) with
  | Some e => crc_matches stx b (crc_extra e)
  | None => true
  end.

Definition full_header (stx : Stx) (b : list Z) : ParsedHeader :=
  match lookup_msg (msgid (header_of stx b)) with
  | Some e => with_targets (header_of stx b)
                (target_at stx b (target_sys_offset e)) (target_at stx b (target_comp_offset e))
  | None => header_of stx b
  end.

(** What the bytes at an aligned buffer's head are. *)
Inductive verdict :=
| NeedMore
| Skip (bad_crc : bool)
| Emit (h : ParsedHeader) (frame : list Z).

Definition head_verdict (stx : Stx) (b : list Z) : verdict :=
  if (length b <? Stx_header_len stx)%nat then NeedMore
  else match announced_len stx b with
       | None => Skip false
       | Some n =>
           if (length b <? n)%nat then NeedMore
           else if crc_accepts stx (take n b) then Emit (full_header stx (take n b)) (take n b)
           else Skip true
       end.

(** ** One scan of the buffer: what is skipped, what is emitted, what stays *)

Record scan := mk_scan {
  sc_resync : Z;
  sc_crc : Z;
  sc_frames : list emitted;
  sc_rest : list Z;
}.

Definition scan_cons (resync crc : Z) (frames : list emitted) (s : scan) : scan :=
  mk_scan (resync + sc_resync s) (crc + sc_crc s) (frames ++ sc_frames s) (sc_rest s).

Fixpoint parse_go (fuel : nat) (b : list Z) : scan :=
  match fuel with
  | O => mk_scan 0 0 [] b
  | S fuel' =>
      match find_stx b with
      | None => mk_scan (Z.of_nat (length b)) 0 [] []
      | Some (pos, stx) =>
          let b' := drop pos b in
          match head_verdict stx b' with
          | NeedMore => mk_scan (Z.of_nat pos) 0 [] b'
          | Skip bad => scan_cons (Z.of_nat pos + 1) (if bad then 1 else 0) [] (parse_go fuel' (drop 1 b'))
          | Emit h fr => scan_cons (Z.of_nat pos) 0 [(h, fr)] (parse_go fuel' (drop (length fr) b'))
          end
      end
  end.

Definition parse (b : list Z) : scan := parse_go (S (length b)) b.
End Spec.

(** ** Lemmas on alignment *)

Lemma find_stx_Some l pos stx :
  find_stx l = Some (pos, stx) ->
  (pos < length l)%nat /\ Stx_from_byte (byte_at l pos) = Some stx /\
  Forall (fun b => Stx_from_byte b = None) (take pos l).
Proof.
  revert pos; induction l as [|x l IH]; intros pos; simpl; [done|].
  destruct (Stx_from_byte x) as [s|] eqn:E; [intros [= <- <-]; split_and!; [lia|done|constructor]|].
  destruct (find_stx l) as [[i s]|]; [|done]. intros [= <- <-].
  destruct (IH i eq_refl) as (? & ? & ?). split_and!; [lia|done|simpl; by constructor].
Qed.

Lemma find_stx_None l : find_stx l = None <-> Forall (fun b => Stx_from_byte b = None) l.
Proof.
  induction l as [|x l IH]; simpl; [by split|]. rewrite Forall_cons, <- IH.
  destruct (Stx_from_byte x); [by split; [|intros []]|].
  destruct (find_stx l) as [[]|]; by split; [|intros []].
Qed.

Lemma find_stx_app_Some l k pos stx :
  find_stx l = Some (pos, stx) -> find_stx (l ++ k) = Some (pos, stx).
Proof.
  revert pos; induction l as [|x l IH]; intros pos; simpl; [done|].
  destruct (Stx_from_byte x); [done|]. destruct (find_stx l) as [[i s]|]; [|done].
  intros [= <- <-]. by rewrite (IH i eq_refl).
Qed.

Lemma find_stx_app_None l k :
  find_stx l = None ->
  find_stx (l ++ k) = match find_stx k with Some (i, s) => Some ((length l + i)%nat, s) | None => None end.
Proof.
  induction l as [|x l IH]; simpl; [by destruct (find_stx k) as [[]|]|].
  destruct (Stx_from_byte x); [done|]. destruct (find_stx l) as [[]|]; [done|].
  intros _. rewrite IH by done. by destruct (find_stx k) as [[]|].
Qed.

Lemma find_stx_head l stx : Stx_from_byte (byte_at l 0) = Some stx -> find_stx l = Some (0%nat, stx).
Proof.
  destruct l as [|x l]; simpl; [done|]. unfold byte_at; simpl. by intros ->.
Qed.

Lemma find_stx_drop l pos stx :
  find_stx l = Some (pos, stx) -> Stx_from_byte (byte_at (drop pos l) 0) = Some stx.
Proof.
  intros (_ & Hb & _)%find_stx_Some. unfold byte_at in *. by rewrite lookup_drop, Nat.add_0_r.
Qed.

(** ** The announced length *)

Lemma announced_len_ge stx b n : announced_len stx b = Some n -> (Stx_header_len stx + CRC_LEN <= n)%nat.
Proof.
  unfold announced_len. destruct stx; simpl.
  - intros [= <-]. unfold V1_HEADER_LEN, CRC_LEN. lia.
  - destruct (_ =? 0); [|done]. intros [= <-]. unfold V2_HEADER_LEN, CRC_LEN. lia.
Qed.

Lemma announced_len_payload_end stx b n :
  announced_len stx b = Some n -> (payload_end stx b + CRC_LEN <= n)%nat.
Proof.
  unfold announced_len, payload_end. destruct stx; simpl.
  - intros [= <-]. lia.
  - destruct (_ =? 0); [|done]. intros [= <-]. lia.
Qed.

Lemma announced_len_ext stx b b' :
  byte_at b 1 = byte_at b' 1 -> byte_at b 2 = byte_at b' 2 -> announced_len stx b = announced_len stx b'.
Proof. unfold announced_len. by intros -> ->. Qed.

Lemma header_len_pos stx : (3 <= Stx_header_len stx)%nat.
Proof. destruct stx; simpl; unfold V1_HEADER_LEN, V2_HEADER_LEN; lia. Qed.

Lemma announced_len_app stx b k :
  (Stx_header_len stx <= length b)%nat -> announced_len stx (b ++ k) = announced_len stx b.
Proof.
  intros Hb. pose proof (header_len_pos stx).
  apply announced_len_ext; apply byte_at_app_l; lia.
Qed.

Lemma announced_len_take stx b n :
  (3 <= n)%nat -> announced_len stx (take n b) = announced_len stx b.
Proof. intros. apply announced_len_ext; apply byte_at_take; lia. Qed.

(** ** The operations of the source on in-range data *)

Lemma parse_header_Done stx fr :
  (Stx_header_len stx <= length fr)%nat -> parse_header fr stx = Done (header_of stx fr).
Proof.
  intros Hl. destruct stx; simpl in *; unfold V1_HEADER_LEN, V2_HEADER_LEN in *;
    rewrite !index_Done by lia; done.
Qed.

Lemma header_of_payload_start stx fr : ParsedHeader_payload_start (header_of stx fr) = Stx_header_len stx.
Proof. by destruct stx. Qed.

Lemma header_of_payload_len stx fr : payload_len (header_of stx fr) = byte_at fr 1.
Proof. by destruct stx. Qed.

Lemma validate_crc_Done stx fr extra :
  (payload_end stx fr + CRC_LEN <= length fr)%nat ->
  validate_crc fr (header_of stx fr) extra = Done (crc_matches stx fr extra).
Proof.
  unfold payload_end, CRC_LEN. intros Hl. pose proof (header_len_pos stx).
  unfold validate_crc. rewrite header_of_payload_start, header_of_payload_len.
  rewrite slice_Done by lia. rewrite !index_Done by lia. done.
Qed.

Lemma read_at_Done stx fr o :
  (payload_end stx fr <= length fr)%nat ->
  read_at fr (header_of stx fr) o = Done (target_at stx fr (Some o)).
Proof.
  unfold payload_end. intros Hl. unfold read_at, target_at.
  rewrite header_of_payload_start, header_of_payload_len.
  destruct (Nat.ltb_spec (Z.to_nat o) (Z.to_nat (byte_at fr 1))); [|done].
  by rewrite index_Done by lia.
Qed.

Lemma extract_targets_Done stx fr entry :
  (payload_end stx fr <= length fr)%nat ->
  extract_targets fr (header_of stx fr) entry =
  Done (match entry with
        | Some e => (target_at stx fr (target_sys_offset e), target_at stx fr (target_comp_offset e))
        | None => (None, None)
        end).
Proof.
  intros Hl. destruct entry as [[ce ts tc]|]; [|done]. unfold extract_targets, and_then_read; simpl.
  destruct ts as [o1|], tc as [o2|]; rewrite ?(read_at_Done stx) by done; done.
Qed.

Lemma decide_frame_len_Done f stx :
  (Stx_header_len stx <= length (buf f))%nat ->
  decide_frame_len f stx =
  Done (match announced_len stx (buf f) with Some n => Ready n | None => UnknownIncompatFlag end).
Proof.
  intros Hl. pose proof (header_len_pos stx). unfold decide_frame_len, announced_len.
  rewrite index_Done by lia. destruct stx; [done|]. rewrite index_Done by lia.
  change (wrap 8 (Z.lnot V2_IFLAG_SIGNED)) with 0xFE. unfold V2_IFLAG_SIGNED.
  destruct (Z.land _ 254 =? 0); simpl; [|done]. by destruct (Z.land _ 1 =? 0).
Qed.

(** ** One iteration of the source's loop *)

(** The counters are [u64] readings. *)
Definition counters_ok (f : Framer) : Prop := is_u64 (resync_bytes f) /\ is_u64 (crc_errors f).

(** The framer after a scan that added [r] skipped bytes and [c] CRC failures. *)
Definition advanced (f : Framer) (r c : Z) (b : list Z) : Framer :=
  {| buf := b; resync_bytes := sat_add 64 (resync_bytes f) r;
     crc_errors := sat_add 64 (crc_errors f) c |}.

Lemma advanced_ok f r c b : counters_ok f -> 0 <= r -> 0 <= c -> counters_ok (advanced f r c b).
Proof. intros [[] []] ??. split; apply sat_add_range; lia. Qed.

Lemma advanced_advanced f r c b r' c' b' :
  0 <= r' -> 0 <= c' -> advanced (advanced f r c b) r' c' b' = advanced f (r + r') (c + c') b'.
Proof. intros. unfold advanced; simpl. by rewrite !sat_add_assoc. Qed.

Lemma align_to_stx_Done f :
  counters_ok f ->
  align_to_stx f =
  Done (match find_stx (buf f) with
        | Some (pos, stx) => (Some stx, advanced f (Z.of_nat pos) 0 (drop pos (buf f)))
        | None => (None, advanced f (Z.of_nat (length (buf f))) 0 [])
        end).
Proof.
  intros [Hr Hc]. unfold align_to_stx. destruct (find_stx (buf f)) as [[pos stx]|] eqn:E.
  - apply find_stx_Some in E as (Hpos & _). destruct (Nat.ltb_spec 0 pos) as [Hp|Hp].
    + rewrite buf_advance_Done by (simpl; lia). unfold advanced, set_buf, add_resync; simpl.
      by rewrite sat_add_0_r.
    + assert (pos = 0%nat) as -> by lia. unfold advanced. rewrite !sat_add_0_r by done.
      by destruct f.
  - unfold advanced, set_buf, add_resync; simpl. by rewrite sat_add_0_r.
Qed.

Section LoopSpec.
Context `{MsgTable}.

Lemma try_validate_and_emit_Done f stx n :
  counters_ok f -> announced_len stx (buf f) = Some n -> (n <= length (buf f))%nat ->
  try_validate_and_emit f stx n =
  Done (if crc_accepts stx (take n (buf f))
        then (Some (full_header stx (take n (buf f)), take n (buf f)), set_buf f (drop n (buf f)))
        else (None, advanced f 1 1 (drop 1 (buf f)))).
Proof.
  intros Hok Hn Hl. pose proof (announced_len_ge _ _ _ Hn) as Hge.
  pose proof (header_len_pos stx) as Hh. unfold CRC_LEN in Hge.
  set (fr := take n (buf f)).
  assert (Hfl : length fr = n) by (apply length_take_le; lia).
  assert (Hpe : (payload_end stx fr + CRC_LEN <= length fr)%nat).
  { rewrite Hfl. apply announced_len_payload_end. unfold fr. rewrite announced_len_take by lia. done. }
  unfold try_validate_and_emit. rewrite slice_Done by lia.
  rewrite drop_0, Nat.sub_0_r. fold fr. rewrite (parse_header_Done stx) by lia.
  unfold crc_accepts, full_header.
  destruct (lookup_msg (msgid (header_of stx fr))) as [e|] eqn:El.
  - rewrite (validate_crc_Done stx) by done. destruct (crc_matches stx fr (crc_extra e)); cbn [negb].
    + rewrite (extract_targets_Done stx) by lia. by rewrite buf_split_to_Done by done.
    + unfold discard_byte. rewrite buf_advance_Done by (simpl; lia). done.
  - cbn [negb]. rewrite (extract_targets_Done stx) by lia.
    rewrite buf_split_to_Done by done. fold fr. by destruct stx.
Qed.

Lemma loop_body_Done f :
  counters_ok f ->
  loop_body f =
  Done (match find_stx (buf f) with
        | None => (Some None, advanced f (Z.of_nat (length (buf f))) 0 [])
        | Some (pos, stx) =>
            let b := drop pos (buf f) in
            match head_verdict stx b with
            | NeedMore => (Some None, advanced f (Z.of_nat pos) 0 b)
            | Skip bad => (None, advanced f (Z.of_nat pos + 1) (if bad then 1 else 0) (drop 1 b))
            | Emit h fr => (Some (Some (h, fr)), advanced f (Z.of_nat pos) 0 (drop (length fr) b))
            end
        end).
Proof.
  intros Hok. unfold loop_body. rewrite align_to_stx_Done by done.
  destruct (find_stx (buf f)) as [[pos stx]|] eqn:E; [|done]. cbv zeta.
  set (b := drop pos (buf f)). set (f1 := advanced f (Z.of_nat pos) 0 b).
  assert (Hok1 : counters_ok f1) by (apply advanced_ok; [done|lia|lia]).
  change (buf f1) with b. unfold head_verdict.
  destruct (Nat.ltb_spec (length b) (Stx_header_len stx)) as [Hs|Hs]; [done|].
  rewrite decide_frame_len_Done by (exact Hs). change (buf f1) with b.
  pose proof (header_len_pos stx).
  destruct (announced_len stx b) as [n|] eqn:En.
  - destruct (Nat.ltb_spec (length b) n) as [Hn|Hn]; [done|].
    rewrite (try_validate_and_emit_Done f1 stx n) by done. change (buf f1) with b.
    destruct (crc_accepts stx (take n b)).
    + by rewrite length_take_le by lia.
    + unfold f1. by rewrite advanced_advanced by lia.
  - rewrite index_Done by lia. unfold discard_byte.
    rewrite buf_advance_Done by (simpl; lia). do 2 f_equal.
    unfold f1, advanced, set_buf, add_resync; simpl. by rewrite sat_add_assoc by lia.
Qed.

(** ** The whole loop *)

Lemma head_verdict_Emit stx b h fr :
  head_verdict stx b = Emit h fr ->
  exists n, announced_len stx b = Some n /\ (n <= length b)%nat /\ fr = take n b /\
    length fr = n /\ crc_accepts stx fr = true /\ h = full_header stx fr.
Proof.
  unfold head_verdict. destruct (Nat.ltb_spec (length b) (Stx_header_len stx)); [done|].
  destruct (announced_len stx b) as [n|] eqn:En; [|done].
  destruct (Nat.ltb_spec (length b) n); [done|].
  destruct (crc_accepts stx (take n b)) eqn:Ec; [|done]. intros [= <- <-].
  exists n. split_and!; try done. by apply length_take_le.
Qed.

Lemma head_verdict_frame_pos stx b h fr :
  head_verdict stx b = Emit h fr -> (0 < length fr <= length b)%nat.
Proof.
  intros (n & Hn & ? & -> & Hl & _)%head_verdict_Emit. apply announced_len_ge in Hn.
  pose proof (header_len_pos stx). lia.
Qed.

Lemma parse_go_fuel n m b :
  (length b < n)%nat -> (length b < m)%nat -> parse_go n b = parse_go m b.
Proof.
  revert m b; induction n as [|n IH]; intros m b Hn Hm; [lia|]. destruct m as [|m]; [lia|]. simpl.
  destruct (find_stx b) as [[pos stx]|] eqn:E; [|done].
  apply find_stx_Some in E as (Hpos & _).
  destruct (head_verdict stx (drop pos b)) as [|bad|h fr] eqn:Ev; [done|f_equal|f_equal].
  - apply IH; rewrite !length_drop; lia.
  - apply head_verdict_frame_pos in Ev. apply IH; rewrite !length_drop in *; lia.
Qed.

(** The recursive equation of [parse], without the fuel. *)
Lemma parse_eq b :
  parse b =
  match find_stx b with
  | None => mk_scan (Z.of_nat (length b)) 0 [] []
  | Some (pos, stx) =>
      match head_verdict stx (drop pos b) with
      | NeedMore => mk_scan (Z.of_nat pos) 0 [] (drop pos b)
      | Skip bad => scan_cons (Z.of_nat pos + 1) (if bad then 1 else 0) [] (parse (drop 1 (drop pos b)))
      | Emit h fr => scan_cons (Z.of_nat pos) 0 [(h, fr)] (parse (drop (length fr) (drop pos b)))
      end
  end.
Proof.
  unfold parse at 1. simpl. destruct (find_stx b) as [[pos stx]|] eqn:E; [|done].
  apply find_stx_Some in E as (Hpos & _).
  destruct (head_verdict stx (drop pos b)) as [|bad|h fr] eqn:Ev; [done|f_equal|f_equal].
  - apply parse_go_fuel; rewrite !length_drop; lia.
  - apply head_verdict_frame_pos in Ev. apply parse_go_fuel; rewrite !length_drop in *; lia.
Qed.

(** Well-founded induction over the scan of a buffer. *)
Lemma parse_ind (P : list Z -> Prop) :
  (forall b, (forall b', (length b' < length b)%nat -> P b') -> P b) -> forall b, P b.
Proof. intros IH b. induction (Wf_nat.well_founded_ltof _ (@length Z) b) as [b _ IHb]. by apply IH. Qed.

Lemma scan_nonneg b : 0 <= sc_resync (parse b) /\ 0 <= sc_crc (parse b).
Proof.
  induction b as [b IH] using parse_ind. rewrite parse_eq.
  destruct (find_stx b) as [[pos stx]|] eqn:E; simpl; [|lia].
  apply find_stx_Some in E as (Hpos & _).
  destruct (head_verdict stx (drop pos b)) as [|bad|h fr] eqn:Ev; simpl; [lia| |].
  - specialize (IH (drop 1 (drop pos b))). rewrite !length_drop in IH.
    destruct IH; [lia|]. destruct bad; lia.
  - apply head_verdict_frame_pos in Ev. specialize (IH (drop (length fr) (drop pos b))).
    rewrite !length_drop in *. destruct IH; lia.
Qed.

(** What one call of [try_next_frame] does, against the scan of the whole buffer: it stops
    at the first frame, with the counters advanced by what precedes it. *)
Definition next_frame_post (f : Framer) (r : option emitted) (f' : Framer) : Prop :=
  exists dr dc, 0 <= dr /\ 0 <= dc /\
    f' = advanced f dr dc (buf f') /\
    (exists k, buf f' = drop k (buf f)) /\
    match r with
    | None => parse (buf f) = mk_scan dr dc [] (buf f')
    | Some fr => parse (buf f) = scan_cons dr dc [fr] (parse (buf f')) /\
                 (length (buf f') < length (buf f))%nat
    end.

Lemma try_next_frame_loop_spec fuel f :
  counters_ok f -> (length (buf f) < fuel)%nat ->
  exists r f', try_next_frame_loop fuel f = Done (r, f') /\ next_frame_post f r f'.
Proof.
  revert f; induction fuel as [|fuel IH]; intros f Hok Hf; [lia|]. simpl.
  rewrite loop_body_Done by done. unfold next_frame_post. rewrite parse_eq.
  destruct (find_stx (buf f)) as [[pos stx]|] eqn:E.
  2:{ eexists _, _; split; [done|]. exists (Z.of_nat (length (buf f))), 0.
      split_and!; [lia|lia|done|exists (length (buf f)); by rewrite drop_all|done]. }
  apply find_stx_Some in E as (Hpos & _). cbv zeta.
  destruct (head_verdict stx (drop pos (buf f))) as [|bad|h fr] eqn:Ev.
  - eexists _, _; split; [done|]. exists (Z.of_nat pos), 0. split_and!; [lia|lia|done|by exists pos|done].
  - set (f1 := advanced f (Z.of_nat pos + 1) (if bad then 1 else 0) (drop 1 (drop pos (buf f)))).
    assert (0 <= (if bad then 1 else 0)) by (destruct bad; lia).
    destruct (IH f1) as (r & f' & -> & dr & dc & ? & ? & Hf' & [k Hk] & Hp).
    { by apply advanced_ok; [|lia|]. }
    { simpl. rewrite !length_drop. lia. }
    eexists _, _; split; [done|]. exists (Z.of_nat pos + 1 + dr), ((if bad then 1 else 0) + dc).
    split_and!; [lia|lia| | |].
    + rewrite Hf'. unfold f1. by rewrite advanced_advanced by lia.
    + rewrite Hk. change (buf f1) with (drop 1 (drop pos (buf f))). rewrite !drop_drop. eauto.
    + change (buf f1) with (drop 1 (drop pos (buf f))) in Hp. destruct r as [fr|].
      * destruct Hp as [-> Hlt]. split; [|rewrite !length_drop in Hlt; lia].
        unfold scan_cons; simpl. f_equal; lia.
      * rewrite Hp. done.
  - eexists _, _; split; [done|]. exists (Z.of_nat pos), 0.
    split_and!; [lia|lia|done|simpl; rewrite drop_drop; eauto|done|].
    apply head_verdict_frame_pos in Ev. simpl. rewrite !length_drop in *. lia.
Qed.

Lemma try_next_frame_spec f :
  counters_ok f -> exists r f', try_next_frame f = Done (r, f') /\ next_frame_post f r f'.
Proof. intros. apply try_next_frame_loop_spec; [done|lia]. Qed.

Lemma drain_frames_loop_spec fuel f :
  counters_ok f -> (length (buf f) < fuel)%nat ->
  drain_frames_loop fuel f =
  Done (sc_frames (parse (buf f)),
        advanced f (sc_resync (parse (buf f))) (sc_crc (parse (buf f))) (sc_rest (parse (buf f)))).
Proof.
  revert f; induction fuel as [|fuel IH]; intros f Hok Hf; [lia|]. simpl.
  destruct (try_next_frame_spec f Hok) as (r & f' & -> & dr & dc & ? & ? & Hf' & _ & Hp).
  destruct r as [fr|].
  - destruct Hp as [-> Hlt]. rewrite IH.
    + do 2 f_equal. rewrite Hf' at 1. pose proof (scan_nonneg (buf f')).
      by rewrite advanced_advanced by tauto.
    + rewrite Hf'. by apply advanced_ok.
    + lia.
  - rewrite Hp; simpl. by rewrite Hf' at 1.
Qed.

Lemma drain_frames_spec f :
  counters_ok f ->
  drain_frames f =
  Done (sc_frames (parse (buf f)),
        advanced f (sc_resync (parse (buf f))) (sc_crc (parse (buf f))) (sc_rest (parse (buf f)))).
Proof. intros. apply drain_frames_loop_spec; [done|lia]. Qed.
End LoopSpec.

Lemma Framer_new_ok : counters_ok Framer_new.
Proof. split; by unfold in_width. Qed.

Lemma buffer_extend_ok f data : counters_ok f -> counters_ok (buffer_extend f data).
Proof. done. Qed.

#[export] Hint Resolve advanced_ok Framer_new_ok buffer_extend_ok : rmr.
