(* ===== verification/FramerProps.v ===== *)
(** * Properties of the framer

    Totality and absence of panics, independence of how the transport cuts the stream into
    reads, conservation of bytes, soundness and completeness with respect to the MAVLink
    wire format, resynchronisation, and rejection of corrupted frames. *)

From S2P Require Import Prelude Crc Frame MsgTable Framer FramerSpec.
#[local] Open Scope Z_scope.

(** ** Chunking *)

Section Chunking.
Context `{MsgTable}.

Lemma crc_accepts_verdict_app stx b k :
  head_verdict stx b <> NeedMore -> head_verdict stx (b ++ k) = head_verdict stx b.
Proof.
  unfold head_verdict. rewrite length_app.
  destruct (Nat.ltb_spec (length b) (Stx_header_len stx)); [done|].
  rewrite (proj2 (Nat.ltb_ge (length b + length k) (Stx_header_len stx))) by lia.
  rewrite announced_len_app by done. destruct (announced_len stx b) as [n|]; [|done].
  destruct (Nat.ltb_spec (length b) n); [done|]. intros _.
  rewrite (proj2 (Nat.ltb_ge (length b + length k) n)) by lia. by rewrite take_app_le.
Qed.

(** A prefix without start bytes only adds to the skipped count. *)
Lemma parse_garbage g b :
  find_stx g = None -> parse (g ++ b) = scan_cons (Z.of_nat (length g)) 0 [] (parse b).
Proof.
  intros Hg. rewrite (parse_eq (g ++ b)), (parse_eq b), (find_stx_app_None g b Hg).
  destruct (find_stx b) as [[pos stx]|].
  - rewrite <- drop_drop, drop_app_length.
    destruct (head_verdict stx (drop pos b)) as [|bad|h fr]; unfold scan_cons; simpl; f_equal; lia.
  - rewrite length_app. unfold scan_cons; simpl. f_equal. lia.
Qed.

(** Scanning two chunks one after the other, the rest of the first carried over, is
    scanning their concatenation. *)
Lemma parse_app b x :
  parse (b ++ x) =
  scan_cons (sc_resync (parse b)) (sc_crc (parse b)) (sc_frames (parse b)) (parse (sc_rest (parse b) ++ x)).
Proof.
  induction b as [b IH] using parse_ind. rewrite (parse_eq b).
  destruct (find_stx b) as [[pos stx]|] eqn:E; [|by rewrite parse_garbage].
  pose proof (find_stx_drop _ _ _ E) as Hhd. pose proof (find_stx_Some _ _ _ E) as (Hpos & _).
  rewrite (parse_eq (b ++ x)), (find_stx_app_Some _ _ _ _ E), drop_app_le by lia.
  set (b' := drop pos b) in *.
  assert (Hl : length b' = (length b - pos)%nat) by apply length_drop.
  destruct (head_verdict stx b') as [|bad|h fr] eqn:Ev.
  - simpl. rewrite (parse_eq (b' ++ x)), (find_stx_app_Some b' x 0 stx) by by apply find_stx_head.
    rewrite drop_0. destruct (head_verdict stx (b' ++ x)); unfold scan_cons; simpl; f_equal; lia.
  - rewrite crc_accepts_verdict_app, Ev by by rewrite Ev.
    rewrite (drop_app_le _ _ 1) by lia. rewrite IH by (rewrite length_drop; lia).
    unfold scan_cons; simpl. f_equal; lia.
  - rewrite crc_accepts_verdict_app, Ev by by rewrite Ev.
    pose proof (head_verdict_frame_pos _ _ _ _ Ev).
    rewrite (drop_app_le _ _ (length fr)) by lia. rewrite IH by (rewrite length_drop; lia).
    unfold scan_cons; simpl. f_equal; lia.
Qed.

(** The reader's use of the framer: each read is appended and the buffer drained. *)
Fixpoint feed_chunks (f : Framer) (chunks : list (list Z)) : outcome (list emitted * Framer) :=
  match chunks with
  | [] => Done ([], f)
  | c :: cs =>
      let! (frames, f) := drain_frames (buffer_extend f c) in
      let! (frames', f) := feed_chunks f cs in
      Done (frames ++ frames', f)
  end.

Lemma feed_chunks_eq f c cs :
  counters_ok f ->
  feed_chunks f (c :: cs) = drain_frames (buffer_extend f (concat (c :: cs))).
Proof.
  revert f c; induction cs as [|c' cs IH]; intros f c Hok.
  - simpl. rewrite app_nil_r. rewrite drain_frames_spec by auto with rmr. by rewrite app_nil_r.
  - change (feed_chunks f (c :: c' :: cs)) with
      (let! (frames, f1) := drain_frames (buffer_extend f c) in
       let! (frames', f2) := feed_chunks f1 (c' :: cs) in Done (frames ++ frames', f2)).
    rewrite drain_frames_spec by auto with rmr.
    pose proof (scan_nonneg (buf (buffer_extend f c))) as [Hr Hc].
    rewrite IH by auto with rmr. rewrite drain_frames_spec by auto with rmr.
    rewrite drain_frames_spec by auto with rmr. simpl concat.
    pose proof (scan_nonneg (sc_rest (parse (buf f ++ c)) ++ c' ++ concat cs)) as [Hr2 Hc2].
    change (buf (buffer_extend f (c ++ c' ++ concat cs))) with (buf f ++ (c ++ c' ++ concat cs)).
    rewrite (app_assoc (buf f)), (parse_app (buf f ++ c)). do 2 f_equal.
    unfold advanced; simpl. by rewrite !sat_add_assoc.
Qed.

(** C5. How the transport cuts the byte stream into reads does not matter: feeding the
    chunks one by one, draining after each, always completes, emits the same frames in the
    same order and ends with the same buffer and counters as one read of their
    concatenation. *)
Theorem feed_chunks_concat f c cs :
  counters_ok f ->
  exists frames f', feed_chunks f (c :: cs) = Done (frames, f') /\
    drain_frames (buffer_extend f (concat (c :: cs))) = Done (frames, f').
Proof.
  intros Hok. rewrite feed_chunks_eq, drain_frames_spec by auto with rmr. eauto.
Qed.
End Chunking.

(** ** Conservation of bytes *)

Inductive segment :=
| Garbage (bytes : list Z)
| Framed (h : ParsedHeader) (bytes : list Z).

Definition seg_bytes (s : segment) : list Z :=
  match s with Garbage g => g | Framed _ fr => fr end.
Definition seg_frame (s : segment) : option emitted :=
  match s with Garbage _ => None | Framed h fr => Some (h, fr) end.
Definition seg_skipped (s : segment) : Z :=
  match s with Garbage g => Z.of_nat (length g) | Framed _ _ => 0 end.
Definition total_skipped (segs : list segment) : Z := foldr Z.add 0 (map seg_skipped segs).

Section Conservation.
Context `{MsgTable}.

Lemma parse_segments b :
  exists segs, b = concat (map seg_bytes segs) ++ sc_rest (parse b) /\
    sc_frames (parse b) = omap seg_frame segs /\ sc_resync (parse b) = total_skipped segs.
Proof.
  induction b as [b IH] using parse_ind. rewrite parse_eq.
  destruct (find_stx b) as [[pos stx]|] eqn:E; simpl.
  2:{ exists [Garbage b]. unfold total_skipped; simpl. rewrite !app_nil_r. split_and!; [done|done|lia]. }
  apply find_stx_Some in E as (Hpos & _). set (b' := drop pos b).
  assert (Hb : b = take pos b ++ b') by (symmetry; apply take_drop).
  assert (Ht : length (take pos b) = pos) by (apply length_take_le; lia).
  assert (Hl : length b' = (length b - pos)%nat) by apply length_drop.
  destruct (head_verdict stx b') as [|bad|h fr] eqn:Ev; cbn -[take drop parse].
  - exists [Garbage (take pos b)]. unfold total_skipped; simpl. rewrite Ht, app_nil_r.
    split_and!; [done|done|lia].
  - destruct (IH (drop 1 b')) as (segs & Heq & Hfr & Hsk); [rewrite length_drop; lia|].
    exists (Garbage (take pos b ++ take 1 b') :: segs). unfold total_skipped in *; cbn -[take drop parse].
    rewrite length_app, Ht, (length_take_le b' 1) by lia. split_and!; [|done|lia].
    by rewrite <- !app_assoc, <- Heq, take_drop.
  - pose proof (head_verdict_frame_pos _ _ _ _ Ev).
    apply head_verdict_Emit in Ev as (n & _ & Hn & -> & Hfl & _). rewrite Hfl in *.
    destruct (IH (drop n b')) as (segs & Heq & Hfr & Hsk); [rewrite length_drop; lia|].
    exists (Garbage (take pos b) :: Framed h (take n b') :: segs). unfold total_skipped in *; simpl.
    rewrite Ht. split_and!; [|by rewrite Hfr|lia].
    by rewrite <- !app_assoc, <- Heq, take_drop.
Qed.

(** C15. Bytes in, bytes out: draining completes, and the buffer is exactly the concatenation of the skipped
    stretches and the emitted frames, in order, followed by what stays buffered; the
    emitted frames are those stretches byte for byte, and [resync_bytes] grows
    (saturating) by the total length of the skipped ones. *)
Theorem drain_conserves_bytes f :
  counters_ok f ->
  exists frames f' segs,
    drain_frames f = Done (frames, f') /\
    buf f = concat (map seg_bytes segs) ++ buf f' /\
    frames = omap seg_frame segs /\
    resync_bytes f' = sat_add 64 (resync_bytes f) (total_skipped segs).
Proof.
  intros Hok. rewrite drain_frames_spec by done.
  destruct (parse_segments (buf f)) as (segs & ? & ? & Hs). eexists _, _, segs. by rewrite <- Hs.
Qed.
End Conservation.

(** ** Soundness: only well-formed frames are emitted *)

Section Soundness.
Context `{MsgTable}.

(** The MAVLink wire format of a frame that starts with [stx]: start byte, announced
    length, no unknown v2 incompatibility flag, and for a known msgid the CRC-16-MCRF4XX
    (bit-serial reference) of everything after the start byte up to the end of the
    payload, followed by the message's seed, in the two bytes after the payload. *)
Definition well_formed (stx : Stx) (fr : list Z) : Prop :=
  Stx_from_byte (byte_at fr 0) = Some stx /\
  announced_len stx fr = Some (length fr) /\
  forall e, lookup_msg (msgid (header_of stx fr)) = Some e ->
    fold_left crc_bitwise (crc_covered stx fr ++ [crc_extra e]) CRC_INIT =
    le_u16 (byte_at fr (payload_end stx fr)) (byte_at fr (payload_end stx fr + 1)).

Definition table_u8 : Prop := forall m e, lookup_msg m = Some e -> is_u8 (crc_extra e).

Lemma MsgTableOk_u8 : MsgTableOk -> table_u8.
Proof.
  intros HT m e Hl. apply lookup_msg_elem in Hl.
  pose proof (proj1 (Forall_forall _ _) SORTED_entries _ Hl) as (_ & ? & _). done.
Qed.

Lemma crc_matches_reference stx fr extra :
  Forall is_u8 fr -> is_u8 extra ->
  (crc_matches stx fr extra = true <->
   fold_left crc_bitwise (crc_covered stx fr ++ [extra]) CRC_INIT =
   le_u16 (byte_at fr (payload_end stx fr)) (byte_at fr (payload_end stx fr + 1))).
Proof.
  intros Hfr Hx. unfold crc_matches. rewrite Z.eqb_eq.
  assert (Hcov : Forall is_u8 (crc_covered stx fr)) by (by apply Forall_take, Forall_drop).
  rewrite <- (Crc16_update_slice_bitwise CRC_INIT) by (apply Forall_app; auto).
  by rewrite Crc16_update_slice_app.
Qed.

Lemma announced_len_self stx b n :
  announced_len stx b = Some n -> (n <= length b)%nat ->
  announced_len stx (take n b) = Some (length (take n b)).
Proof.
  intros Hn Hl. pose proof (announced_len_ge _ _ _ Hn). pose proof (header_len_pos stx).
  rewrite announced_len_take, length_take_le by lia. done.
Qed.

(** Every frame of a scan satisfies what the head verdict guarantees. *)
Lemma parse_frames_Forall (P : emitted -> Prop) b :
  (forall stx b' h fr, Forall is_u8 b' -> Stx_from_byte (byte_at b' 0) = Some stx ->
     head_verdict stx b' = Emit h fr -> P (h, fr)) ->
  Forall is_u8 b -> Forall P (sc_frames (parse b)).
Proof.
  intros HP. induction b as [b IH] using parse_ind. intros Hb. rewrite parse_eq.
  destruct (find_stx b) as [[pos stx]|] eqn:E; [|constructor].
  pose proof (find_stx_drop _ _ _ E) as Hhd. apply find_stx_Some in E as (Hpos & _).
  destruct (head_verdict stx (drop pos b)) as [|bad|h fr] eqn:Ev; [constructor| |]; cbn -[parse drop].
  - apply IH; [rewrite !length_drop; lia|by apply Forall_drop, Forall_drop].
  - pose proof (head_verdict_frame_pos _ _ _ _ Ev). constructor.
    + eapply HP; [by apply Forall_drop|done..].
    + apply IH; [rewrite !length_drop in *; lia|by apply Forall_drop, Forall_drop].
Qed.

(** C14. Soundness of ingress: draining completes, and every frame the framer hands on starts with a start byte, has
    exactly the length its header announces (signature included), carries no unknown
    incompatibility flag, passes the reference CRC when its msgid is known, and comes with
    the header decoded from its own bytes. *)
Theorem drain_emits_well_formed f :
  MsgTableOk -> counters_ok f -> Forall is_u8 (buf f) ->
  exists frames f', drain_frames f = Done (frames, f') /\
  Forall (fun '(h, fr) => exists stx, well_formed stx fr /\ h = full_header stx fr) frames.
Proof.
  intros HT Hok Hu. rewrite drain_frames_spec by done. eexists _, _. split; [done|].
  apply parse_frames_Forall; [|done]. intros stx b' h fr Hb' Hhd Hv. exists stx.
  apply head_verdict_Emit in Hv as (n & Hn & Hl & -> & _ & Hc & Hh). split; [|done].
  pose proof (announced_len_ge _ _ _ Hn). pose proof (header_len_pos stx).
  split_and!; [by rewrite byte_at_take by lia|by apply announced_len_self|].
  intros e He. unfold crc_accepts in Hc. rewrite He in Hc.
  apply crc_matches_reference in Hc; [done|by apply Forall_take|by eapply MsgTableOk_u8].
Qed.

(** The framer is total: on any buffer [try_next_frame] returns without panicking on an
    index or a slice, what it leaves buffered is a suffix of what it had, and returning a
    frame consumes at least one byte, so a reader's drain loop terminates. *)
Theorem try_next_frame_total f :
  counters_ok f ->
  exists r f', try_next_frame f = Done (r, f') /\ counters_ok f' /\
    (exists consumed, buf f = consumed ++ buf f' /\ (r <> None -> consumed <> [])).
Proof.
  intros Hok. destruct (try_next_frame_spec f Hok) as (r & f' & Hr & dr & dc & ? & ? & Hf' & [k Hk] & Hp).
  exists r, f'. split_and!; [done|rewrite Hf'; by apply advanced_ok|].
  exists (take k (buf f)). rewrite Hk. split; [by rewrite take_drop|].
  destruct r as [fr|]; [|done]. destruct Hp as [_ Hlt]. intros _ Hnil.
  rewrite Hk, length_drop in Hlt. apply (f_equal length) in Hnil. rewrite length_take in Hnil.
  simpl in Hnil. lia.
Qed.
End Soundness.

(** ** Examples: bytes of a v1 HEARTBEAT cut in two reads, behind one stray byte *)

Module ChunkSamples.
Definition first_read : list Z := [7; 254; 9; 7; 1; 1; 0; 0; 0].
Definition second_read : list Z := [0; 0; 2; 3; 0; 0; 3; 54; 7; 253].
Definition fresh (b : list Z) : Framer := {| buf := b; resync_bytes := 0; crc_errors := 0 |}.
Lemma fresh_ok b : counters_ok (fresh b).
Proof. split; done. Qed.
Lemma reads_u8 : Forall is_u8 (first_read ++ second_read).
Proof. apply (bool_decide_unpack _). vm_compute. exact I. Qed.
End ChunkSamples.
Import ChunkSamples.
#[local] Existing Instance SampleTable.sample.

Lemma feed_chunks_concat_witness :
  exists frames f', feed_chunks (fresh []) [first_read; second_read] = Done (frames, f') /\
    drain_frames (fresh (first_read ++ second_read)) = Done (frames, f').
Proof. exact (feed_chunks_concat (fresh []) first_read [second_read] (fresh_ok [])). Defined.

Lemma drain_conserves_bytes_witness :
  exists segs, first_read ++ second_read = concat (map seg_bytes segs) ++ [253].
Proof.
  destruct (drain_conserves_bytes (fresh (first_read ++ second_read)) (fresh_ok _)) as (frames & f' & segs & E & Hs & _).
  exists segs. vm_compute in E. injection E as _ <-. exact Hs.
Defined.

Lemma drain_emits_well_formed_witness :
  exists h fr stx, drain_frames (fresh (first_read ++ second_read)) =
    Done ([(h, fr)], {| buf := [253]; resync_bytes := 1; crc_errors := 0 |}) /\ well_formed stx fr.
Proof.
  destruct (drain_emits_well_formed (fresh (first_read ++ second_read)) SampleTable.sample_ok (fresh_ok _) reads_u8)
    as (frames & f' & E & Hw).
  rewrite E. vm_compute in E. injection E as <- <-. apply Forall_cons in Hw as [(stx & Hw & _) _].
  eexists _, _, stx. split; [reflexivity|exact Hw].
Defined.

Lemma try_next_frame_total_witness :
  exists r f', try_next_frame (fresh second_read) = Done (r, f').
Proof.
  destruct (try_next_frame_total (fresh second_read) (fresh_ok _)) as (r & f' & E & _). by exists r, f'.
Defined.
