(* ===== verification/FramerWire.v ===== *)
(** * Frames on the wire: completeness and corruption

    An encoder of the MAVLink wire format, the round trip through the framer, recovery of a
    frame behind garbage, and the fate of a frame with one corrupted byte. *)

From S2P Require Import Prelude Crc Frame MsgTable Framer FramerSpec FramerProps.
#[local] Open Scope Z_scope.

(** A frame as its sender describes it. *)
Record Wire := {
  w_stx : Stx;
  w_incompat : Z;
  w_compat : Z;
  w_seq : Z;
  w_source : NodeId;
  w_msgid : Z;
  w_payload : list Z;
  w_signature : list Z;
}.

Definition stx_byte (stx : Stx) : Z := match stx with Stx_V1 => STX_V1 | Stx_V2 => STX_V2 end.

(** Header after the start byte, then the payload: the bytes the CRC covers. *)
Definition wire_body (w : Wire) : list Z :=
  let plen := Z.of_nat (length (w_payload w)) in
  match w_stx w with
  | Stx_V1 => [plen; w_seq w; sys (w_source w); comp (w_source w); w_msgid w]
  | Stx_V2 => [plen; w_incompat w; w_compat w; w_seq w; sys (w_source w); comp (w_source w);
               w_msgid w mod 256; (w_msgid w / 256) mod 256; w_msgid w / 65536]
  end ++ w_payload w.

Definition wire_crc (w : Wire) (extra : Z) : Z :=
  crc16_update (Crc16_update_slice CRC_INIT (wire_body w)) extra.

Definition wire_bytes (w : Wire) (extra : Z) : list Z :=
  stx_byte (w_stx w) :: wire_body w ++
  [wire_crc w extra mod 256; wire_crc w extra / 256] ++ w_signature w.

(** The field ranges of the two protocol versions; a v2 frame is signed if and only if its
    incompatibility flag says so. *)
Definition wire_ok (w : Wire) : Prop :=
  (length (w_payload w) <= 255)%nat /\ Forall is_u8 (w_payload w) /\
  is_u8 (w_seq w) /\ is_u8 (sys (w_source w)) /\ is_u8 (comp (w_source w)) /\ is_u8 (w_compat w) /\
  match w_stx w with
  | Stx_V1 => is_u8 (w_msgid w) /\ w_signature w = []
  | Stx_V2 => in_width 24 (w_msgid w) /\
              ((w_incompat w = 0 /\ w_signature w = []) \/
               (w_incompat w = 1 /\ length (w_signature w) = V2_SIGNATURE_LEN))
  end.

(** The payload byte a routing target is read from. *)
Definition wire_target (w : Wire) (off : option Z) : option Z :=
  match off with Some o => w_payload w !! Z.to_nat o | None => None end.

Definition wire_header (w : Wire) (entry : option MsgEntry) : ParsedHeader :=
  {| version := Stx_version (w_stx w); source := w_source w; msgid := w_msgid w; seq := w_seq w;
     payload_len := Z.of_nat (length (w_payload w));
     target_system := wire_target w (entry ≫= target_sys_offset);
     target_component := wire_target w (entry ≫= target_comp_offset) |}.

(** ** The head of an encoded frame *)

Lemma le_u24_split m : in_width 24 m -> le_u24 (m mod 256) ((m / 256) mod 256) (m / 65536) = m.
Proof. unfold in_width, le_u24. intros. Z.div_mod_to_equations. lia. Qed.

Lemma le_u16_split c : is_u16 c -> le_u16 (c mod 256) (c / 256) = c.
Proof. unfold in_width, le_u16. intros. Z.div_mod_to_equations. lia. Qed.

Lemma length_wire_body w :
  length (wire_body w) = (Stx_header_len (w_stx w) - 1 + length (w_payload w))%nat.
Proof. unfold wire_body. rewrite length_app. by destruct (w_stx w). Qed.

Lemma length_wire_bytes w extra :
  length (wire_bytes w extra) =
  (Stx_header_len (w_stx w) + length (w_payload w) + CRC_LEN + length (w_signature w))%nat.
Proof.
  unfold wire_bytes. simpl. rewrite !length_app, length_wire_body. simpl.
  pose proof (header_len_pos (w_stx w)). unfold CRC_LEN. lia.
Qed.

Lemma wire_body_u8 w : wire_ok w -> (w_stx w = Stx_V2 -> is_u8 (w_incompat w)) -> Forall is_u8 (wire_body w).
Proof.
  intros (Hl & Hp & Hs & H1 & H2 & Hc & Hv) Hi. unfold wire_body. apply Forall_app; split; [|done].
  assert (is_u8 (Z.of_nat (length (w_payload w)))) by (unfold in_width; lia).
  destruct (w_stx w).
  - destruct Hv as [? _]. rewrite !Forall_cons. split_and!; done.
  - destruct Hv as [[Hm1 Hm2] _]. rewrite !Forall_cons.
    split_and!; auto; unfold in_width; Z.div_mod_to_equations; lia.
Qed.

Lemma wire_incompat_u8 w : wire_ok w -> w_stx w = Stx_V2 -> is_u8 (w_incompat w).
Proof.
  intros (_ & _ & _ & _ & _ & _ & Hv) E. rewrite E in Hv.
  destruct Hv as [_ [[-> _]|[-> _]]]; by unfold in_width.
Qed.

Lemma wire_plen w extra : byte_at (wire_bytes w extra) 1 = Z.of_nat (length (w_payload w)).
Proof. unfold wire_bytes, wire_body. by destruct (w_stx w). Qed.

Lemma wire_announced_len w extra :
  wire_ok w -> announced_len (w_stx w) (wire_bytes w extra) = Some (length (wire_bytes w extra)).
Proof.
  intros Hok. rewrite length_wire_bytes. unfold announced_len.
  rewrite wire_plen, Nat2Z.id. destruct Hok as (_ & _ & _ & _ & _ & _ & Hv).
  destruct (w_stx w) eqn:E; simpl.
  - destruct Hv as [_ ->]. simpl. f_equal. lia.
  - assert (Hb2 : byte_at (wire_bytes w extra) 2 = w_incompat w)
      by (unfold wire_bytes, wire_body; by rewrite E).
    rewrite Hb2. destruct Hv as [_ [[-> ->]|[-> ->]]]; simpl; done.
Qed.

Lemma wire_payload_end w extra :
  payload_end (w_stx w) (wire_bytes w extra) = (Stx_header_len (w_stx w) + length (w_payload w))%nat.
Proof. unfold payload_end. by rewrite wire_plen, Nat2Z.id. Qed.

Lemma wire_crc_covered w extra : crc_covered (w_stx w) (wire_bytes w extra) = wire_body w.
Proof.
  unfold crc_covered. rewrite wire_payload_end. unfold wire_bytes.
  rewrite skipn_cons, drop_0. rewrite take_app_length'; [done|].
  rewrite length_wire_body. pose proof (header_len_pos (w_stx w)). lia.
Qed.

Lemma byte_at_app_r (l k : list Z) i : byte_at (l ++ k) (length l + i) = byte_at k i.
Proof. unfold byte_at. by rewrite lookup_app_r, Nat.add_comm, Nat.add_sub by lia. Qed.

Lemma wire_crc_bytes w extra :
  let pe := payload_end (w_stx w) (wire_bytes w extra) in
  byte_at (wire_bytes w extra) pe = wire_crc w extra mod 256 /\
  byte_at (wire_bytes w extra) (pe + 1) = wire_crc w extra / 256.
Proof.
  rewrite wire_payload_end. cbv zeta. unfold wire_bytes.
  pose proof (header_len_pos (w_stx w)). pose proof (length_wire_body w).
  replace (Stx_header_len (w_stx w) + length (w_payload w))%nat with (S (length (wire_body w) + 0))%nat by lia.
  replace (S (length (wire_body w) + 0) + 1)%nat with (S (length (wire_body w) + 1)) by lia.
  rewrite !byte_at_cons_S, !byte_at_app_r. done.
Qed.

Lemma wire_header_of w extra :
  wire_ok w ->
  header_of (w_stx w) (wire_bytes w extra) = wire_header w None.
Proof.
  intros Hok. unfold wire_header, wire_bytes, wire_body.
  destruct Hok as (_ & _ & _ & _ & _ & _ & Hv). destruct w as [stx ic cc sq [sy co] m pl sg]; simpl in *.
  destruct stx; unfold header_of; simpl; [done|].
  destruct Hv as [Hm _]. unfold byte_at; simpl. by rewrite le_u24_split.
Qed.

Lemma wire_target_at w extra off :
  target_at (w_stx w) (wire_bytes w extra) off = wire_target w off.
Proof.
  unfold target_at, wire_target. destruct off as [o|]; [|done].
  rewrite wire_plen, Nat2Z.id.
  destruct (Nat.ltb_spec (Z.to_nat o) (length (w_payload w))) as [Hlt|Hge];
    [|symmetry; by apply lookup_ge_None].
  destruct (lookup_lt_is_Some_2 _ _ Hlt) as [x Hx]. rewrite Hx. f_equal.
  assert (Hpre : exists pre, wire_bytes w extra = pre ++ w_payload w ++
    [wire_crc w extra mod 256; wire_crc w extra / 256] ++ w_signature w /\
    length pre = Stx_header_len (w_stx w)).
  { unfold wire_bytes. unfold wire_body at 1. destruct (w_stx w).
    - by eexists [_; _; _; _; _; _].
    - by eexists [_; _; _; _; _; _; _; _; _; _]. }
  destruct Hpre as (pre & -> & <-). rewrite byte_at_app_r, byte_at_app_l by done.
  unfold byte_at. by rewrite Hx.
Qed.

(** ** Completeness *)

Section Completeness.
Context `{MsgTable}.

Lemma wire_full_header w extra :
  wire_ok w ->
  full_header (w_stx w) (wire_bytes w extra) = wire_header w (lookup_msg (w_msgid w)).
Proof.
  intros Hok. unfold full_header. rewrite wire_header_of by done. simpl.
  destruct (lookup_msg (w_msgid w)) as [e|]; [|done].
  rewrite !wire_target_at. done.
Qed.

Lemma wire_crc_matches w extra :
  wire_ok w -> is_u8 extra -> crc_matches (w_stx w) (wire_bytes w extra) extra = true.
Proof.
  intros Hok Hx. unfold crc_matches. rewrite wire_crc_covered.
  destruct (wire_crc_bytes w extra) as [-> ->]. apply Z.eqb_eq.
  rewrite le_u16_split; [done|].
  apply crc16_update_range, Hx. apply Crc16_update_slice_range; [auto with rmr|].
  apply wire_body_u8; [done|]. by apply wire_incompat_u8.
Qed.

Lemma wire_verdict w extra rest :
  wire_ok w ->
  (forall e, lookup_msg (w_msgid w) = Some e -> extra = crc_extra e /\ is_u8 extra) ->
  head_verdict (w_stx w) (wire_bytes w extra ++ rest) =
  Emit (wire_header w (lookup_msg (w_msgid w))) (wire_bytes w extra).
Proof.
  intros Hok He. pose proof (length_wire_bytes w extra) as Hl. unfold head_verdict. rewrite length_app.
  rewrite (proj2 (Nat.ltb_ge _ (Stx_header_len (w_stx w)))) by lia.
  rewrite announced_len_app by lia. rewrite wire_announced_len by done.
  rewrite (proj2 (Nat.ltb_ge _ (length (wire_bytes w extra)))) by lia.
  rewrite take_app_length, wire_full_header by done.
  unfold crc_accepts. rewrite wire_header_of by done. simpl.
  destruct (lookup_msg (w_msgid w)) as [e|] eqn:El; [|done].
  destruct (He e eq_refl) as [-> Hx]. by rewrite wire_crc_matches.
Qed.

Lemma wire_find_stx g w extra rest :
  Forall (fun b => b <> STX_V1 /\ b <> STX_V2) g ->
  find_stx (g ++ wire_bytes w extra ++ rest) = Some (length g, w_stx w).
Proof.
  intros Hg. rewrite find_stx_app_None.
  - rewrite (find_stx_head _ (w_stx w)) by (apply Stx_from_byte_Some; reflexivity).
    by rewrite Nat.add_0_r.
  - apply find_stx_None. eapply Forall_impl; [done|]. intros b [H1 H2]. simpl.
    unfold Stx_from_byte. destruct (Z.eqb_spec b STX_V1), (Z.eqb_spec b STX_V2); congruence.
Qed.

(** C4. Round trip and resynchronisation: behind any garbage without start bytes, a frame
    encoded with the table's seed (or any frame of an unknown msgid) is returned byte for
    byte, v1 or v2, signed or not, with the sender's version, source, msgid and sequence
    number and the targets read from the payload bytes the table names; the garbage is
    counted, the rest of the buffer is untouched. *)
Theorem framer_recovers_frame f g w extra rest :
  counters_ok f -> wire_ok w ->
  (forall e, lookup_msg (w_msgid w) = Some e -> extra = crc_extra e /\ is_u8 extra) ->
  Forall (fun b => b <> STX_V1 /\ b <> STX_V2) g ->
  buf f = g ++ wire_bytes w extra ++ rest ->
  try_next_frame f =
  Done (Some (wire_header w (lookup_msg (w_msgid w)), wire_bytes w extra),
        advanced f (Z.of_nat (length g)) 0 rest).
Proof.
  intros Hok Hw He Hg Hb. unfold try_next_frame. cbn [try_next_frame_loop].
  rewrite loop_body_Done, Hb, wire_find_stx by done. cbv zeta.
  rewrite drop_app_length, wire_verdict by done. by rewrite drop_app_length.
Qed.
End Completeness.

(** ** Corruption of one byte *)

(** Positions whose value decides how the bytes are framed: start byte, length, v2
    incompatibility flags, msgid. *)
Definition framing_position (stx : Stx) (i : nat) : Prop :=
  match stx with
  | Stx_V1 => i = 0%nat \/ i = 1%nat \/ i = 5%nat
  | Stx_V2 => i = 0%nat \/ i = 1%nat \/ i = 2%nat \/ i = 7%nat \/ i = 8%nat \/ i = 9%nat
  end.

Lemma byte_at_insert_ne (l : list Z) i j b : i <> j -> byte_at (<[i := b]> l) j = byte_at l j.
Proof. intros. unfold byte_at. by rewrite list_lookup_insert_ne. Qed.

Lemma byte_at_insert_eq (l : list Z) i b : (i < length l)%nat -> byte_at (<[i := b]> l) i = b.
Proof. intros. unfold byte_at. by rewrite list_lookup_insert_eq. Qed.

(** The CRC of a sequence changes when one of its bytes does. *)
Lemma crc_slice_insert_ne crc l i b b' :
  is_u16 crc -> Forall is_u8 l -> l !! i = Some b -> is_u8 b' -> b <> b' ->
  Crc16_update_slice crc (<[i := b']> l) <> Crc16_update_slice crc l.
Proof.
  intros Hc Hl Hi Hb' Hne. pose proof (lookup_lt_Some _ _ _ Hi).
  rewrite insert_take_drop by done. rewrite <- (take_drop_middle l i b Hi) at 3.
  intros Heq. symmetry in Heq. revert Heq. apply crc_single_byte_ne; auto.
  by rewrite take_drop_middle.
Qed.

Section Corruption.
Context `{MsgTable} {HT : MsgTableOk}.

Lemma corrupted_crc_mismatch w extra i b' :
  wire_ok w -> is_u8 extra -> is_u8 b' ->
  (2 <= i < payload_end (w_stx w) (wire_bytes w extra) + CRC_LEN)%nat ->
  byte_at (wire_bytes w extra) i <> b' ->
  crc_matches (w_stx w) (<[i := b']> (wire_bytes w extra)) extra = false.
Proof.
  intros Hok Hx Hb' Hi Hne. set (fr := wire_bytes w extra) in *. set (stx := w_stx w) in *.
  assert (Hlen : (payload_end stx fr + CRC_LEN <= length fr)%nat)
    by (apply announced_len_payload_end; by apply wire_announced_len).
  assert (Hpe : payload_end stx (<[i := b']> fr) = payload_end stx fr)
    by (unfold payload_end; by rewrite byte_at_insert_ne by lia).
  assert (Hcov : crc_covered stx (<[i := b']> fr) =
    if (i <? payload_end stx fr)%nat then <[(i - 1)%nat := b']> (crc_covered stx fr) else crc_covered stx fr).
  { unfold crc_covered. rewrite Hpe, drop_insert_ge by lia.
    destruct (Nat.ltb_spec i (payload_end stx fr)); [by rewrite take_insert_lt by lia|].
    by rewrite take_insert_ge by lia. }
  assert (Hu8 : Forall is_u8 (crc_covered stx fr))
    by (unfold fr, stx; rewrite wire_crc_covered; apply wire_body_u8; [done|by apply wire_incompat_u8]).
  assert (Hmatch := wire_crc_matches w extra Hok Hx). fold fr stx in Hmatch.
  unfold crc_matches in *. rewrite Hpe, Hcov. apply Z.eqb_eq in Hmatch. apply Z.eqb_neq. intros Heq.
  unfold CRC_LEN in *.
  destruct (Nat.ltb_spec i (payload_end stx fr)) as [Hlt|Hge].
  - rewrite !byte_at_insert_ne in Heq by lia. rewrite <- Hmatch in Heq.
    assert (Hat : crc_covered stx fr !! (i - 1)%nat = Some (byte_at fr i)).
    { unfold crc_covered. rewrite lookup_take_lt, lookup_drop by lia.
      replace (1 + (i - 1))%nat with i by lia. unfold byte_at.
      destruct (lookup_lt_is_Some_2 fr i) as [x ->]; [lia|done]. }
    apply crc16_update_inj_state in Heq; [| | |done].
    + revert Heq. eapply crc_slice_insert_ne; eauto with rmr.
    + apply Crc16_update_slice_range; [auto with rmr|]. by apply Forall_insert.
    + auto with rmr.
  - rewrite Hmatch in Heq. destruct (wire_crc_bytes w extra) as [H0 H1]. fold fr stx in H0, H1.
    assert (Hcrc : is_u16 (wire_crc w extra)).
    { unfold wire_crc. rewrite <- (wire_crc_covered w extra). fold fr stx. auto with rmr. }
    unfold in_width in *. unfold le_u16 in Heq.
    destruct (decide (i = payload_end stx fr)) as [->|].
    + rewrite byte_at_insert_eq, byte_at_insert_ne in Heq by lia. lia.
    + assert (i = payload_end stx fr + 1)%nat as -> by lia.
      rewrite byte_at_insert_eq, byte_at_insert_ne in Heq by lia. lia.
Qed.

Lemma corrupted_announced_len w extra i b' :
  wire_ok w -> ~ framing_position (w_stx w) i ->
  announced_len (w_stx w) (<[i := b']> (wire_bytes w extra)) = Some (length (wire_bytes w extra)).
Proof.
  intros Hok Hi. rewrite <- (wire_announced_len w extra Hok). unfold announced_len.
  rewrite byte_at_insert_ne by (intros ->; apply Hi; destruct (w_stx w); simpl; tauto).
  destruct (w_stx w); [done|].
  by rewrite byte_at_insert_ne by (intros ->; apply Hi; simpl; tauto).
Qed.

Lemma corrupted_msgid w extra i b' :
  wire_ok w -> ~ framing_position (w_stx w) i ->
  msgid (header_of (w_stx w) (<[i := b']> (wire_bytes w extra))) = w_msgid w.
Proof.
  intros Hok Hi. transitivity (msgid (header_of (w_stx w) (wire_bytes w extra)));
    [|by rewrite wire_header_of].
  destruct (w_stx w); simpl in *; by rewrite !byte_at_insert_ne by (intros ->; apply Hi; tauto).
Qed.

(** C16. A frame of a known msgid with one byte altered, anywhere from the sequence number to
    the stored CRC except at the length, flag and msgid bytes that decide the framing
    itself, is never forwarded: the iteration that meets it counts one CRC error,
    discards one byte and goes on scanning. *)
Theorem corrupted_frame_dropped f w e i b' rest :
  counters_ok f -> wire_ok w -> lookup_msg (w_msgid w) = Some e -> is_u8 b' ->
  ~ framing_position (w_stx w) i ->
  (i < Stx_header_len (w_stx w) + length (w_payload w) + CRC_LEN)%nat ->
  byte_at (wire_bytes w (crc_extra e)) i <> b' ->
  buf f = <[i := b']> (wire_bytes w (crc_extra e)) ++ rest ->
  loop_body f = Done (None, advanced f 1 1 (drop 1 (buf f))).
Proof.
  intros Hok Hw He Hb' Hi Hlt Hne Hb. set (fr := wire_bytes w (crc_extra e)) in *.
  assert (Hi2 : (2 <= i)%nat).
  { destruct i as [|[|i]]; [exfalso..|lia]; apply Hi; destruct (w_stx w); simpl; tauto. }
  pose proof (length_wire_bytes w (crc_extra e)) as Hl. fold fr in Hl.
  assert (Hs : find_stx (buf f) = Some (0%nat, w_stx w)).
  { rewrite Hb. apply find_stx_head. rewrite byte_at_app_l by (rewrite length_insert; lia).
    rewrite byte_at_insert_ne by lia. apply Stx_from_byte_Some; reflexivity. }
  rewrite loop_body_Done, Hs by done. cbv zeta. rewrite drop_0.
  assert (Hv : head_verdict (w_stx w) (buf f) = Skip true); [|by rewrite Hv].
  assert (Hlen : length (<[i := b']> fr) = length fr) by apply length_insert.
  unfold head_verdict. rewrite Hb, length_app, Hlen.
  rewrite (proj2 (Nat.ltb_ge _ (Stx_header_len (w_stx w)))) by lia.
  rewrite announced_len_app by lia. unfold fr at 1. rewrite corrupted_announced_len by done. fold fr.
  rewrite (proj2 (Nat.ltb_ge _ (length fr))) by lia.
  rewrite (take_app_length' (<[i := b']> fr)) by lia.
  unfold crc_accepts. unfold fr at 1. rewrite corrupted_msgid, He by done.
  assert (Hx : is_u8 (crc_extra e)) by (by eapply MsgTableOk_u8).
  unfold fr. rewrite corrupted_crc_mismatch; [done..| |done]. rewrite wire_payload_end. lia.
Qed.
End Corruption.

(** ** Examples: a HEARTBEAT against the sample table *)

Module Samples.
Import SampleTable.
Definition heartbeat : Wire :=
  {| w_stx := Stx_V1; w_incompat := 0; w_compat := 0; w_seq := 7; w_source := NodeId_new 1 1;
     w_msgid := 0; w_payload := [0; 0; 0; 0; 2; 3; 0; 0; 3]; w_signature := [] |}.
(** A signed PING to node (9, 5). *)
Definition ping : Wire :=
  {| w_stx := Stx_V2; w_incompat := 1; w_compat := 0; w_seq := 8; w_source := NodeId_new 255 190;
     w_msgid := 4; w_payload := [1; 2; 3; 4; 5; 6; 7; 8; 0; 0; 0; 1; 9; 5];
     w_signature := replicate 13 77 |}.
Definition framer_of (b : list Z) : Framer := {| buf := b; resync_bytes := 0; crc_errors := 0 |}.
End Samples.
Import Samples.
#[local] Existing Instance SampleTable.sample.
#[local] Existing Instance SampleTable.sample_ok.

Lemma heartbeat_ok : wire_ok heartbeat.
Proof. vm_compute; intuition (try congruence); repeat constructor; congruence. Qed.
Lemma ping_ok : wire_ok ping.
Proof. unfold wire_ok. split_and!; simpl; [lia| |done..|split; [done|by right]].
  repeat (apply Forall_cons; split; [done|]); by apply Forall_nil. Qed.
Lemma framer_of_ok b : counters_ok (framer_of b).
Proof. split; done. Qed.

Lemma framer_recovers_frame_witness :
  try_next_frame (framer_of ([1; 2; 3] ++ wire_bytes ping 237 ++ [254])) =
  Done (Some ({| version := Version_V2; source := NodeId_new 255 190; msgid := 4; seq := 8;
                 payload_len := 14; target_system := Some 9; target_component := Some 5 |},
              wire_bytes ping 237),
        {| buf := [254]; resync_bytes := 3; crc_errors := 0 |}).
Proof.
  refine (framer_recovers_frame (framer_of ([1; 2; 3] ++ wire_bytes ping 237 ++ [254]))
    [1; 2; 3] ping 237 [254] (framer_of_ok _) ping_ok _ _ eq_refl).
  - intros e He. change (Some (SampleTable.entry 237 (Some 12) (Some 13)) = Some e) in He.
    injection He as <-. done.
  - repeat constructor; done.
Defined.

Lemma corrupted_frame_dropped_witness :
  let fr := <[9%nat := 200]> (wire_bytes heartbeat 50) in
  loop_body (framer_of fr) = Done (None, {| buf := drop 1 fr; resync_bytes := 1; crc_errors := 1 |}).
Proof.
  refine (corrupted_frame_dropped (framer_of (<[9%nat := 200]> (wire_bytes heartbeat 50))) heartbeat
    (SampleTable.entry 50 None None) 9 200 [] (framer_of_ok _) heartbeat_ok eq_refl _ _ _ _ _).
  - done.
  - simpl. lia.
  - simpl. unfold V1_HEADER_LEN, CRC_LEN. lia.
  - done.
  - done.
Defined.
