(* ===== verification/LruVec.v ===== *)
(** * The vector-backed LRU shared by the learn table and the sequence tracker

    [src/src/router/learn.rs] and [src/src/endpoint/seq_tracker.rs] both keep a [Vec] of
    entries keyed by node with a [last_seen] stamp: a hit updates the entry in place, a miss
    evicts the entry with the oldest stamp when the vector is at capacity and pushes.  The
    two components have their own definitions; this file holds the lemmas they share, stated
    on [upsert], which both are instances of. *)

From S2P Require Import Prelude Frame.
#[local] Open Scope Z_scope.

#[global] Instance NodeId_countable : Countable NodeId.
Proof.
  refine (inj_countable' (fun n => (sys n, comp n)) (fun p => NodeId_new p.1 p.2) _). by intros [].
Defined.

Section LruMap.
Context {A : Type} (node : A -> NodeId).
Implicit Types l : list A.

Definition lru_find l (k : NodeId) : option A := List.find (fun x => NodeId_eqb (node x) k) l.

(** The vector as the finite map it implements. *)
Definition lru_map l : gmap NodeId A := list_to_map ((fun x => (node x, x)) <$> l).

(** Invariant: one entry per node, at most [cap] entries. *)
Definition lru_ok (cap : nat) l : Prop := NoDup (node <$> l) /\ (length l <= cap)%nat.

Lemma lru_keys l : ((fun x => (node x, x)) <$> l).*1 = node <$> l.
Proof. rewrite <- list_fmap_compose. done. Qed.

Lemma lru_map_perm l l' : NoDup (node <$> l) -> l ≡ₚ l' -> lru_map l = lru_map l'.
Proof.
  intros Hnd Hp. apply list_to_map_proper; [by rewrite lru_keys|by apply fmap_Permutation].
Qed.

Lemma lru_map_lookup l k x :
  NoDup (node <$> l) -> lru_map l !! k = Some x <-> x ∈ l /\ node x = k.
Proof.
  intros Hnd. unfold lru_map. rewrite <- elem_of_list_to_map by by rewrite lru_keys.
  rewrite list_elem_of_fmap. naive_solver.
Qed.

Lemma lru_map_cons x l : lru_map (x :: l) = <[node x := x]> (lru_map l).
Proof. done. Qed.

Lemma lru_map_None l k : lru_map l !! k = None <-> k ∉ node <$> l.
Proof. unfold lru_map. by rewrite <- not_elem_of_list_to_map, lru_keys. Qed.

Lemma size_lru_map l : NoDup (node <$> l) -> size (lru_map l) = length l.
Proof.
  induction l as [|x l IH]; simpl; [intros _; apply map_size_empty|].
  rewrite NoDup_cons. intros [Hx Hl]. rewrite lru_map_cons, map_size_insert_None, IH; [done..|].
  by apply lru_map_None.
Qed.

Lemma lru_find_lookup l k : NoDup (node <$> l) -> lru_find l k = lru_map l !! k.
Proof.
  intros Hnd. unfold lru_find. destruct (List.find _ l) as [x|] eqn:E.
  - apply find_Some in E as [Hx Hk%NodeId_eqb_eq]. symmetry. by apply lru_map_lookup.
  - apply find_None in E. symmetry. apply lru_map_None. rewrite list_elem_of_fmap.
    intros (x & -> & Hx). rewrite Forall_forall in E. specialize (E x Hx).
    by rewrite NodeId_eqb_refl in E.
Qed.
End LruMap.

Section Lru.
Context {A : Type} (node : A -> NodeId) (seen : A -> Z).
Implicit Types l : list A.

(** [evict_oldest]: [min_by_key(last_seen)] then [swap_remove]. *)
Definition lru_evict l : list A :=
  match min_index seen l with Some i => swap_remove i l | None => l end.

Definition upsert (cap : nat) (k : NodeId) (upd : A -> A) (fresh : A) l : list A :=
  match lru_find node l k with
  | Some _ => update_first (fun x => NodeId_eqb (node x) k) upd l
  | None => (if (cap <=? length l)%nat then lru_evict l else l) ++ [fresh]
  end.

(** The victim has the oldest stamp and nothing else is lost. *)
Lemma lru_evict_spec l :
  l <> [] -> exists v, l ≡ₚ v :: lru_evict l /\ Forall (fun x => seen v <= seen x) l.
Proof.
  intros Hne. unfold lru_evict. destruct (min_index seen l) as [i|] eqn:E;
    [|by apply min_index_None in E].
  apply min_index_Some in E as (v & Hv & Hmin & _). exists v.
  split; [by apply swap_remove_Permutation|]. apply Forall_forall. intros x [j Hj]%list_elem_of_lookup.
  eauto.
Qed.

Section Upsert.
Context (cap : nat) (k : NodeId) (upd : A -> A) (fresh : A).
Hypothesis Hcap : (1 <= cap)%nat.
Hypothesis Hupd : forall x, node (upd x) = node x.
Hypothesis Hfresh : node fresh = k.

Lemma upsert_hit l x :
  NoDup (node <$> l) -> lru_find node l k = Some x ->
  node <$> upsert cap k upd fresh l = node <$> l /\
  lru_map node (upsert cap k upd fresh l) = <[k := upd x]> (lru_map node l).
Proof.
  intros Hnd Hf. unfold upsert. rewrite Hf.
  split; [by apply update_first_map|]. pose proof (find_Some _ _ _ Hf) as [_ Hk%NodeId_eqb_eq].
  destruct (update_first_split _ upd _ _ Hf) as (l1 & l2 & Hl & -> & _). subst l.
  assert (Hp : l1 ++ x :: l2 ≡ₚ x :: l1 ++ l2) by solve_Permutation.
  assert (Hp' : l1 ++ upd x :: l2 ≡ₚ upd x :: l1 ++ l2) by solve_Permutation.
  rewrite (lru_map_perm node _ _ Hnd Hp), (lru_map_perm node (l1 ++ upd x :: l2) (upd x :: l1 ++ l2)); [|
    by rewrite Hp'; rewrite Hp in Hnd; simpl in *; rewrite Hupd|done].
  rewrite !lru_map_cons, Hupd, Hk, insert_insert_eq. done.
Qed.

Lemma NoDup_snoc_fresh l : NoDup (node <$> l) -> k ∉ node <$> l -> NoDup (node <$> (l ++ [fresh])).
Proof.
  intros Hnd Hk. rewrite fmap_app. apply NoDup_app.
  split_and!; [done| |apply NoDup_singleton]. simpl. rewrite Hfresh. set_solver.
Qed.

Lemma upsert_miss l :
  lru_ok node cap l -> lru_find node l k = None ->
  lru_ok node cap (upsert cap k upd fresh l) /\
  (if (length l <? cap)%nat
   then upsert cap k upd fresh l = l ++ [fresh]
   else exists v, l ≡ₚ v :: lru_evict l /\ Forall (fun x => seen v <= seen x) l /\
          upsert cap k upd fresh l = lru_evict l ++ [fresh]).
Proof.
  intros [Hnd Hlen] Hf. unfold upsert. rewrite Hf.
  rewrite lru_find_lookup in Hf by done. apply lru_map_None in Hf.
  destruct (Nat.leb_spec cap (length l)) as [Hge|Hlt].
  - rewrite (proj2 (Nat.ltb_ge _ _)) by lia.
    destruct (lru_evict_spec l) as (v & Hp & Hmin); [intros ->; simpl in *; lia|].
    split; [|by exists v]. rewrite Hp in Hnd, Hf, Hlen. simpl in *.
    apply NoDup_cons in Hnd as [_ Hnd]. split; [|rewrite length_app; simpl; lia].
    apply NoDup_snoc_fresh; [done|set_solver].
  - rewrite (proj2 (Nat.ltb_lt _ _)) by lia. split; [|done].
    split; [|rewrite length_app; simpl; lia].
    by apply NoDup_snoc_fresh.
Qed.

Lemma lru_map_snoc l :
  k ∉ node <$> l -> NoDup (node <$> l) -> lru_map node (l ++ [fresh]) = <[k := fresh]> (lru_map node l).
Proof.
  intros Hk Hnd. rewrite <- Hfresh, <- lru_map_cons. apply lru_map_perm; [|solve_Permutation].
  by apply NoDup_snoc_fresh.
Qed.

(** What one access does to the map: a hit updates the entry, a miss below capacity adds
    one, a miss at capacity replaces an entry with the oldest stamp. *)
Definition upsert_spec (m m' : gmap NodeId A) : Prop :=
  match m !! k with
  | Some x => m' = <[k := upd x]> m
  | None =>
      if (size m <? cap)%nat then m' = <[k := fresh]> m
      else exists v x, m !! v = Some x /\ (forall v' x', m !! v' = Some x' -> seen x <= seen x') /\
             m' = <[k := fresh]> (delete v m)
  end.

Lemma upsert_refines l :
  lru_ok node cap l ->
  lru_ok node cap (upsert cap k upd fresh l) /\
  upsert_spec (lru_map node l) (lru_map node (upsert cap k upd fresh l)).
Proof.
  intros Hok. pose proof Hok as [Hnd Hlen]. unfold upsert_spec.
  rewrite <- lru_find_lookup, size_lru_map by done.
  destruct (lru_find node l k) as [x|] eqn:E.
  - destruct (upsert_hit l x Hnd E) as [Hn ->]. split; [|done]. split; [by rewrite Hn|].
    unfold upsert. rewrite E, length_update_first. done.
  - destruct (upsert_miss l Hok E) as [Hok' Hm]. split; [done|].
    rewrite lru_find_lookup in E by done. pose proof E as Hk%lru_map_None.
    destruct (length l <? cap)%nat.
    + rewrite Hm. by apply lru_map_snoc.
    + destruct Hm as (v & Hp & Hmin & ->).
      assert (Hnd' : NoDup (node <$> v :: lru_evict l)) by by rewrite <- Hp.
      simpl in Hnd'. apply NoDup_cons in Hnd' as [Hv Hnd'].
      exists (node v), v. rewrite (lru_map_perm node _ _ Hnd Hp), lru_map_cons, lookup_insert_eq.
      split_and!; [done| |].
      * intros v' x'. rewrite <- lru_map_cons, <- (lru_map_perm node _ _ Hnd Hp), lru_map_lookup by done.
        intros [Hx _]. rewrite Forall_forall in Hmin. auto.
      * rewrite delete_insert_id by by apply lru_map_None. apply lru_map_snoc; [|done].
        rewrite Hp in Hk. set_solver.
Qed.
End Upsert.
End Lru.

(** ** Recency: fewer than [cap] later accesses do not evict a fresh entry *)

Section Recency.
Context {A : Type} (node : A -> NodeId) (seen : A -> Z).
Context (cap : nat) (n : NodeId) (t : Z).

Definition later (x : A) : bool := t <? seen x.

(** After [j] accesses later than [t]: [n]'s entry is present and not older than [t], no
    other entry is stamped [t], and at most [j] entries are stamped after [t]. *)
Definition recent (j : nat) (l : list A) : Prop :=
  lru_ok node cap l /\
  (exists x, x ∈ l /\ node x = n /\ t <= seen x) /\
  (forall y, y ∈ l -> seen y = t -> node y = n) /\
  (length (List.filter later l) <= j)%nat.

Lemma later_count_perm l l' :
  l ≡ₚ l' -> length (List.filter later l) = length (List.filter later l').
Proof. induction 1; simpl; repeat case_match; simpl; lia. Qed.

Lemma later_count_app l l' :
  length (List.filter later (l ++ l')) = (length (List.filter later l) + length (List.filter later l'))%nat.
Proof. by rewrite List.filter_app, length_app. Qed.

Lemma later_count_full l x :
  x ∈ l -> seen x = t -> (forall y, y ∈ l -> y <> x -> t < seen y) -> NoDup l ->
  (length l <= S (length (List.filter later l)))%nat.
Proof.
  intros Hx Ht Hlt Hnd. apply list_elem_of_split in Hx as (l1 & l2 & ->).
  assert (Hp : l1 ++ x :: l2 ≡ₚ x :: l1 ++ l2) by solve_Permutation.
  rewrite Hp in Hnd. apply NoDup_cons in Hnd as [Hx Hnd].
  rewrite (later_count_perm _ _ Hp), Hp. simpl. unfold later at 1. rewrite Ht, Z.ltb_irrefl.
  enough (List.filter later (l1 ++ l2) = l1 ++ l2) as -> by done.
  apply List.forallb_filter_id, forallb_forall. intros y Hy%list_elem_of_In.
  apply Z.ltb_lt, Hlt; [set_solver|]. intros ->. done.
Qed.

Lemma node_inj l x y : NoDup (node <$> l) -> x ∈ l -> y ∈ l -> node x = node y -> x = y.
Proof.
  intros Hnd Hx Hy Hxy. pose proof (proj2 (lru_map_lookup node l _ x Hnd) (conj Hx eq_refl)) as H1.
  pose proof (proj2 (lru_map_lookup node l _ y Hnd) (conj Hy eq_refl)) as H2. congruence.
Qed.

(** At capacity, an entry older than [n]'s exists, so [n]'s is not the victim. *)
Lemma recent_not_victim j l x :
  recent j l -> x ∈ l -> node x = n -> t <= seen x -> (S j < length l)%nat ->
  ~ Forall (fun y => seen x <= seen y) l.
Proof.
  intros ((Hnd & _) & _ & Hties & Hcnt) Hx Hn Htx Hj Hmin. rewrite Forall_forall in Hmin.
  destruct (decide (seen x = t)) as [Heq|Hne].
  - assert (length l <= S (length (List.filter later l)))%nat; [|lia].
    apply (later_count_full _ x); [done..| |by eapply NoDup_fmap_1]. intros y Hy Hyx.
    specialize (Hmin y Hy). destruct (decide (seen y = t)) as [Ht|]; [|lia].
    destruct Hyx. apply (node_inj l); [done..|]. rewrite Hn. auto.
  - assert (Hall : List.filter later l = l); [|rewrite Hall in Hcnt; lia].
    apply List.forallb_filter_id, forallb_forall. intros y Hy%list_elem_of_In.
    apply Z.ltb_lt. specialize (Hmin y Hy). lia.
Qed.

Lemma recent_upsert j l k upd fresh now :
  (1 <= cap)%nat -> (forall x, node (upd x) = node x) -> node fresh = k ->
  (forall x, seen (upd x) = now) -> seen fresh = now -> t < now -> (S j < cap)%nat ->
  recent j l -> recent (S j) (upsert node seen cap k upd fresh l).
Proof.
  intros Hcap Hupd Hfresh Hus Hfs Hnow Hj Hrec.
  pose proof Hrec as (Hok & (x & Hx & Hn & Htx) & Hties & Hcnt).
  destruct (upsert_refines node seen cap k upd fresh Hcap Hupd Hfresh l Hok) as [Hok' _].
  split; [done|]. destruct (lru_find node l k) as [y|] eqn:E.
  - unfold upsert. rewrite E.
    destruct (update_first_split _ upd _ _ E) as (l1 & l2 & -> & -> & _). split_and!.
    + rewrite elem_of_app, elem_of_cons in Hx. destruct Hx as [Hx|[->|Hx]];
        [exists x; split_and!; [set_solver|done..]| |exists x; split_and!; [set_solver|done..]].
      exists (upd y). rewrite Hupd, Hus. split_and!; [set_solver|done|lia].
    + intros z Hz Ht. rewrite elem_of_app, elem_of_cons in Hz.
      destruct Hz as [Hz|[->|Hz]]; [apply Hties; set_solver|rewrite Hus in Ht; lia|apply Hties; set_solver].
    + rewrite !later_count_app in *. simpl in *. repeat case_match; simpl in *; lia.
  - destruct (upsert_miss node seen cap k upd fresh Hcap Hupd Hfresh l Hok E) as [_ Hm].
    destruct (Nat.ltb_spec (length l) cap) as [Hlt|Hge].
    + rewrite Hm. split_and!.
      * exists x. set_solver.
      * intros z Hz Ht. rewrite elem_of_app, list_elem_of_singleton in Hz. destruct Hz as [Hz| ->]; [auto|lia].
      * rewrite later_count_app. simpl. case_match; simpl; lia.
    + destruct Hm as (v & Hp & Hmin & ->).
      assert (Hvx : v <> x) by (intros ->; eapply recent_not_victim; eauto; lia).
      split_and!.
      * exists x. rewrite Hp in Hx. set_solver.
      * intros z Hz Ht. rewrite elem_of_app, list_elem_of_singleton in Hz. destruct Hz as [Hz| ->]; [|lia].
        apply Hties; [|done]. rewrite Hp. set_solver.
      * rewrite later_count_app. rewrite (later_count_perm _ _ Hp) in Hcnt. simpl in *.
        repeat case_match; simpl in *; lia.
Qed.

Lemma upsert_stamped l k upd fresh x :
  (1 <= cap)%nat -> (forall x, node (upd x) = node x) -> node fresh = k ->
  (forall x, seen (upd x) = t) -> seen fresh = t -> lru_ok node cap l ->
  lru_map node (upsert node seen cap k upd fresh l) !! k = Some x -> seen x = t.
Proof.
  intros Hcap Hupd Hfresh Hus Hfs Hok.
  destruct (upsert_refines node seen cap k upd fresh Hcap Hupd Hfresh l Hok) as [_ Hspec].
  unfold upsert_spec in Hspec. destruct (lru_map node l !! k).
  - rewrite Hspec, lookup_insert_eq. intros [= <-]. done.
  - destruct (size _ <? cap)%nat; [rewrite Hspec, lookup_insert_eq; by intros [= <-]|].
    destruct Hspec as (v & y & _ & _ & ->). rewrite lookup_insert_eq. by intros [= <-].
Qed.

Lemma upsert_present l k upd fresh :
  (1 <= cap)%nat -> (forall x, node (upd x) = node x) -> node fresh = k -> lru_ok node cap l ->
  is_Some (lru_map node (upsert node seen cap k upd fresh l) !! k).
Proof.
  intros Hcap Hupd Hfresh Hok.
  destruct (upsert_refines node seen cap k upd fresh Hcap Hupd Hfresh l Hok) as [_ Hspec].
  unfold upsert_spec in Hspec. destruct (lru_map node l !! k); [rewrite Hspec, lookup_insert_eq; eauto|].
  destruct (size _ <? cap)%nat; [rewrite Hspec, lookup_insert_eq; eauto|].
  destruct Hspec as (v & y & _ & _ & ->). rewrite lookup_insert_eq. eauto.
Qed.

Lemma recent_init l k upd fresh :
  (1 <= cap)%nat -> (forall x, node (upd x) = node x) -> node fresh = k -> k = n ->
  (forall x, seen (upd x) = t) -> seen fresh = t ->
  lru_ok node cap l -> Forall (fun x => seen x < t) l ->
  recent 0 (upsert node seen cap k upd fresh l).
Proof.
  intros Hcap Hupd Hfresh -> Hus Hfs Hok Hold.
  destruct (upsert_refines node seen cap n upd fresh Hcap Hupd Hfresh l Hok) as [Hok' _].
  split; [done|].
  assert (Hin : forall y, y ∈ upsert node seen cap n upd fresh l -> seen y < t \/ (seen y = t /\ node y = n)).
  { rewrite Forall_forall in Hold. unfold upsert. destruct (lru_find node l n) as [y|] eqn:E.
    - intros z Hz%elem_of_update_first. destruct Hz as [Hz|(y' & Hy' & Hk%NodeId_eqb_eq & ->)]; [auto|].
      right. by rewrite Hus, Hupd.
    - intros z [Hz|Hz%list_elem_of_singleton]%elem_of_app; [|subst; auto]. left. apply Hold.
      case_match; [|done]. destruct (decide (l = [])) as [->|Hne]; [done|].
      destruct (lru_evict_spec seen l Hne) as (v & Hp & _). rewrite Hp. set_solver. }
  destruct (upsert_present l n upd fresh) as [x Hx]; [done..|].
  pose proof Hx as Hxt%upsert_stamped; [|done..]. destruct Hok' as [Hnd' _].
  apply lru_map_lookup in Hx as [Hx Hn]; [|done]. split_and!.
  - exists x. split_and!; [done..|lia].
  - intros y Hy Ht. destruct (Hin y Hy) as [|[_ ?]]; [lia|done].
  - enough (List.filter later (upsert node seen cap n upd fresh l) = []) as -> by done.
    destruct (List.filter later _) as [|y l'] eqn:E; [done|exfalso].
    assert (Hy : In y (y :: l')) by by left.
    rewrite <- E in Hy. apply List.filter_In in Hy as [Hy%list_elem_of_In Hl%Z.ltb_lt].
    destruct (Hin y Hy) as [|[? _]]; lia.
Qed.
End Recency.
