(* ===== verification/Learn.v ===== *)
(** * Learn tables ([src/src/router/learn.rs])

    The per-endpoint set of learned sources, a vector with LRU eviction.  It is shown to
    refine a finite map from node to last-seen stamp. *)

From S2P Require Import Prelude Frame LruVec.
#[local] Open Scope Z_scope.

(** [struct LearnEntry]; an [Instant] is a point on the monotonic clock. *)
Record LearnEntry := { le_node : NodeId; le_last_seen : Z }.

(** [struct LearnTable] *)
Record LearnTable := { entries : list LearnEntry; capacity : nat }.

Definition LearnTable_new (capacity : nat) : LearnTable :=
  {| entries := []; capacity := Nat.max capacity 1 |}.

Definition LearnTable_find (t : LearnTable) (node : NodeId) : option LearnEntry :=
  List.find (fun entry => NodeId_eqb (le_node entry) node) (entries t).

(** [fn evict_oldest(&mut self)] *)
Definition LearnTable_evict_oldest (t : LearnTable) : LearnTable :=
  match min_index le_last_seen (entries t) with
  | Some index => {| entries := swap_remove index (entries t); capacity := capacity t |}
  | None => t
  end.

(** [fn touch(&mut self, node: NodeId, now: Instant) -> bool] *)
Definition touch (t : LearnTable) (node : NodeId) (now : Z) : bool * LearnTable :=
  match LearnTable_find t node with
  | Some _ =>
      (false,
       {| entries := update_first (fun entry => NodeId_eqb (le_node entry) node)
                       (fun entry => {| le_node := le_node entry; le_last_seen := now |}) (entries t);
          capacity := capacity t |})
  | None =>
      let t := if (capacity t <=? length (entries t))%nat then LearnTable_evict_oldest t else t in
      (true,
       {| entries := entries t ++ [{| le_node := node; le_last_seen := now |}];
          capacity := capacity t |})
  end.

Definition contains (t : LearnTable) (node : NodeId) : bool :=
  match LearnTable_find t node with Some _ => true | None => false end.

Definition contains_sys (t : LearnTable) (s : Z) : bool :=
  existsb (fun entry => sys (le_node entry) =? s) (entries t).

Definition LearnTable_len (t : LearnTable) : nat := length (entries t).

(** ** Invariant and abstraction *)

Definition learn_ok (t : LearnTable) : Prop :=
  (1 <= capacity t)%nat /\ lru_ok le_node (capacity t) (entries t).

(** The table as a map from node to the stamp it was last seen at. *)
Definition learned (t : LearnTable) : gmap NodeId Z := le_last_seen <$> lru_map le_node (entries t).

Definition stamp_to (now : Z) (e : LearnEntry) : LearnEntry :=
  {| le_node := le_node e; le_last_seen := now |}.
Definition fresh_entry (node : NodeId) (now : Z) : LearnEntry :=
  {| le_node := node; le_last_seen := now |}.

Lemma touch_upsert t node now :
  (touch t node now).2 =
  {| entries := upsert le_node le_last_seen (capacity t) node (stamp_to now) (fresh_entry node now) (entries t);
     capacity := capacity t |}.
Proof.
  unfold touch, upsert. unfold LearnTable_find, lru_find. destruct (List.find _ (entries t)); [done|].
  destruct (capacity t <=? length (entries t))%nat; [|done].
  unfold LearnTable_evict_oldest, lru_evict. by destruct (min_index le_last_seen (entries t)).
Qed.

Lemma learn_new_ok c : learn_ok (LearnTable_new c).
Proof. split; simpl; [lia|]. split; simpl; [constructor|lia]. Qed.

Lemma touch_ok t node now : learn_ok t -> learn_ok (touch t node now).2.
Proof.
  intros [Hc Hok]. rewrite touch_upsert. split; [done|]. by apply upsert_refines.
Qed.

Lemma contains_lookup t node :
  learn_ok t -> contains t node = true <-> is_Some (learned t !! node).
Proof.
  intros [_ [Hnd _]]. unfold contains, learned. rewrite lookup_fmap, fmap_is_Some.
  rewrite <- (lru_find_lookup le_node) by done. unfold LearnTable_find, lru_find.
  destruct (List.find _ _); split; naive_solver.
Qed.

Lemma contains_In t node : contains t node = true <-> node ∈ le_node <$> entries t.
Proof.
  unfold contains, LearnTable_find.
  transitivity (is_Some (List.find (fun entry => NodeId_eqb (le_node entry) node) (entries t))).
  { destruct (List.find _ _); split; naive_solver. }
  rewrite find_is_Some, list_elem_of_fmap. setoid_rewrite NodeId_eqb_eq. naive_solver.
Qed.

Lemma contains_sys_exists t s :
  contains_sys t s = true <-> exists c, contains t (NodeId_new s c) = true.
Proof.
  unfold contains_sys. rewrite existsb_exists'. setoid_rewrite Z.eqb_eq. split.
  - intros (e & He & <-). exists (comp (le_node e)). apply contains_In.
    apply list_elem_of_fmap. exists e. split; [|done]. by destruct (le_node e).
  - intros (c & Hc%contains_In). apply list_elem_of_fmap in Hc as (e & Heq & He).
    exists e. split; [done|]. by rewrite <- Heq.
Qed.

Lemma touch_contains_self t node now : learn_ok t -> contains (touch t node now).2 node = true.
Proof.
  intros Hok. apply contains_lookup; [by apply touch_ok|]. destruct Hok as [Hc Hok].
  rewrite touch_upsert. unfold learned; simpl. rewrite lookup_fmap, fmap_is_Some.
  by apply upsert_present.
Qed.

(** A table contains only nodes that were touched. *)
Lemma touch_contains_inv t node now x : contains (touch t node now).2 x = true -> contains t x = true \/ x = node.
Proof.
  rewrite !contains_In, touch_upsert. cbn [entries]. unfold upsert. destruct (lru_find le_node (entries t) node).
  { assert (le_node <$> update_first (fun e => NodeId_eqb (le_node e) node) (stamp_to now) (entries t) = le_node <$> entries t) as ->;
      [by apply update_first_map|by left]. }
  rewrite fmap_app, elem_of_app. intros [Hx|Hx]; [left|right; by apply list_elem_of_singleton in Hx].
  destruct (_ <=? _)%nat; [|done]. unfold lru_evict in Hx. destruct (min_index _ _) as [i|] eqn:E; [|done].
  apply min_index_Some in E as (v & Hv & _). rewrite (swap_remove_Permutation _ _ _ Hv). by apply list_elem_of_further.
Qed.

#[export] Hint Resolve touch_ok learn_new_ok touch_contains_self : rmr.

(** ** Refinement *)

(** What a sighting does to the learned map: an entry is refreshed; a new node is added
    while there is room; at capacity one entry with the oldest stamp makes room for it. *)
Definition touch_spec (cap : nat) (m : gmap NodeId Z) (node : NodeId) (now : Z) (m' : gmap NodeId Z) : Prop :=
  if decide (is_Some (m !! node) \/ (size m < cap)%nat) then m' = <[node := now]> m
  else exists v s, m !! v = Some s /\ (forall v' s', m !! v' = Some s' -> s <= s') /\
         m' = <[node := now]> (delete v m).

(** [touch] keeps one entry per node and at most [capacity] entries, and implements the
    map update: a known node is re-stamped, a new one is added, and at capacity exactly one
    entry, with the oldest stamp, is dropped for it.  The result says whether the node is
    new, and [len] is the size of the map. *)
Theorem touch_refines t node now :
  learn_ok t ->
  learn_ok (touch t node now).2 /\
  touch_spec (capacity t) (learned t) node now (learned (touch t node now).2) /\
  (touch t node now).1 = negb (contains t node) /\
  LearnTable_len (touch t node now).2 = size (learned (touch t node now).2).
Proof.
  intros Hok. split_and!.
  - auto with rmr.
  - destruct Hok as [Hc Hok]. unfold touch_spec.
    destruct (upsert_refines le_node le_last_seen (capacity t) node (stamp_to now) (fresh_entry node now)
      Hc (fun _ => eq_refl) eq_refl (entries t) Hok) as [_ Hs].
    rewrite touch_upsert. unfold learned in *; simpl.
    unfold upsert_spec in Hs. destruct (lru_map le_node (entries t) !! node) as [x|] eqn:E.
    + rewrite decide_True by (left; rewrite lookup_fmap, E; eauto). by rewrite Hs, fmap_insert.
    + destruct (Nat.ltb_spec (size (lru_map le_node (entries t))) (capacity t)) as [Hlt|Hge].
      * rewrite decide_True by (right; by rewrite map_size_fmap). by rewrite Hs, fmap_insert.
      * rewrite decide_False by (rewrite lookup_fmap, E, map_size_fmap; intros [[] |]; [done|lia]).
        destruct Hs as (v & x & Hv & Hmin & ->). exists v, (le_last_seen x).
        rewrite lookup_fmap, Hv, fmap_insert, fmap_delete. split_and!; [done| |done].
        intros v' s'. rewrite lookup_fmap. intros (x' & Hx' & ->)%fmap_Some. eauto.
  - unfold touch, contains. by destruct (LearnTable_find t node).
  - destruct (touch_ok t node now Hok) as [_ [Hnd _]]. unfold LearnTable_len, learned.
    by rewrite map_size_fmap, size_lru_map.
Qed.

Fixpoint touch_all (t : LearnTable) (touches : list (NodeId * Z)) : LearnTable :=
  match touches with
  | [] => t
  | (node, now) :: rest => touch_all (touch t node now).2 rest
  end.

Lemma capacity_touch t node now : capacity (touch t node now).2 = capacity t.
Proof. by rewrite touch_upsert. Qed.

Lemma touch_all_recent touches t n s j :
  learn_ok t -> recent le_node le_last_seen (capacity t) n s j (entries t) ->
  Forall (fun p => s < p.2) touches -> (j + length touches < capacity t)%nat ->
  recent le_node le_last_seen (capacity t) n s (j + length touches) (entries (touch_all t touches)).
Proof.
  revert t j; induction touches as [|[k now] touches IH]; intros t j Hok Hrec HF Hlen; simpl in *.
  { by rewrite Nat.add_0_r. }
  apply Forall_cons in HF as [Hnow HF]. simpl in Hnow.
  rewrite <- Nat.add_succ_comm, <- (capacity_touch t k now).
  apply IH; [auto with rmr| |done|rewrite capacity_touch; lia].
  rewrite touch_upsert; simpl. eapply recent_upsert; eauto; try done; [by destruct Hok|lia].
Qed.

(** Eviction is least-recently-used: a node just learned, stamped later than everything
    in the table, is still contained after any [capacity - 1] or fewer later sightings of
    other nodes. *)
Theorem learned_node_survives t n s touches :
  learn_ok t -> Forall (fun e => le_last_seen e < s) (entries t) ->
  Forall (fun p => s < p.2) touches -> (length touches < capacity t)%nat ->
  contains (touch_all (touch t n s).2 touches) n = true.
Proof.
  intros Hok Hold HF Hlen. apply contains_In, list_elem_of_fmap.
  assert (Hrec : recent le_node le_last_seen (capacity t) n s 0 (entries (touch t n s).2)).
  { rewrite touch_upsert; simpl. destruct Hok as [Hc Hok]. by apply recent_init. }
  rewrite <- (capacity_touch t n s) in Hrec, Hlen.
  destruct (touch_all_recent touches _ n s 0 (touch_ok t n s Hok) Hrec HF Hlen) as (_ & (x & ? & ? & _) & _).
  eauto.
Qed.

Lemma touch_refines_witness :
  learn_ok (touch (LearnTable_new 2) (NodeId_new 1 1) 10).2.
Proof.
  destruct (touch_refines (LearnTable_new 2) (NodeId_new 1 1) 10 (learn_new_ok 2)) as (Hok & _). exact Hok.
Defined.

Lemma learned_node_survives_witness :
  contains (touch_all (touch (LearnTable_new 3) (NodeId_new 1 1) 10).2
              [(NodeId_new 2 1, 11); (NodeId_new 3 1, 12)]) (NodeId_new 1 1) = true.
Proof.
  apply (learned_node_survives (LearnTable_new 3) (NodeId_new 1 1) 10); [apply learn_new_ok|constructor| |].
  - repeat constructor; simpl; lia.
  - simpl. lia.
Defined.
