(* ===== verification/SeqTracker.v ===== *)
(** * Sequence-loss accounting ([src/src/endpoint/seq_tracker.rs]) *)

From S2P Require Import Prelude Frame LruVec.
#[local] Open Scope Z_scope.

Definition DEFAULT_SEQ_GAP_THRESHOLD : Z := 64.

(** [struct Entry] *)
Record SeqEntry := { se_node : NodeId; se_last_seq : Z; se_last_seen : Z }.

(** [struct SeqTracker] *)
Record SeqTracker := { st_entries : list SeqEntry; st_capacity : nat; st_threshold : Z }.

Definition SeqTracker_new (capacity : nat) : SeqTracker :=
  {| st_entries := []; st_capacity := Nat.max capacity 1; st_threshold := DEFAULT_SEQ_GAP_THRESHOLD |}.

Definition SeqTracker_find_mut (t : SeqTracker) (node : NodeId) : option SeqEntry :=
  List.find (fun entry => NodeId_eqb (se_node entry) node) (st_entries t).

Definition SeqTracker_evict_oldest (t : SeqTracker) : SeqTracker :=
  match min_index se_last_seen (st_entries t) with
  | Some index => {| st_entries := swap_remove index (st_entries t);
                     st_capacity := st_capacity t; st_threshold := st_threshold t |}
  | None => t
  end.

(** [seq.wrapping_sub(entry.last_seq).wrapping_sub(1)] on [u8]. *)
Definition seq_gap (seq last_seq : Z) : Z := wrap 8 (wrap 8 (seq - last_seq) - 1).

(** [fn observe(&mut self, node: NodeId, seq: u8, now: Instant) -> u32] *)
Definition observe (t : SeqTracker) (node : NodeId) (seq now : Z) : Z * SeqTracker :=
  match SeqTracker_find_mut t node with
  | Some entry =>
      let gap := seq_gap seq (se_last_seq entry) in
      let t' :=
        {| st_entries := update_first (fun entry => NodeId_eqb (se_node entry) node)
                           (fun entry => {| se_node := se_node entry; se_last_seq := seq; se_last_seen := now |})
                           (st_entries t);
           st_capacity := st_capacity t; st_threshold := st_threshold t |} in
      if (0 <? gap) && (gap <? st_threshold t) then (gap, t') else (0, t')
  | None =>
      let t := if (st_capacity t <=? length (st_entries t))%nat then SeqTracker_evict_oldest t else t in
      (0, {| st_entries := st_entries t ++ [{| se_node := node; se_last_seq := seq; se_last_seen := now |}];
             st_capacity := st_capacity t; st_threshold := st_threshold t |})
  end.

(** ** Invariant and abstraction *)

Definition seq_ok (t : SeqTracker) : Prop :=
  (1 <= st_capacity t)%nat /\ lru_ok se_node (st_capacity t) (st_entries t).

(** The last sequence number recorded for each tracked source. *)
Definition last_seqs (t : SeqTracker) : gmap NodeId Z := se_last_seq <$> lru_map se_node (st_entries t).

Lemma observe_upsert t node seq now :
  (observe t node seq now).2 =
  {| st_entries := upsert se_node se_last_seen (st_capacity t) node
       (fun e => {| se_node := se_node e; se_last_seq := seq; se_last_seen := now |})
       {| se_node := node; se_last_seq := seq; se_last_seen := now |} (st_entries t);
     st_capacity := st_capacity t; st_threshold := st_threshold t |}.
Proof.
  unfold observe, upsert, SeqTracker_find_mut, lru_find. destruct (List.find _ (st_entries t)); [by case_match|].
  destruct (st_capacity t <=? length (st_entries t))%nat; [|done].
  unfold SeqTracker_evict_oldest, lru_evict. by destruct (min_index se_last_seen (st_entries t)).
Qed.

Lemma seq_new_ok c : seq_ok (SeqTracker_new c).
Proof. split; simpl; [lia|]. split; simpl; [constructor|lia]. Qed.

Lemma observe_ok t node seq now : seq_ok t -> seq_ok (observe t node seq now).2.
Proof. intros [Hc Hok]. rewrite observe_upsert. split; [done|]. by apply upsert_refines. Qed.

Lemma find_mut_lookup t node :
  seq_ok t -> se_last_seq <$> SeqTracker_find_mut t node = last_seqs t !! node.
Proof.
  intros [_ [Hnd _]]. unfold last_seqs. rewrite lookup_fmap, <- (lru_find_lookup se_node) by done. done.
Qed.

Lemma observe_lost t node seq now :
  seq_ok t ->
  (observe t node seq now).1 =
  match last_seqs t !! node with
  | Some last => let gap := (seq - last - 1) mod 256 in
                 if (0 <? gap) && (gap <? st_threshold t) then gap else 0
  | None => 0
  end.
Proof.
  intros Hok. rewrite <- find_mut_lookup by done. unfold observe.
  destruct (SeqTracker_find_mut t node) as [e|]; [|done]. simpl. unfold seq_gap.
  replace (wrap 8 (seq - se_last_seq e) - 1) with (wrap 8 (seq - se_last_seq e) + (-1)) by lia.
  rewrite wrap_wrap_add. unfold wrap. change (2 ^ 8) with 256.
  replace (seq - se_last_seq e + -1) with (seq - se_last_seq e - 1) by lia. by case_match.
Qed.

Lemma observe_last_seq t node seq now :
  seq_ok t -> last_seqs (observe t node seq now).2 !! node = Some seq.
Proof.
  intros [Hc Hok]. rewrite observe_upsert. unfold last_seqs; simpl. rewrite lookup_fmap.
  set (upd := fun e => {| se_node := se_node e; se_last_seq := seq; se_last_seen := now |}).
  set (fresh := {| se_node := node; se_last_seq := seq; se_last_seen := now |}).
  destruct (upsert_refines se_node se_last_seen (st_capacity t) node upd fresh
    Hc (fun _ => eq_refl) eq_refl (st_entries t) Hok) as [_ Hs].
  unfold upsert_spec in Hs. destruct (lru_map se_node (st_entries t) !! node).
  - by rewrite Hs, lookup_insert_eq.
  - destruct (size _ <? _)%nat; [by rewrite Hs, lookup_insert_eq|].
    destruct Hs as (v & x & _ & _ & ->). by rewrite lookup_insert_eq.
Qed.

#[export] Hint Resolve observe_ok seq_new_ok : rmr.

(** ** A stream of one source *)

Fixpoint observe_all (t : SeqTracker) (node : NodeId) (seqs : list Z) (now : Z) : Z * SeqTracker :=
  match seqs with
  | [] => (0, t)
  | s :: rest =>
      let '(lost, t) := observe t node s now in
      let '(lost', t) := observe_all t node rest (now + 1) in
      (lost + lost', t)
  end.

(** The sequence numbers received when, after [last], [g] frames are lost before each. *)
Fixpoint received_seqs (last : Z) (gaps : list Z) : list Z :=
  match gaps with
  | [] => []
  | g :: rest => let s := (last + 1 + g) mod 256 in s :: received_seqs s rest
  end.

Lemma observe_gap t node last g now :
  seq_ok t -> last_seqs t !! node = Some last -> 0 <= g < st_threshold t -> st_threshold t <= 256 ->
  (observe t node ((last + 1 + g) mod 256) now).1 = g.
Proof.
  intros Hok Hl Hg Ht. rewrite observe_lost, Hl by done. cbv zeta.
  assert (Hm : ((last + 1 + g) mod 256 - last - 1) mod 256 = g).
  { replace ((last + 1 + g) mod 256 - last - 1) with ((last + 1 + g) mod 256 - (last + 1)) by lia.
    rewrite Zminus_mod_idemp_l. replace (last + 1 + g - (last + 1)) with g by lia. apply Z.mod_small. lia. }
  rewrite Hm. destruct (Z.ltb_spec 0 g), (Z.ltb_spec g (st_threshold t)); simpl; lia.
Qed.

(** C39. Loss accounting is exact for losses shorter than the restart threshold: from a
    tracked source whose frames arrive with any number of lost frames below the threshold
    between them, wrapping through 255, the estimates add up to the frames actually lost. *)
Theorem observe_all_counts_losses t node last gaps now :
  seq_ok t -> last_seqs t !! node = Some last ->
  st_threshold t = DEFAULT_SEQ_GAP_THRESHOLD ->
  Forall (fun g => 0 <= g < DEFAULT_SEQ_GAP_THRESHOLD) gaps ->
  (observe_all t node (received_seqs last gaps) now).1 = foldr Z.add 0 gaps.
Proof.
  intros Hok Hl Ht HF. revert t last now Hok Hl Ht.
  induction HF as [|g gaps Hg HF IH]; intros t last now Hok Hl Ht; [done|]. simpl.
  set (s := (last + 1 + g) mod 256).
  pose proof (observe_gap t node last g now Hok Hl) as Hg1. fold s in Hg1.
  pose proof (observe_ok t node s now Hok) as Hok'. pose proof (observe_last_seq t node s now Hok) as Hl'.
  assert (Ht' : st_threshold (observe t node s now).2 = DEFAULT_SEQ_GAP_THRESHOLD)
    by (rewrite observe_upsert; done).
  destruct (observe t node s now) as [lost t'] eqn:E. simpl in *.
  specialize (IH t' s (now + 1) Hok' Hl' Ht').
  destruct (observe_all t' node (received_seqs s gaps) (now + 1)) as [lost' t'']. simpl in *.
  unfold DEFAULT_SEQ_GAP_THRESHOLD in *. rewrite Hg1 by lia. lia.
Qed.

(** One observation: a source seen for the first time, an exact successor, a duplicate and
    a jump of the threshold or more all report nothing; a smaller gap is reported as is and
    is always below the threshold; the source's last sequence number is recorded. *)
Theorem observe_cases t node s now :
  seq_ok t -> is_u8 s ->
  st_threshold t = DEFAULT_SEQ_GAP_THRESHOLD ->
  let lost := (observe t node s now).1 in
  (last_seqs t !! node = None -> lost = 0) /\
  (forall last, last_seqs t !! node = Some last -> is_u8 last ->
     (s = (last + 1) mod 256 -> lost = 0) /\ (s = last -> lost = 0) /\
     (forall g, 0 <= g < 256 -> s = (last + 1 + g) mod 256 -> lost = if g <? 64 then g else 0)) /\
  0 <= lost < 64 /\
  last_seqs (observe t node s now).2 !! node = Some s.
Proof.
  intros Hok Hs Ht. cbv zeta. rewrite observe_lost, Ht by done. unfold DEFAULT_SEQ_GAP_THRESHOLD, in_width in *.
  split_and!; [by intros ->| | | |by apply observe_last_seq].
  - intros last -> Hu. split_and!.
    + intros ->. assert ((((last + 1) mod 256) - last - 1) mod 256 = 0) as ->; [|done].
      Z.div_mod_to_equations. lia.
    + intros ->. replace (last - last - 1) with (-1) by lia. done.
    + intros g Hg ->. assert ((((last + 1 + g) mod 256) - last - 1) mod 256 = g) as ->.
      { Z.div_mod_to_equations. lia. }
      destruct (Z.ltb_spec 0 g), (Z.ltb_spec g 64); simpl; lia.
  - destruct (last_seqs t !! node); [|lia]. destruct (_ && _) eqn:E; bool_hyps; lia.
  - destruct (last_seqs t !! node); [|lia]. destruct (_ && _) eqn:E; bool_hyps; lia.
Qed.

Lemma observe_all_counts_losses_witness :
  let t := (observe (SeqTracker_new 32) (NodeId_new 1 1) 250 0).2 in
  received_seqs 250 [3; 0; 5] = [254; 255; 5] /\
  (observe_all t (NodeId_new 1 1) [254; 255; 5] 1).1 = 8.
Proof.
  split; [reflexivity|].
  apply (observe_all_counts_losses (observe (SeqTracker_new 32) (NodeId_new 1 1) 250 0).2
    (NodeId_new 1 1) 250 [3; 0; 5] 1); [apply observe_ok, seq_new_ok|reflexivity|reflexivity|].
  repeat constructor; lia.
Defined.

Lemma observe_cases_witness :
  (observe (observe (SeqTracker_new 32) (NodeId_new 1 1) 250 0).2 (NodeId_new 1 1) 2 1).1 = 7.
Proof.
  destruct (observe_cases (observe (SeqTracker_new 32) (NodeId_new 1 1) 250 0).2 (NodeId_new 1 1) 2 1)
    as (_ & H & _); [apply observe_ok, seq_new_ok|done|reflexivity|].
  destruct (H 250 eq_refl) as (_ & _ & Hg); [done|]. apply (Hg 7); [lia|reflexivity].
Defined.
