(* ===== verification/Dedup.v ===== *)
(** * The duplicate-suppression window ([src/src/router/dedup.rs])

    The frame hash ([twox_hash::XxHash3_64::oneshot], a third-party function) is the parameter
    [hash]; no property of it is needed: the window is exact on hashes.  Instants and
    durations are [Z] nanoseconds. *)

From Stdlib Require Import Sorted.
From S2P Require Import Prelude.
#[local] Open Scope Z_scope.

(** [struct Entry] *)
Record DedupEntry := { de_hash : Z; de_deadline : Z }.

(** [struct DedupWindow] *)
Record DedupWindow := {
  dw_ring : list DedupEntry;
  dw_set : gset Z;
  dw_capacity : nat;
  dw_ttl : Z;
}.

Definition DedupWindow_new (ttl : Z) (capacity : nat) : DedupWindow :=
  {| dw_ring := []; dw_set := ∅; dw_capacity := Nat.max capacity 1; dw_ttl := ttl |}.

(** [!self.ttl.is_zero()] *)
Definition is_enabled (w : DedupWindow) : bool := negb (dw_ttl w =? 0).

(** The loop of [fn expire_stale(&mut self, now: Instant)]. *)
Fixpoint expire_loop (ring : list DedupEntry) (set : gset Z) (now : Z) : list DedupEntry * gset Z :=
  match ring with
  | [] => ([], set)
  | front :: rest =>
      if now <? de_deadline front then (front :: rest, set)
      else expire_loop rest (set ∖ {[de_hash front]}) now
  end.

Definition expire_stale (w : DedupWindow) (now : Z) : DedupWindow :=
  let '(ring, set) := expire_loop (dw_ring w) (dw_set w) now in
  {| dw_ring := ring; dw_set := set; dw_capacity := dw_capacity w; dw_ttl := dw_ttl w |}.

Definition DedupWindow_evict_oldest (w : DedupWindow) : DedupWindow :=
  match dw_ring w with
  | [] => w
  | victim :: rest =>
      {| dw_ring := rest; dw_set := dw_set w ∖ {[de_hash victim]};
         dw_capacity := dw_capacity w; dw_ttl := dw_ttl w |}
  end.

Section WithHash.
Context (hash : list Z -> Z).

(** [fn check_and_insert(&mut self, frame: &Bytes, now: Instant) -> bool] *)
Definition check_and_insert (w : DedupWindow) (frame : list Z) (now : Z) : bool * DedupWindow :=
  if negb (is_enabled w) then (false, w)
  else
    let w := expire_stale w now in
    let h := hash frame in
    if decide (h ∈ dw_set w) then (true, w)
    else
      let w := if (dw_capacity w <=? length (dw_ring w))%nat then DedupWindow_evict_oldest w else w in
      (false,
       {| dw_ring := dw_ring w ++ [{| de_hash := h; de_deadline := now + dw_ttl w |}];
          dw_set := {[h]} ∪ dw_set w;
          dw_capacity := dw_capacity w; dw_ttl := dw_ttl w |}).
End WithHash.

(** ** Invariant

    The set holds exactly the ring's hashes, each once; the ring is bounded; deadlines are
    in order and at most a TTL ahead of [clock], the last time the window was consulted. *)

Record dedup_ok (clock : Z) (w : DedupWindow) : Prop := {
  ok_set : dw_set w = list_to_set (de_hash <$> dw_ring w);
  ok_nodup : NoDup (de_hash <$> dw_ring w);
  ok_cap : (1 <= dw_capacity w)%nat;
  ok_len : (length (dw_ring w) <= dw_capacity w)%nat;
  ok_sorted : StronglySorted (fun a b => de_deadline a <= de_deadline b) (dw_ring w);
  ok_deadline : Forall (fun e => de_deadline e <= clock + dw_ttl w) (dw_ring w);
  ok_ttl : 0 <= dw_ttl w;
}.

Definition live (now : Z) (e : DedupEntry) : bool := now <? de_deadline e.

Lemma dedup_new_ok ttl cap clock : 0 <= ttl -> dedup_ok clock (DedupWindow_new ttl cap).
Proof. intros. split; simpl; try done; try constructor; lia. Qed.

(** On ordered deadlines, popping the stale prefix keeps exactly the live entries. *)
Lemma expire_loop_filter ring now set :
  StronglySorted (fun a b => de_deadline a <= de_deadline b) ring ->
  (expire_loop ring set now).1 = List.filter (live now) ring.
Proof.
  intros Hs; revert set; induction Hs as [|e ring Hs IH Hle]; intros set; simpl; [done|].
  unfold live at 1. destruct (Z.ltb_spec now (de_deadline e)); [|apply IH]. simpl. f_equal.
  symmetry. apply List.forallb_filter_id, forallb_forall. intros x Hx%list_elem_of_In.
  rewrite Forall_forall in Hle. apply Z.ltb_lt. specialize (Hle x Hx). simpl in Hle. lia.
Qed.

Lemma expire_loop_set ring now set :
  NoDup (de_hash <$> ring) -> set = list_to_set (de_hash <$> ring) ->
  (expire_loop ring set now).2 = list_to_set (de_hash <$> (expire_loop ring set now).1).
Proof.
  revert set; induction ring as [|e ring IH]; intros set Hnd ->; simpl; [done|].
  simpl in Hnd. apply NoDup_cons in Hnd as [He Hnd]. destruct (now <? de_deadline e); [done|].
  apply IH; [done|]. apply set_eq. intros x.
  rewrite elem_of_difference, elem_of_union, elem_of_singleton, elem_of_list_to_set. clear IH. set_solver.
Qed.

Lemma filter_Forall {A} (P : A -> Prop) p (l : list A) : Forall P l -> Forall P (List.filter p l).
Proof. induction 1; simpl; [done|]. case_match; auto. Qed.

Lemma filter_StronglySorted {A} (R : A -> A -> Prop) p (l : list A) :
  StronglySorted R l -> StronglySorted R (List.filter p l).
Proof.
  induction 1; simpl; [constructor|]. case_match; [|done]. constructor; [done|]. by apply filter_Forall.
Qed.

Lemma filter_NoDup_fmap {A B} (f : A -> B) p (l : list A) :
  NoDup (f <$> l) -> NoDup (f <$> List.filter p l).
Proof.
  induction l as [|x l IH]; simpl; [done|]. rewrite NoDup_cons. intros [Hx Hl]. case_match; [|auto].
  simpl. apply NoDup_cons. split; [|auto]. rewrite list_elem_of_fmap in *. intros (y & ? & Hy).
  apply Hx. exists y. split; [done|]. apply list_elem_of_In, List.filter_In in Hy as [Hy _]. by apply list_elem_of_In.
Qed.

Lemma expire_stale_ring clock w now :
  dedup_ok clock w -> dw_ring (expire_stale w now) = List.filter (live now) (dw_ring w).
Proof.
  intros Hok. unfold expire_stale. rewrite <- (expire_loop_filter _ _ (dw_set w)) by apply Hok.
  by destruct (expire_loop _ _ _).
Qed.

Lemma expire_stale_fields w now :
  dw_capacity (expire_stale w now) = dw_capacity w /\ dw_ttl (expire_stale w now) = dw_ttl w.
Proof. unfold expire_stale. by destruct (expire_loop _ _ _). Qed.

Lemma filter_length_le {A} p (l : list A) : (length (List.filter p l) <= length l)%nat.
Proof. induction l; simpl; [lia|]. case_match; simpl; lia. Qed.

Lemma expire_stale_ok clock w now :
  dedup_ok clock w -> clock <= now -> dedup_ok now (expire_stale w now).
Proof.
  intros Hok Hnow. pose proof (expire_stale_ring clock w now Hok) as Hr.
  destruct (expire_stale_fields w now) as [Hc Ht]. split; rewrite ?Hc, ?Ht, ?Hr; try apply Hok.
  - rewrite <- Hr. unfold expire_stale.
    pose proof (expire_loop_set (dw_ring w) now (dw_set w) (ok_nodup _ _ Hok) (ok_set _ _ Hok)) as H.
    by destruct (expire_loop _ _ _).
  - apply filter_NoDup_fmap, Hok.
  - etrans; [apply filter_length_le|apply Hok].
  - apply filter_StronglySorted, Hok.
  - eapply Forall_impl; [apply filter_Forall, Hok|]. simpl. intros. lia.
Qed.

Lemma evict_oldest_ok clock w : dedup_ok clock w -> dedup_ok clock (DedupWindow_evict_oldest w).
Proof.
  intros [Hs Hnd Hc Hl Hso Hd Ht]. unfold DedupWindow_evict_oldest.
  destruct (dw_ring w) as [|v ring] eqn:E; [by split; rewrite ?E|]. simpl in *.
  apply NoDup_cons in Hnd as [Hv Hnd]. apply StronglySorted_inv in Hso as [Hso _].
  apply Forall_cons in Hd as [_ Hd]. split; simpl; try done; [|lia].
  rewrite Hs. set_solver.
Qed.

Lemma StronglySorted_snoc {A} (R : A -> A -> Prop) (l : list A) x :
  StronglySorted R l -> Forall (fun y => R y x) l -> StronglySorted R (l ++ [x]).
Proof.
  induction 1 as [|y l Hs IH Hy]; simpl; intros HF; [by repeat constructor|].
  apply Forall_cons in HF as [Hyx HF]. constructor; [by apply IH|]. apply Forall_app. auto.
Qed.

Lemma drop_StronglySorted {A} (R : A -> A -> Prop) k (l : list A) : StronglySorted R l -> StronglySorted R (drop k l).
Proof.
  revert k; induction l as [|x l IH]; intros [|k] Hs; simpl; try done. apply StronglySorted_inv in Hs as [Hs _]. by apply IH.
Qed.

(** Pushing a hash that is not in the window. *)
Lemma push_ok clock w h :
  dedup_ok clock w -> h ∉ dw_set w -> (length (dw_ring w) < dw_capacity w)%nat ->
  dedup_ok clock {| dw_ring := dw_ring w ++ [{| de_hash := h; de_deadline := clock + dw_ttl w |}];
                    dw_set := {[h]} ∪ dw_set w; dw_capacity := dw_capacity w; dw_ttl := dw_ttl w |}.
Proof.
  intros [Hs Hnd Hc Hl Hso Hd Ht] Hh Hlt. rewrite Hs, elem_of_list_to_set in Hh. split; simpl; try done.
  - rewrite Hs, fmap_app, list_to_set_app_L. set_solver.
  - rewrite fmap_app. apply NoDup_app. split_and!; [done|set_solver|apply NoDup_singleton].
  - rewrite length_app. simpl. lia.
  - by apply StronglySorted_snoc.
  - apply Forall_app. split; [done|]. by repeat constructor.
Qed.

Section Props.
Context (hash : list Z -> Z).

Lemma check_and_insert_ok clock w frame now :
  dedup_ok clock w -> clock <= now -> dedup_ok now (check_and_insert hash w frame now).2.
Proof.
  intros Hok Hnow. unfold check_and_insert. destruct (negb (is_enabled w)).
  { destruct Hok as [? ? ? ? ? Hd ?]. split; try done. simpl.
    eapply Forall_impl; [apply Hd|]. simpl; intros; lia. }
  pose proof (expire_stale_ok clock w now Hok Hnow) as Hok1. set (w1 := expire_stale w now) in *.
  destruct (decide (hash frame ∈ dw_set w1)) as [|Hh]; [done|]. cbv zeta. simpl snd.
  destruct (Nat.leb_spec (dw_capacity w1) (length (dw_ring w1))) as [Hge|Hlt]; [|by apply push_ok].
  pose proof (ok_cap _ _ Hok1).
  apply push_ok; [by apply evict_oldest_ok| |]; unfold DedupWindow_evict_oldest;
    pose proof (ok_len _ _ Hok1); destruct (dw_ring w1) eqn:E; simpl in *; try lia.
  set_solver.
Qed.

Lemma expired_member clock w now h :
  dedup_ok clock w -> clock <= now ->
  h ∈ dw_set (expire_stale w now) <->
  exists e, e ∈ dw_ring w /\ de_hash e = h /\ now < de_deadline e.
Proof.
  intros Hok Hnow. rewrite (ok_set _ _ (expire_stale_ok clock w now Hok Hnow)).
  rewrite elem_of_list_to_set, (expire_stale_ring clock) by done. rewrite list_elem_of_fmap.
  setoid_rewrite list_elem_of_In. setoid_rewrite List.filter_In. unfold live.
  setoid_rewrite Z.ltb_lt. naive_solver.
Qed.

Lemma check_and_insert_dup clock w frame now :
  dedup_ok clock w -> clock <= now -> dw_ttl w <> 0 ->
  (check_and_insert hash w frame now).1 = true <->
  exists e, e ∈ dw_ring w /\ de_hash e = hash frame /\ now < de_deadline e.
Proof.
  intros Hok Hnow Ht. rewrite <- (expired_member clock w now) by done.
  unfold check_and_insert, is_enabled. rewrite (proj2 (Z.eqb_neq _ _)) by done. simpl.
  destruct (decide (hash frame ∈ dw_set (expire_stale w now))); by split.
Qed.

(** One consultation of the window.  Disabled ([ttl = 0]) it never suppresses and never
    changes.  Enabled, it suppresses a frame exactly when an entry with the frame's hash
    is still before its deadline; the invariant (set = hashes of the ring, no hash twice,
    at most [capacity] entries, ordered deadlines) is kept, and a suppressed frame leaves
    the deadlines of the live entries alone, so repeats do not extend the window. *)
Theorem check_and_insert_exact clock w frame now :
  dedup_ok clock w -> clock <= now ->
  let '(dup, w') := check_and_insert hash w frame now in
  dedup_ok now w' /\
  (dw_ttl w = 0 -> dup = false /\ w' = w) /\
  (dw_ttl w <> 0 ->
     (dup = true <-> exists e, e ∈ dw_ring w /\ de_hash e = hash frame /\ now < de_deadline e) /\
     (dup = true -> dw_ring w' = List.filter (live now) (dw_ring w)) /\
     (dup = false -> last (dw_ring w') = Some {| de_hash := hash frame; de_deadline := now + dw_ttl w |})).
Proof.
  intros Hok Hnow. pose proof (check_and_insert_ok clock w frame now Hok Hnow) as Hok'.
  pose proof (check_and_insert_dup clock w frame now Hok Hnow) as Hdup.
  destruct (check_and_insert hash w frame now) as [dup w'] eqn:E. simpl in *.
  unfold check_and_insert, is_enabled in E. split_and!; [done| |].
  - intros Ht. rewrite Ht in E. simpl in E. by simplify_eq.
  - intros Ht. split; [auto|]. rewrite (proj2 (Z.eqb_neq _ _)) in E by done. simpl in E.
    destruct (decide (hash frame ∈ dw_set (expire_stale w now))); simplify_eq; split; try done.
    + intros _. by apply (expire_stale_ring clock).
    + intros _. simpl. rewrite last_snoc. do 2 f_equal.
      destruct (expire_stale_fields w now) as [_ <-].
      unfold DedupWindow_evict_oldest. by repeat case_match.
Qed.
End Props.

(** A hash that collides often, for the examples. *)
Definition length_hash (frame : list Z) : Z := Z.of_nat (length frame).

(** ** Against the history

    The reference keeps the hash and time of every accepted frame and suppresses a frame
    when one of the last [cap] accepted ones has its hash and is less than a TTL old. *)

Section History.
Context (hash : list Z -> Z) (ttl : Z) (cap : nat).
Hypothesis Httl : 0 <= ttl.
Hypothesis Hcap : (1 <= cap)%nat.

Abbreviation history := (list (Z * Z)).

Definition ref_dup (h : history) (frame : list Z) (now : Z) : bool :=
  existsb (fun '(x, t0) => (x =? hash frame) && (now <? t0 + ttl)) (last_n cap h).

Fixpoint ref_run (h : history) (frames : list (list Z * Z)) : list bool :=
  match frames with
  | [] => []
  | (frame, now) :: rest =>
      let dup := ref_dup h frame now in
      dup :: ref_run (if dup then h else h ++ [(hash frame, now)]) rest
  end.

Fixpoint window_run (w : DedupWindow) (frames : list (list Z * Z)) : list bool :=
  match frames with
  | [] => []
  | (frame, now) :: rest =>
      let '(dup, w') := check_and_insert hash w frame now in dup :: window_run w' rest
  end.

Definition entry_of (p : Z * Z) : DedupEntry := {| de_hash := p.1; de_deadline := p.2 + ttl |}.

(** The ring's live entries are those of the last [cap] accepted frames. *)
Record tracks (clock : Z) (w : DedupWindow) (h : history) : Prop := {
  tr_ok : dedup_ok clock w;
  tr_ttl : dw_ttl w = ttl;
  tr_cap : dw_capacity w = cap;
  tr_sorted : StronglySorted (fun a b => a.2 <= b.2) h;
  tr_past : Forall (fun p => p.2 <= clock) h;
  tr_live : List.filter (live clock) (dw_ring w) = List.filter (live clock) (entry_of <$> last_n cap h);
}.

Lemma tracks_new clock : tracks clock (DedupWindow_new ttl cap) [].
Proof. split; try done; [by apply dedup_new_ok|simpl; lia|constructor]. Qed.

Lemma filter_live_mono now now' l :
  now <= now' -> List.filter (live now') (List.filter (live now) l) = List.filter (live now') l.
Proof.
  intros Hle. induction l as [|e l IH]; simpl; [done|].
  destruct (live now e) eqn:E; simpl; rewrite IH; [done|].
  destruct (live now' e) eqn:E'; [|done]. unfold live in *. bool_hyps. lia.
Qed.

(** As time passes, fewer entries are live. *)
Lemma tracks_live clock w h now :
  tracks clock w h -> clock <= now ->
  List.filter (live now) (dw_ring w) = List.filter (live now) (entry_of <$> last_n cap h).
Proof.
  intros Ht Hnow. pose proof (f_equal (List.filter (live now)) (tr_live _ _ _ Ht)) as Heq.
  by rewrite !filter_live_mono in Heq by done.
Qed.

Lemma last_n_past clock w h : tracks clock w h -> Forall (fun p => p.2 <= clock) (last_n cap h).
Proof. intros Ht. unfold last_n. apply Forall_drop, Ht. Qed.

Lemma tracks_dup clock w h frame now :
  tracks clock w h -> clock <= now -> (check_and_insert hash w frame now).1 = ref_dup h frame now.
Proof.
  intros Ht Hnow. pose proof (tracks_live _ _ _ _ Ht Hnow) as Heq. pose proof (last_n_past _ _ _ Ht) as Hpast. rewrite Forall_forall in Hpast.
  destruct (decide (ttl = 0)) as [Hz|Hz].
  { unfold check_and_insert, is_enabled. rewrite (tr_ttl _ _ _ Ht), Hz. symmetry. apply not_true_is_false.
    unfold ref_dup. rewrite existsb_exists'. intros ([x t0] & Hx%Hpast & Hb). bool_hyps. simpl in Hx. lia. }
  apply eq_true_iff_eq. rewrite (check_and_insert_dup hash clock w frame now (tr_ok _ _ _ Ht) Hnow) by (by rewrite (tr_ttl _ _ _ Ht)).
  unfold ref_dup. rewrite existsb_exists'.
  assert (Hmem : forall e, (e ∈ dw_ring w /\ now < de_deadline e) <-> (e ∈ entry_of <$> last_n cap h /\ now < de_deadline e)).
  { intros e. rewrite <- !(Z.ltb_lt now). change (now <? de_deadline e) with (live now e).
    rewrite !list_elem_of_In, <- !List.filter_In, Heq. done. }
  split.
  - intros (e & He & Hh & Hd). destruct (proj1 (Hmem e) (conj He Hd)) as [He' _].
    apply list_elem_of_fmap in He' as ([x t0] & -> & Hx). exists (x, t0). split; [done|].
    simpl in *. rewrite Hh, Z.eqb_refl. by apply Z.ltb_lt.
  - intros ([x t0] & Hx & Hb). bool_hyps. subst x. set (e := entry_of (hash frame, t0)).
    destruct (proj2 (Hmem e)) as [He Hd]; [|by exists e].
    split; [|done]. apply list_elem_of_fmap. by exists (hash frame, t0).
Qed.

(** Of an ordered history, if the oldest entry is live all are. *)
Lemma oldest_live now p (l : history) :
  StronglySorted (fun a b => a.2 <= b.2) (p :: l) -> live now (entry_of p) = true ->
  List.filter (live now) (entry_of <$> p :: l) = entry_of <$> p :: l.
Proof.
  intros [_ Hle]%StronglySorted_inv Hp. apply forallb_filter_id, forallb_forall. intros e (q & -> & Hq)%list_elem_of_In%list_elem_of_fmap.
  apply elem_of_cons in Hq as [->|Hq]; [done|]. rewrite Forall_forall in Hle. specialize (Hle q Hq). unfold live in *. simpl in *. bool_hyps. apply Z.ltb_lt; lia.
Qed.

Lemma last_n_push (h : history) p :
  last_n cap (h ++ [p]) = (if (cap <=? length (last_n cap h))%nat then tail (last_n cap h) else last_n cap h) ++ [p].
Proof.
  rewrite <- last_n_snoc by done. assert (Hl : (length (last_n cap h) <= cap)%nat) by (unfold last_n; rewrite length_drop; lia).
  destruct (Nat.leb_spec cap (length (last_n cap h))) as [Hf|Hf].
  - unfold last_n at 1. rewrite length_app. simpl. replace (length (last_n cap h) + 1 - cap)%nat with 1%nat by lia.
    destruct (last_n cap h); [simpl in *; lia|done].
  - rewrite (last_n_short cap (last_n cap h ++ [p])); [done|]. rewrite length_app. simpl. lia.
Qed.

(** Evicting from the live ring and forgetting from the history come to the same. *)
Lemma live_pushed now (h : history) :
  StronglySorted (fun a b => a.2 <= b.2) h ->
  let ring := List.filter (live now) (entry_of <$> last_n cap h) in
  List.filter (live now) (if (cap <=? length ring)%nat then tail ring else ring) =
  List.filter (live now) (entry_of <$> (if (cap <=? length (last_n cap h))%nat then tail (last_n cap h) else last_n cap h)).
Proof.
  intros Hs. assert (Hl : (length (last_n cap h) <= cap)%nat) by (unfold last_n; rewrite length_drop; lia).
  assert (Hs' : StronglySorted (fun a b => a.2 <= b.2) (last_n cap h)) by by apply drop_StronglySorted.
  set (L := last_n cap h) in *. clearbody L. cbv zeta.
  pose proof (filter_length_le (live now) (entry_of <$> L)) as Hle. rewrite length_fmap in Hle.
  destruct (Nat.leb_spec cap (length L)) as [Hf|Hf].
  - destruct L as [|p0 L]; [simpl in *; lia|]. destruct (live now (entry_of p0)) eqn:E.
    + rewrite oldest_live, (proj2 (Nat.leb_le _ _)) by (done || (rewrite length_fmap; lia)). done.
    + rewrite fmap_cons. cbn [List.filter]. rewrite E, (proj2 (Nat.leb_gt _ _)).
      * by rewrite filter_live_mono.
      * pose proof (filter_length_le (live now) (entry_of <$> L)) as Hle'. rewrite length_fmap in Hle'. simpl in *. lia.
  - rewrite (proj2 (Nat.leb_gt _ _)) by lia. by rewrite filter_live_mono.
Qed.

Lemma tracks_step clock w h frame now :
  tracks clock w h -> clock <= now ->
  let '(dup, w') := check_and_insert hash w frame now in
  dup = ref_dup h frame now /\ tracks now w' (if dup then h else h ++ [(hash frame, now)]).
Proof.
  intros Ht Hnow. pose proof (tracks_dup clock w h frame now Ht Hnow) as Hdup. pose proof (tracks_live _ _ _ _ Ht Hnow) as Heq.
  pose proof (check_and_insert_ok hash clock w frame now (tr_ok _ _ _ Ht) Hnow) as Hok'.
  destruct Ht as [Hok Htt Hc Hs Hp _].
  assert (Hp' : Forall (fun p => p.2 <= now) h) by (eapply Forall_impl; [exact Hp|]; simpl; intros; lia).
  assert (Hs' : StronglySorted (fun a b => a.2 <= b.2) (h ++ [(hash frame, now)])) by (by apply StronglySorted_snoc).
  assert (Hp'' : Forall (fun p => p.2 <= now) (h ++ [(hash frame, now)])) by (apply Forall_app; split; [done|]; apply Forall_singleton; simpl; lia).
  destruct (check_and_insert hash w frame now) as [dup w'] eqn:E. simpl in Hdup, Hok'. split; [done|].
  unfold check_and_insert, is_enabled in E. destruct (Z.eqb_spec (dw_ttl w) 0) as [Hz|Hz]; simpl in E.
  { injection E as <- <-. split; try done. rewrite Heq, last_n_push, fmap_app, List.filter_app.
    assert (Hnone : forall l, Forall (fun p => p.2 <= now) l -> List.filter (live now) (entry_of <$> l) = []).
    { induction l as [|q l IH]; [done|]. intros [Hq Hl]%Forall_cons. rewrite fmap_cons. cbn [List.filter]. rewrite IH by done. unfold live. cbn.
      rewrite (proj2 (Z.ltb_ge _ _)) by lia. done. }
    assert (Hln : Forall (fun p => p.2 <= now) (last_n cap h)) by (by apply Forall_drop).
    rewrite !Hnone; [done|apply Forall_singleton; simpl; lia| |done]. case_match; [|done].
    destruct (last_n cap h); [done|]. by apply Forall_cons in Hln as [_ ?]. }
  destruct (expire_stale_fields w now) as [Hec Het]. pose proof (expire_stale_ring clock w now Hok) as Hr.
  destruct (decide (hash frame ∈ dw_set (expire_stale w now))); injection E as <- <-.
  - split; try done; [congruence|congruence|]. rewrite Hr, filter_live_mono by lia. done.
  - assert (Hf : forall v, dw_capacity (if (v : bool) then DedupWindow_evict_oldest (expire_stale w now) else expire_stale w now) = cap /\
      dw_ttl (if v then DedupWindow_evict_oldest (expire_stale w now) else expire_stale w now) = ttl).
    { intros []; unfold DedupWindow_evict_oldest; destruct (dw_ring (expire_stale w now)); simpl; split; congruence. }
    destruct (Hf (dw_capacity (expire_stale w now) <=? length (dw_ring (expire_stale w now)))%nat) as [Hfc Hft].
    split; try done. cbn [dw_ring]. rewrite Hft, last_n_push, fmap_app, !List.filter_app. f_equal.
    rewrite <- live_pushed by done. cbv zeta. rewrite <- Heq, <- Hr, Hec, Hc. f_equal.
    destruct (cap <=? _)%nat; [|done]. unfold DedupWindow_evict_oldest. by destruct (dw_ring (expire_stale w now)) eqn:Er.
Qed.

(** Times of the frames are in order, starting at [clock]. *)
Fixpoint ordered_from (clock : Z) (frames : list (list Z * Z)) : Prop :=
  match frames with
  | [] => True
  | (_, now) :: rest => clock <= now /\ ordered_from now rest
  end.

Lemma window_run_ref clock w h frames :
  tracks clock w h -> ordered_from clock frames -> window_run w frames = ref_run h frames.
Proof.
  revert clock w h; induction frames as [|[frame now] frames IH]; intros clock w h Htr Hord; [done|].
  destruct Hord as [Hnow Hord]. cbn [window_run ref_run]. pose proof (tracks_step clock w h frame now Htr Hnow) as Hstep.
  destruct (check_and_insert hash w frame now) as [dup w']. destruct Hstep as [<- Htr']. f_equal. by eapply IH.
Qed.

(** C21. The window refines the history of accepted frames, for any number of frames and any
    TTL: with its ring, its set and its expiry it suppresses exactly the frames of which a
    copy (by hash) is among the last [cap] accepted ones and less than a TTL old. *)
Theorem window_refines_history clock frames :
  ordered_from clock frames -> window_run (DedupWindow_new ttl cap) frames = ref_run [] frames.
Proof. intros Hord. by apply (window_run_ref clock); [apply tracks_new|]. Qed.
End History.

Lemma check_and_insert_exact_witness :
  (check_and_insert length_hash (DedupWindow_new 100 4) [1; 2] 10).1 = false.
Proof.
  pose proof (check_and_insert_exact length_hash 0 (DedupWindow_new 100 4) [1; 2] 10
    (dedup_new_ok 100 4 0 ltac:(lia)) ltac:(lia)) as H.
  destruct (check_and_insert length_hash (DedupWindow_new 100 4) [1; 2] 10) as [dup w'].
  destruct H as (_ & _ & H). destruct (H ltac:(simpl; lia)) as [Hd _]. simpl.
  destruct dup; [|reflexivity]. destruct (proj1 Hd eq_refl) as (e & He & _). by apply not_elem_of_nil in He.
Defined.

(** A window of two: the third frame is a copy of the first, which two others have pushed out. *)
Lemma window_refines_history_witness :
  window_run length_hash (DedupWindow_new 100 2) [([1; 2], 0); ([3; 4], 50); ([5], 60); ([6; 7; 8], 70); ([9; 9], 90)]
  = [false; true; false; false; false].
Proof.
  rewrite (window_refines_history length_hash 100 2 ltac:(lia) ltac:(lia) 0 [([1; 2], 0); ([3; 4], 50); ([5], 60); ([6; 7; 8], 70); ([9; 9], 90)]);
    [vm_compute; reflexivity|simpl; lia].
Defined.
