(* ===== verification/Filters.v ===== *)
(** * Per-endpoint filters: data and decisions ([src/src/endpoint/filters.rs])

    The parser of filter lists is in [FilterParse]. *)

From S2P Require Import Prelude Frame.
#[local] Open Scope Z_scope.

(** [struct MsgIdRange], inclusive. *)
Record MsgIdRange := { mr_lo : Z; mr_hi : Z }.
Definition MsgIdRange_contains (r : MsgIdRange) (value : Z) : bool :=
  (mr_lo r <=? value) && (value <=? mr_hi r).

(** [struct U8Range], inclusive. *)
Record U8Range := { ur_lo : Z; ur_hi : Z }.
Definition U8Range_contains (r : U8Range) (value : Z) : bool :=
  (ur_lo r <=? value) && (value <=? ur_hi r).

(** [struct Filters] *)
Record Filters := {
  allow_msgid_in : list MsgIdRange;
  block_msgid_in : list MsgIdRange;
  allow_msgid_out : list MsgIdRange;
  block_msgid_out : list MsgIdRange;
  allow_src_sys_in : list U8Range;
  block_src_sys_in : list U8Range;
  allow_src_sys_out : list U8Range;
  block_src_sys_out : list U8Range;
  allow_src_comp_in : list U8Range;
  block_src_comp_in : list U8Range;
  allow_src_comp_out : list U8Range;
  block_src_comp_out : list U8Range;
  allow_src_endpoint_out : list string;
  block_src_endpoint_out : list string;
}.

(** [Filters::default()] *)
Definition Filters_default : Filters :=
  {| allow_msgid_in := []; block_msgid_in := []; allow_msgid_out := []; block_msgid_out := [];
     allow_src_sys_in := []; block_src_sys_in := []; allow_src_sys_out := []; block_src_sys_out := [];
     allow_src_comp_in := []; block_src_comp_in := []; allow_src_comp_out := []; block_src_comp_out := [];
     allow_src_endpoint_out := []; block_src_endpoint_out := [] |}.

Definition pass_msgid_axis (value : Z) (allow block : list MsgIdRange) : bool :=
  if negb (length allow =? 0)%nat && negb (existsb (fun range => MsgIdRange_contains range value) allow)
  then false
  else negb (existsb (fun range => MsgIdRange_contains range value) block).

Definition pass_u8_axis (value : Z) (allow block : list U8Range) : bool :=
  if negb (length allow =? 0)%nat && negb (existsb (fun range => U8Range_contains range value) allow)
  then false
  else negb (existsb (fun range => U8Range_contains range value) block).

Definition pass_src_endpoint_axis (name : string) (allow block : list string) : bool :=
  if negb (length allow =? 0)%nat && negb (existsb (fun entry => String.eqb entry name) allow)
  then false
  else negb (existsb (fun entry => String.eqb entry name) block).

(** [fn passes_in_filter(&self, msgid: u32, src: NodeId) -> bool] *)
Definition passes_in_filter (f : Filters) (msgid : Z) (src : NodeId) : bool :=
  pass_msgid_axis msgid (allow_msgid_in f) (block_msgid_in f)
  && pass_u8_axis (sys src) (allow_src_sys_in f) (block_src_sys_in f)
  && pass_u8_axis (comp src) (allow_src_comp_in f) (block_src_comp_in f).

(** [fn passes_out_filter(&self, msgid: u32, src: NodeId, src_endpoint_name: &str) -> bool] *)
Definition passes_out_filter (f : Filters) (msgid : Z) (src : NodeId) (src_endpoint_name : string) : bool :=
  pass_msgid_axis msgid (allow_msgid_out f) (block_msgid_out f)
  && pass_u8_axis (sys src) (allow_src_sys_out f) (block_src_sys_out f)
  && pass_u8_axis (comp src) (allow_src_comp_out f) (block_src_comp_out f)
  && pass_src_endpoint_axis src_endpoint_name (allow_src_endpoint_out f) (block_src_endpoint_out f).

(** [fn src_endpoint_out_entries(&self)] *)
Definition src_endpoint_out_entries (f : Filters) : list (string * string) :=
  map (fun entry => ("allow_src_endpoint_out", entry)%string) (allow_src_endpoint_out f)
  ++ map (fun entry => ("block_src_endpoint_out", entry)%string) (block_src_endpoint_out f).

(** ** The declarative reading

    A list of entries denotes the set of values some entry matches; an axis lets a value
    through when the allow list is empty or matches it, and no block entry matches it. *)

Definition axis_admits {E : Type} (matches : E -> Prop) (allow block : list E) : Prop :=
  (allow = [] \/ Exists matches allow) /\ Forall (fun e => ~ matches e) block.

Definition in_msgid_range (value : Z) (r : MsgIdRange) : Prop := mr_lo r <= value <= mr_hi r.
Definition in_u8_range (value : Z) (r : U8Range) : Prop := ur_lo r <= value <= ur_hi r.

Section Axis.
Context {E V : Type} (test : E -> V -> bool) (matches : V -> E -> Prop).
Hypothesis test_spec : forall e v, test e v = true <-> matches v e.

(** The shape the three [pass_*_axis] functions share. *)
Lemma axis_shape v (allow block : list E) :
  (if negb (length allow =? 0)%nat && negb (existsb (fun e => test e v) allow) then false
   else negb (existsb (fun e => test e v) block)) = true
  <-> axis_admits (matches v) allow block.
Proof.
  assert (Hex : forall l, existsb (fun e => test e v) l = true <-> Exists (matches v) l).
  { intros l. rewrite existsb_exists', Exists_exists. by setoid_rewrite test_spec. }
  assert (Hall : negb (existsb (fun e => test e v) block) = true <-> Forall (fun e => ~ matches v e) block).
  { rewrite negb_true_iff, <- not_true_iff_false, Hex, Exists_exists, Forall_forall. naive_solver. }
  unfold axis_admits. destruct allow as [|a allow]; simpl.
  - rewrite Hall. naive_solver.
  - change (test a v || existsb (fun e => test e v) allow) with (existsb (fun e => test e v) (a :: allow)).
    destruct (existsb _ (a :: allow)) eqn:Ea.
    + apply Hex in Ea. simpl. rewrite Hall. naive_solver.
    + simpl. split; [done|]. intros [[|H%Hex] _]; [done|]. congruence.
Qed.
End Axis.

Lemma pass_msgid_axis_spec v allow block :
  pass_msgid_axis v allow block = true <-> axis_admits (in_msgid_range v) allow block.
Proof.
  apply (axis_shape MsgIdRange_contains). intros r x. unfold MsgIdRange_contains, in_msgid_range.
  by rewrite andb_true_iff, !Z.leb_le.
Qed.

Lemma pass_u8_axis_spec v allow block :
  pass_u8_axis v allow block = true <-> axis_admits (in_u8_range v) allow block.
Proof.
  apply (axis_shape U8Range_contains). intros r x. unfold U8Range_contains, in_u8_range.
  by rewrite andb_true_iff, !Z.leb_le.
Qed.

Lemma pass_src_endpoint_axis_spec v allow block :
  pass_src_endpoint_axis v allow block = true <-> axis_admits (fun e => e = v) allow block.
Proof. apply (axis_shape String.eqb (fun v e => e = v)). intros e x. apply String.eqb_eq. Qed.

(** [passes_in_filter] is the conjunction of the three ingress axes ... *)
Definition admits_in (f : Filters) (msgid : Z) (src : NodeId) : Prop :=
  axis_admits (in_msgid_range msgid) (allow_msgid_in f) (block_msgid_in f) /\
  axis_admits (in_u8_range (sys src)) (allow_src_sys_in f) (block_src_sys_in f) /\
  axis_admits (in_u8_range (comp src)) (allow_src_comp_in f) (block_src_comp_in f).

(** ... and [passes_out_filter] of the four egress axes. *)
Definition admits_out (f : Filters) (msgid : Z) (src : NodeId) (name : string) : Prop :=
  axis_admits (in_msgid_range msgid) (allow_msgid_out f) (block_msgid_out f) /\
  axis_admits (in_u8_range (sys src)) (allow_src_sys_out f) (block_src_sys_out f) /\
  axis_admits (in_u8_range (comp src)) (allow_src_comp_out f) (block_src_comp_out f) /\
  axis_admits (fun e => e = name) (allow_src_endpoint_out f) (block_src_endpoint_out f).

Lemma passes_in_filter_spec f msgid src :
  passes_in_filter f msgid src = true <-> admits_in f msgid src.
Proof.
  unfold passes_in_filter, admits_in.
  rewrite !andb_true_iff, pass_msgid_axis_spec, !pass_u8_axis_spec. tauto.
Qed.

Lemma passes_out_filter_spec f msgid src name :
  passes_out_filter f msgid src name = true <-> admits_out f msgid src name.
Proof.
  unfold passes_out_filter, admits_out.
  rewrite !andb_true_iff, pass_msgid_axis_spec, !pass_u8_axis_spec, pass_src_endpoint_axis_spec. tauto.
Qed.

(** ** The laws of the policy *)

(** How an axis reads a value: outside a non-empty allow list, matched by a block entry. *)
Record axis_reading := { unlisted : Prop; blocked : Prop }.
Definition read_axis {E : Type} (matches : E -> Prop) (lists : list E * list E) : axis_reading :=
  {| unlisted := lists.1 <> [] /\ Forall (fun e => ~ matches e) lists.1; blocked := Exists matches lists.2 |}.

(** The allow and block list of every axis of a direction, related axis by axis. *)
Definition related_in (R : forall E : Type, relation (list E * list E)) (f g : Filters) : Prop :=
  R _ (allow_msgid_in f, block_msgid_in f) (allow_msgid_in g, block_msgid_in g) /\
  R _ (allow_src_sys_in f, block_src_sys_in f) (allow_src_sys_in g, block_src_sys_in g) /\
  R _ (allow_src_comp_in f, block_src_comp_in f) (allow_src_comp_in g, block_src_comp_in g).
Definition related_out (R : forall E : Type, relation (list E * list E)) (f g : Filters) : Prop :=
  R _ (allow_msgid_out f, block_msgid_out f) (allow_msgid_out g, block_msgid_out g) /\
  R _ (allow_src_sys_out f, block_src_sys_out f) (allow_src_sys_out g, block_src_sys_out g) /\
  R _ (allow_src_comp_out f, block_src_comp_out f) (allow_src_comp_out g, block_src_comp_out g) /\
  R _ (allow_src_endpoint_out f, block_src_endpoint_out f) (allow_src_endpoint_out g, block_src_endpoint_out g).

Definition same_lists (E : Type) : relation (list E * list E) := eq.
Definition more_blocked (E : Type) : relation (list E * list E) := fun f g => g.1 = f.1 /\ f.2 ⊆ g.2.
Definition more_allowed (E : Type) : relation (list E * list E) := fun f g =>
  (g.1 = f.1 \/ f.1 <> [] /\ f.1 ⊆ g.1) /\ g.2 = f.2.

Definition in_axes (f : Filters) (msgid : Z) (src : NodeId) : list axis_reading :=
  [read_axis (in_msgid_range msgid) (allow_msgid_in f, block_msgid_in f);
   read_axis (in_u8_range (sys src)) (allow_src_sys_in f, block_src_sys_in f);
   read_axis (in_u8_range (comp src)) (allow_src_comp_in f, block_src_comp_in f)].
Definition out_axes (f : Filters) (msgid : Z) (src : NodeId) (name : string) : list axis_reading :=
  [read_axis (in_msgid_range msgid) (allow_msgid_out f, block_msgid_out f);
   read_axis (in_u8_range (sys src)) (allow_src_sys_out f, block_src_sys_out f);
   read_axis (in_u8_range (comp src)) (allow_src_comp_out f, block_src_comp_out f);
   read_axis (fun e => e = name) (allow_src_endpoint_out f, block_src_endpoint_out f)].

Section AxisLaws.
Context {E : Type} (matches : E -> Prop).
Implicit Types f g : list E * list E.

Lemma admits_blocked f : axis_admits matches f.1 f.2 -> ~ blocked (read_axis matches f).
Proof. intros [_ Hb]. cbn. rewrite Exists_exists. rewrite Forall_forall in Hb. naive_solver. Qed.
Lemma admits_unlisted f : axis_admits matches f.1 f.2 -> ~ unlisted (read_axis matches f).
Proof. intros [[Ha|Ha] _] [Hne Hn]; [done|]. rewrite Exists_exists in Ha. rewrite Forall_forall in Hn. naive_solver. Qed.
Lemma admits_otherwise `{forall e, Decision (matches e)} f :
  ~ unlisted (read_axis matches f) -> ~ blocked (read_axis matches f) -> axis_admits matches f.1 f.2.
Proof.
  cbn. intros Hu Hb. split.
  - destruct (Forall_Exists_dec (fun e => ~ matches e) matches ltac:(intros e; destruct (decide (matches e)); [right|left]; done) f.1)
      as [Hn|]; [left|by right]. destruct f.1; [done|]. by destruct Hu.
  - apply Forall_forall. intros e He Hm. apply Hb, Exists_exists. eauto.
Qed.
Lemma admits_more_blocked f g : more_blocked E f g -> axis_admits matches g.1 g.2 -> axis_admits matches f.1 f.2.
Proof. intros [-> Hsub] [Ha Hb]. split; [done|]. rewrite Forall_forall in *. intros e He. by apply Hb, Hsub. Qed.
Lemma admits_more_allowed f g : more_allowed E f g -> axis_admits matches f.1 f.2 -> axis_admits matches g.1 g.2.
Proof.
  intros [Hor ->] [Ha Hb]. split; [|done]. destruct Hor as [->|[Hne Hsub]]; [done|right].
  destruct Ha as [|Ha]; [done|]. rewrite Exists_exists in *. naive_solver.
Qed.
End AxisLaws.
#[local] Instance in_msgid_range_dec v r : Decision (in_msgid_range v r).
Proof. unfold in_msgid_range. apply _. Defined.
#[local] Instance in_u8_range_dec v r : Decision (in_u8_range v r).
Proof. unfold in_u8_range. apply _. Defined.

(** A frame passes when no axis leaves it out. *)
Lemma in_axes_admit f msgid src :
  Forall (fun a => ~ unlisted a /\ ~ blocked a) (in_axes f msgid src) <-> passes_in_filter f msgid src = true.
Proof.
  rewrite passes_in_filter_spec. unfold admits_in, in_axes. rewrite !Forall_cons, Forall_nil. split.
  - intros ((? & ?) & (? & ?) & (? & ?) & _). split_and!; by apply (admits_otherwise _ (_, _)).
  - intros (? & ? & ?). split_and!; try done; first [by apply admits_unlisted|by apply admits_blocked].
Qed.
Lemma out_axes_admit f msgid src name :
  Forall (fun a => ~ unlisted a /\ ~ blocked a) (out_axes f msgid src name) <-> passes_out_filter f msgid src name = true.
Proof.
  rewrite passes_out_filter_spec. unfold admits_out, out_axes. rewrite !Forall_cons, Forall_nil. split.
  - intros ((? & ?) & (? & ?) & (? & ?) & (? & ?) & _). split_and!; by apply (admits_otherwise _ (_, _)).
  - intros (? & ? & ? & ?). split_and!; try done; first [by apply admits_unlisted|by apply admits_blocked].
Qed.

(** An axis that leaves the frame out. *)
Lemma axis_rejects (P : axis_reading -> Prop) (axes : list axis_reading) (b : bool) :
  (Forall (fun a => ~ unlisted a /\ ~ blocked a) axes <-> b = true) -> (forall a, P a -> unlisted a \/ blocked a) ->
  Exists P axes -> b = false.
Proof.
  intros Hb HP (a & Ha & Hp)%Exists_exists. apply not_true_is_false. rewrite <- Hb, Forall_forall. intros Hall.
  destruct (Hall a Ha) as [? ?]. by destruct (HP a Hp).
Qed.

(** C27. The policy laws of the filters, in both directions and on every axis: the three of
    ingress (message id, system, component) and the four of egress (the source endpoint's name
    too).  A block entry that matches rejects the frame, whatever the allow lists say; a value
    that a non-empty allow list does not list is rejected; otherwise the frame passes, so with
    empty allow lists it passes exactly when no block entry matches.  Longer block lists never
    admit more; longer allow lists, where there was one, never admit less.  The lists of one
    direction do not affect the other. *)
Theorem filter_policy_laws f g msgid src name :
  ((Exists blocked (in_axes f msgid src) -> passes_in_filter f msgid src = false) /\
   (Exists unlisted (in_axes f msgid src) -> passes_in_filter f msgid src = false) /\
   (Forall (fun a => ~ unlisted a /\ ~ blocked a) (in_axes f msgid src) -> passes_in_filter f msgid src = true) /\
   (related_in more_blocked f g -> passes_in_filter g msgid src = true -> passes_in_filter f msgid src = true) /\
   (related_in more_allowed f g -> passes_in_filter f msgid src = true -> passes_in_filter g msgid src = true) /\
   (related_in same_lists f g -> passes_in_filter f msgid src = passes_in_filter g msgid src)) /\
  ((Exists blocked (out_axes f msgid src name) -> passes_out_filter f msgid src name = false) /\
   (Exists unlisted (out_axes f msgid src name) -> passes_out_filter f msgid src name = false) /\
   (Forall (fun a => ~ unlisted a /\ ~ blocked a) (out_axes f msgid src name) -> passes_out_filter f msgid src name = true) /\
   (related_out more_blocked f g -> passes_out_filter g msgid src name = true -> passes_out_filter f msgid src name = true) /\
   (related_out more_allowed f g -> passes_out_filter f msgid src name = true -> passes_out_filter g msgid src name = true) /\
   (related_out same_lists f g -> passes_out_filter f msgid src name = passes_out_filter g msgid src name)).
Proof.
  pose proof (in_axes_admit f msgid src) as Hin. pose proof (out_axes_admit f msgid src name) as Hout. split; split_and!.
  - apply (axis_rejects _ _ _ Hin). auto.
  - apply (axis_rejects _ _ _ Hin). auto.
  - apply Hin.
  - rewrite !passes_in_filter_spec. intros (? & ? & ?) (? & ? & ?). split_and!; by eapply (admits_more_blocked _ (_, _) (_, _)).
  - rewrite !passes_in_filter_spec. intros (? & ? & ?) (? & ? & ?). split_and!; by eapply (admits_more_allowed _ (_, _) (_, _)).
  - intros ([= E1 E2] & [= E3 E4] & [= E5 E6]). unfold passes_in_filter. congruence.
  - apply (axis_rejects _ _ _ Hout). auto.
  - apply (axis_rejects _ _ _ Hout). auto.
  - apply Hout.
  - rewrite !passes_out_filter_spec. intros (? & ? & ? & ?) (? & ? & ? & ?). split_and!; by eapply (admits_more_blocked _ (_, _) (_, _)).
  - rewrite !passes_out_filter_spec. intros (? & ? & ? & ?) (? & ? & ? & ?). split_and!; by eapply (admits_more_allowed _ (_, _) (_, _)).
  - intros ([= E1 E2] & [= E3 E4] & [= E5 E6] & [= E7 E8]). unfold passes_out_filter. congruence.
Qed.

Lemma filter_policy_laws_witness :
  passes_out_filter
    {| allow_msgid_in := []; block_msgid_in := []; allow_msgid_out := [{| mr_lo := 0; mr_hi := 99 |}]; block_msgid_out := [];
       allow_src_sys_in := []; block_src_sys_in := []; allow_src_sys_out := []; block_src_sys_out := [];
       allow_src_comp_in := []; block_src_comp_in := []; allow_src_comp_out := []; block_src_comp_out := [];
       allow_src_endpoint_out := []; block_src_endpoint_out := ["gcs"%string] |} 33 {| sys := 1; comp := 1 |} "gcs" = false.
Proof.
  apply (proj1 (proj2 (filter_policy_laws _ Filters_default 33 {| sys := 1; comp := 1 |} "gcs"))).
  do 3 right. left. left. reflexivity.
Defined.
