(* ===== verification/EndpointStats.v ===== *)
(** * Per-endpoint counters and health ([src/src/endpoint/stats.rs]) *)

From S2P Require Import Prelude Crc Frame MsgTable Framer FramerSpec.
#[local] Open Scope Z_scope.

(** [enum EndpointState] *)
Inductive EndpointState := Reconnecting | Connected | Idle | Down | Unknown.

#[global] Instance EndpointState_eq_dec : EqDecision EndpointState.
Proof. solve_decision. Defined.

Definition as_u8 (s : EndpointState) : Z :=
  match s with Reconnecting => 0 | Connected => 1 | Idle => 2 | Down => 3 | Unknown => 4 end.

Definition from_u8 (value : Z) : EndpointState :=
  match value with 0 => Reconnecting | 1 => Connected | 2 => Idle | 3 => Down | _ => Unknown end.

(** [struct EndpointStats]: each atomic is its current value. *)
Record EndpointStats := {
  s_rx_frames : Z;
  s_tx_frames : Z;
  s_rx_bytes : Z;
  s_tx_bytes : Z;
  s_dropped_tx : Z;
  s_crc_errors : Z;
  s_resync_bytes : Z;
  s_in_filter_drops : Z;
  s_out_filter_drops : Z;
  s_dedup_drops : Z;
  s_rx_lost_est : Z;
  s_learn_entries : Z;
  s_state : Z;
}.

(** Names of the twelve [AtomicU64] fields. *)
Inductive Counter :=
| RxFrames | TxFrames | RxBytes | TxBytes | DroppedTx | CrcErrors | ResyncBytes
| InFilterDrops | OutFilterDrops | DedupDrops | RxLostEst | LearnEntries.

#[global] Instance Counter_eq_dec : EqDecision Counter.
Proof. solve_decision. Defined.

(** [stats.<c>.load(Relaxed)] *)
Definition load (c : Counter) (s : EndpointStats) : Z :=
  match c with
  | RxFrames => s_rx_frames s | TxFrames => s_tx_frames s
  | RxBytes => s_rx_bytes s | TxBytes => s_tx_bytes s
  | DroppedTx => s_dropped_tx s | CrcErrors => s_crc_errors s
  | ResyncBytes => s_resync_bytes s | InFilterDrops => s_in_filter_drops s
  | OutFilterDrops => s_out_filter_drops s | DedupDrops => s_dedup_drops s
  | RxLostEst => s_rx_lost_est s | LearnEntries => s_learn_entries s
  end.

(** [stats.<c>.store(v, Relaxed)] *)
Definition store (c : Counter) (v : Z) (s : EndpointStats) : EndpointStats :=
  let field d := if decide (c = d) then v else load d s in
  {| s_rx_frames := field RxFrames; s_tx_frames := field TxFrames;
     s_rx_bytes := field RxBytes; s_tx_bytes := field TxBytes;
     s_dropped_tx := field DroppedTx; s_crc_errors := field CrcErrors;
     s_resync_bytes := field ResyncBytes; s_in_filter_drops := field InFilterDrops;
     s_out_filter_drops := field OutFilterDrops; s_dedup_drops := field DedupDrops;
     s_rx_lost_est := field RxLostEst; s_learn_entries := field LearnEntries;
     s_state := s_state s |}.

(** [stats.<c>.fetch_add(n, Relaxed)]: atomics wrap around. *)
Definition fetch_add (c : Counter) (n : Z) (s : EndpointStats) : EndpointStats :=
  store c (wrap 64 (load c s + n)) s.

(** [EndpointStats::new(state)] *)
Definition EndpointStats_new (state : EndpointState) : EndpointStats :=
  {| s_rx_frames := 0; s_tx_frames := 0; s_rx_bytes := 0; s_tx_bytes := 0; s_dropped_tx := 0;
     s_crc_errors := 0; s_resync_bytes := 0; s_in_filter_drops := 0; s_out_filter_drops := 0;
     s_dedup_drops := 0; s_rx_lost_est := 0; s_learn_entries := 0; s_state := as_u8 state |}.

Definition load_state (s : EndpointStats) : EndpointState := from_u8 (s_state s).

Definition store_state (state : EndpointState) (s : EndpointStats) : EndpointStats :=
  {| s_rx_frames := s_rx_frames s; s_tx_frames := s_tx_frames s; s_rx_bytes := s_rx_bytes s;
     s_tx_bytes := s_tx_bytes s; s_dropped_tx := s_dropped_tx s; s_crc_errors := s_crc_errors s;
     s_resync_bytes := s_resync_bytes s; s_in_filter_drops := s_in_filter_drops s;
     s_out_filter_drops := s_out_filter_drops s; s_dedup_drops := s_dedup_drops s;
     s_rx_lost_est := s_rx_lost_est s; s_learn_entries := s_learn_entries s;
     s_state := as_u8 state |}.

Definition add_rx_frame (bytes : nat) (s : EndpointStats) : EndpointStats :=
  fetch_add RxBytes (Z.of_nat bytes) (fetch_add RxFrames 1 s).

Definition add_tx_frame (bytes : nat) (s : EndpointStats) : EndpointStats :=
  fetch_add TxBytes (Z.of_nat bytes) (fetch_add TxFrames 1 s).

(** [struct FramerCounters] *)
Record FramerCounters := { last_resync_total : Z; last_crc_total : Z }.

Definition FramerCounters_new : FramerCounters := {| last_resync_total := 0; last_crc_total := 0 |}.

(** [fn sync(&mut self, framer: &Framer, stats: &EndpointStats)] *)
Definition sync (c : FramerCounters) (framer : Framer) (stats : EndpointStats)
  : FramerCounters * EndpointStats :=
  let now_resync := resync_bytes framer in
  let now_crc := crc_errors framer in
  let resync_delta := sat_sub now_resync (last_resync_total c) in
  let crc_delta := sat_sub now_crc (last_crc_total c) in
  let stats := if 0 <? resync_delta then fetch_add ResyncBytes resync_delta stats else stats in
  let stats := if 0 <? crc_delta then fetch_add CrcErrors crc_delta stats else stats in
  ({| last_resync_total := now_resync; last_crc_total := now_crc |}, stats).

(** ** Laws of the atomics *)

Definition stats_ok (s : EndpointStats) : Prop :=
  (forall c, is_u64 (load c s)) /\ 0 <= s_state s <= 4.

Lemma load_store_eq c v s : load c (store c v s) = v.
Proof. by destruct c. Qed.

Lemma load_store_ne c d v s : c <> d -> load d (store c v s) = load d s.
Proof. by destruct c, d. Qed.

Lemma load_store c d v s : load d (store c v s) = if decide (c = d) then v else load d s.
Proof. case_decide; subst; [apply load_store_eq | by apply load_store_ne]. Qed.

Lemma stats_ext s s' : (forall c, load c s = load c s') -> s_state s = s_state s' -> s = s'.
Proof.
  intros H Hst. destruct s, s'. simpl in Hst. subst. f_equal.
  - apply (H RxFrames).
  - apply (H TxFrames).
  - apply (H RxBytes).
  - apply (H TxBytes).
  - apply (H DroppedTx).
  - apply (H CrcErrors).
  - apply (H ResyncBytes).
  - apply (H InFilterDrops).
  - apply (H OutFilterDrops).
  - apply (H DedupDrops).
  - apply (H RxLostEst).
  - apply (H LearnEntries).
Qed.

Lemma state_store c v s : s_state (store c v s) = s_state s.
Proof. done. Qed.
Lemma load_store_state c st s : load c (store_state st s) = load c s.
Proof. by destruct c. Qed.
Lemma load_state_store_state st s : load_state (store_state st s) = st.
Proof. by destruct st. Qed.
Lemma state_store_state st s : s_state (store_state st s) = as_u8 st.
Proof. done. Qed.

#[export] Hint Rewrite load_store load_store_state state_store state_store_state load_state_store_state : rmr.

Lemma load_fetch_add c d n s :
  load d (fetch_add c n s) = if decide (c = d) then wrap 64 (load d s + n) else load d s.
Proof. unfold fetch_add. rewrite load_store. by case_decide; subst. Qed.

Lemma state_fetch_add c n s : s_state (fetch_add c n s) = s_state s.
Proof. done. Qed.

#[export] Hint Rewrite load_fetch_add state_fetch_add : rmr.

(** Increments of two counters (or of the same one) commute. *)
Lemma fetch_add_comm c d n m s :
  fetch_add c n (fetch_add d m s) = fetch_add d m (fetch_add c n s).
Proof.
  apply stats_ext; [|done]. intros e. rewrite !load_fetch_add.
  repeat case_decide; subst; try done. rewrite !wrap_wrap_add. f_equal. lia.
Qed.

Lemma fetch_add_add c n m s : fetch_add c n (fetch_add c m s) = fetch_add c (m + n) s.
Proof.
  apply stats_ext; [|done]. intros e. rewrite !load_fetch_add. case_decide; [|done].
  rewrite wrap_wrap_add. f_equal. lia.
Qed.

Lemma fetch_add_ok c n s : stats_ok s -> stats_ok (fetch_add c n s).
Proof.
  intros [Hc Hs]. split; [|done]. intros d. rewrite load_fetch_add. case_decide; auto with rmr lia.
Qed.

Lemma store_state_ok st s : stats_ok s -> stats_ok (store_state st s).
Proof. intros [Hc Hs]. split; [|by destruct st]. intros d. by rewrite load_store_state. Qed.

Lemma EndpointStats_new_ok st : stats_ok (EndpointStats_new st).
Proof. split; [|by destruct st]. intros []; unfold in_width; simpl; lia. Qed.

Lemma load_state_u8 st s : from_u8 (as_u8 st) = st /\ load_state (store_state st s) = st.
Proof. by destruct st. Qed.

#[export] Hint Resolve fetch_add_ok store_state_ok EndpointStats_new_ok : rmr.

Lemma sync_ok c f s : stats_ok s -> stats_ok (sync c f s).2.
Proof. intros Hs. unfold sync. simpl. repeat case_match; auto with rmr. Qed.

(** ** Publishing the framer's totals

    The session loops call [sync] after each read.  A sequence of framer states with
    non-decreasing totals is published without loss or double counting: after it, each
    shared counter has advanced by exactly the difference of the last and first totals. *)

Fixpoint sync_all (c : FramerCounters) (framers : list Framer) (stats : EndpointStats)
  : FramerCounters * EndpointStats :=
  match framers with
  | [] => (c, stats)
  | f :: rest => let '(c, stats) := sync c f stats in sync_all c rest stats
  end.

Fixpoint non_decreasing (r k : Z) (framers : list Framer) : Prop :=
  match framers with
  | [] => True
  | f :: rest => r <= resync_bytes f /\ k <= crc_errors f /\ non_decreasing (resync_bytes f) (crc_errors f) rest
  end.

Definition last_totals (c : FramerCounters) (framers : list Framer) : FramerCounters :=
  match last framers with
  | Some f => {| last_resync_total := resync_bytes f; last_crc_total := crc_errors f |}
  | None => c
  end.

Lemma fetch_add_0 c s : is_u64 (load c s) -> fetch_add c 0 s = s.
Proof.
  intros Hc. apply stats_ext; [|done]. intros d. rewrite load_fetch_add. case_decide; [|done].
  subst. rewrite Z.add_0_r. by apply wrap_small.
Qed.

Lemma sync_spec c f s :
  stats_ok s -> last_resync_total c <= resync_bytes f -> last_crc_total c <= crc_errors f ->
  sync c f s =
  ({| last_resync_total := resync_bytes f; last_crc_total := crc_errors f |},
   fetch_add CrcErrors (crc_errors f - last_crc_total c)
     (fetch_add ResyncBytes (resync_bytes f - last_resync_total c) s)).
Proof.
  intros Hs Hr Hk. unfold sync, sat_sub. rewrite !Z.max_l by lia. f_equal.
  assert (Hadd : forall k d s0, is_u64 (load k s0) -> 0 <= d ->
    (if 0 <? d then fetch_add k d s0 else s0) = fetch_add k d s0).
  { intros k d s0 Hu Hd. destruct (Z.ltb_spec 0 d); [done|]. assert (d = 0) as -> by lia. by rewrite fetch_add_0. }
  rewrite (Hadd ResyncBytes) by (apply Hs || lia). apply Hadd; [|lia]. by apply fetch_add_ok.
Qed.

(** Publishing is exact: for any sequence of observed framer states with
    non-decreasing totals (the framer's saturating counters never go down), the shared
    [resync_bytes] and [crc_errors] grow by exactly what the framer's totals grew by,
    modulo 2^64, and no other counter moves. *)
Theorem sync_all_exact framers c s :
  stats_ok s -> non_decreasing (last_resync_total c) (last_crc_total c) framers ->
  let c' := last_totals c framers in
  sync_all c framers s =
  (c', fetch_add CrcErrors (last_crc_total c' - last_crc_total c)
         (fetch_add ResyncBytes (last_resync_total c' - last_resync_total c) s)).
Proof.
  revert c s; induction framers as [|f framers IH]; intros c s Hs Hnd; cbn [sync_all].
  { simpl. unfold last_totals; simpl. rewrite !Z.sub_diag.
    by rewrite (fetch_add_0 ResyncBytes), (fetch_add_0 CrcErrors) by apply Hs. }
  destruct Hnd as (Hr & Hk & Hnd). rewrite sync_spec by done.
  rewrite IH by auto with rmr. cbv zeta. set (c1 := {| last_resync_total := _ |}).
  assert (Hl : last_totals c (f :: framers) = last_totals c1 framers).
  { unfold last_totals. destruct framers as [|g framers]; [done|].
    change (last (f :: g :: framers)) with (last (g :: framers)).
    destruct (last (g :: framers)) eqn:E; [done|]. by apply last_None in E. }
  rewrite Hl. f_equal. rewrite (fetch_add_comm ResyncBytes CrcErrors), !fetch_add_add.
  subst c1. simpl. f_equal; [lia|]. f_equal. lia.
Qed.

Lemma sync_all_exact_witness :
  let fs := [{| buf := []; resync_bytes := 3; crc_errors := 1 |}; {| buf := []; resync_bytes := 9; crc_errors := 1 |}] in
  load ResyncBytes (sync_all FramerCounters_new fs (EndpointStats_new Connected)).2 = 9.
Proof.
  cbv zeta. rewrite (sync_all_exact _ FramerCounters_new (EndpointStats_new Connected)
    (EndpointStats_new_ok _)); [reflexivity|]. simpl. lia.
Defined.
