(* ===== verification/TxQueue.v ===== *)
(** * The router-to-writer queue ([src/src/endpoint/tx_queue.rs])

    [crossbeam_queue::ArrayQueue] is a parameter with its documented behaviour as laws.
    [Arc]s are handles into a shared store ([World]): the router, the writer and the stats
    task reach the same queue and the same counters through clones of the same handle. *)

From S2P Require Import Prelude Crc Frame MsgTable Framer FramerSpec EndpointStats.
#[local] Open Scope Z_scope.

Abbreviation Bytes := (list Z).

(** ** [ArrayQueue], the interface *)

Class ArrayQueue (Q : Type) := {
  aq_new : nat -> Q;
  aq_force_push : Q -> Bytes -> option Bytes * Q;
  aq_pop : Q -> option Bytes * Q;
  aq_len : Q -> nat;
}.

(** The documented behaviour: a FIFO of bounded capacity; [force_push] on a full queue
    replaces the oldest element and returns it. *)
Class ArrayQueueLaws (Q : Type) `{ArrayQueue Q} := {
  aq_elems : Q -> list Bytes;
  aq_cap : Q -> nat;
  aq_new_elems n : aq_elems (aq_new n) = [];
  aq_new_cap n : aq_cap (aq_new n) = n;
  aq_force_push_room q x :
    (length (aq_elems q) < aq_cap q)%nat ->
    (aq_force_push q x).1 = None /\ aq_elems (aq_force_push q x).2 = aq_elems q ++ [x];
  aq_force_push_full q x y l :
    aq_elems q = y :: l -> (aq_cap q <= length (aq_elems q))%nat ->
    (aq_force_push q x).1 = Some y /\ aq_elems (aq_force_push q x).2 = l ++ [x];
  aq_force_push_cap q x : aq_cap (aq_force_push q x).2 = aq_cap q;
  aq_pop_elems q :
    (aq_pop q).1 = head (aq_elems q) /\ aq_elems (aq_pop q).2 = tail (aq_elems q);
  aq_pop_cap q : aq_cap (aq_pop q).2 = aq_cap q;
  aq_len_elems q : aq_len q = length (aq_elems q);
}.

(** ** The shared store *)

Record World (Q : Type) := {
  w_stats : gmap nat EndpointStats;   (** [Arc<EndpointStats>] *)
  w_queues : gmap nat Q;              (** [Arc<ArrayQueue<Bytes>>] *)
  w_notified : gset nat;              (** the [Arc<Notify>] of these queues holds a permit *)
}.
Arguments w_stats {Q}.
Arguments w_queues {Q}.
Arguments w_notified {Q}.

Definition stats_update {Q} (h : nat) (f : EndpointStats -> EndpointStats) (w : World Q) : World Q :=
  {| w_stats := alter f h (w_stats w); w_queues := w_queues w; w_notified := w_notified w |}.

Definition set_queue {Q} (h : nat) (q : Q) (w : World Q) : World Q :=
  {| w_stats := w_stats w; w_queues := <[h := q]> (w_queues w); w_notified := w_notified w |}.

(** [notify.notify_one()]: a permit is stored (or the one waiting writer is woken, which is
    the same permit handed over at once). *)
Definition notify_one {Q} (h : nat) (w : World Q) : World Q :=
  {| w_stats := w_stats w; w_queues := w_queues w; w_notified := {[h]} ∪ w_notified w |}.

(** [struct TxQueue]: [notify] lives and dies with [inner], so both are the handle
    [tq_inner]. *)
Record TxQueue := { tq_inner : nat; tq_stats : nat }.

Section Ops.
Context {Q : Type} `{ArrayQueue Q}.
Abbreviation World := (World Q).

(** [TxQueue::new(capacity, stats)] *)
Definition TxQueue_new (capacity : nat) (stats : nat) (w : World) : TxQueue * World :=
  let clamped := Nat.max capacity 1 in
  let h := fresh (dom (w_queues w)) in
  ({| tq_inner := h; tq_stats := stats |}, set_queue h (aq_new clamped) w).

(** [fn push(&self, frame: Bytes)] *)
Definition TxQueue_push (tq : TxQueue) (frame : Bytes) (w : World) : World :=
  match w_queues w !! tq_inner tq with
  | None => w
  | Some inner =>
      let '(evicted, inner) := aq_force_push inner frame in
      let w := set_queue (tq_inner tq) inner w in
      let w := match evicted with
               | Some _ => stats_update (tq_stats tq) (fetch_add DroppedTx 1) w
               | None => w
               end in
      notify_one (tq_inner tq) w
  end.

(** [fn pop(&self) -> Option<Bytes>] *)
Definition TxQueue_pop (tq : TxQueue) (w : World) : option Bytes * World :=
  match w_queues w !! tq_inner tq with
  | None => (None, w)
  | Some inner => let '(frame, inner) := aq_pop inner in (frame, set_queue (tq_inner tq) inner w)
  end.

Definition TxQueue_len (tq : TxQueue) (w : World) : nat :=
  match w_queues w !! tq_inner tq with Some inner => aq_len inner | None => 0 end.

(** [while self.inner.pop().is_some() { count += 1; }] *)
Fixpoint drain_loop (fuel : nat) (tq : TxQueue) (count : nat) (w : World) : outcome (nat * World) :=
  match fuel with
  | O => OutOfFuel
  | S fuel' =>
      let '(frame, w) := TxQueue_pop tq w in
      match frame with
      | Some _ => drain_loop fuel' tq (S count) w
      | None => Done (count, w)
      end
  end.

(** [fn drain_and_discard(&self) -> usize]: one pop per queued frame and a last one. *)
Definition drain_and_discard (tq : TxQueue) (w : World) : outcome (nat * World) :=
  let! (count, w) := drain_loop (S (TxQueue_len tq w)) tq 0 w in
  let w := if (0 <? count)%nat then stats_update (tq_stats tq) (fetch_add DroppedTx (Z.of_nat count)) w else w in
  Done (count, w).
End Ops.

(** ** Equations of the store *)

Section World.
Context {Q : Type}.
Implicit Types w : World Q.

Lemma world_ext w w' :
  w_stats w = w_stats w' -> w_queues w = w_queues w' -> w_notified w = w_notified w' -> w = w'.
Proof. destruct w, w'. simpl. by intros -> -> ->. Qed.

Lemma stats_update_comm h k f g w :
  (forall s, f (g s) = g (f s)) ->
  stats_update h f (stats_update k g w) = stats_update k g (stats_update h f w).
Proof.
  intros Hfg. apply world_ext; simpl; try done. destruct (decide (h = k)) as [->|Hne].
  - rewrite !alter_alter_eq. apply alter_ext. intros s _. apply Hfg.
  - by apply alter_alter_ne.
Qed.
End World.

(** A queue within its capacity, the state every queue made by [TxQueue_new] is in. *)
Definition queue_ok {Q} `{ArrayQueueLaws Q} (q : Q) : Prop :=
  (1 <= aq_cap q)%nat /\ (length (aq_elems q) <= aq_cap q)%nat.

Section Laws.
Context {Q : Type} `{ArrayQueueLaws Q}.
Implicit Types (w : World Q) (q : Q).

Lemma aq_new_ok n : queue_ok (aq_new (Nat.max n 1)).
Proof. split; rewrite ?aq_new_elems, ?aq_new_cap; simpl; lia. Qed.

(** Pushing splits the old contents and the new frame into what is evicted and what is
    queued. *)
Lemma aq_force_push_split q x :
  queue_ok q ->
  aq_elems q ++ [x] = option_list (aq_force_push q x).1 ++ aq_elems (aq_force_push q x).2 /\
  ((aq_force_push q x).1 = None <-> (length (aq_elems q) < aq_cap q)%nat).
Proof.
  intros [Hc Hl]. destruct (decide (length (aq_elems q) < aq_cap q)%nat) as [Hr|Hr].
  - destruct (aq_force_push_room q x Hr) as [-> ->]. done.
  - destruct (aq_elems q) as [|y l] eqn:E; [simpl in *; lia|].
    destruct (aq_force_push_full q x y l E) as [-> ->]; [rewrite E; lia|]. simpl. split; [done|].
    split; [done|]. simpl in *. lia.
Qed.

Lemma aq_force_push_ok q x : queue_ok q -> queue_ok (aq_force_push q x).2.
Proof.
  intros Hok. destruct (aq_force_push_split q x Hok) as [He Hn]. destruct Hok as [Hc Hl].
  apply (f_equal length) in He. rewrite !length_app in He. simpl in He.
  split; rewrite aq_force_push_cap; [done|].
  destruct (aq_force_push q x).1; simpl in *; [lia|]. assert (length (aq_elems q) < aq_cap q)%nat by tauto. lia.
Qed.

Lemma aq_pop_ok q : queue_ok q -> queue_ok (aq_pop q).2.
Proof.
  intros [Hc Hl]. split; rewrite aq_pop_cap; [done|]. destruct (aq_pop_elems q) as [_ ->].
  destruct (aq_elems q); simpl in *; lia.
Qed.

(** The loop of [drain_and_discard] empties the queue and counts what it removed. *)
Lemma drain_loop_Done fuel tq count w q :
  w_queues w !! tq_inner tq = Some q -> (length (aq_elems q) < fuel)%nat ->
  exists q', aq_elems q' = [] /\ aq_cap q' = aq_cap q /\
    drain_loop fuel tq count w = Done ((count + length (aq_elems q))%nat, set_queue (tq_inner tq) q' w).
Proof.
  revert count w q; induction fuel as [|fuel IH]; intros count w q Hq Hf; [lia|].
  cbn [drain_loop]. unfold TxQueue_pop. rewrite Hq.
  destruct (aq_pop_elems q) as [Hp He]. pose proof (aq_pop_cap q) as Hcap.
  destruct (aq_pop q) as [frame q1]. simpl in *. subst frame.
  destruct (aq_elems q) as [|x l]; simpl in *.
  - exists q1. rewrite Nat.add_0_r. done.
  - destruct (IH (S count) (set_queue (tq_inner tq) q1 w) q1) as (q' & He' & Hc' & Hd).
    { simpl. by rewrite lookup_insert_eq. }
    { rewrite He. lia. }
    exists q'. split_and!; [done|congruence|]. rewrite Hd, He. f_equal. f_equal; [simpl; lia|].
    apply world_ext; simpl; try done. by rewrite insert_insert_eq.
Qed.

Lemma drain_and_discard_Done tq w q :
  w_queues w !! tq_inner tq = Some q ->
  exists q', aq_elems q' = [] /\ aq_cap q' = aq_cap q /\
    drain_and_discard tq w =
    Done (length (aq_elems q),
          if (0 <? length (aq_elems q))%nat
          then stats_update (tq_stats tq) (fetch_add DroppedTx (Z.of_nat (length (aq_elems q))))
                 (set_queue (tq_inner tq) q' w)
          else set_queue (tq_inner tq) q' w).
Proof.
  intros Hq. destruct (drain_loop_Done (S (length (aq_elems q))) tq 0 w q Hq) as (q' & He & Hc & Hd); [lia|].
  exists q'. split_and!; [done|done|]. unfold drain_and_discard, TxQueue_len.
  by rewrite Hq, aq_len_elems, Hd.
Qed.
End Laws.

(** ** The queue as a whole: every frame is accounted for

    A client runs a sequence of pushes, pops and drains; [fate] records for each frame that
    left the queue, in order, whether it was handed to the writer or dropped. *)

Inductive queue_op := OpPush (frame : Bytes) | OpPop | OpDrain.

Section Runs.
Context {Q : Type} `{ArrayQueueLaws Q}.
Implicit Types (w : World Q) (q : Q).

Definition queue_step (tq : TxQueue) (op : queue_op) w : outcome (list Bytes * World Q) :=
  match op with
  | OpPush frame => Done ([], TxQueue_push tq frame w)
  | OpPop => let '(frame, w) := TxQueue_pop tq w in Done (option_list frame, w)
  | OpDrain => let! (_, w) := drain_and_discard tq w in Done ([], w)
  end.

Fixpoint queue_run (tq : TxQueue) (ops : list queue_op) w : outcome (list Bytes * World Q) :=
  match ops with
  | [] => Done ([], w)
  | op :: rest =>
      let! (out, w) := queue_step tq op w in
      let! (outs, w) := queue_run tq rest w in
      Done (out ++ outs, w)
  end.

Definition pushed (ops : list queue_op) : list Bytes :=
  omap (fun op => match op with OpPush f => Some f | _ => None end) ops.

Definition delivered (fate : list (Bytes * bool)) : list Bytes := (List.filter snd fate).*1.
Definition dropped (fate : list (Bytes * bool)) : nat := length (List.filter (negb ∘ snd) fate).

Lemma delivered_app a b : delivered (a ++ b) = delivered a ++ delivered b.
Proof. unfold delivered. by rewrite List.filter_app, fmap_app. Qed.
Lemma dropped_app a b : dropped (a ++ b) = (dropped a + dropped b)%nat.
Proof. unfold dropped. by rewrite List.filter_app, length_app. Qed.

Definition all_dropped (l : list Bytes) : list (Bytes * bool) := (fun x => (x, false)) <$> l.
Lemma delivered_all_dropped l : delivered (all_dropped l) = [].
Proof. induction l; [done|]. by apply IHl. Qed.
Lemma dropped_all_dropped l : dropped (all_dropped l) = length l.
Proof. unfold dropped. induction l; [done|]. simpl. by f_equal. Qed.
Lemma fst_all_dropped l : (all_dropped l).*1 = l.
Proof. induction l; simpl; by f_equal. Qed.

(** What one run of the queue promises: [w] to [w'] through [fate]. *)
Definition accounted (tq : TxQueue) (w w' : World Q) (q : Q) (ins outs : list Bytes) : Prop :=
  exists q' fate,
    w_queues w' = <[tq_inner tq := q']> (w_queues w) /\ queue_ok q' /\ aq_cap q' = aq_cap q /\
    aq_elems q ++ ins = fate.*1 ++ aq_elems q' /\
    outs = delivered fate /\
    w_stats w' = alter (fetch_add DroppedTx (Z.of_nat (dropped fate))) (tq_stats tq) (w_stats w).

Lemma alter_fetch_add_0 c h (m : gmap nat EndpointStats) :
  map_Forall (fun _ => stats_ok) m -> alter (fetch_add c 0) h m = m.
Proof.
  intros Hm. apply map_eq. intros k. destruct (decide (h = k)) as [->|]; [|by rewrite lookup_alter_ne].
  rewrite lookup_alter_eq. destruct (m !! k) as [s|] eqn:E; [|done]. simpl.
  rewrite fetch_add_0; [done|]. by apply (Hm k s).
Qed.

Lemma alter_stats_ok c n h (m : gmap nat EndpointStats) :
  map_Forall (fun _ => stats_ok) m -> map_Forall (fun _ => stats_ok) (alter (fetch_add c n) h m).
Proof.
  intros Hm k s. destruct (decide (h = k)) as [->|]; [|rewrite lookup_alter_ne by done; apply Hm].
  rewrite lookup_alter_eq. destruct (m !! k) as [s'|] eqn:E; [|done]. simpl. intros [= <-].
  apply fetch_add_ok. by apply (Hm k).
Qed.

Lemma queue_step_accounted tq op w q :
  w_queues w !! tq_inner tq = Some q -> queue_ok q -> map_Forall (fun _ => stats_ok) (w_stats w) ->
  exists out w', queue_step tq op w = Done (out, w') /\ accounted tq w w' q (pushed [op]) out.
Proof.
  intros Hq Hok Hst. destruct op as [frame| |]; simpl.
  - eexists [], _. split; [done|]. unfold TxQueue_push. rewrite Hq.
    destruct (aq_force_push_split q frame Hok) as [He _].
    pose proof (aq_force_push_ok q frame Hok). pose proof (aq_force_push_cap q frame).
    destruct (aq_force_push q frame) as [ev q']. simpl in *.
    exists q', (all_dropped (option_list ev)). rewrite fst_all_dropped, delivered_all_dropped, dropped_all_dropped.
    destruct ev as [y|]; simpl in *; split_and!; try done. by rewrite alter_fetch_add_0.
  - unfold TxQueue_pop. rewrite Hq. destruct (aq_pop_elems q) as [Hp He].
    pose proof (aq_pop_ok q Hok). pose proof (aq_pop_cap q).
    destruct (aq_pop q) as [fr q']. simpl in *. subst fr. eexists _, _. split; [done|].
    exists q', ((fun x => (x, true)) <$> option_list (head (aq_elems q))). rewrite He.
    destruct (aq_elems q) as [|x l]; simpl; split_and!; try done; by rewrite ?app_nil_r, ?alter_fetch_add_0.
  - destruct (drain_and_discard_Done tq w q Hq) as (q' & He & Hc & ->). eexists _, _. split; [done|].
    destruct Hok as [? ?].
    exists q', (all_dropped (aq_elems q)). rewrite fst_all_dropped, delivered_all_dropped, dropped_all_dropped, He.
    destruct (Nat.ltb_spec 0 (length (aq_elems q))) as [|Hz]; simpl; split_and!; try done; try (split; [lia|rewrite He; simpl; lia]).
    assert (length (aq_elems q) = 0)%nat as -> by lia. by rewrite alter_fetch_add_0.
Qed.

(** C12. Exact accounting of the transmit queue.  Any sequence of pushes, pops and drains
    terminates, and the frames that were queued or pushed are, in order, first those that
    left (each either handed to the writer, in order, or dropped) and then those still
    queued, never more than the capacity; [dropped_tx] grew by exactly the number of
    dropped frames. *)
Theorem queue_accounts_for_every_frame tq ops w q :
  w_queues w !! tq_inner tq = Some q -> queue_ok q -> map_Forall (fun _ => stats_ok) (w_stats w) ->
  exists outs w', queue_run tq ops w = Done (outs, w') /\ accounted tq w w' q (pushed ops) outs.
Proof.
  revert w q; induction ops as [|op ops IH]; intros w q Hq Hok Hst; cbn [queue_run].
  - eexists [], w. split; [done|]. exists q, []. simpl. rewrite app_nil_r. split_and!; try done.
    + by rewrite insert_id.
    + by rewrite alter_fetch_add_0.
  - destruct (queue_step_accounted tq op w q Hq Hok Hst)
      as (out & w1 & -> & q1 & fate1 & Hq1 & Hok1 & Hc1 & He1 & -> & Hs1).
    destruct (IH w1 q1) as (outs & w' & -> & q' & fate & Hq' & Hok' & Hc' & He' & -> & Hs').
    { rewrite Hq1. by rewrite lookup_insert_eq. }
    { done. }
    { rewrite Hs1. by apply alter_stats_ok. }
    eexists _, w'. split; [done|]. exists q', (fate1 ++ fate). split_and!; try done; try congruence.
    + rewrite Hq', Hq1. by rewrite insert_insert_eq.
    + assert (Hp : pushed (op :: ops) = pushed [op] ++ pushed ops) by (unfold pushed; destruct op; done).
      rewrite Hp, fmap_app, app_assoc, He1, <- !app_assoc. by rewrite He'.
    + by rewrite delivered_app.
    + rewrite Hs', Hs1, alter_alter_eq. apply alter_ext. intros s _. simpl.
      rewrite fetch_add_add, dropped_app. f_equal. lia.
Qed.
End Runs.

(** ** [pop_or_wait]: no wake-up is lost

    The writer's loop and the router's pushes interleave at the granularity of the queue and
    notify operations.  [AtPop] is the writer before [inner.pop()], [AtNotified] the writer
    suspended in [notify.notified().await], [Returned] after [return frame]. *)

Inductive writer_pc := AtPop | AtNotified | Returned (frame : Bytes).

Section PopOrWait.
Context {Q : Type} `{ArrayQueueLaws Q} (tq : TxQueue).
Implicit Types (w : World Q) (q : Q).

Definition take_permit (h : nat) w : World Q :=
  {| w_stats := w_stats w; w_queues := w_queues w; w_notified := w_notified w ∖ {[h]} |}.

(** The writer's own steps, [pop_or_wait]. *)
Inductive pop_or_wait : writer_pc * World Q -> writer_pc * World Q -> Prop :=
| pw_frame w frame w' :
    TxQueue_pop tq w = (Some frame, w') -> pop_or_wait (AtPop, w) (Returned frame, w')
| pw_empty w w' :
    TxQueue_pop tq w = (None, w') -> pop_or_wait (AtPop, w) (AtNotified, w')
| pw_notified w :
    tq_inner tq ∈ w_notified w -> pop_or_wait (AtNotified, w) (AtPop, take_permit (tq_inner tq) w).

(** Steps of the whole system: the writer's, the router's pushes, and the writer calling
    [pop_or_wait] again, after a return or after its future was dropped by [select!]. *)
Inductive queue_system : writer_pc * World Q -> writer_pc * World Q -> Prop :=
| qs_writer s s' : pop_or_wait s s' -> queue_system s s'
| qs_push pc w frame : queue_system (pc, w) (pc, TxQueue_push tq frame w)
| qs_call pc w : queue_system (pc, w) (AtPop, w).

Definition wakeup_inv (s : writer_pc * World Q) : Prop :=
  exists q, w_queues s.2 !! tq_inner tq = Some q /\ queue_ok q /\
    (s.1 = AtNotified -> aq_elems q <> [] -> tq_inner tq ∈ w_notified s.2).

Lemma pop_cases w q :
  w_queues w !! tq_inner tq = Some q ->
  TxQueue_pop tq w = (head (aq_elems q), set_queue (tq_inner tq) (aq_pop q).2 w).
Proof.
  intros Hq. unfold TxQueue_pop. rewrite Hq. destruct (aq_pop_elems q) as [<- _].
  by destruct (aq_pop q).
Qed.

Lemma push_notifies frame w q :
  w_queues w !! tq_inner tq = Some q ->
  w_queues (TxQueue_push tq frame w) !! tq_inner tq = Some (aq_force_push q frame).2 /\
  tq_inner tq ∈ w_notified (TxQueue_push tq frame w).
Proof.
  intros Hq. unfold TxQueue_push. rewrite Hq. destruct (aq_force_push q frame) as [[y|] q']; simpl;
    (split; [apply lookup_insert_eq | set_solver]).
Qed.

Lemma wakeup_step s s' : wakeup_inv s -> queue_system s s' -> wakeup_inv s'.
Proof.
  intros (q & Hq & Hok & Hinv) Hs. destruct Hs as [s s' Hw|pc w frame|pc w]; simpl in *.
  - destruct Hw as [w frame w' Hp|w w' Hp|w Hin]; simpl in *.
    + rewrite (pop_cases w q Hq) in Hp. injection Hp as _ <-. exists (aq_pop q).2.
      split_and!; [apply lookup_insert_eq|by apply aq_pop_ok|done].
    + rewrite (pop_cases w q Hq) in Hp. injection Hp as He <-. exists (aq_pop q).2.
      split_and!; [apply lookup_insert_eq|by apply aq_pop_ok|].
      destruct (aq_pop_elems q) as [_ ->]. by destruct (aq_elems q).
    + exists q. split_and!; simpl; done.
  - destruct (push_notifies frame w q Hq) as [Hq' Hn]. exists (aq_force_push q frame).2.
    split_and!; [done|by apply aq_force_push_ok|done].
  - exists q. done.
Qed.

Lemma wakeup_reachable s s' : wakeup_inv s -> rtc queue_system s s' -> wakeup_inv s'.
Proof. intros Hi Hs. induction Hs as [|s s1 s' Hs _ IH]; [done|]. eauto using wakeup_step. Qed.

(** C13. No lost wake-up.  Whatever the interleaving of pushes with the writer's loop, in
    every reachable state with a frame queued and the writer in [pop_or_wait], the writer's
    own next steps return the oldest queued frame: a push between the empty [pop] and the
    [notified] suspension leaves a permit, and a consumed permit leads to another [pop]. *)
Theorem no_lost_wakeup w0 q0 pc w q x l :
  w_queues w0 !! tq_inner tq = Some q0 -> queue_ok q0 ->
  rtc queue_system (AtPop, w0) (pc, w) -> (forall f, pc <> Returned f) ->
  w_queues w !! tq_inner tq = Some q -> aq_elems q = x :: l ->
  exists w', rtc pop_or_wait (pc, w) (Returned x, w').
Proof.
  intros Hq0 Hok0 Hs Hpc Hq He.
  destruct (wakeup_reachable (AtPop, w0) (pc, w)) as (q1 & Hq1 & Hok & Hinv); [by exists q0|done|].
  simpl in *. rewrite Hq in Hq1. injection Hq1 as <-.
  assert (Hpop : forall v, w_queues v !! tq_inner tq = Some q ->
    rtc pop_or_wait (AtPop, v) (Returned x, set_queue (tq_inner tq) (aq_pop q).2 v)).
  { intros v Hv. apply rtc_once, pw_frame. by rewrite (pop_cases v q Hv), He. }
  destruct pc as [| |f]; [eauto| |by destruct (Hpc f)].
  eexists. eapply rtc_l; [|by apply (Hpop (take_permit (tq_inner tq) w))].
  apply pw_notified, Hinv; [done|by rewrite He].
Qed.
End PopOrWait.

(** ** A concrete [ArrayQueue], to run the examples *)

Module ListQueue.
Record t := { items : list Bytes; limit : nat }.
#[global] Instance ops : ArrayQueue t := {
  aq_new n := {| items := []; limit := n |};
  aq_force_push q x :=
    if (length (items q) <? limit q)%nat then (None, {| items := items q ++ [x]; limit := limit q |})
    else match items q with
         | y :: l => (Some y, {| items := l ++ [x]; limit := limit q |})
         | [] => (None, {| items := [x]; limit := limit q |})
         end;
  aq_pop q := (head (items q), {| items := tail (items q); limit := limit q |});
  aq_len q := length (items q);
}.
#[global] Instance laws : ArrayQueueLaws t.
Proof.
  refine {| aq_elems := items; aq_cap := limit |}; simpl; try done.
  - intros q x Hlt. by rewrite (proj2 (Nat.ltb_lt _ _) Hlt).
  - intros q x y l E Hge. rewrite (proj2 (Nat.ltb_ge _ _) Hge). by rewrite E.
  - intros q x. by repeat case_match.
Defined.
End ListQueue.

Definition sample_world (q : ListQueue.t) : World ListQueue.t :=
  {| w_stats := {[0%nat := EndpointStats_new Connected]}; w_queues := {[0%nat := q]}; w_notified := ∅ |}.
Definition sample_queue : TxQueue := {| tq_inner := 0; tq_stats := 0 |}.

Lemma sample_world_ok q : map_Forall (fun _ => stats_ok) (w_stats (sample_world q)).
Proof. simpl. apply map_Forall_singleton. apply EndpointStats_new_ok. Qed.

Lemma queue_accounts_for_every_frame_witness :
  exists outs w',
    queue_run sample_queue [OpPush [1]; OpPush [2]; OpPush [3]; OpPop; OpDrain] (sample_world (aq_new 2)) = Done (outs, w')
    /\ accounted sample_queue (sample_world (aq_new 2)) w' (aq_new 2) [[1]; [2]; [3]] outs.
Proof.
  apply (queue_accounts_for_every_frame sample_queue
    [OpPush [1]; OpPush [2]; OpPush [3]; OpPop; OpDrain] (sample_world (aq_new 2)) (aq_new 2));
    [reflexivity | split; simpl; lia | apply sample_world_ok].
Defined.

(** The writer finds the queue empty, the router pushes before the writer suspends. *)
Lemma no_lost_wakeup_witness :
  exists w', rtc (pop_or_wait sample_queue)
    (AtNotified, TxQueue_push sample_queue [7] (TxQueue_pop sample_queue (sample_world (aq_new 2))).2) (Returned [7], w').
Proof.
  apply (no_lost_wakeup sample_queue (sample_world (aq_new 2)) (aq_new 2) AtNotified
    (TxQueue_push sample_queue [7] (TxQueue_pop sample_queue (sample_world (aq_new 2))).2)
    {| ListQueue.items := [[7]]; ListQueue.limit := 2 |} [7] []);
    [reflexivity | split; simpl; lia | | discriminate | reflexivity | reflexivity].
  eapply rtc_l; [apply qs_writer, pw_empty; reflexivity|]. apply rtc_once, qs_push.
Defined.
