(* ===== verification/Identity.v ===== *)
(** * Endpoint identity and lifecycle data
    ([src/src/endpoint/identity_flags.rs], [src/src/endpoint/mod.rs], [src/src/endpoint/events.rs])

    The query-key parser of [IdentityFlags] is in [FilterParse]. *)

From S2P Require Import Prelude Frame Filters TxQueue.
#[local] Open Scope Z_scope.

Definition LEARN_CAPACITY : nat := 32.
Definition SEQ_TRACKER_CAPACITY : nat := 32.

(** [struct IdentityFlags] *)
Record IdentityFlags := {
  filters : Filters;
  sniffer : bool;
  group : option string;
}.

Definition IdentityFlags_default : IdentityFlags :=
  {| filters := Filters_default; sniffer := false; group := None |}.

(** [struct EndpointId(u64)] *)
Abbreviation EndpointId := Z.

(** [struct EndpointIdAllocator]: the value of [next]. *)
Abbreviation EndpointIdAllocator := Z.
Definition EndpointIdAllocator_new : EndpointIdAllocator := 0.

(** [fn alloc(&self) -> EndpointId]: [fetch_add] returns the previous value. *)
Definition alloc (next : EndpointIdAllocator) : EndpointId * EndpointIdAllocator :=
  (next, wrap 64 (next + 1)).

(** [struct RouterFrame] *)
Record RouterFrame := {
  rf_endpoint_id : EndpointId;
  rf_frame : Bytes;
  rf_header : ParsedHeader;
}.

(** [struct Routable] *)
Record Routable := {
  rt_tx_queue : TxQueue;
  rt_identity : IdentityFlags;
  rt_endpoint_name : string;
}.

(** [enum PeerRemovalReason] *)
Inductive PeerRemovalReason := Reason_Idle | LruEvicted | Disconnected | ListenerShutdown.

(** [enum EndpointEvent]; an [Arc<EndpointStats>] is its handle. *)
Inductive EndpointEvent :=
| EndpointAdded (id : EndpointId) (name : string) (stats : nat) (routable : option Routable)
| PeerAdded (parent_id child_id : EndpointId) (name : string) (stats : nat) (routable : Routable)
| PeerRemoved (parent_id child_id : EndpointId) (reason : PeerRemovalReason).

(** [n] successive allocations. *)
Fixpoint alloc_many (n : nat) (next : EndpointIdAllocator) : list EndpointId * EndpointIdAllocator :=
  match n with
  | O => ([], next)
  | S n' =>
      let '(id, next) := alloc next in
      let '(ids, next) := alloc_many n' next in (id :: ids, next)
  end.

Lemma alloc_many_ids n next ids next' :
  0 <= next -> next + Z.of_nat n <= 2 ^ 64 -> alloc_many n next = (ids, next') ->
  ids = (fun i => next + Z.of_nat i) <$> List.seq 0 n.
Proof.
  revert next ids next'; induction n as [|n IH]; intros next ids next' Hn Hb; cbn [alloc_many].
  { by intros [= <- _]. }
  unfold alloc. cbv beta iota zeta.
  destruct (alloc_many n (wrap 64 (next + 1))) as [rest e] eqn:E. intros [= <- _].
  destruct n as [|n]; [simpl in E; injection E as <- _; simpl; f_equal; lia|].
  rewrite wrap_small in E by (unfold in_width; lia). apply IH in E; [|lia|lia].
  rewrite E. change (List.seq 0 (S (S n))) with (0%nat :: List.seq 1 (S n)).
  rewrite <- fmap_S_seq, fmap_cons, <- list_fmap_compose. f_equal; [lia|].
  apply list_fmap_ext. intros i x _. simpl. lia.
Qed.
