(* ===== verification/Group.v ===== *)
(** * The group registry ([src/src/router/group.rs]) *)

From S2P Require Import Prelude Frame LruVec Learn.
#[local] Open Scope Z_scope.

(** [struct GroupLearn] *)
Record GroupLearn := { gl_learn : LearnTable; gl_members : nat }.

(** [struct GroupRegistry] *)
Abbreviation GroupRegistry := (gmap string GroupLearn).

Definition GroupRegistry_new : GroupRegistry := ∅.

(** [fn join(&mut self, name, capacity) -> usize] *)
Definition join (g : GroupRegistry) (name : string) (capacity : nat) : nat * GroupRegistry :=
  let entry := default {| gl_learn := LearnTable_new capacity; gl_members := 0 |} (g !! name) in
  let entry := {| gl_learn := gl_learn entry; gl_members := S (gl_members entry) |} in
  (gl_members entry, <[name := entry]> g).

(** [fn leave(&mut self, name)] *)
Definition leave (g : GroupRegistry) (name : string) : GroupRegistry :=
  match g !! name with
  | None => g
  | Some entry =>
      let members := (gl_members entry - 1)%nat in
      if (members =? 0)%nat then delete name g
      else <[name := {| gl_learn := gl_learn entry; gl_members := members |}]> g
  end.

(** [groups.get_mut(name)] followed by [group.learn.touch(node, now)] *)
Definition group_touch (g : GroupRegistry) (name : string) (node : NodeId) (now : Z) : GroupRegistry :=
  alter (fun entry => {| gl_learn := (touch (gl_learn entry) node now).2; gl_members := gl_members entry |}) name g.

(** ** The registry as a reference count

    [members_of g name] is the number of joins not yet matched by a leave. *)

Definition members_of (g : GroupRegistry) (name : string) : nat :=
  match g !! name with Some e => gl_members e | None => 0 end.

(** Every registered group has at least one member, and a well-formed learn table. *)
Definition groups_ok (g : GroupRegistry) : Prop :=
  map_Forall (fun _ e => (1 <= gl_members e)%nat /\ learn_ok (gl_learn e)) g.

Lemma join_members g name cap n :
  members_of (join g name cap).2 n = (members_of g n + if decide (name = n) then 1 else 0)%nat.
Proof.
  unfold join, members_of. simpl. destruct (decide (name = n)) as [->|Hne].
  - rewrite lookup_insert_eq. simpl. destruct (g !! n); simpl; lia.
  - rewrite lookup_insert_ne by done. lia.
Qed.

Lemma leave_members g name n :
  members_of (leave g name) n = (members_of g n - if decide (name = n) then 1 else 0)%nat.
Proof.
  unfold leave, members_of. destruct (decide (name = n)) as [->|Hne].
  - destruct (g !! n) as [e|] eqn:E; [|by rewrite E].
    destruct (Nat.eqb_spec (gl_members e - 1) 0) as [Hz|];
      [rewrite lookup_delete_eq; lia | by rewrite lookup_insert_eq].
  - destruct (g !! name) as [e|]; [|lia].
    destruct (_ =? 0)%nat; [rewrite lookup_delete_ne by done | rewrite lookup_insert_ne by done]; lia.
Qed.

Lemma touch_members g name node now n : members_of (group_touch g name node now) n = members_of g n.
Proof.
  unfold group_touch, members_of. destruct (decide (name = n)) as [->|Hne].
  - rewrite lookup_alter_eq. by destruct (g !! n).
  - by rewrite lookup_alter_ne.
Qed.

Lemma join_ok g name cap : groups_ok g -> groups_ok (join g name cap).2.
Proof.
  intros Hg. apply map_Forall_insert_2; [|done]. simpl. split; [lia|].
  destruct (g !! name) as [e|] eqn:E; simpl; [by apply (Hg name e)|apply learn_new_ok].
Qed.

Lemma leave_ok g name : groups_ok g -> groups_ok (leave g name).
Proof.
  intros Hg. unfold leave. destruct (g !! name) as [e|] eqn:E; [|done].
  destruct (Nat.eqb_spec (gl_members e - 1) 0); [by apply map_Forall_delete|].
  apply map_Forall_insert_2; [|done]. simpl. split; [lia|]. by apply (Hg name e).
Qed.

Lemma group_touch_ok g name node now : groups_ok g -> groups_ok (group_touch g name node now).
Proof.
  intros Hg n e. unfold group_touch. destruct (decide (name = n)) as [->|Hne].
  - rewrite lookup_alter_eq. destruct (g !! n) as [e'|] eqn:E; [|done]. simpl. intros [= <-]. simpl.
    destruct (Hg n e' E). auto using touch_ok.
  - rewrite lookup_alter_ne by done. apply Hg.
Qed.

Lemma members_pos g name : groups_ok g -> (1 <= members_of g name)%nat <-> is_Some (g !! name).
Proof.
  intros Hg. unfold members_of. destruct (g !! name) as [e|] eqn:E.
  - destruct (Hg name e E). split; [eauto|done].
  - split; [lia|by intros []].
Qed.

#[export] Hint Resolve join_ok leave_ok group_touch_ok : rmr.

(** A sibling's join or leave never disturbs what the group has learned, unless the leave
    was the last one. *)
Lemma join_learn g name cap n e :
  g !! n = Some e -> gl_learn <$> (join g name cap).2 !! n = Some (gl_learn e).
Proof.
  intros He. simpl. destruct (decide (name = n)) as [->|Hne].
  - rewrite lookup_insert_eq. simpl. by rewrite He.
  - by rewrite lookup_insert_ne, He.
Qed.

Lemma leave_learn g name n e :
  g !! n = Some e -> (name = n -> (2 <= gl_members e)%nat) ->
  gl_learn <$> leave g name !! n = Some (gl_learn e).
Proof.
  intros He Hm. unfold leave. destruct (decide (name = n)) as [->|Hne].
  - rewrite He. specialize (Hm eq_refl). rewrite (proj2 (Nat.eqb_neq _ _)) by lia.
    by rewrite lookup_insert_eq.
  - destruct (g !! name); [|by rewrite He].
    destruct (_ =? 0)%nat; [rewrite lookup_delete_ne by done | rewrite lookup_insert_ne by done]; by rewrite He.
Qed.
