(* ===== verification/Decide.v ===== *)
(** * The per-destination decision ([src/src/router/decide.rs]) *)

From S2P Require Import Prelude Frame Filters LruVec Learn Identity.
#[local] Open Scope Z_scope.

(** [enum Decision] *)
Inductive RouteDecision := Admit | LoopBlocked | OutFilterBlocked | TargetMismatch.

#[global] Instance RouteDecision_eq_dec : EqDecision RouteDecision.
Proof. solve_decision. Defined.

(** [fn target_match(header: &ParsedHeader, learn: &LearnTable) -> bool] *)
Definition target_match (header : ParsedHeader) (learn : LearnTable) : bool :=
  match target_system header with
  | None => true
  | Some target_sys =>
      if target_sys =? 0 then true
      else match target_component header with
           | None | Some 0 => contains_sys learn target_sys
           | Some comp => contains learn (NodeId_new target_sys comp)
           end
  end.

(** [fn decide(header, dest_learn, dest_identity, src_endpoint_name) -> Decision] *)
Definition decide_for_dest (header : ParsedHeader) (dest_learn : LearnTable)
    (dest_identity : IdentityFlags) (src_endpoint_name : string) : RouteDecision :=
  if sniffer dest_identity then Admit
  else if contains dest_learn (source header) then LoopBlocked
  else if negb (passes_out_filter (filters dest_identity) (msgid header) (source header) src_endpoint_name)
  then OutFilterBlocked
  else if negb (target_match header dest_learn) then TargetMismatch
  else Admit.

(** ** The contract *)

(** The frame is addressed to someone behind the destination: it is a broadcast, or the
    destination has learned a node the target denotes (component 0 denotes every component
    of the system). *)
Definition addressed_behind (header : ParsedHeader) (learn : LearnTable) : Prop :=
  match target_system header with
  | None | Some 0 => True
  | Some s =>
      match target_component header with
      | None | Some 0 => exists c, contains learn (NodeId_new s c) = true
      | Some c => contains learn (NodeId_new s c) = true
      end
  end.

Lemma target_match_spec header learn : target_match header learn = true <-> addressed_behind header learn.
Proof.
  unfold target_match, addressed_behind. destruct (target_system header) as [[|s|s]|]; simpl; try done;
    destruct (target_component header) as [[|c|c]|]; rewrite ?contains_sys_exists; done.
Qed.

(** When a destination gets a frame.  A sniffer always does; any other destination gets
    it exactly when it has not itself learned the frame's source (no echo towards the
    sender), its egress filter admits the frame, and the frame is a broadcast or addressed
    to a node learned behind it. *)
Theorem decide_admits_iff header learn identity name :
  decide_for_dest header learn identity name = Admit <->
  sniffer identity = true \/
  (contains learn (source header) = false /\
   admits_out (filters identity) (msgid header) (source header) name /\
   addressed_behind header learn).
Proof.
  unfold decide_for_dest. rewrite <- passes_out_filter_spec, <- target_match_spec.
  destruct (sniffer identity), (contains learn (source header)),
    (passes_out_filter (filters identity) (msgid header) (source header) name), (target_match header learn); simpl; naive_solver.
Qed.

(** The one counted rejection: the filter rejects a frame that loop prevention let through. *)
Lemma decide_out_filter_iff header learn identity name :
  decide_for_dest header learn identity name = OutFilterBlocked <->
  sniffer identity = false /\ contains learn (source header) = false /\
  ~ admits_out (filters identity) (msgid header) (source header) name.
Proof.
  unfold decide_for_dest. rewrite <- passes_out_filter_spec.
  destruct (sniffer identity), (contains learn (source header)),
    (passes_out_filter (filters identity) (msgid header) (source header) name), (target_match header learn); simpl; naive_solver.
Qed.

Lemma decide_not_admit_learned header learn identity name :
  sniffer identity = false -> contains learn (source header) = true ->
  decide_for_dest header learn identity name = LoopBlocked.
Proof. intros Hs Hc. unfold decide_for_dest. by rewrite Hs, Hc. Qed.
