(* ===== verification/Router.v ===== *)
(** * The router task ([src/src/router/mod.rs])

    The router owns the endpoint registry, the group registry and the dedup window; the
    queues and counters it shares with other tasks are in the [World].  Three parameters
    stand for what the source does not define: the frame hash ([twox_hash]), the stats
    channel ([tokio::sync::mpsc]) and the iteration order of a [HashMap]. *)

From S2P Require Import Prelude Frame Filters LruVec Learn Dedup Group EndpointStats TxQueue Identity Decide.
#[local] Open Scope Z_scope.

(** [enum StatsEvent] of [src/src/stats.rs]. *)
Inductive StatsEvent :=
| Register (id : EndpointId) (name : string) (stats : nat) (routable : bool)
| Finalize (id : EndpointId).

Definition StatsEvent_id (e : StatsEvent) : EndpointId :=
  match e with Register id _ _ _ | Finalize id => id end.

(** ** The stats channel, an interface

    [Sender::try_send] either accepts the event or fails because the buffer is full or the
    receiver is gone. *)

Inductive send_result := Sent | Full | Closed.

Class StatsSender (C : Type) := {
  try_send : C -> StatsEvent -> send_result * C;
}.

(** The accepted events, in order, are what the stats task will receive. *)
Class StatsSenderLaws (C : Type) `{StatsSender C} := {
  accepted : C -> list StatsEvent;
  try_send_accepted c e :
    accepted (try_send c e).2 =
    match (try_send c e).1 with Sent => accepted c ++ [e] | Full | Closed => accepted c end;
}.

(** [struct RoutableState] *)
Record RoutableState := {
  rs_tx_queue : TxQueue;
  rs_identity : IdentityFlags;
  rs_endpoint_name : string;
  rs_learn : LearnTable;
}.

(** [struct RegisteredEndpoint] *)
Record RegisteredEndpoint := {
  re_name : string;
  re_stats : nat;
  re_routable : option RoutableState;
}.

(** [enum SourceAdmission] *)
Inductive SourceAdmission := SourceAdmitted (src_endpoint_name : string) | Suppressed.

(** [struct Router] *)
Record Router (C : Type) := {
  routing : gmap EndpointId RegisteredEndpoint;
  groups : GroupRegistry;
  dedup : DedupWindow;
  stats_event_tx : C;
  stats_events_dropped : Z;
}.
Arguments routing {C}.
Arguments groups {C}.
Arguments dedup {C}.
Arguments stats_event_tx {C}.
Arguments stats_events_dropped {C}.

Abbreviation registry := (gmap EndpointId RegisteredEndpoint).

Definition with_routing {C} (r : Router C) (m : registry) : Router C :=
  {| routing := m; groups := groups r; dedup := dedup r;
     stats_event_tx := stats_event_tx r; stats_events_dropped := stats_events_dropped r |}.
Definition with_groups {C} (r : Router C) (g : GroupRegistry) : Router C :=
  {| routing := routing r; groups := g; dedup := dedup r;
     stats_event_tx := stats_event_tx r; stats_events_dropped := stats_events_dropped r |}.
Definition with_dedup {C} (r : Router C) (d : DedupWindow) : Router C :=
  {| routing := routing r; groups := groups r; dedup := d;
     stats_event_tx := stats_event_tx r; stats_events_dropped := stats_events_dropped r |}.

(** [Duration::from_millis], in the nanoseconds of the model's clock. *)
Definition from_millis (ms : Z) : Z := ms * 1000000.

Definition Router_new {C} (stats_event_tx : C) (dedup_ms : Z) (dedup_window_capacity : nat) : Router C :=
  {| routing := ∅; groups := GroupRegistry_new;
     dedup := DedupWindow_new (from_millis dedup_ms) dedup_window_capacity;
     stats_event_tx := stats_event_tx; stats_events_dropped := 0 |}.

(** [match reason { .. }] of the [PeerRemoved] arm. *)
Definition final_state (reason : PeerRemovalReason) : EndpointState :=
  match reason with
  | Reason_Idle => Idle
  | LruEvicted | Disconnected | ListenerShutdown => Down
  end.

(** [&routable_state.identity.group] of a registered endpoint. *)
Definition ep_group (ep : RegisteredEndpoint) : option string :=
  match re_routable ep with Some rs => group (rs_identity rs) | None => None end.

Section Router.
Context {Q : Type} `{ArrayQueue Q} {C : Type} `{StatsSender C}.
Context (hash : Bytes -> Z).                          (** [XxHash3_64::oneshot] *)
Context (iter : registry -> list (EndpointId * RegisteredEndpoint)).  (** [HashMap::iter] *)
Context (debug_assertions : bool).                    (** [cfg!(debug_assertions)] *)
Abbreviation Router := (Router C).
Abbreviation World := (World Q).

(** [fn forward_stats(&mut self, event: StatsEvent)] *)
Definition forward_stats (r : Router) (event : StatsEvent) : Router :=
  let '(res, tx) := try_send (stats_event_tx r) event in
  {| routing := routing r; groups := groups r; dedup := dedup r; stats_event_tx := tx;
     stats_events_dropped :=
       match res with Full => wrap 64 (stats_events_dropped r + 1) | _ => stats_events_dropped r end |}.

(** [fn build_routable_state(&mut self, payload: Routable) -> RoutableState] *)
Definition build_routable_state (r : Router) (payload : Routable) : RoutableState * Router :=
  let r := match group (rt_identity payload) with
           | Some g => with_groups r (join (groups r) g LEARN_CAPACITY).2
           | None => r
           end in
  ({| rs_tx_queue := rt_tx_queue payload; rs_identity := rt_identity payload;
      rs_endpoint_name := rt_endpoint_name payload; rs_learn := LearnTable_new LEARN_CAPACITY |}, r).

(** [async fn register_routable(&mut self, id, name, stats, routable_state)] *)
Definition register_routable (r : Router) (id : EndpointId) (name : string) (stats : nat)
    (routable_state : option RoutableState) : Router :=
  let routable := match routable_state with Some _ => true | None => false end in
  let r := with_routing r (<[id := {| re_name := name; re_stats := stats; re_routable := routable_state |}]> (routing r)) in
  forward_stats r (Register id name stats routable).

(** [async fn handle_event(&mut self, event: EndpointEvent)] *)
Definition handle_event (r : Router) (event : EndpointEvent) (w : World) : Router * World :=
  match event with
  | EndpointAdded id name stats routable =>
      let '(routable_state, r) :=
        match routable with
        | Some payload => let '(rs, r) := build_routable_state r payload in (Some rs, r)
        | None => (None, r)
        end in
      (register_routable r id name stats routable_state, w)
  | PeerAdded parent_id child_id name stats routable =>
      let '(routable_state, r) := build_routable_state r routable in
      (register_routable r child_id name stats (Some routable_state), w)
  | PeerRemoved parent_id child_id reason =>
      let final_state := final_state reason in
      let '(r, w) :=
        match routing r !! child_id with
        | Some entry =>
            let r := with_routing r (delete child_id (routing r)) in
            let r := match ep_group entry with
                     | Some g => with_groups r (leave (groups r) g)
                     | None => r
                     end in
            (r, stats_update (re_stats entry) (store_state final_state) w)
        | None => (r, w)
        end in
      (forward_stats r (Finalize child_id), w)
  end.

(** [src_routable.learn.touch(node, now)] through the registry's entry. *)
Definition touch_own (now : Z) (node : NodeId) (ep : RegisteredEndpoint) : RegisteredEndpoint :=
  {| re_name := re_name ep; re_stats := re_stats ep;
     re_routable := match re_routable ep with
                    | Some rs => Some {| rs_tx_queue := rs_tx_queue rs; rs_identity := rs_identity rs;
                                         rs_endpoint_name := rs_endpoint_name rs;
                                         rs_learn := (touch (rs_learn rs) node now).2 |}
                    | None => None
                    end |}.

(** [fn ingest_source_frame(&mut self, src_id, frame, header, now) -> SourceAdmission] *)
Definition ingest_source_frame (r : Router) (src_id : EndpointId) (frame : Bytes)
    (header : ParsedHeader) (now : Z) (w : World) : SourceAdmission * Router * World :=
  match routing r !! src_id with
  | None => (Suppressed, r, w)
  | Some src_entry =>
      let src_stats := re_stats src_entry in
      match re_routable src_entry with
      | None => (Suppressed, r, w)
      | Some src_routable =>
          let '(dup, d) := check_and_insert hash (dedup r) frame now in
          let r := with_dedup r d in
          if dup then (Suppressed, r, stats_update src_stats (fetch_add DedupDrops 1) w)
          else
            let publish len w := stats_update src_stats (store LearnEntries (Z.of_nat len)) w in
            match group (rs_identity src_routable) with
            | Some name =>
                match groups r !! name with
                | None => (Suppressed, r, w)
                | Some g =>
                    let len := LearnTable_len (touch (gl_learn g) (source header) now).2 in
                    (SourceAdmitted (rs_endpoint_name src_routable),
                     with_groups r (group_touch (groups r) name (source header) now),
                     publish len w)
                end
            | None =>
                let len := LearnTable_len (touch (rs_learn src_routable) (source header) now).2 in
                (SourceAdmitted (rs_endpoint_name src_routable),
                 with_routing r (alter (touch_own now (source header)) src_id (routing r)),
                 publish len w)
            end
      end
  end.

(** The body of the loop of [dispatch_to_destinations]. *)
Definition dispatch_one (g : GroupRegistry) (src_id : EndpointId) (frame : Bytes) (header : ParsedHeader)
    (src_endpoint_name : string) (dest_id : EndpointId) (dest_ep : RegisteredEndpoint) (w : World)
    : outcome World :=
  if dest_id =? src_id then Done w
  else match re_routable dest_ep with
  | None => Done w
  | Some dest_routable =>
      let dest_learn :=
        match group (rs_identity dest_routable) with
        | Some name => gl_learn <$> g !! name
        | None => Some (rs_learn dest_routable)
        end in
      match dest_learn with
      | None => if debug_assertions then Panicked else Done w
      | Some dest_learn =>
          match decide_for_dest header dest_learn (rs_identity dest_routable) src_endpoint_name with
          | Admit => Done (TxQueue_push (rs_tx_queue dest_routable) frame w)
          | OutFilterBlocked => Done (stats_update (re_stats dest_ep) (fetch_add OutFilterDrops 1) w)
          | LoopBlocked | TargetMismatch => Done w
          end
      end
  end.

Fixpoint dispatch_loop (g : GroupRegistry) (src_id : EndpointId) (frame : Bytes) (header : ParsedHeader)
    (src_endpoint_name : string) (dests : list (EndpointId * RegisteredEndpoint)) (w : World) : outcome World :=
  match dests with
  | [] => Done w
  | (dest_id, dest_ep) :: rest =>
      let! w := dispatch_one g src_id frame header src_endpoint_name dest_id dest_ep w in
      dispatch_loop g src_id frame header src_endpoint_name rest w
  end.

(** [fn dispatch_to_destinations(&self, src_id, frame, header, src_endpoint_name)] *)
Definition dispatch_to_destinations (r : Router) (src_id : EndpointId) (frame : Bytes)
    (header : ParsedHeader) (src_endpoint_name : string) (w : World) : outcome World :=
  dispatch_loop (groups r) src_id frame header src_endpoint_name (iter (routing r)) w.

(** [fn handle_frame(&mut self, router_frame: RouterFrame)]; [now] is [Instant::now()]. *)
Definition handle_frame (r : Router) (router_frame : RouterFrame) (now : Z) (w : World)
    : outcome (Router * World) :=
  let src_id := rf_endpoint_id router_frame in
  let frame := rf_frame router_frame in
  let header := rf_header router_frame in
  let '(admission, r, w) := ingest_source_frame r src_id frame header now w in
  match admission with
  | Suppressed => Done (r, w)
  | SourceAdmitted src_endpoint_name =>
      let! w := dispatch_to_destinations r src_id frame header src_endpoint_name w in
      Done (r, w)
  end.

Fixpoint sweep_loop (r : Router) (survivors : list (EndpointId * RegisteredEndpoint)) (w : World) : Router * World :=
  match survivors with
  | [] => (r, w)
  | (id, entry) :: rest =>
      let w := stats_update (re_stats entry) (store_state Down) w in
      let r := forward_stats r (Finalize id) in
      sweep_loop r rest w
  end.

(** [async fn shutdown_sweep(&mut self)] *)
Definition shutdown_sweep (r : Router) (w : World) : Router * World :=
  sweep_loop (with_routing r ∅) (iter (routing r)) w.
End Router.

(** ** The select loop of [run_inner]

    The channels are FIFO lists that the other tasks append to; the environment also cancels,
    drains the stats channel and changes the shared store at any point.  The select is
    biased: it polls the token, then the event channel, then the frame channel, one after the
    other, and the other tasks run on other threads between two polls.  [Running] is the task
    about to poll the token, [PollEvents] and [PollFrames] about to poll a channel after the
    polls before it came back empty.  The [else] arm needs every branch to be disabled, and the
    [cancelled()] branch never is: with both channels closed the task stays suspended until it
    is cancelled. *)

Inductive phase := Running | PollEvents | PollFrames | Draining | Finished | Crashed.

Record RunState (Q C : Type) := {
  run_router : Router C;
  run_world : World Q;
  run_events : list EndpointEvent;
  run_frames : list RouterFrame;
  run_cancelled : bool;
  run_phase : phase;
}.
Arguments run_router {Q C}.
Arguments run_world {Q C}.
Arguments run_events {Q C}.
Arguments run_frames {Q C}.
Arguments run_cancelled {Q C}.
Arguments run_phase {Q C}.

Section Run.
Context {Q : Type} `{ArrayQueue Q} {C : Type} `{StatsSender C}.
Context (hash : Bytes -> Z) (iter : registry -> list (EndpointId * RegisteredEndpoint)) (debug_assertions : bool).
Implicit Types s : RunState Q C.

Definition set_task s (r : Router C) (w : World Q) (evs : list EndpointEvent) (frs : list RouterFrame)
    (ph : phase) : RunState Q C :=
  {| run_router := r; run_world := w; run_events := evs; run_frames := frs;
     run_cancelled := run_cancelled s; run_phase := ph |}.

(** One poll of the task at time [now], with the handler of the branch it completes.  After a
    handler, or when no branch is ready, the task starts again with the first poll; [None] is
    the task gone. *)
Definition run_inner_turn (now : Z) s : option (RunState Q C) :=
  let r := run_router s in
  let w := run_world s in
  match run_phase s with
  | Running =>
      Some (set_task s r w (run_events s) (run_frames s) (if run_cancelled s then Draining else PollEvents))
  | PollEvents =>
      match run_events s with
      | event :: evs =>
          let '(r, w) := handle_event r event w in Some (set_task s r w evs (run_frames s) Running)
      | [] => Some (set_task s r w [] (run_frames s) PollFrames)
      end
  | PollFrames =>
      match run_frames s with
      | frame :: frs =>
          match handle_frame hash iter debug_assertions r frame now w with
          | Done (r, w) => Some (set_task s r w (run_events s) frs Running)
          | _ => Some (set_task s r w (run_events s) frs Crashed)
          end
      | [] => Some (set_task s r w (run_events s) [] Running)
      end
  | Draining =>
      match run_events s with
      | event :: evs =>
          let '(r, w) := handle_event r event w in Some (set_task s r w evs (run_frames s) Draining)
      | [] => let '(r, w) := shutdown_sweep iter r w in Some (set_task s r w [] (run_frames s) Finished)
      end
  | Finished | Crashed => None
  end.
End Run.
