(* ===== verification/RouterInv.v ===== *)
(** * Invariants of the router

    Group membership is a reference count that covers the registered endpoints, so a
    member's group table always exists; every learn table is well formed. *)

From S2P Require Import Prelude Frame Filters LruVec Learn Dedup Group EndpointStats TxQueue Identity Decide Router.
#[local] Open Scope Z_scope.

(** ** Counting the registered members of a group *)

Definition is_member (name : string) (ep : RegisteredEndpoint) : nat :=
  if decide (ep_group ep = Some name) then 1 else 0.

Definition group_count (m : registry) (name : string) : nat :=
  size (filter (fun p => ep_group p.2 = Some name) m).

Lemma group_count_empty name : group_count ∅ name = 0%nat.
Proof. unfold group_count. by rewrite map_filter_empty, map_size_empty. Qed.

Lemma group_count_insert_fresh m id ep name :
  m !! id = None -> group_count (<[id := ep]> m) name = (group_count m name + is_member name ep)%nat.
Proof.
  intros Hid. unfold group_count, is_member. case_decide as Hg.
  - rewrite map_filter_insert_True by done. rewrite map_size_insert_None; [lia|].
    by apply map_lookup_filter_None_2; left.
  - rewrite map_filter_insert_False by done. rewrite delete_id by done. lia.
Qed.

Lemma group_count_delete m id ep name :
  m !! id = Some ep -> group_count m name = (group_count (delete id m) name + is_member name ep)%nat.
Proof.
  intros Hid. rewrite <- (insert_delete_id m id ep Hid) at 1.
  apply group_count_insert_fresh, lookup_delete_eq.
Qed.

Lemma group_count_insert m id ep name :
  group_count (<[id := ep]> m) name = (group_count (delete id m) name + is_member name ep)%nat.
Proof. rewrite <- insert_delete_eq. apply group_count_insert_fresh, lookup_delete_eq. Qed.

Lemma group_count_delete_le m id name : (group_count (delete id m) name <= group_count m name)%nat.
Proof.
  destruct (m !! id) as [ep|] eqn:E; [rewrite (group_count_delete m id ep) by done; lia|].
  by rewrite delete_id.
Qed.

Lemma group_count_alter f m id name :
  (forall ep, ep_group (f ep) = ep_group ep) -> group_count (alter f id m) name = group_count m name.
Proof.
  intros Hf. destruct (m !! id) as [ep|] eqn:E; [|by rewrite alter_id'].
  rewrite (group_count_delete m id ep), (group_count_delete (alter f id m) id (f ep))
    by (done || by rewrite lookup_alter_eq, E).
  rewrite delete_alter_eq. unfold is_member. by rewrite Hf.
Qed.

Lemma group_count_pos m id ep name :
  m !! id = Some ep -> ep_group ep = Some name -> (1 <= group_count m name)%nat.
Proof.
  intros Hid Hg. rewrite (group_count_delete m id ep) by done. unfold is_member. rewrite decide_True by done. lia.
Qed.

Lemma group_count_member m name :
  (1 <= group_count m name)%nat -> exists id ep, m !! id = Some ep /\ ep_group ep = Some name.
Proof.
  unfold group_count. intros Hsz. destruct (map_choose (filter (fun p => ep_group p.2 = Some name) m)) as (id & ep & Hid).
  { intros Heq. rewrite Heq, map_size_empty in Hsz. lia. }
  apply map_lookup_filter_Some in Hid as [Hid Hg]. by exists id, ep.
Qed.

Lemma ep_group_touch_own now node ep : ep_group (touch_own now node ep) = ep_group ep.
Proof. unfold ep_group, touch_own. simpl. by destruct (re_routable ep). Qed.

Lemma re_stats_touch_own now node ep : re_stats (touch_own now node ep) = re_stats ep.
Proof. done. Qed.

(** ** The invariant *)

Definition learns_ok (m : registry) : Prop :=
  map_Forall (fun _ ep => forall rs, re_routable ep = Some rs -> learn_ok (rs_learn rs)) m.

Record router_inv {C} (r : Router C) : Prop := {
  inv_groups : groups_ok (groups r);
  inv_members : forall name, (group_count (routing r) name <= members_of (groups r) name)%nat;
  inv_learns : learns_ok (routing r);
}.

(** The exact count, kept as long as endpoint ids are not reused while registered. *)
Definition members_exact {C} (r : Router C) : Prop :=
  forall name, members_of (groups r) name = group_count (routing r) name.

(** [groups] and [routing] are all the invariant reads. *)
Lemma router_inv_ext {C} (r r' : Router C) :
  groups r' = groups r -> routing r' = routing r -> router_inv r -> router_inv r'.
Proof. intros Hg Hr [? ? ?]. split; rewrite ?Hg, ?Hr; done. Qed.

(** The learn table the router consults for a destination. *)
Definition effective_learn (g : GroupRegistry) (rs : RoutableState) : option LearnTable :=
  match group (rs_identity rs) with
  | Some name => gl_learn <$> g !! name
  | None => Some (rs_learn rs)
  end.

(** A registered member's group is in the registry: no lookup of it fails. *)
Lemma effective_learn_Some {C} (r : Router C) id ep rs :
  router_inv r -> routing r !! id = Some ep -> re_routable ep = Some rs ->
  exists t, effective_learn (groups r) rs = Some t /\ learn_ok t.
Proof.
  intros [Hg Hm Hl] Hid Hrs. unfold effective_learn. destruct (group (rs_identity rs)) as [name|] eqn:E.
  - assert (is_Some (groups r !! name)) as [e He].
    { apply members_pos; [done|]. etrans; [|apply Hm]. apply (group_count_pos _ id ep); [done|].
      unfold ep_group. by rewrite Hrs. }
    exists (gl_learn e). rewrite He. split; [done|]. by apply (Hg name e).
  - exists (rs_learn rs). split; [done|]. by apply (Hl id ep Hid).
Qed.

Section Inv.
Context {Q : Type} `{ArrayQueue Q} {C : Type} `{StatsSender C}.
Context (hash : Bytes -> Z) (iter : registry -> list (EndpointId * RegisteredEndpoint)) (debug_assertions : bool).
Implicit Types (r : Router C) (w : World Q).

Lemma forward_stats_state r e :
  groups (forward_stats r e) = groups r /\ routing (forward_stats r e) = routing r /\
  dedup (forward_stats r e) = dedup r.
Proof. unfold forward_stats. by destruct (try_send (stats_event_tx r) e). Qed.

Lemma Router_new_inv (tx : C) ms cap : router_inv (Router_new tx ms cap) /\ members_exact (Router_new tx ms cap).
Proof.
  assert (Hm : members_exact (Router_new tx ms cap)) by (intros name; by rewrite group_count_empty).
  split; [|done]. split; [apply map_Forall_empty| |apply map_Forall_empty].
  intros name. by rewrite Hm.
Qed.

Lemma build_routable_state_spec r p :
  let '(rs, r') := build_routable_state r p in
  rs_tx_queue rs = rt_tx_queue p /\ rs_identity rs = rt_identity p /\
  rs_endpoint_name rs = rt_endpoint_name p /\ rs_learn rs = LearnTable_new LEARN_CAPACITY /\
  routing r' = routing r /\ dedup r' = dedup r /\
  (groups_ok (groups r) -> groups_ok (groups r')) /\
  forall name, members_of (groups r') name =
    (members_of (groups r) name + is_member name {| re_name := ""; re_stats := 0; re_routable := Some rs |})%nat.
Proof.
  unfold build_routable_state, is_member, ep_group. simpl.
  destruct (group (rt_identity p)) as [g|] eqn:E; simpl; split_and!; try done.
  - apply join_ok.
  - intros name. setoid_rewrite (join_members (groups r) g LEARN_CAPACITY name).
    repeat case_decide; simplify_eq; lia.
Qed.

(** Registering an endpoint whose group (if any) was just joined. *)
Lemma register_inv r0 r id name stats rso :
  router_inv r0 -> routing r = routing r0 -> groups_ok (groups r) ->
  (forall rs, rso = Some rs -> learn_ok (rs_learn rs)) ->
  (forall n, members_of (groups r) n =
     (members_of (groups r0) n + is_member n {| re_name := ""; re_stats := 0; re_routable := rso |})%nat) ->
  router_inv (register_routable r id name stats rso) /\
  (routing r0 !! id = None -> members_exact r0 -> members_exact (register_routable r id name stats rso)).
Proof.
  intros [Hg Hm Hl] Hr Hg' Hrs Hmem. unfold register_routable, members_exact.
  destruct (forward_stats_state
    (with_routing r (<[id := {| re_name := name; re_stats := stats; re_routable := rso |}]> (routing r)))
    (Register id name stats (match rso with Some _ => true | None => false end))) as (Eg & Er & _).
  simpl in Eg, Er. split; [split|]; rewrite ?Eg, ?Er, ?Hr.
  - done.
  - intros n. rewrite group_count_insert, Hmem. specialize (Hm n).
    pose proof (group_count_delete_le (routing r0) id n). unfold is_member, ep_group in *. simpl in *. lia.
  - apply map_Forall_insert_2; [|done]. simpl. done.
  - intros Hid Hex n. rewrite group_count_insert_fresh, Hmem, Hex by done. done.
Qed.

(** The ids an event adds are fresh. *)
Definition event_fresh r (e : EndpointEvent) : Prop :=
  match e with
  | EndpointAdded id _ _ _ | PeerAdded _ id _ _ _ => routing r !! id = None
  | PeerRemoved _ _ _ => True
  end.

Lemma handle_event_inv r e w :
  router_inv r ->
  router_inv (handle_event r e w).1 /\
  (event_fresh r e -> members_exact r -> members_exact (handle_event r e w).1).
Proof.
  intros Hinv. destruct e as [id name stats [p|]|pid id name stats p|pid id reason]; cbn [handle_event].
  - pose proof (build_routable_state_spec r p) as Hb. destruct (build_routable_state r p) as [rs r1].
    destruct Hb as (_ & _ & _ & Hl & Hr & _ & Hg & Hm).
    apply register_inv; auto; [apply Hg, Hinv|]. intros ? [= <-]. rewrite Hl. apply learn_new_ok.
  - apply register_inv; auto; [apply Hinv|done].
  - pose proof (build_routable_state_spec r p) as Hb. destruct (build_routable_state r p) as [rs r1].
    destruct Hb as (_ & _ & _ & Hl & Hr & _ & Hg & Hm).
    apply register_inv; auto; [apply Hg, Hinv|]. intros ? [= <-]. rewrite Hl. apply learn_new_ok.
  - destruct (routing r !! id) as [ep|] eqn:E; simpl.
    2: { destruct (forward_stats_state r (Finalize id)) as (Eg & Er & _).
         split; [by apply (router_inv_ext r)|]. intros _ Hex n. by rewrite Eg, Er. }
    set (r1 := match ep_group ep with Some g => _ | None => _ end).
    destruct (forward_stats_state r1 (Finalize id)) as (Eg & Er & _).
    assert (Er1 : routing r1 = delete id (routing r)) by (unfold r1; by destruct (ep_group ep)).
    assert (Em : forall n, members_of (groups r1) n = (members_of (groups r) n - is_member n ep)%nat).
    { intros n. unfold r1, is_member. destruct (ep_group ep) as [g|]; simpl.
      - rewrite leave_members. repeat case_decide; simplify_eq; lia.
      - lia. }
    assert (Eok : groups_ok (groups r1)).
    { unfold r1. destruct (ep_group ep); [apply leave_ok|]; apply Hinv. }
    destruct Hinv as [Hg Hm Hl]. split; [split|]; rewrite ?Eg, ?Er, ?Er1.
    + done.
    + intros n. rewrite Em. specialize (Hm n). rewrite (group_count_delete _ id ep) in Hm by done. lia.
    + by apply map_Forall_delete.
    + intros _ Hex n. rewrite Eg, Er, Er1, Em, Hex, (group_count_delete _ id ep n E). lia.
Qed.

Lemma touch_own_learns now node id (m : registry) :
  learns_ok m -> learns_ok (alter (touch_own now node) id m).
Proof.
  intros Hl i ep. destruct (decide (id = i)) as [->|Hne]; [|rewrite lookup_alter_ne by done; apply Hl].
  rewrite lookup_alter_eq. destruct (m !! i) as [ep'|] eqn:E; [|done]. simpl. intros [= <-] rs. simpl.
  destruct (re_routable ep') as [rs'|] eqn:E'; [|done]. intros [= <-]. simpl. apply touch_ok.
  by apply (Hl i ep').
Qed.

Lemma ingest_inv r src frame header now w :
  router_inv r ->
  let '(_, r', _) := ingest_source_frame hash r src frame header now w in
  router_inv r' /\ (members_exact r -> members_exact r').
Proof.
  intros Hinv. unfold ingest_source_frame. destruct (routing r !! src) as [ep|]; [|done].
  destruct (re_routable ep) as [rs|]; [|done]. destruct (check_and_insert hash (dedup r) frame now) as [dup d].
  assert (Hd : router_inv (with_dedup r d)) by by apply (router_inv_ext r).
  destruct dup; [done|]. destruct (group (rs_identity rs)) as [name|].
  - simpl. destruct (groups r !! name) as [g|]; [|done]. destruct Hinv as [Hg Hm Hl]. split; [split|]; simpl.
    + by apply group_touch_ok.
    + intros n. by rewrite touch_members.
    + done.
    + intros Hex n. simpl. rewrite touch_members. apply Hex.
  - destruct Hinv as [Hg Hm Hl]. split; [split|]; simpl.
    + done.
    + intros n. rewrite group_count_alter by apply ep_group_touch_own. done.
    + by apply touch_own_learns.
    + intros Hex n. simpl. rewrite group_count_alter by apply ep_group_touch_own. apply Hex.
Qed.

Lemma handle_frame_router r rf now w r' w' :
  handle_frame hash iter debug_assertions r rf now w = Done (r', w') ->
  r' = (ingest_source_frame hash r (rf_endpoint_id rf) (rf_frame rf) (rf_header rf) now w).1.2.
Proof.
  unfold handle_frame. destruct (ingest_source_frame _ _ _ _ _ _ _) as [[[name|] r1] w1]; simpl; [|by intros [= <- _]].
  destruct (dispatch_to_destinations _ _ _ _ _ _ _ _); [|done..]. by intros [= <- _].
Qed.

Lemma handle_frame_inv r rf now w r' w' :
  router_inv r -> handle_frame hash iter debug_assertions r rf now w = Done (r', w') ->
  router_inv r' /\ (members_exact r -> members_exact r').
Proof.
  intros Hinv ->%handle_frame_router.
  pose proof (ingest_inv r (rf_endpoint_id rf) (rf_frame rf) (rf_header rf) now w Hinv) as Hi.
  by destruct (ingest_source_frame _ _ _ _ _ _ _) as [[? ?] ?].
Qed.
End Inv.

#[export] Hint Resolve handle_event_inv handle_frame_inv : rmr.
