(* ===== verification/Dispatch.v ===== *)
(** * What one frame does to every destination

    The loop over the [HashMap] of destinations, in whatever order it iterates, has exactly
    the per-destination effects the decision function prescribes. *)

From S2P Require Import Prelude Frame Filters LruVec Learn Dedup Group EndpointStats TxQueue Identity Decide Router RouterInv.
#[local] Open Scope Z_scope.

(** The decision for one registered endpoint; [None] for the source itself, for parent
    listeners, and for a member of an unknown group. *)
Definition route_verdict (g : GroupRegistry) (src : EndpointId) (header : ParsedHeader) (src_name : string)
    (id : EndpointId) (ep : RegisteredEndpoint) : option RouteDecision :=
  if id =? src then None
  else match re_routable ep with
  | None => None
  | Some rs =>
      match effective_learn g rs with
      | None => None
      | Some t => Some (decide_for_dest header t (rs_identity rs) src_name)
      end
  end.

(** Every endpoint has its own counters and its own queue, and its queue counts drops on
    its own counters: how the spawner and the listeners build endpoints. *)
Record owned (m : registry) : Prop := {
  own_stats id ep rs : m !! id = Some ep -> re_routable ep = Some rs -> tq_stats (rs_tx_queue rs) = re_stats ep;
  own_stats_inj id1 id2 ep1 ep2 :
    m !! id1 = Some ep1 -> m !! id2 = Some ep2 -> re_stats ep1 = re_stats ep2 -> id1 = id2;
  own_queue_inj id1 id2 ep1 ep2 rs1 rs2 :
    m !! id1 = Some ep1 -> m !! id2 = Some ep2 -> re_routable ep1 = Some rs1 -> re_routable ep2 = Some rs2 ->
    tq_inner (rs_tx_queue rs1) = tq_inner (rs_tx_queue rs2) -> id1 = id2;
}.

(** Whether a push of [frame] displaces a queued frame. *)
Definition evicts {Q} `{ArrayQueue Q} (frame : Bytes) (q : option Q) : bool :=
  match q with
  | Some q => match (aq_force_push q frame).1 with Some _ => true | None => false end
  | None => false
  end.

(** The effect of a decision on the destination's counters. *)
Definition count_effect (d : option RouteDecision) (evicted : bool) (s : EndpointStats) : EndpointStats :=
  match d with
  | Some Admit => if evicted then fetch_add DroppedTx 1 s else s
  | Some OutFilterBlocked => fetch_add OutFilterDrops 1 s
  | _ => s
  end.

Section Dispatch.
Context {Q : Type} `{ArrayQueue Q} {C : Type}.
Context (debug_assertions : bool).
Context (g : GroupRegistry) (src : EndpointId) (frame : Bytes) (header : ParsedHeader) (src_name : string).
Implicit Types w : World Q.

Definition apply_verdict (id : EndpointId) (ep : RegisteredEndpoint) w : World Q :=
  match re_routable ep, route_verdict g src header src_name id ep with
  | Some rs, Some Admit => TxQueue_push (rs_tx_queue rs) frame w
  | _, Some OutFilterBlocked => stats_update (re_stats ep) (fetch_add OutFilterDrops 1) w
  | _, _ => w
  end.

(** Every member's group is known. *)
Definition groups_known (m : registry) : Prop :=
  map_Forall (fun _ ep => forall rs, re_routable ep = Some rs -> is_Some (effective_learn g rs)) m.

Lemma dispatch_one_Done id ep w :
  (forall rs, re_routable ep = Some rs -> is_Some (effective_learn g rs)) ->
  dispatch_one debug_assertions g src frame header src_name id ep w = Done (apply_verdict id ep w).
Proof.
  intros Hk. unfold dispatch_one, apply_verdict, route_verdict.
  destruct (id =? src); [by destruct (re_routable ep)|].
  destruct (re_routable ep) as [rs|]; [|done]. destruct (Hk rs eq_refl) as [t Ht]. rewrite Ht.
  unfold effective_learn in Ht.
  destruct (group (rs_identity rs)); rewrite Ht || injection Ht as ->; by destruct (decide_for_dest _ _ _ _).
Qed.

Lemma dispatch_loop_Done dests w :
  Forall (fun p => forall rs, re_routable p.2 = Some rs -> is_Some (effective_learn g rs)) dests ->
  dispatch_loop debug_assertions g src frame header src_name dests w =
  Done (foldl (fun w p => apply_verdict p.1 p.2 w) w dests).
Proof.
  revert w; induction dests as [|[id ep] dests IH]; intros w Hk; [done|].
  apply Forall_cons in Hk as [Hep Hk]. cbn [dispatch_loop]. rewrite dispatch_one_Done by done. by rewrite IH.
Qed.

(** ** One destination's effect is confined to its own handles *)

Lemma push_queues tq w h :
  w_queues (TxQueue_push tq frame w) !! h =
  if decide (h = tq_inner tq) then (fun q => (aq_force_push q frame).2) <$> w_queues w !! h else w_queues w !! h.
Proof.
  unfold TxQueue_push. destruct (w_queues w !! tq_inner tq) as [q|] eqn:E.
  - destruct (aq_force_push q frame) as [ev q'] eqn:Ep.
    assert (Hq : w_queues (notify_one (tq_inner tq) (match ev with Some _ => stats_update (tq_stats tq) (fetch_add DroppedTx 1) (set_queue (tq_inner tq) q' w) | None => set_queue (tq_inner tq) q' w end)) = <[tq_inner tq := q']> (w_queues w)) by (by destruct ev).
    rewrite Hq. case_decide as Hh; [subst; by rewrite lookup_insert_eq, E; simpl; rewrite Ep|by rewrite lookup_insert_ne].
  - case_decide; [subst; by rewrite E|done].
Qed.

Lemma push_stats tq w :
  w_stats (TxQueue_push tq frame w) =
  if evicts frame (w_queues w !! tq_inner tq) then alter (fetch_add DroppedTx 1) (tq_stats tq) (w_stats w) else w_stats w.
Proof.
  unfold TxQueue_push, evicts. destruct (w_queues w !! tq_inner tq) as [q|]; [|done].
  by destruct (aq_force_push q frame) as [[y|] q'].
Qed.

Lemma apply_verdict_queues id ep w h :
  w_queues (apply_verdict id ep w) !! h =
  match re_routable ep, route_verdict g src header src_name id ep with
  | Some rs, Some Admit =>
      if decide (h = tq_inner (rs_tx_queue rs)) then (fun q => (aq_force_push q frame).2) <$> w_queues w !! h
      else w_queues w !! h
  | _, _ => w_queues w !! h
  end.
Proof.
  unfold apply_verdict. destruct (re_routable ep) as [rs|];
    destruct (route_verdict g src header src_name id ep) as [[]|]; try done. apply push_queues.
Qed.

Lemma apply_verdict_stats id ep w k :
  (forall rs, re_routable ep = Some rs -> tq_stats (rs_tx_queue rs) = re_stats ep) ->
  w_stats (apply_verdict id ep w) !! k =
  if decide (k = re_stats ep)
  then count_effect (route_verdict g src header src_name id ep)
         (evicts frame (match re_routable ep with Some rs => w_queues w !! tq_inner (rs_tx_queue rs) | None => None end))
       <$> w_stats w !! k
  else w_stats w !! k.
Proof.
  intros Hown. unfold apply_verdict.
  destruct (re_routable ep) as [rs|]; destruct (route_verdict g src header src_name id ep) as [[]|]; simpl;
    try (case_decide; by rewrite ?option_fmap_id).
  - rewrite push_stats, Hown by done. destruct (evicts _ _); case_decide; subst;
      by rewrite ?lookup_alter_eq, ?lookup_alter_ne, ?option_fmap_id.
  - case_decide; subst; by rewrite ?lookup_alter_eq, ?lookup_alter_ne.
  - case_decide; subst; by rewrite ?lookup_alter_eq, ?lookup_alter_ne.
Qed.

Definition run_verdicts (dests : list (EndpointId * RegisteredEndpoint)) w : World Q :=
  foldl (fun w p => apply_verdict p.1 p.2 w) w dests.

(** Endpoints that do not own a handle leave it alone. *)
Lemma run_verdicts_other_queue dests w h :
  Forall (fun p => forall rs, re_routable p.2 = Some rs -> tq_inner (rs_tx_queue rs) <> h) dests ->
  w_queues (run_verdicts dests w) !! h = w_queues w !! h.
Proof.
  revert w; induction dests as [|[id ep] dests IH]; intros w Hne; [done|].
  apply Forall_cons in Hne as [Hep Hne]. simpl. rewrite IH by done. rewrite apply_verdict_queues. simpl in Hep.
  destruct (re_routable ep) as [rs|]; [|done]. destruct (route_verdict _ _ _ _ _ _) as [[]|]; try done.
  rewrite decide_False; [done|]. intros ->. by apply (Hep rs).
Qed.

Lemma run_verdicts_other_stats dests w k :
  Forall (fun p => re_stats p.2 <> k /\ forall rs, re_routable p.2 = Some rs -> tq_stats (rs_tx_queue rs) = re_stats p.2) dests ->
  w_stats (run_verdicts dests w) !! k = w_stats w !! k.
Proof.
  revert w; induction dests as [|[id ep] dests IH]; intros w Hne; [done|].
  apply Forall_cons in Hne as [[Hk Hown] Hne]. simpl in *. rewrite IH by done.
  rewrite apply_verdict_stats by done. by rewrite decide_False.
Qed.

(** ** The loop, in any order *)

Context (m : registry) (Hown : owned m).

(** In a permutation of the registry, the entries around a given one are other endpoints. *)
Lemma around id ep order :
  order ≡ₚ map_to_list m -> m !! id = Some ep ->
  exists l1 l2, order = l1 ++ (id, ep) :: l2 /\
    Forall (fun p => m !! p.1 = Some p.2 /\ p.1 <> id) l1 /\ Forall (fun p => m !! p.1 = Some p.2 /\ p.1 <> id) l2.
Proof.
  intros Hp Hid. assert ((id, ep) ∈ order) as Hin by (rewrite Hp; by apply elem_of_map_to_list).
  apply list_elem_of_split in Hin as (l1 & l2 & ->). exists l1, l2. split; [done|].
  assert (Hnd : NoDup ((l1 ++ (id, ep) :: l2).*1)) by (rewrite Hp; apply NoDup_fst_map_to_list).
  rewrite fmap_app, fmap_cons in Hnd. simpl in Hnd. apply NoDup_app in Hnd as (_ & H1 & H2).
  apply NoDup_cons in H2 as [H2 _].
  assert (Hm : forall p, p ∈ l1 ++ (id, ep) :: l2 -> m !! p.1 = Some p.2).
  { intros [i e] Hi. rewrite Hp in Hi. by apply elem_of_map_to_list in Hi. }
  split; apply Forall_forall; intros p Hpin; (split; [apply Hm; set_solver|]).
  - intros Heq. apply (H1 p.1); [by apply list_elem_of_fmap_2|]. rewrite Heq. set_solver.
  - intros Heq. apply H2. rewrite <- Heq. by apply list_elem_of_fmap_2.
Qed.

Lemma others_queue id ep rs l :
  m !! id = Some ep -> re_routable ep = Some rs -> Forall (fun p => m !! p.1 = Some p.2 /\ p.1 <> id) l ->
  Forall (fun p => forall rs', re_routable p.2 = Some rs' -> tq_inner (rs_tx_queue rs') <> tq_inner (rs_tx_queue rs)) l.
Proof.
  intros Hid Hrs HF. eapply Forall_impl; [exact HF|]. intros [i e] [Hi Hne] rs' Hrs' Heq. simpl in *.
  apply Hne. by eapply own_queue_inj.
Qed.

Lemma others_stats id ep l :
  m !! id = Some ep -> Forall (fun p => m !! p.1 = Some p.2 /\ p.1 <> id) l ->
  Forall (fun p => re_stats p.2 <> re_stats ep /\ forall rs', re_routable p.2 = Some rs' -> tq_stats (rs_tx_queue rs') = re_stats p.2) l.
Proof.
  intros Hid HF. eapply Forall_impl; [exact HF|]. intros [i e] [Hi Hne]. simpl in *. split.
  - intros Heq. apply Hne. by eapply own_stats_inj.
  - intros rs' Hrs'. by eapply own_stats.
Qed.

Lemma run_verdicts_queue order w id ep rs :
  order ≡ₚ map_to_list m -> m !! id = Some ep -> re_routable ep = Some rs ->
  w_queues (run_verdicts order w) !! tq_inner (rs_tx_queue rs) =
  if decide (route_verdict g src header src_name id ep = Some Admit)
  then (fun q => (aq_force_push q frame).2) <$> w_queues w !! tq_inner (rs_tx_queue rs)
  else w_queues w !! tq_inner (rs_tx_queue rs).
Proof.
  intros Hp Hid Hrs. destruct (around id ep order Hp Hid) as (l1 & l2 & -> & H1 & H2).
  unfold run_verdicts. rewrite foldl_app. simpl. fold (run_verdicts l1 w).
  fold (run_verdicts l2 (apply_verdict id ep (run_verdicts l1 w))).
  rewrite run_verdicts_other_queue by (by eapply others_queue). rewrite apply_verdict_queues, Hrs.
  rewrite run_verdicts_other_queue by (by eapply others_queue).
  destruct (route_verdict g src header src_name id ep) as [[]|]; repeat case_decide; done.
Qed.

Lemma run_verdicts_stats order w id ep :
  order ≡ₚ map_to_list m -> m !! id = Some ep ->
  w_stats (run_verdicts order w) !! re_stats ep =
  count_effect (route_verdict g src header src_name id ep)
    (evicts frame (match re_routable ep with Some rs => w_queues w !! tq_inner (rs_tx_queue rs) | None => None end))
  <$> w_stats w !! re_stats ep.
Proof.
  intros Hp Hid. destruct (around id ep order Hp Hid) as (l1 & l2 & -> & H1 & H2).
  unfold run_verdicts. rewrite foldl_app. simpl. fold (run_verdicts l1 w).
  fold (run_verdicts l2 (apply_verdict id ep (run_verdicts l1 w))).
  rewrite run_verdicts_other_stats by (by eapply others_stats).
  rewrite apply_verdict_stats by (intros rs Hrs; by eapply own_stats). rewrite decide_True by done.
  rewrite run_verdicts_other_stats by (by eapply others_stats).
  destruct (re_routable ep) as [rs|] eqn:Hrs; [|done].
  by rewrite run_verdicts_other_queue by (by eapply others_queue).
Qed.

Lemma run_verdicts_foreign_queue order w h :
  order ≡ₚ map_to_list m ->
  (forall id ep rs, m !! id = Some ep -> re_routable ep = Some rs -> tq_inner (rs_tx_queue rs) <> h) ->
  w_queues (run_verdicts order w) !! h = w_queues w !! h.
Proof.
  intros Hp Hh. apply run_verdicts_other_queue. rewrite Hp. apply Forall_forall. intros [i e] Hi.
  apply elem_of_map_to_list in Hi. simpl. eauto.
Qed.

Lemma run_verdicts_foreign_stats order w k :
  order ≡ₚ map_to_list m -> (forall id ep, m !! id = Some ep -> re_stats ep <> k) ->
  w_stats (run_verdicts order w) !! k = w_stats w !! k.
Proof.
  intros Hp Hk. apply run_verdicts_other_stats. rewrite Hp. apply Forall_forall. intros [i e] Hi.
  apply elem_of_map_to_list in Hi. simpl. split; [eauto|]. intros rs Hrs. by eapply own_stats.
Qed.
End Dispatch.
