(* ===== verification/RouterProps.v ===== *)
(** * What the router guarantees for one frame *)

From S2P Require Import Prelude Frame Filters LruVec Learn Dedup Group EndpointStats TxQueue Identity Decide Router RouterInv Dispatch.
#[local] Open Scope Z_scope.

Section Props.
Context {Q : Type} `{ArrayQueue Q} {C : Type} `{StatsSender C}.
Context (hash : Bytes -> Z) (iter : registry -> list (EndpointId * RegisteredEndpoint)) (debug_assertions : bool).
Hypothesis iter_perm : forall m, iter m ≡ₚ map_to_list m.
Implicit Types (r : Router C) (w : World Q).

Lemma owned_touch now node id (m : registry) : owned m -> owned (alter (touch_own now node) id m).
Proof.
  intros [Hs Hsi Hq].
  assert (Hback : forall i ep, alter (touch_own now node) id m !! i = Some ep ->
    exists ep0, m !! i = Some ep0 /\ re_stats ep = re_stats ep0 /\
      (forall rs, re_routable ep = Some rs -> exists rs0, re_routable ep0 = Some rs0 /\ rs_tx_queue rs = rs_tx_queue rs0)).
  { intros i ep. destruct (decide (id = i)) as [->|Hne]; [|rewrite lookup_alter_ne by done; eauto 10].
    rewrite lookup_alter_eq. destruct (m !! i) as [ep0|]; [|done]. simpl. intros [= <-]. exists ep0.
    split_and!; [done|done|]. simpl. destruct (re_routable ep0) as [rs0|]; [|done]. intros rs [= <-]. eauto. }
  split.
  - intros i ep rs (ep0 & Hi & -> & Hr)%Hback Hrs. destruct (Hr rs Hrs) as (rs0 & ? & ->). by eapply Hs.
  - intros i j ep1 ep2 (e1 & ? & -> & _)%Hback (e2 & ? & -> & _)%Hback. by apply Hsi.
  - intros i j ep1 ep2 rs1 rs2 (e1 & H1 & _ & Hr1)%Hback (e2 & H2 & _ & Hr2)%Hback Hrs1 Hrs2.
    destruct (Hr1 _ Hrs1) as (? & ? & ->), (Hr2 _ Hrs2) as (? & ? & ->). by eapply Hq.
Qed.

Lemma groups_known_inv r order :
  router_inv r -> order ≡ₚ map_to_list (routing r) ->
  Forall (fun p : EndpointId * RegisteredEndpoint => forall rs, re_routable p.2 = Some rs -> is_Some (effective_learn (groups r) rs)) order.
Proof.
  intros Hinv ->. apply Forall_forall. intros [id ep] Hin%elem_of_map_to_list rs Hrs.
  destruct (effective_learn_Some r id ep rs) as (t & -> & _); eauto.
Qed.

(** The dispatch loop never hits its debug assertion and applies every verdict. *)
Lemma dispatch_Done r src frame header name w :
  router_inv r ->
  dispatch_to_destinations iter debug_assertions r src frame header name w =
  Done (run_verdicts (groups r) src frame header name (iter (routing r)) w).
Proof. intros Hinv. apply dispatch_loop_Done. by apply groups_known_inv. Qed.

Lemma handle_frame_Done r rf now w :
  router_inv r -> exists r' w', handle_frame hash iter debug_assertions r rf now w = Done (r', w').
Proof.
  intros Hinv. unfold handle_frame.
  pose proof (ingest_inv hash r (rf_endpoint_id rf) (rf_frame rf) (rf_header rf) now w Hinv) as Hi.
  destruct (ingest_source_frame _ _ _ _ _ _ _) as [[[name|] r1] w1]; [|eauto].
  rewrite dispatch_Done by apply Hi. eauto.
Qed.

(** ** Admission *)

(** The table the source's sightings go to, after the sighting. *)
Definition touched (g : GroupRegistry) (srs : RoutableState) (node : NodeId) (now : Z) : option LearnTable :=
  (fun t => (touch t node now).2) <$> effective_learn g srs.

(** [ingest_source_frame] of a registered, routable source and a frame the window lets
    through. *)
Lemma ingest_admitted r src frame header now w sep srs :
  router_inv r -> routing r !! src = Some sep -> re_routable sep = Some srs ->
  (check_and_insert hash (dedup r) frame now).1 = false ->
  exists r' t, ingest_source_frame hash r src frame header now w =
    (SourceAdmitted (rs_endpoint_name srs), r',
     stats_update (re_stats sep) (store LearnEntries (Z.of_nat (LearnTable_len t))) w) /\
    touched (groups r) srs (source header) now = Some t /\
    dedup r' = (check_and_insert hash (dedup r) frame now).2 /\
    (forall id, id <> src -> routing r' !! id = routing r !! id) /\
    (exists srs', routing r' !! src = Some {| re_name := re_name sep; re_stats := re_stats sep; re_routable := Some srs' |} /\
      rs_identity srs' = rs_identity srs /\ rs_tx_queue srs' = rs_tx_queue srs /\
      effective_learn (groups r') srs' = Some t) /\
    (owned (routing r) -> owned (routing r')) /\
    (forall name, group (rs_identity srs) <> Some name -> groups r' !! name = groups r !! name).
Proof.
  intros Hinv Hsrc Hrs Hdup. unfold ingest_source_frame. rewrite Hsrc, Hrs.
  destruct (check_and_insert hash (dedup r) frame now) as [dup d]. simpl in Hdup. subst dup.
  destruct (effective_learn_Some r src sep srs Hinv Hsrc Hrs) as (t0 & Ht0 & _).
  unfold touched. rewrite Ht0. unfold effective_learn in Ht0.
  destruct (group (rs_identity srs)) as [name|] eqn:Eg; simpl.
  - destruct (groups r !! name) as [gl|] eqn:Egl; [|done]. injection Ht0 as <-.
    eexists _, _. split; [done|]. split; [done|]. split; [done|]. split; [done|]. split_and!.
    + exists srs. split_and!; try done; [simpl; rewrite Hsrc; destruct sep; simpl in *; by rewrite Hrs|].
      unfold effective_learn. rewrite Eg. simpl. unfold group_touch. by rewrite lookup_alter_eq, Egl.
    + done.
    + intros n Hn. simpl. unfold group_touch. rewrite lookup_alter_ne; congruence.
  - injection Ht0 as <-. eexists _, _. split; [done|]. split; [done|]. split; [done|]. simpl. split_and!.
    + intros id Hne. by rewrite lookup_alter_ne.
    + rewrite lookup_alter_eq, Hsrc. simpl. unfold touch_own. rewrite Hrs. eexists. split; [done|].
      split_and!; try done. unfold effective_learn; simpl. by rewrite Eg.
    + apply owned_touch.
    + done.
Qed.

(** ** Claims *)

Abbreviation push_frame frame := (fun q => (aq_force_push q frame).2).

(** What a frame does, end to end: the relation between the store before and after. *)
Definition delivered_by (r r' : Router C) (rf : RouterFrame) (src_name : string) (sep : RegisteredEndpoint)
    (len : nat) (w w' : World Q) : Prop :=
  let src := rf_endpoint_id rf in
  let frame := rf_frame rf in
  let verdict id ep := route_verdict (groups r') src (rf_header rf) src_name id ep in
  (forall id ep rs, routing r !! id = Some ep -> re_routable ep = Some rs ->
     w_queues w' !! tq_inner (rs_tx_queue rs) =
     if decide (verdict id ep = Some Admit)
     then push_frame frame <$> w_queues w !! tq_inner (rs_tx_queue rs)
     else w_queues w !! tq_inner (rs_tx_queue rs)) /\
  (forall id ep, routing r !! id = Some ep -> id <> src ->
     w_stats w' !! re_stats ep =
     count_effect (verdict id ep)
       (evicts frame (match re_routable ep with Some rs => w_queues w !! tq_inner (rs_tx_queue rs) | None => None end))
     <$> w_stats w !! re_stats ep) /\
  w_stats w' !! re_stats sep = store LearnEntries (Z.of_nat len) <$> w_stats w !! re_stats sep /\
  (forall h, (forall id ep rs, routing r !! id = Some ep -> re_routable ep = Some rs -> tq_inner (rs_tx_queue rs) <> h) ->
     w_queues w' !! h = w_queues w !! h) /\
  (forall k, (forall id ep, routing r !! id = Some ep -> re_stats ep <> k) -> w_stats w' !! k = w_stats w !! k).

(** Running the verdicts on a registry that differs only in the source's learn table. *)
Lemma verdicts_delivered r r' rf name sep srs srs' len w :
  let src := rf_endpoint_id rf in
  owned (routing r) -> owned (routing r') ->
  routing r !! src = Some sep -> re_routable sep = Some srs ->
  (forall id, id <> src -> routing r' !! id = routing r !! id) ->
  routing r' !! src = Some {| re_name := re_name sep; re_stats := re_stats sep; re_routable := Some srs' |} ->
  rs_tx_queue srs' = rs_tx_queue srs ->
  delivered_by r r' rf name sep len w
    (run_verdicts (groups r') src (rf_frame rf) (rf_header rf) name (iter (routing r'))
       (stats_update (re_stats sep) (store LearnEntries (Z.of_nat len)) w)).
Proof.
  intros src Hown Hown' Hsrc Hrs Hoth Hs' Hq. set (w1 := stats_update _ _ w).
  assert (Hv : forall ep, route_verdict (groups r') src (rf_header rf) name src ep = None).
  { intros ep. unfold route_verdict. by rewrite Z.eqb_refl. }
  unfold delivered_by. cbv zeta. change (rf_endpoint_id rf) with src. split_and!.
  - intros id ep rs Hid Hr. destruct (decide (id = src)) as [->|Hne].
    + simplify_eq. rewrite Hv, <- Hq, (run_verdicts_queue _ _ _ _ _ (routing r') Hown' _ _ src _ srs' (iter_perm _) Hs' eq_refl).
      by rewrite Hv.
    + rewrite <- Hoth in Hid by done. by rewrite (run_verdicts_queue _ _ _ _ _ (routing r') Hown' _ _ id ep rs).
  - intros id ep Hid Hne. pose proof Hid as Hid'. rewrite <- Hoth in Hid' by done.
    rewrite (run_verdicts_stats _ _ _ _ _ (routing r') Hown' _ _ id ep) by done.
    simpl. rewrite lookup_alter_ne; [done|]. intros Heq. apply Hne. symmetry. by eapply (own_stats_inj _ Hown).
  - pose proof (run_verdicts_stats (groups r') src (rf_frame rf) (rf_header rf) name
      (routing r') Hown' (iter (routing r')) w1 src _ (iter_perm _) Hs') as Hst. cbn [re_stats re_routable] in Hst.
    rewrite Hst, Hv. simpl. by rewrite lookup_alter_eq, option_fmap_id.
  - intros h Hh. rewrite (run_verdicts_foreign_queue _ _ _ _ _ (routing r')); [done|done|].
    intros id ep rs Hid Hr. destruct (decide (id = src)) as [->|Hne]; [|rewrite Hoth in Hid by done; by eapply Hh].
    simplify_eq. simpl in Hr. simplify_eq. rewrite Hq. by eapply Hh.
  - intros k Hk. rewrite (run_verdicts_foreign_stats _ _ _ _ _ (routing r')); [|done|done|].
    + simpl. rewrite lookup_alter_ne; [done|]. by apply (Hk src).
    + intros id ep Hid. destruct (decide (id = src)) as [->|Hne]; [simplify_eq; exact (Hk src sep Hsrc)|].
      rewrite Hoth in Hid by done. by apply (Hk id).
Qed.

(** The router and the store after one admitted frame. *)
Lemma handle_frame_effect r rf now w sep srs :
  router_inv r -> owned (routing r) ->
  routing r !! rf_endpoint_id rf = Some sep -> re_routable sep = Some srs ->
  (check_and_insert hash (dedup r) (rf_frame rf) now).1 = false ->
  exists r' w' t,
    handle_frame hash iter debug_assertions r rf now w = Done (r', w') /\
    touched (groups r) srs (source (rf_header rf)) now = Some t /\
    (exists srs', (re_routable <$> routing r' !! rf_endpoint_id rf) = Some (Some srs') /\
       rs_identity srs' = rs_identity srs /\ rs_tx_queue srs' = rs_tx_queue srs /\
       effective_learn (groups r') srs' = Some t) /\
    (forall id, id <> rf_endpoint_id rf -> routing r' !! id = routing r !! id) /\
    (forall name, group (rs_identity srs) <> Some name -> groups r' !! name = groups r !! name) /\
    dedup r' = (check_and_insert hash (dedup r) (rf_frame rf) now).2 /\
    owned (routing r') /\
    delivered_by r r' rf (rs_endpoint_name srs) sep (LearnTable_len t) w w'.
Proof.
  intros Hinv Hown Hsrc Hrs Hdup. set (src := rf_endpoint_id rf) in *.
  destruct (ingest_admitted r src (rf_frame rf) (rf_header rf) now w sep srs Hinv Hsrc Hrs Hdup)
    as (r' & t & Hing & Ht & Hd & Hoth & (srs' & Hs' & Hid' & Hq' & He') & Hown' & Hgr).
  pose proof (ingest_inv hash r src (rf_frame rf) (rf_header rf) now w Hinv) as Hi.
  rewrite Hing in Hi. destruct Hi as [Hinv' _]. specialize (Hown' Hown).
  unfold handle_frame. fold src. rewrite Hing. rewrite dispatch_Done by done.
  eexists r', _, t. split; [done|]. split_and!; try done.
  - exists srs'. by rewrite Hs'.
  - by apply (verdicts_delivered r r' rf _ sep srs srs').
Qed.

(** C1. The effect of routing one frame, completely, for every endpoint and whatever the
    iteration order of the registry.  A frame of a registered source that the dedup window
    lets through is handled without panic.  In the router: the source's learn table (its
    group's, if it is in one) records the sender, and no other entry, group or identity
    changes; the window takes the frame up.  In the store: every other endpoint gets the
    frame pushed, or its [out_filter_drops] or [dropped_tx] incremented, exactly as the
    decision on the updated tables says; the source's [learn_entries] is the size of its
    table; no other queue or counter changes, the source's own queue included. *)
Theorem handle_frame_delivers r rf now w sep srs :
  router_inv r -> owned (routing r) ->
  routing r !! rf_endpoint_id rf = Some sep -> re_routable sep = Some srs ->
  (check_and_insert hash (dedup r) (rf_frame rf) now).1 = false ->
  exists r' w' t,
    handle_frame hash iter debug_assertions r rf now w = Done (r', w') /\
    touched (groups r) srs (source (rf_header rf)) now = Some t /\
    (exists srs', (re_routable <$> routing r' !! rf_endpoint_id rf) = Some (Some srs') /\
       rs_identity srs' = rs_identity srs /\ rs_tx_queue srs' = rs_tx_queue srs /\
       effective_learn (groups r') srs' = Some t) /\
    (forall id, id <> rf_endpoint_id rf -> routing r' !! id = routing r !! id) /\
    (forall name, group (rs_identity srs) <> Some name -> groups r' !! name = groups r !! name) /\
    dedup r' = (check_and_insert hash (dedup r) (rf_frame rf) now).2 /\
    delivered_by r r' rf (rs_endpoint_name srs) sep (LearnTable_len t) w w'.
Proof.
  intros Hinv Hown Hsrc Hrs Hdup.
  destruct (handle_frame_effect r rf now w sep srs) as (r' & w' & t & Hh & Ht & Hs & Ho & Hg & Hd & _ & Hb); [done..|].
  by exists r', w', t.
Qed.

(** Frames that are not routed. *)
(** The endpoint a frame came from, when it is registered and carries traffic of its own. *)
Definition routable_source r (rf : RouterFrame) : option RegisteredEndpoint :=
  ep ← routing r !! rf_endpoint_id rf; if re_routable ep is Some _ then Some ep else None.

Lemma routable_source_Some r rf ep :
  routable_source r rf = Some ep -> routing r !! rf_endpoint_id rf = Some ep /\ is_Some (re_routable ep).
Proof.
  unfold routable_source. intros (ep' & He & Hr)%bind_Some. destruct (re_routable ep') eqn:E; [|done].
  simplify_eq. eauto.
Qed.

Lemma handle_frame_unknown r rf now w :
  routable_source r rf = None -> handle_frame hash iter debug_assertions r rf now w = Done (r, w).
Proof.
  unfold routable_source, handle_frame, ingest_source_frame.
  destruct (routing r !! rf_endpoint_id rf) as [ep|]; simpl; [|done]. by destruct (re_routable ep).
Qed.

(** C20. Frames that are not routed.  A frame of an unknown endpoint or of a parent listener
    leaves the router and the shared store exactly as they were.  A frame the dedup window
    suppresses changes the window as the window's own check does, adds one to [dedup_drops] of
    its source, and changes nothing else: in every case no table learns, no group changes, no
    queue is written and no writer is woken. *)
Theorem unroutable_frame_dropped r rf now w :
  (match routable_source r rf with
   | Some _ => (check_and_insert hash (dedup r) (rf_frame rf) now).1 = true
   | None => True
   end) ->
  exists r' w', handle_frame hash iter debug_assertions r rf now w = Done (r', w') /\
    routing r' = routing r /\ groups r' = groups r /\
    stats_event_tx r' = stats_event_tx r /\ stats_events_dropped r' = stats_events_dropped r /\
    w_queues w' = w_queues w /\ w_notified w' = w_notified w /\
    match routable_source r rf with
    | Some ep => dedup r' = (check_and_insert hash (dedup r) (rf_frame rf) now).2 /\
                 w_stats w' = alter (fetch_add DedupDrops 1) (re_stats ep) (w_stats w)
    | None => dedup r' = dedup r /\ w_stats w' = w_stats w
    end.
Proof.
  intros Hdrop. destruct (routable_source r rf) as [ep|] eqn:E.
  - apply routable_source_Some in E as [E [rs Er]]. unfold handle_frame, ingest_source_frame. rewrite E, Er.
    destruct (check_and_insert hash (dedup r) (rf_frame rf) now) as [dup d]. simpl in Hdrop. subst dup.
    eexists _, _. split; [done|]. done.
  - exists r, w. split; [by apply handle_frame_unknown|done].
Qed.

Lemma touched_contains r srs src sep node now t :
  router_inv r -> routing r !! src = Some sep -> re_routable sep = Some srs ->
  touched (groups r) srs node now = Some t -> contains t node = true.
Proof.
  intros Hinv Hsrc Hrs. unfold touched.
  destruct (effective_learn_Some r src sep srs Hinv Hsrc Hrs) as (t0 & -> & Hok). intros [= <-].
  by apply touch_contains_self.
Qed.

(** Members of one group share their effective table. *)
Lemma effective_learn_group g rs rs' name :
  group (rs_identity rs) = Some name -> group (rs_identity rs') = Some name ->
  effective_learn g rs = effective_learn g rs'.
Proof. unfold effective_learn. by intros -> ->. Qed.

(** C9. No echo, towards the source or its group.  Handling a frame leaves the source's own
    queue as it was, and the queue of every other member of the source's group that is not
    a sniffer: redundant links of one group never feed a frame back to each other. *)
Theorem no_echo_to_source_or_group r rf now w sep srs id ep rs :
  router_inv r -> owned (routing r) ->
  routing r !! rf_endpoint_id rf = Some sep -> re_routable sep = Some srs ->
  routing r !! id = Some ep -> re_routable ep = Some rs ->
  id = rf_endpoint_id rf \/
    (sniffer (rs_identity rs) = false /\ group (rs_identity rs) = group (rs_identity srs) /\
     group (rs_identity rs) <> None) ->
  exists r' w', handle_frame hash iter debug_assertions r rf now w = Done (r', w') /\
    w_queues w' !! tq_inner (rs_tx_queue rs) = w_queues w !! tq_inner (rs_tx_queue rs).
Proof.
  intros Hinv Hown Hsrc Hsrs Hid Hrs Hwho. destruct (handle_frame_Done r rf now w Hinv) as (r' & w' & Hh).
  exists r', w'. split; [done|].
  destruct (check_and_insert hash (dedup r) (rf_frame rf) now).1 eqn:Hdup.
  { unfold handle_frame, ingest_source_frame in Hh. rewrite Hsrc, Hsrs in Hh.
    destruct (check_and_insert hash (dedup r) (rf_frame rf) now) as [dup d]. simpl in Hdup. subst dup.
    by simplify_eq. }
  destruct (handle_frame_effect r rf now w sep srs) as
    (r1 & w1 & t & Hh1 & Ht & (srs' & _ & Hid' & _ & Heff) & _ & _ & _ & _ & Hd & _); try done.
  rewrite Hh in Hh1. injection Hh1 as <- <-. rewrite (Hd id ep rs Hid Hrs), decide_False; [done|].
  unfold route_verdict. destruct (Z.eqb_spec id (rf_endpoint_id rf)) as [|Hne]; [done|].
  destruct Hwho as [|(Hsn & Hg & Hsome)]; [done|]. rewrite Hrs.
  destruct (group (rs_identity rs)) as [name|] eqn:Eg; [|done].
  rewrite (effective_learn_group _ rs srs' name), Heff by congruence.
  rewrite decide_not_admit_learned; [done|done|].
  by apply (touched_contains r srs (rf_endpoint_id rf) sep _ now).
Qed.

(** Sniffers see everything: every frame the router admits is pushed to every sniffer
    but its own source, whatever filters, targets and learn tables say. *)
Theorem sniffer_sees_every_frame r rf now w sep srs id ep rs :
  router_inv r -> owned (routing r) ->
  routing r !! rf_endpoint_id rf = Some sep -> re_routable sep = Some srs ->
  (check_and_insert hash (dedup r) (rf_frame rf) now).1 = false ->
  routing r !! id = Some ep -> re_routable ep = Some rs -> sniffer (rs_identity rs) = true ->
  id <> rf_endpoint_id rf ->
  exists r' w', handle_frame hash iter debug_assertions r rf now w = Done (r', w') /\
    w_queues w' !! tq_inner (rs_tx_queue rs) = push_frame (rf_frame rf) <$> w_queues w !! tq_inner (rs_tx_queue rs).
Proof.
  intros Hinv Hown Hsrc Hsrs Hdup Hid Hrs Hsn Hne.
  destruct (handle_frame_effect r rf now w sep srs) as
    (r' & w' & t & Hh & Ht & _ & Hoth & _ & _ & _ & Hd & _); try done.
  exists r', w'. split; [done|]. rewrite (Hd id ep rs Hid Hrs), decide_True; [done|].
  destruct (effective_learn_Some r' id ep rs) as (t' & Ht' & _); [|by rewrite Hoth|done|].
  { by eapply handle_frame_inv in Hh as [? _]. }
  unfold route_verdict. rewrite (proj2 (Z.eqb_neq _ _)), Hrs, Ht' by done.
  unfold decide_for_dest. by rewrite Hsn.
Qed.

(** A frame addressed to a node: to it alone, or to every component of its system. *)
Definition addressed_to (header : ParsedHeader) (node : NodeId) : Prop :=
  target_system header = Some (sys node) /\
  (target_component header = None \/ target_component header = Some 0 \/ target_component header = Some (comp node)).

Lemma addressed_to_behind header node learn :
  addressed_to header node -> contains learn node = true -> addressed_behind header learn.
Proof.
  intros [Hs Hc] Hin. assert (Hn : contains learn (NodeId_new (sys node) (comp node)) = true) by (by destruct node).
  assert (Hex : exists c, contains learn (NodeId_new (sys node) c) = true) by eauto.
  unfold addressed_behind. rewrite Hs. destruct (sys node); [done|..];
    (destruct Hc as [-> |[-> | ->]]; [done|done|destruct (comp node); done]).
Qed.

(** C10. Replies find their way back.  Let [a] be an ordinary link, in no group and no
    sniffer.  After a frame from [node] came in through [a], a frame from any other endpoint
    [b] addressed to [node], or to all components of its system, is pushed to [a], provided
    neither frame is a duplicate, [a]'s egress filter admits the reply and its sender was not
    itself learned behind [a]. *)
Theorem reply_routed_back r rf1 now1 w sepa srsa rf2 now2 sepb srsb :
  router_inv r -> owned (routing r) ->
  routing r !! rf_endpoint_id rf1 = Some sepa -> re_routable sepa = Some srsa ->
  routing r !! rf_endpoint_id rf2 = Some sepb -> re_routable sepb = Some srsb ->
  rf_endpoint_id rf1 <> rf_endpoint_id rf2 ->
  group (rs_identity srsa) = None -> sniffer (rs_identity srsa) = false ->
  let dup1 := check_and_insert hash (dedup r) (rf_frame rf1) now1 in
  dup1.1 = false -> (check_and_insert hash dup1.2 (rf_frame rf2) now2).1 = false ->
  addressed_to (rf_header rf2) (source (rf_header rf1)) ->
  contains (touch (rs_learn srsa) (source (rf_header rf1)) now1).2 (source (rf_header rf2)) = false ->
  admits_out (filters (rs_identity srsa)) (msgid (rf_header rf2)) (source (rf_header rf2)) (rs_endpoint_name srsb) ->
  exists r1 w1 r2 w2,
    handle_frame hash iter debug_assertions r rf1 now1 w = Done (r1, w1) /\
    handle_frame hash iter debug_assertions r1 rf2 now2 w1 = Done (r2, w2) /\
    w_queues w2 !! tq_inner (rs_tx_queue srsa) =
      push_frame (rf_frame rf2) <$> w_queues w1 !! tq_inner (rs_tx_queue srsa).
Proof.
  intros Hinv Hown Ha Hsa Hb Hsb Hne Hga Hsn dup1 Hd1 Hd2 Hto Hloop Hf.
  destruct (handle_frame_effect r rf1 now1 w sepa srsa) as
    (r1 & w1 & t1 & Hh1 & Ht1 & (sa & Hsa' & Hida & Hqa & Heffa) & Hoth1 & _ & Hdd1 & Hown1 & _); try done.
  destruct (handle_frame_inv _ _ _ _ _ _ _ _ _ Hinv Hh1) as [Hinv1 _].
  unfold touched, effective_learn in Ht1. rewrite Hga in Ht1. injection Ht1 as <-.
  destruct (routing r1 !! rf_endpoint_id rf1) as [ea|] eqn:Ea; [|done]. simpl in Hsa'.
  assert (Hb1 : routing r1 !! rf_endpoint_id rf2 = Some sepb) by (by rewrite Hoth1).
  destruct (handle_frame_effect r1 rf2 now2 w1 sepb srsb) as
    (r2 & w2 & t2 & Hh2 & _ & _ & Hoth2 & _ & _ & _ & Hdel & _); try done.
  { by rewrite Hdd1. }
  exists r1, w1, r2, w2. split_and!; [done|done|]. injection Hsa' as Hsa'. rewrite <- Hqa.
  rewrite (Hdel (rf_endpoint_id rf1) ea sa Ea Hsa'), decide_True; [done|].
  assert (Heff : effective_learn (groups r2) sa = Some (touch (rs_learn srsa) (source (rf_header rf1)) now1).2).
  { unfold effective_learn in *. by rewrite Hida, Hga in *. }
  unfold route_verdict. rewrite (proj2 (Z.eqb_neq _ _)), Hsa', Heff by done. f_equal.
  apply decide_admits_iff. right. rewrite Hida. split_and!; [done|done|].
  apply (addressed_to_behind _ _ _ Hto). apply touch_contains_self. by apply (inv_learns _ Hinv _ _ Ha).
Qed.
End Props.
