(* ===== verification/RouterRun.v ===== *)
(** * The router task over time

    [run_inner] interleaved with the tasks that feed it: reachability, crash freedom, the
    ordering of lifecycle events and frames, and the final sweep. *)

From S2P Require Import Prelude Frame Filters LruVec Learn Dedup Group EndpointStats TxQueue Identity Decide Router RouterInv Dispatch RouterProps.
#[local] Open Scope Z_scope.

(** ** Handle ownership is kept by events that carry fresh handles *)

Definition handles_fresh (m : registry) (stats : nat) (rso : option RoutableState) : Prop :=
  map_Forall (fun _ ep => re_stats ep <> stats /\
    forall rs rs', re_routable ep = Some rs -> rso = Some rs' ->
      tq_inner (rs_tx_queue rs) <> tq_inner (rs_tx_queue rs')) m /\
  forall rs', rso = Some rs' -> tq_stats (rs_tx_queue rs') = stats.

Lemma owned_empty : owned ∅.
Proof. split; intros; by rewrite lookup_empty in *. Qed.

Lemma owned_insert (m : registry) id name stats rso :
  owned m -> handles_fresh m stats rso ->
  owned (<[id := {| re_name := name; re_stats := stats; re_routable := rso |}]> m).
Proof.
  intros [Hs Hsi Hq] [Hf Hself]. split.
  - intros i ep rs. rewrite lookup_insert_Some. intros [[<- <-]|[_ Hi]]; [apply Hself|by eapply Hs].
  - intros i j ep1 ep2. rewrite !lookup_insert_Some. intros [[<- <-]|[_ Hi]] [[<- <-]|[_ Hj]] Heq; simpl in *.
    + done.
    + by destruct (Hf j ep2 Hj) as [? _].
    + by destruct (Hf i ep1 Hi) as [? _].
    + by eapply Hsi.
  - intros i j ep1 ep2 rs1 rs2. rewrite !lookup_insert_Some.
    intros [[<- <-]|[_ Hi]] [[<- <-]|[_ Hj]] Hr1 Hr2 Heq; simpl in *.
    + done.
    + destruct (Hf j ep2 Hj) as [_ Hne]. by destruct (Hne rs2 rs1 Hr2 Hr1).
    + destruct (Hf i ep1 Hi) as [_ Hne]. by destruct (Hne rs1 rs2 Hr1 Hr2).
    + by eapply Hq.
Qed.

Lemma owned_delete (m : registry) id : owned m -> owned (delete id m).
Proof.
  intros [Hs Hsi Hq]. split.
  - intros i ep rs [_ Hi]%lookup_delete_Some. by eapply Hs.
  - intros i j ep1 ep2 [_ Hi]%lookup_delete_Some [_ Hj]%lookup_delete_Some. by eapply Hsi.
  - intros i j ep1 ep2 rs1 rs2 [_ Hi]%lookup_delete_Some [_ Hj]%lookup_delete_Some. by eapply Hq.
Qed.

Section Events.
Context {Q : Type} `{ArrayQueue Q} {C : Type} `{StatsSender C}.
Implicit Types (r : Router C) (w : World Q).

Lemma register_routing r id name stats rso :
  routing (register_routable r id name stats rso) =
  <[id := {| re_name := name; re_stats := stats; re_routable := rso |}]> (routing r).
Proof.
  unfold register_routable.
  match goal with |- context [forward_stats ?r0 ?e0] => destruct (forward_stats_state r0 e0) as (_ & -> & _) end.
  done.
Qed.

(** The registry after an event. *)
Lemma handle_event_routing r e w :
  routing (handle_event r e w).1 =
  match e with
  | EndpointAdded id name stats routable =>
      <[id := {| re_name := name; re_stats := stats;
                 re_routable := (fun p => (build_routable_state r p).1) <$> routable |}]> (routing r)
  | PeerAdded _ id name stats p =>
      <[id := {| re_name := name; re_stats := stats; re_routable := Some (build_routable_state r p).1 |}]> (routing r)
  | PeerRemoved _ id _ => delete id (routing r)
  end.
Proof.
  assert (Hb : forall p, routing (build_routable_state r p).2 = routing r).
  { intros p. pose proof (build_routable_state_spec r p) as Hb.
    destruct (build_routable_state r p). apply Hb. }
  destruct e as [id name stats [p|]|pid id name stats p|pid id reason]; cbn [handle_event].
  - specialize (Hb p). destruct (build_routable_state r p) as [rs r1] eqn:E. cbn [fst snd] in *.
    rewrite register_routing, Hb. unfold fmap, option_fmap, option_map. by rewrite E.
  - cbn [fst]. by rewrite register_routing.
  - specialize (Hb p). destruct (build_routable_state r p) as [rs r1]. cbn [fst snd] in *.
    by rewrite register_routing, Hb.
  - destruct (routing r !! id) as [ep|] eqn:E; cbn [fst];
      match goal with |- context [forward_stats ?r0 ?e0] => destruct (forward_stats_state r0 e0) as (_ & -> & _) end.
    + by destruct (ep_group ep).
    + by rewrite delete_id.
Qed.
End Events.

(** ** The system *)

Section System.
Context {Q : Type} `{ArrayQueue Q} {C : Type} `{StatsSender C}.
Context (hash : Bytes -> Z) (iter : registry -> list (EndpointId * RegisteredEndpoint)) (debug_assertions : bool).
Hypothesis iter_perm : forall m, iter m ≡ₚ map_to_list m.
Implicit Types s : RunState Q C.

Definition event_id (e : EndpointEvent) : EndpointId :=
  match e with EndpointAdded id _ _ _ | PeerAdded _ id _ _ _ | PeerRemoved _ id _ => id end.
Definition adds (e : EndpointEvent) : bool :=
  match e with EndpointAdded _ _ _ _ | PeerAdded _ _ _ _ _ => true | PeerRemoved _ _ _ => false end.

(** The ids announced so far by events sent to the router, those retired, and those announced
    when the router last found its event channel empty. *)
Record Sys := { sys_run : RunState Q C; sys_announced : gset EndpointId; sys_retired : gset EndpointId;
                sys_seen : gset EndpointId }.

Definition send_event s (e : EndpointEvent) : RunState Q C :=
  {| run_router := run_router s; run_world := run_world s; run_events := run_events s ++ [e];
     run_frames := run_frames s; run_cancelled := run_cancelled s; run_phase := run_phase s |}.
Definition send_frame_to_router s (f : RouterFrame) : RunState Q C :=
  {| run_router := run_router s; run_world := run_world s; run_events := run_events s;
     run_frames := run_frames s ++ [f]; run_cancelled := run_cancelled s; run_phase := run_phase s |}.
Definition env_change s (w : World Q) (tx : C) (cancelled : bool) : RunState Q C :=
  {| run_router := {| routing := routing (run_router s); groups := groups (run_router s); dedup := dedup (run_router s);
                      stats_event_tx := tx; stats_events_dropped := stats_events_dropped (run_router s) |};
     run_world := w; run_events := run_events s; run_frames := run_frames s;
     run_cancelled := cancelled; run_phase := run_phase s |}.

(** A poll of the router, or a step of the tasks around it: an endpoint announces itself
    before it sends frames and is retired by a [PeerRemoved]; queues, counters, the stats
    channel and the cancellation token change at any time. *)
Inductive sys_step : Sys -> Sys -> Prop :=
| step_turn now s s' a t n :
    run_inner_turn hash iter debug_assertions now s = Some s' ->
    sys_step {| sys_run := s; sys_announced := a; sys_retired := t; sys_seen := n |}
             {| sys_run := s'; sys_announced := a; sys_retired := t;
                sys_seen := match run_phase s' with PollFrames => a | _ => n end |}
| step_event s e a t n :
    sys_step {| sys_run := s; sys_announced := a; sys_retired := t; sys_seen := n |}
             {| sys_run := send_event s e;
                sys_announced := if adds e then {[event_id e]} ∪ a else a;
                sys_retired := if adds e then t else {[event_id e]} ∪ t;
                sys_seen := n |}
| step_frame s f a t n :
    rf_endpoint_id f ∈ a ->
    sys_step {| sys_run := s; sys_announced := a; sys_retired := t; sys_seen := n |}
             {| sys_run := send_frame_to_router s f; sys_announced := a; sys_retired := t; sys_seen := n |}
| step_env s w tx c a t n :
    sys_step {| sys_run := s; sys_announced := a; sys_retired := t; sys_seen := n |}
             {| sys_run := env_change s w tx c; sys_announced := a; sys_retired := t; sys_seen := n |}.

Definition sys_init (tx : C) (dedup_ms : Z) (cap : nat) (w : World Q) : Sys :=
  {| sys_run := {| run_router := Router_new tx dedup_ms cap; run_world := w; run_events := []; run_frames := [];
                   run_cancelled := false; run_phase := Running |};
     sys_announced := ∅; sys_retired := ∅; sys_seen := ∅ |}.

(** An announced endpoint is registered, or its event is still queued, or it was retired;
    every queued frame is of an announced endpoint; and between the poll of the events and the
    poll of the frames, what was announced at the first is registered or retired. *)
Definition caught_up (s : RunState Q C) (a t n : gset EndpointId) : Prop :=
  (run_phase s = Finished \/
   forall id, id ∈ a -> id ∈ t \/ is_Some (routing (run_router s) !! id) \/
     exists e, e ∈ run_events s /\ adds e = true /\ event_id e = id) /\
  Forall (fun f => rf_endpoint_id f ∈ a) (run_frames s) /\
  Forall (fun e => adds e = false -> event_id e ∈ t) (run_events s) /\
  (run_phase s = PollFrames -> forall id, id ∈ n -> id ∈ t \/ is_Some (routing (run_router s) !! id)).

Record sys_inv (y : Sys) : Prop := {
  si_inv : router_inv (run_router (sys_run y));
  si_phase : run_phase (sys_run y) <> Crashed;
  si_caught_up : caught_up (sys_run y) (sys_announced y) (sys_retired y) (sys_seen y);
}.

Lemma handle_event_caught_up (r : Router C) e (w : World Q) id :
  is_Some (routing r !! id) \/ (adds e = true /\ event_id e = id) ->
  (adds e = false -> event_id e <> id) ->
  is_Some (routing (handle_event r e w).1 !! id).
Proof.
  intros Hor Hne. rewrite handle_event_routing.
  destruct e as [i name stats rt|pid i name stats rt|pid i reason]; simpl in *.
  - destruct (decide (i = id)) as [->|]; [rewrite lookup_insert_eq; eauto|rewrite lookup_insert_ne by done].
    destruct Hor as [|[_ ?]]; done.
  - destruct (decide (i = id)) as [->|]; [rewrite lookup_insert_eq; eauto|rewrite lookup_insert_ne by done].
    destruct Hor as [|[_ ?]]; done.
  - rewrite lookup_delete_ne by auto. destruct Hor as [|[? _]]; done.
Qed.

(** Handling the head of the event queue. *)
Lemma caught_up_event s e evs w a t n ph r' w' :
  run_events s = e :: evs -> run_phase s <> Finished -> ph <> PollFrames ->
  caught_up s a t n -> handle_event (run_router s) e w = (r', w') ->
  caught_up (set_task s r' w' evs (run_frames s) ph) a t n.
Proof.
  intros He Hph Hph' (Hid & Hf & Hr & _) Hh. destruct Hid as [|Hid]; [done|]. rewrite He in Hid, Hr.
  apply Forall_cons in Hr as [Hr0 Hr]. split_and!; [|done|done|done]. right. simpl. intros id Ha.
  destruct (decide (id ∈ t)) as [|Ht]; [auto|]. right.
  assert (Hne : adds e = false -> event_id e <> id) by (intros Hadd <-; by apply Ht, Hr0).
  pose proof (handle_event_caught_up (run_router s) e w id) as Hc. rewrite Hh in Hc. simpl in Hc.
  destruct (Hid id Ha) as [|[Hreg|(e' & Hin & Hadd & Hev)]]; [done|left; auto|].
  apply elem_of_cons in Hin as [->|Hin]; [left; auto|right; eauto].
Qed.

Lemma sweep_state (r : Router C) (w : World Q) :
  groups (shutdown_sweep iter r w).1 = groups r /\ routing (shutdown_sweep iter r w).1 = ∅.
Proof.
  unfold shutdown_sweep. generalize (iter (routing r)). set (r0 := with_routing r ∅).
  assert (Hr0 : groups r0 = groups r /\ routing r0 = ∅) by done. clearbody r0.
  intros l. revert r0 w Hr0. induction l as [|[id ep] l IH]; simpl; intros r0 w Hr0; [done|].
  apply IH. by destruct (forward_stats_state r0 (Finalize id)) as (-> & -> & _).
Qed.

Definition turn_ok s (a t n : gset EndpointId) : Prop :=
  router_inv (run_router s) /\ run_phase s <> Crashed /\ caught_up s a t n.

(** A poll that completes no branch. *)
Lemma poll_turn s a t n ph :
  turn_ok s a t n -> run_phase s <> Finished -> ph <> Crashed -> (ph = PollFrames -> run_events s = []) ->
  turn_ok (set_task s (run_router s) (run_world s) (run_events s) (run_frames s) ph) a t
    (match ph with PollFrames => a | _ => n end).
Proof.
  intros (Hinv & _ & [|Hid] & Hf & Hr & _) Hph Hph' He; [done|]. split_and!; [done|done|].
  split_and!; [by right|done|done|]. simpl. intros ->. rewrite He in Hid by done. intros id Ha.
  destruct (Hid id Ha) as [|[|(e & ?%not_elem_of_nil & _)]]; [auto|auto|done].
Qed.

Lemma event_turn s e evs a t n ph :
  turn_ok s a t n -> run_phase s <> Finished -> ph = Running \/ ph = Draining -> run_events s = e :: evs ->
  let '(r', w') := handle_event (run_router s) e (run_world s) in turn_ok (set_task s r' w' evs (run_frames s) ph) a t n.
Proof.
  intros (Hinv & _ & Hcu) Hph Hph' He.
  pose proof (handle_event_inv (run_router s) e (run_world s) Hinv) as [Hinv' _].
  destruct (handle_event (run_router s) e (run_world s)) as [r' w'] eqn:Eh.
  split_and!; [done|by destruct Hph' as [->| ->]|]. eapply caught_up_event; try done. by destruct Hph' as [->| ->].
Qed.

Lemma frame_turn s f frs now a t n :
  turn_ok s a t n -> run_phase s <> Finished -> run_frames s = f :: frs ->
  exists r' w', handle_frame hash iter debug_assertions (run_router s) f now (run_world s) = Done (r', w') /\
    turn_ok (set_task s r' w' (run_events s) frs Running) a t n.
Proof.
  intros (Hinv & _ & [|Hid] & Hf & Hr & _) Hph Hfr; [done|].
  destruct (handle_frame_Done hash iter debug_assertions iter_perm (run_router s) f now (run_world s) Hinv) as (r' & w' & Hh).
  exists r', w'. split; [done|]. destruct (handle_frame_inv _ _ _ _ _ _ _ _ _ Hinv Hh) as [Hinv' _].
  rewrite Hfr in Hf. apply Forall_cons in Hf as [_ Hf].
  split_and!; [done|done|]. split_and!; [|done|done|done]. right. simpl. intros id Ha.
  destruct (Hid id Ha) as [|[Hreg|]]; [auto| |auto]. right; left.
  apply handle_frame_router in Hh as ->. clear -Hreg. unfold ingest_source_frame.
  repeat case_match; simplify_eq; simpl; try done. by apply lookup_alter_is_Some.
Qed.

Lemma sweep_turn s a t n :
  turn_ok s a t n -> run_events s = [] ->
  let '(r', w') := shutdown_sweep iter (run_router s) (run_world s) in
  turn_ok (set_task s r' w' [] (run_frames s) Finished) a t n.
Proof.
  intros ([Hg0 _ _] & _ & _ & Hf & _) He. destruct (sweep_state (run_router s) (run_world s)) as [Hg Hr].
  destruct (shutdown_sweep iter (run_router s) (run_world s)) as [r' w']. simpl in *.
  split_and!; [|done|split_and!; [by left|done|done|done]].
  split; simpl; [by rewrite Hg| |rewrite Hr; apply map_Forall_empty].
  intros name. rewrite Hr, group_count_empty. lia.
Qed.

Lemma turn_inv now s s' a t n :
  turn_ok s a t n -> run_inner_turn hash iter debug_assertions now s = Some s' ->
  turn_ok s' a t (match run_phase s' with PollFrames => a | _ => n end).
Proof.
  intros Hok Ht. unfold run_inner_turn in Ht. destruct (run_phase s) eqn:Ep; try done.
  - injection Ht as <-. apply poll_turn; try congruence || done; by destruct (run_cancelled s).
  - destruct (run_events s) as [|e evs] eqn:Ee.
    + injection Ht as <-. rewrite <- Ee. apply (poll_turn s a t n PollFrames); congruence || done.
    + pose proof (event_turn s e evs a t n Running Hok) as Hev.
      destruct (handle_event (run_router s) e (run_world s)). injection Ht as <-. apply Hev; [congruence|by left|done].
  - destruct (run_frames s) as [|f frs] eqn:Ef.
    + injection Ht as <-. rewrite <- Ef. apply (poll_turn s a t n Running); congruence || done.
    + destruct (frame_turn s f frs now a t n) as (r' & w' & Hh & Hok'); [done|congruence|done|].
      rewrite Hh in Ht. by injection Ht as <-.
  - destruct (run_events s) as [|e evs] eqn:Ee.
    + pose proof (sweep_turn s a t n Hok Ee) as Hsw.
      destruct (shutdown_sweep iter (run_router s) (run_world s)). by injection Ht as <-.
    + pose proof (event_turn s e evs a t n Draining Hok) as Hev.
      destruct (handle_event (run_router s) e (run_world s)). injection Ht as <-. apply Hev; [congruence|by right|done].
Qed.

Lemma sys_inv_step y y' : sys_inv y -> sys_step y y' -> sys_inv y'.
Proof.
  intros [Hinv Hph Hcu] Hs. destruct Hs as [now s s' a t n Ht|s e a t n|s f a t n Hfa|s w tx c a t n]; simpl in *.
  - destruct (turn_inv now s s' a t n) as (? & ? & ?); done.
  - destruct Hcu as (Hid & Hf & Hr & Hn). split; [done|done|]. split_and!; simpl.
    + destruct Hid as [|Hid]; [by left|right]. intros id Ha.
      assert (Hid' : id ∈ a \/ (adds e = true /\ event_id e = id)) by (destruct (adds e); set_solver).
      destruct Hid' as [Ha'|[? ?]]; [|right; right; exists e; set_solver].
      destruct (Hid id Ha') as [|[|(e' & ? & ? & ?)]]; [left; destruct (adds e); set_solver|auto|].
      right. right. exists e'. set_solver.
    + eapply Forall_impl; [exact Hf|]. simpl. intros f. destruct (adds e); set_solver.
    + apply Forall_app. split.
      * eapply Forall_impl; [exact Hr|]. simpl. intros e'. destruct (adds e); set_solver.
      * apply Forall_singleton. intros ->. set_solver.
    + intros Hp id Hin. destruct (Hn Hp id Hin); [left; destruct (adds e); set_solver|by right].
  - destruct Hcu as (Hid & Hf & Hr & Hn). split; [done|done|]. split_and!; [done| |done|done].
    simpl. apply Forall_app. split; [done|]. by apply Forall_singleton.
  - split; [by apply (router_inv_ext (run_router s))|done|done].
Qed.

Lemma sys_inv_reachable tx ms cap w y : rtc sys_step (sys_init tx ms cap w) y -> sys_inv y.
Proof.
  intros Hs. assert (Hi : sys_inv (sys_init tx ms cap w)).
  { split; simpl; [apply Router_new_inv|done|]. split_and!; simpl; [|done|done|done]. right. set_solver. }
  induction Hs as [|y1 y2 y3 Hs _ IH]; [done|]. apply IH. by eapply sys_inv_step.
Qed.
End System.

Section Claims.
Context {Q : Type} `{ArrayQueue Q} {C : Type} `{StatsSenderLaws C}.
Context (hash : Bytes -> Z) (iter : registry -> list (EndpointId * RegisteredEndpoint)) (debug_assertions : bool).
Hypothesis iter_perm : forall m, iter m ≡ₚ map_to_list m.
Implicit Types (r : Router C) (w : World Q).

(** A turn that takes a frame is the poll of the frame channel, and hands it to [handle_frame]. *)
Lemma frame_taken now (s s' : RunState Q C) f :
  run_inner_turn hash iter debug_assertions now s = Some s' -> run_frames s = f :: run_frames s' ->
  run_phase s = PollFrames /\
  (run_phase s' <> Crashed ->
   handle_frame hash iter debug_assertions (run_router s) f now (run_world s) = Done (run_router s', run_world s')).
Proof.
  intros Ht Hf. assert (Hne : run_frames s' <> run_frames s) by (intros E; apply (f_equal length) in Hf; rewrite E in Hf; simpl in Hf; lia).
  unfold run_inner_turn in Ht. repeat case_match; simplify_eq; simpl in *; simplify_eq; done.
Qed.

(** C6. The router task never panics.  In every state reachable by any interleaving of
    lifecycle events, frames, cancellation and changes of the shared store, the task has
    not hit the debug assertion of the dispatch loop, and every registered member of a
    group finds its group's learn table. *)
Theorem router_task_never_panics tx ms cap w y :
  rtc (sys_step hash iter debug_assertions) (sys_init tx ms cap w) y ->
  run_phase (sys_run y) <> Crashed /\
  forall id ep rs, routing (run_router (sys_run y)) !! id = Some ep -> re_routable ep = Some rs ->
    exists t, effective_learn (groups (run_router (sys_run y))) rs = Some t /\ learn_ok t.
Proof.
  intros Hs. destruct (sys_inv_reachable hash iter debug_assertions iter_perm tx ms cap w y Hs) as [Hinv Hph _].
  split; [done|]. intros id ep rs. by apply effective_learn_Some.
Qed.

(** C18. How far the registry can lag behind the frame stream.  Whenever the router takes a
    frame off its queue, the frame's endpoint has been registered, or a [PeerRemoved] for it
    was sent, or its announcement came after this turn of the select had looked at the event
    channel: it is still queued there, and then the frame is dropped and leaves no trace in
    the router or in any queue or counter.  An endpoint announced by the time the event
    channel was polled never loses a frame this way. *)
Theorem frame_overtakes_only_within_turn tx ms cap w y now f s' :
  rtc (sys_step hash iter debug_assertions) (sys_init tx ms cap w) y ->
  run_inner_turn hash iter debug_assertions now (sys_run y) = Some s' ->
  run_frames (sys_run y) = f :: run_frames s' ->
  rf_endpoint_id f ∈ sys_retired y \/ is_Some (routing (run_router (sys_run y)) !! rf_endpoint_id f) \/
  ((rf_endpoint_id f ∉ sys_seen y) /\
   (exists e, e ∈ run_events (sys_run y) /\ adds e = true /\ event_id e = rf_endpoint_id f) /\
   run_router s' = run_router (sys_run y) /\ run_world s' = run_world (sys_run y)).
Proof.
  intros Hs Hturn Hf.
  destruct (sys_inv_reachable hash iter debug_assertions iter_perm tx ms cap w y Hs) as [Hinv Hc Hcu].
  destruct (frame_taken now (sys_run y) s' f Hturn Hf) as [Hph Hh].
  destruct (turn_inv hash iter debug_assertions iter_perm now (sys_run y) s' (sys_announced y) (sys_retired y) (sys_seen y))
    as (_ & Hc' & _); [done|done|]. specialize (Hh Hc'). destruct Hcu as (Hid & Hfr & _ & Hn).
  destruct Hid as [|Hid]; [congruence|]. specialize (Hn Hph). set (id := rf_endpoint_id f) in *.
  destruct (decide (id ∈ sys_retired y)) as [|Ht]; [by left|right].
  destruct (routing (run_router (sys_run y)) !! id) as [ep|] eqn:El; [by left|right].
  rewrite Hf in Hfr. apply Forall_cons in Hfr as [Ha _].
  split; [|split].
  - intros Hin. destruct (Hn id Hin) as [|[? ?]]; congruence || done.
  - destruct (Hid id Ha) as [|[[? ?]|]]; congruence || done.
  - rewrite (handle_frame_unknown hash iter debug_assertions) in Hh by (unfold routable_source; fold id; by rewrite El).
    by injection Hh as <- <-.
Qed.

(** One event with a fresh id, or one frame. *)
Inductive fresh_step : Router C -> Router C -> Prop :=
| fs_event r e w : event_fresh r e -> fresh_step r (handle_event r e w).1
| fs_frame r rf now w r' w' :
    handle_frame hash iter debug_assertions r rf now w = Done (r', w') -> fresh_step r r'.

(** Group reference counts are exact.  As long as ids are not reused while registered
    (the allocator never reuses one), after any history a group's member count is the
    number of registered endpoints in it, and the group's table exists exactly while it
    has a registered member: a group that empties forgets what it learned. *)
Theorem group_members_exact tx ms cap r name :
  rtc fresh_step (Router_new tx ms cap) r ->
  members_of (groups r) name = group_count (routing r) name /\
  (is_Some (groups r !! name) <-> exists id ep, routing r !! id = Some ep /\ ep_group ep = Some name).
Proof.
  intros Hs. assert (Hi : router_inv r /\ members_exact r).
  { destruct (Router_new_inv tx ms cap) as [Hi He]. induction Hs as [|r1 r2 r3 Hs _ IH]; [done|].
    destruct Hs as [r e w Hf|r rf now w r' w' Hh].
    - destruct (handle_event_inv r e w Hi) as [? Hex]. apply IH; [done|]. by apply Hex.
    - destruct (handle_frame_inv _ _ _ _ _ _ _ _ _ Hi Hh) as [? Hex]. apply IH; [done|]. by apply Hex. }
  destruct Hi as [Hi He]. split; [apply He|]. rewrite <- members_pos by apply Hi. rewrite He. unfold group_count. split.
  - intros Hp. destruct (map_choose (filter (fun p : EndpointId * RegisteredEndpoint => ep_group p.2 = Some name) (routing r))) as (id & ep & Hx).
    { intros Hem. rewrite Hem, map_size_empty in Hp. lia. }
    apply map_lookup_filter_Some in Hx. exists id, ep. apply Hx.
  - intros (id & ep & Hid & Hg). by eapply group_count_pos.
Qed.

(** The answers of the stats channel to a sequence of events offered to it, and the channel
    afterwards. *)
Fixpoint offer_all (c : C) (es : list StatsEvent) : list (StatsEvent * send_result) * C :=
  match es with
  | [] => ([], c)
  | e :: es => let '(a, c) := try_send c e in let '(rest, c) := offer_all c es in ((e, a) :: rest, c)
  end.
Definition answered (a : send_result) (p : StatsEvent * send_result) : Prop := p.2 = a.
#[local] Instance send_result_eq_dec : EqDecision send_result.
Proof. solve_decision. Defined.
#[local] Instance answered_dec a p : Decision (answered a p).
Proof. unfold answered. apply _. Defined.

Lemma offer_all_spec c es :
  (offer_all c es).1.*1 = es /\
  accepted (offer_all c es).2 = accepted c ++ (filter (answered Sent) (offer_all c es).1).*1.
Proof.
  revert c; induction es as [|e es IH]; intros c; cbn [offer_all]; [by rewrite app_nil_r|].
  pose proof (try_send_accepted c e) as Ha. destruct (try_send c e) as [x c1]. specialize (IH c1).
  destruct (offer_all c1 es) as [l c2]. cbn [fst snd] in *. destruct IH as [Hes Hacc].
  rewrite fmap_cons, Hes, Hacc, Ha, filter_cons. split; [done|].
  destruct x; simpl; [by rewrite <- app_assoc|done|done].
Qed.

(** The sweep, over any list of survivors. *)
Lemma sweep_loop_spec r l w :
  stats_event_tx (sweep_loop r l w).1 = (offer_all (stats_event_tx r) (Finalize <$> l.*1)).2 /\
  wrap 64 (stats_events_dropped (sweep_loop r l w).1) =
    wrap 64 (stats_events_dropped r +
      Z.of_nat (length (filter (answered Full) (offer_all (stats_event_tx r) (Finalize <$> l.*1)).1))).
Proof.
  revert r w; induction l as [|[id ep] l IH]; intros r w; cbn [sweep_loop]; [by rewrite Z.add_0_r|].
  destruct (IH (forward_stats r (Finalize id)) (stats_update (re_stats ep) (store_state Down) w)) as [-> ->].
  clear IH. unfold forward_stats. rewrite !fmap_cons. cbn [offer_all fst].
  destruct (try_send (stats_event_tx r) (Finalize id)) as [x tx]. simpl.
  destruct (offer_all tx (Finalize <$> l.*1)) as [rest c]. simpl. split; [done|].
  rewrite filter_cons. unfold answered at 2. destruct x; simpl; try done. rewrite wrap_wrap_add. f_equal. lia.
Qed.

Lemma sweep_loop_states r l w k :
  w_stats (sweep_loop r l w).2 !! k =
  (if decide (k ∈ (re_stats ∘ snd) <$> l) then store_state Down <$> w_stats w !! k else w_stats w !! k).
Proof.
  revert r w; induction l as [|[id ep] l IH]; intros r w; cbn [sweep_loop]; [done|]. rewrite IH. simpl.
  destruct (decide (k = re_stats ep)) as [->|Hne].
  - rewrite (decide_True _ _ (P := re_stats ep ∈ _ :: _)) by set_solver. rewrite lookup_alter_eq.
    case_decide; [|done]. rewrite <- option_fmap_compose. apply option_fmap_ext. intros s. by destruct s.
  - rewrite lookup_alter_ne by done. repeat case_decide; set_solver.
Qed.

(** C19. The final sweep.  It empties the registry, leaves every surviving endpoint in state
    [Down] with its counters untouched, and offers the stats channel exactly one [Finalize] per
    survivor, in sweep order: the channel ends as those offers leave it, having accepted the
    ones it answered [Sent] to, and [stats_events_dropped] has grown by the number it answered
    [Full] to. *)
Theorem shutdown_sweep_finalizes r w :
  let '(r', w') := shutdown_sweep iter r w in
  let survivors := (iter (routing r)).*1 in
  let '(answers, tx) := offer_all (stats_event_tx r) (Finalize <$> survivors) in
  routing r' = ∅ /\
  (forall id ep, routing r !! id = Some ep ->
     w_stats w' !! re_stats ep = store_state Down <$> w_stats w !! re_stats ep) /\
  NoDup survivors /\ (forall id, id ∈ survivors <-> is_Some (routing r !! id)) /\
  answers.*1 = Finalize <$> survivors /\ stats_event_tx r' = tx /\
  accepted tx = accepted (stats_event_tx r) ++ (filter (answered Sent) answers).*1 /\
  wrap 64 (stats_events_dropped r') =
    wrap 64 (stats_events_dropped r + Z.of_nat (length (filter (answered Full) answers))).
Proof.
  destruct (sweep_state iter r w) as [_ Hempty]. destruct (shutdown_sweep iter r w) as [r' w'] eqn:E.
  unfold shutdown_sweep in E. simpl in Hempty. cbv zeta.
  pose proof (sweep_loop_spec (with_routing r ∅) (iter (routing r)) w) as Hs.
  pose proof (sweep_loop_states (with_routing r ∅) (iter (routing r)) w) as Hst.
  pose proof (offer_all_spec (stats_event_tx r) (Finalize <$> (iter (routing r)).*1)) as [Ho Ha].
  rewrite E in Hs, Hst. simpl in Hs, Hst.
  destruct (offer_all (stats_event_tx r) (Finalize <$> (iter (routing r)).*1)) as [answers tx]. simpl in *.
  destruct Hs as [Htx Hd]. split; [done|]. split; [|split; [|split; [|done]]].
  - intros id ep Hid. rewrite Hst, decide_True; [done|]. apply list_elem_of_fmap. exists (id, ep).
    split; [done|]. rewrite iter_perm. by apply elem_of_map_to_list.
  - rewrite iter_perm. apply NoDup_fst_map_to_list.
  - intros id. rewrite iter_perm, list_elem_of_fmap. split.
    + intros ([i ep] & -> & Hin). apply elem_of_map_to_list in Hin. eauto.
    + intros [ep Hid]. exists (id, ep). split; [done|]. by apply elem_of_map_to_list.
Qed.
End Claims.
