(* ===== verification/Policy.v ===== *)
(** * What the router is for: its policy

    The router without its machinery.  A policy state says who is connected, which senders
    have been heard on each side, and which frames were accepted when: no queues, no learn
    tables with eviction, no hash rings, no reference counts.  The router of [Router]
    implements it ([event_refines], [frame_refines]). *)

From S2P Require Import Prelude Frame Filters LruVec Learn Dedup Group EndpointStats TxQueue Identity Decide Router RouterInv Dispatch RouterProps RouterRun.
#[local] Open Scope Z_scope.

(** ** The policy *)

(** A side of the router on which senders are heard: an endpoint by itself, or a group. *)
Abbreviation side := (EndpointId + string)%type.
Definition side_of (id : EndpointId) (identity : IdentityFlags) : side :=
  match group identity with Some g => inr g | None => inl id end.

(** A connected endpoint that takes part in routing. *)
Record Member := { mb_identity : IdentityFlags; mb_name : string }.

Record Policy := {
  po_members : gmap EndpointId Member;
  po_heard : gmap side (gset NodeId);
  po_accepted : list (Z * Z);
}.
Definition policy_init : Policy := {| po_members := ∅; po_heard := ∅; po_accepted := [] |}.

Definition heard (p : Policy) (s : side) : gset NodeId := default ∅ (po_heard p !! s).
Definition on_side (s : side) (id : EndpointId) (mb : Member) : Prop := side_of id (mb_identity mb) = s.
#[global] Instance on_side_dec s id mb : Decision (on_side s id mb).
Proof. unfold on_side. apply _. Defined.

(** What the router takes: lifecycle events, and frames at a time. *)
Inductive router_input := InEvent (e : EndpointEvent) | InFrame (rf : RouterFrame) (now : Z).

Definition announce (p : Policy) (id : EndpointId) (rt : Routable) : Policy :=
  let s := side_of id (rt_identity rt) in
  {| po_members := <[id := {| mb_identity := rt_identity rt; mb_name := rt_endpoint_name rt |}]> (po_members p);
     po_heard := <[s := heard p s]> (po_heard p); po_accepted := po_accepted p |}.

(** The last to leave a side takes what was heard there along. *)
Definition depart (p : Policy) (id : EndpointId) : Policy :=
  match po_members p !! id with
  | None => p
  | Some mb =>
      let s := side_of id (mb_identity mb) in
      let members := delete id (po_members p) in
      {| po_members := members;
         po_heard := if decide (map_Exists (on_side s) members) then po_heard p else delete s (po_heard p);
         po_accepted := po_accepted p |}
  end.

Definition policy_event (p : Policy) (e : EndpointEvent) : Policy :=
  match e with
  | EndpointAdded id _ _ (Some rt) | PeerAdded _ id _ _ rt => announce p id rt
  | EndpointAdded _ _ _ None => p
  | PeerRemoved _ id _ => depart p id
  end.

(** The frame is a broadcast, or its target is among the senders heard there. *)
Definition reaches (header : ParsedHeader) (known : gset NodeId) : bool :=
  match target_system header with
  | None | Some 0 => true
  | Some s =>
      match target_component header with
      | None | Some 0 => bool_decide (set_Exists (fun node => sys node = s) known)
      | Some c => bool_decide (NodeId_new s c ∈ known)
      end
  end.

(** A sniffer wants everything; anyone else what is not from its own side, its filter admits
    and reaches someone there. *)
Definition wants (mb : Member) (known : gset NodeId) (header : ParsedHeader) (src_name : string) : bool :=
  sniffer (mb_identity mb) ||
  (bool_decide (source header ∉ known) && passes_out_filter (filters (mb_identity mb)) (msgid header) (source header) src_name &&
   reaches header known).

Section Policy.
Context (hash : Bytes -> Z) (ttl : Z) (cap : nat).   (** the dedup window's TTL and capacity *)

(** With the window on, a frame is a repetition of an accepted one (by hash) that is less than
    a TTL old and among the last [cap]. *)
Definition repeated (p : Policy) (frame : Bytes) (now : Z) : bool :=
  negb (ttl =? 0) && ref_dup hash ttl cap (po_accepted p) frame now.

(** A frame of a connected endpoint that is not a repetition: its sender is heard there. *)
Definition policy_frame (p : Policy) (rf : RouterFrame) (now : Z) : option (Member * Policy) :=
  match po_members p !! rf_endpoint_id rf with
  | None => None
  | Some src =>
      if repeated p (rf_frame rf) now then None
      else
        let s := side_of (rf_endpoint_id rf) (mb_identity src) in
        Some (src, {| po_members := po_members p; po_heard := <[s := {[source (rf_header rf)]} ∪ heard p s]> (po_heard p);
                      po_accepted := po_accepted p ++ [(hash (rf_frame rf), now)] |})
  end.

Definition policy_step (p : Policy) (i : router_input) : Policy :=
  match i with
  | InEvent e => policy_event p e
  | InFrame rf now => match policy_frame p rf now with Some (_, p') => p' | None => p end
  end.

(** Whether endpoint [b] is to get the frame. *)
Definition gets (b : EndpointId) (p : Policy) (rf : RouterFrame) (now : Z) : bool :=
  match policy_frame p rf now with
  | None => false
  | Some (src, p') =>
      match po_members p !! b with
      | None => false
      | Some mb => negb (b =? rf_endpoint_id rf) && wants mb (heard p' (side_of b (mb_identity mb))) (rf_header rf) (mb_name src)
      end
  end.

(** What [b] is to get, over a history. *)
Definition delivery (b : EndpointId) (p : Policy) (i : router_input) : list Bytes :=
  match i with
  | InEvent _ => []
  | InFrame rf now => if gets b p rf now then [rf_frame rf] else []
  end.
Fixpoint deliveries (b : EndpointId) (p : Policy) (h : list router_input) : list Bytes :=
  match h with
  | [] => []
  | i :: h => delivery b p i ++ deliveries b (policy_step p i) h
  end.
Definition policy_run (p : Policy) (h : list router_input) : Policy := foldl policy_step p h.

Lemma policy_run_snoc p h i : policy_run p (h ++ [i]) = policy_step (policy_run p h) i.
Proof. unfold policy_run. by rewrite foldl_app. Qed.

Lemma deliveries_snoc b p h i : deliveries b p (h ++ [i]) = deliveries b p h ++ delivery b (policy_run p h) i.
Proof.
  revert p; induction h as [|j h IH]; intros p; simpl; [by rewrite app_nil_r|]. by rewrite IH, <- app_assoc.
Qed.

Lemma policy_frame_members p rf now src p' : policy_frame p rf now = Some (src, p') -> po_members p' = po_members p.
Proof. unfold policy_frame. destruct (po_members p !! _); [|done]. destruct (repeated _ _ _); [done|]. by intros [= _ <-]. Qed.

(** Members are announced. *)
Lemma policy_step_members p i b :
  is_Some (po_members (policy_step p i) !! b) -> is_Some (po_members p !! b) \/ exists e, i = InEvent e /\ adds e = true /\ event_id e = b.
Proof.
  assert (Hann : forall id rt, is_Some (po_members (announce p id rt) !! b) -> is_Some (po_members p !! b) \/ id = b).
  { intros id rt. cbn. rewrite lookup_insert_is_Some. naive_solver. }
  destruct i as [[id nm k [rt|]|pid id nm k rt|pid id reason]|rf now]; cbn [policy_step policy_event].
  - intros [?| ->]%Hann; [by left|right; by eexists].
  - by left.
  - intros [?| ->]%Hann; [by left|right; by eexists].
  - unfold depart. destruct (po_members p !! id); [|by left]. cbn. rewrite lookup_delete_is_Some. intros [_ ?]. by left.
  - destruct (policy_frame p rf now) as [[src p']|] eqn:E; [|by left]. rewrite (policy_frame_members _ _ _ _ _ E). by left.
Qed.

Lemma delivery_member b p i : po_members p !! b = None -> delivery b p i = [].
Proof. intros Hb. destruct i as [e|rf now]; [done|]. cbn. unfold gets. rewrite Hb. by destruct (policy_frame p rf now) as [[]|]. Qed.

(** Nobody gets anything before being announced. *)
Lemma deliveries_stranger b p h :
  po_members p !! b = None -> (forall e, InEvent e ∈ h -> adds e = true -> event_id e <> b) ->
  deliveries b p h = [] /\ po_members (policy_run p h) !! b = None.
Proof.
  revert p; induction h as [|i h IH]; intros p Hb Hno; [done|]. cbn [deliveries]. rewrite delivery_member by done. apply IH.
  - apply eq_None_not_Some. intros [[x Hx]|(e & -> & Ha & Hid)]%policy_step_members; [congruence|].
    by apply (Hno e); [apply list_elem_of_here|..].
  - intros e He. apply Hno. by apply list_elem_of_further.
Qed.

(** While [b] stays, what is heard on its side only grows. *)
Lemma heard_grows b mb p i :
  po_members p !! b = Some mb -> (forall parent reason, i <> InEvent (PeerRemoved parent b reason)) ->
  (forall e, i = InEvent e -> adds e = true -> event_id e <> b) ->
  po_members (policy_step p i) !! b = Some mb /\
  heard p (side_of b (mb_identity mb)) ⊆ heard (policy_step p i) (side_of b (mb_identity mb)).
Proof.
  intros Hb Hrem Hadd. destruct i as [e|rf now]; cbn [policy_step].
  - assert (Hann : forall id rt, id <> b -> po_members (announce p id rt) !! b = Some mb /\
      heard p (side_of b (mb_identity mb)) ⊆ heard (announce p id rt) (side_of b (mb_identity mb))).
    { intros id rt Hne. cbn. rewrite lookup_insert_ne by done. split; [done|]. unfold heard at 2. cbn.
      destruct (decide (side_of id (rt_identity rt) = side_of b (mb_identity mb))) as [->|];
        [by rewrite lookup_insert_eq|by rewrite lookup_insert_ne]. }
    destruct e as [id nm k [rt|]|pid id nm k rt|pid id reason]; cbn [policy_event].
    + apply Hann. exact (Hadd _ eq_refl eq_refl).
    + done.
    + apply Hann. exact (Hadd _ eq_refl eq_refl).
    + assert (Hne : id <> b) by (intros ->; by eapply Hrem). unfold depart. destruct (po_members p !! id) as [mb'|] eqn:E; [|done].
      cbn. rewrite lookup_delete_ne by done. split; [done|]. case_decide as Hex; [done|]. unfold heard at 2. cbn.
      rewrite lookup_delete_ne; [done|]. intros Heq. apply Hex. exists b, mb. split; [by rewrite lookup_delete_ne|done].
  - unfold policy_frame. destruct (po_members p !! rf_endpoint_id rf) as [src|]; [|done]. destruct (repeated _ _ _); [done|]. cbn.
    split; [done|]. unfold heard at 2. cbn.
    destruct (decide (side_of (rf_endpoint_id rf) (mb_identity src) = side_of b (mb_identity mb))) as [->|];
      [rewrite lookup_insert_eq; cbn; set_solver|by rewrite lookup_insert_ne].
Qed.
End Policy.

(** ** How the router represents it *)

Definition nodes (t : LearnTable) : gset NodeId := dom (learned t).

Lemma contains_nodes t node : learn_ok t -> contains t node = bool_decide (node ∈ nodes t).
Proof.
  intros Hok. apply eq_true_iff_eq. rewrite bool_decide_eq_true, contains_lookup by done. unfold nodes. by rewrite elem_of_dom.
Qed.

Lemma contains_sys_nodes t s : learn_ok t -> contains_sys t s = bool_decide (set_Exists (fun node => sys node = s) (nodes t)).
Proof.
  intros Hok. apply eq_true_iff_eq. rewrite bool_decide_eq_true, contains_sys_exists. setoid_rewrite contains_nodes; [|done].
  setoid_rewrite bool_decide_eq_true. split.
  - intros [c Hc]. by exists (NodeId_new s c).
  - intros ([s' c] & Hn & <-). by exists c.
Qed.

Lemma size_nodes t : learn_ok t -> size (nodes t) = size (learned t).
Proof. intros _. unfold nodes. apply size_dom. Qed.

Lemma nodes_touch t node now :
  learn_ok t -> nodes (touch t node now).2 ⊆ {[node]} ∪ nodes t /\
  ((size ({[node]} ∪ nodes t) <= capacity t)%nat -> nodes (touch t node now).2 = {[node]} ∪ nodes t).
Proof.
  intros Hok. destruct (touch_refines t node now Hok) as (_ & Hs & _). unfold touch_spec in Hs.
  unfold nodes. case_decide as Hd; [rewrite Hs, dom_insert_L; done|].
  assert (Hn : ~ is_Some (learned t !! node)) by tauto. assert (Hsz : ~ (size (learned t) < capacity t)%nat) by tauto.
  destruct Hs as (v & s & _ & _ & ->). rewrite dom_insert_L, dom_delete_L. split; [set_solver|].
  intros Hle. exfalso. rewrite size_union, size_singleton, size_dom in Hle; [lia|].
  apply disjoint_singleton_l. by rewrite elem_of_dom.
Qed.

(** A learn table for a set of heard senders: nothing else, and all of them as long as they
    fit. *)
Record represents (t : LearnTable) (known : gset NodeId) : Prop := {
  rp_ok : learn_ok t;
  rp_cap : capacity t = LEARN_CAPACITY;
  rp_only : nodes t ⊆ known;
  rp_all : (size known <= LEARN_CAPACITY)%nat -> nodes t = known;
}.

Lemma represents_new : represents (LearnTable_new LEARN_CAPACITY) ∅.
Proof. split; [apply learn_new_ok|done|done|done]. Qed.

Lemma represents_touch t known node now :
  represents t known -> represents (touch t node now).2 ({[node]} ∪ known).
Proof.
  intros [Hok Hc Ho Ha]. destruct (nodes_touch t node now Hok) as [Hs He]. split.
  - by apply touch_ok.
  - by rewrite capacity_touch.
  - set_solver.
  - intros Hle. assert (Hk : (size known <= LEARN_CAPACITY)%nat) by (etrans; [apply subseteq_size, union_subseteq_r|exact Hle]).
    rewrite <- (Ha Hk) in Hle |- *. apply He. by rewrite Hc.
Qed.

(** The table of a side. *)
Definition table_of {C} (r : Router C) (s : side) : option LearnTable :=
  match s with
  | inl id => match routing r !! id ≫= re_routable with
              | Some rs => match group (rs_identity rs) with None => Some (rs_learn rs) | Some _ => None end
              | None => None
              end
  | inr g => gl_learn <$> groups r !! g
  end.

Definition member_of (rs : RoutableState) : Member := {| mb_identity := rs_identity rs; mb_name := rs_endpoint_name rs |}.

Lemma effective_table {C} (r : Router C) id ep rs :
  routing r !! id = Some ep -> re_routable ep = Some rs ->
  effective_learn (groups r) rs = table_of r (side_of id (rs_identity rs)).
Proof.
  intros Hid Hrs. unfold effective_learn, table_of, side_of. destruct (group (rs_identity rs)) eqn:Eg; [done|].
  rewrite Hid. simpl. by rewrite Hrs, Eg.
Qed.

Section Refinement.
Context {Q : Type} `{ArrayQueue Q} {C : Type} `{StatsSender C}.
Context (hash : Bytes -> Z) (iter : registry -> list (EndpointId * RegisteredEndpoint)) (debug_assertions : bool).
Hypothesis iter_perm : forall m, iter m ≡ₚ map_to_list m.
Context (ttl : Z) (cap : nat).
Hypothesis Httl : 0 <= ttl.
Hypothesis Hcap : (1 <= cap)%nat.
Implicit Types (r : Router C) (w : World Q) (p : Policy).

Record implements (clock : Z) r p : Prop := {
  im_members id : po_members p !! id = member_of <$> (routing r !! id ≫= re_routable);
  im_heard s : option_Forall2 represents (table_of r s) (po_heard p !! s);
  im_dedup : tracks ttl cap clock (dedup r) (po_accepted p);
}.

Lemma implements_ext clock r r' p :
  routing r' = routing r -> groups r' = groups r -> dedup r' = dedup r -> implements clock r p -> implements clock r' p.
Proof. intros Hr Hg Hd [Hm Hh Ht]. split; [by rewrite Hr| |by rewrite Hd]. intros s. unfold table_of. rewrite Hr, Hg. apply Hh. Qed.

(** A member is registered, and the other way round. *)
Lemma implements_member clock r p id ep rs :
  implements clock r p -> routing r !! id = Some ep -> re_routable ep = Some rs -> po_members p !! id = Some (member_of rs).
Proof. intros Him Hid Hrs. by rewrite (im_members _ _ _ Him), Hid; simpl; rewrite Hrs. Qed.
Lemma implements_registered clock r p id mb :
  implements clock r p -> po_members p !! id = Some mb ->
  exists ep rs, routing r !! id = Some ep /\ re_routable ep = Some rs /\ mb = member_of rs.
Proof.
  intros Him. rewrite (im_members _ _ _ Him). intros (rs & (ep & Hep & Hrs)%bind_Some & ->)%fmap_Some. by exists ep, rs.
Qed.

(** The table the router consults for a member represents what the policy has heard on its
    side. *)
Lemma implements_table clock r p id ep rs t :
  implements clock r p -> routing r !! id = Some ep -> re_routable ep = Some rs -> effective_learn (groups r) rs = Some t ->
  represents t (heard p (side_of id (rs_identity rs))).
Proof.
  intros Him Hid Hrs. rewrite (effective_table r id ep rs Hid Hrs). intros Ht. unfold heard.
  pose proof (im_heard _ _ _ Him (side_of id (rs_identity rs))) as Hh. rewrite Ht in Hh. by inversion Hh.
Qed.

(** The new router implements the empty policy. *)
Lemma implements_new clock tx ms c :
  ttl = from_millis ms -> cap = Nat.max c 1 -> implements clock (Router_new (C := C) tx ms c) policy_init.
Proof.
  intros Ht Hc. split.
  - intros id. simpl. by rewrite !lookup_empty.
  - intros [id|g]; simpl; rewrite !lookup_empty; constructor.
  - assert (Hd : dedup (Router_new (C := C) tx ms c) = DedupWindow_new ttl cap)
      by (simpl; unfold DedupWindow_new; rewrite Ht, Hc; f_equal; lia).
    rewrite Hd. by apply tracks_new.
Qed.

(** ** Events *)

Lemma register_state r id name stats rso :
  groups (register_routable r id name stats rso) = groups r /\ dedup (register_routable r id name stats rso) = dedup r.
Proof.
  unfold register_routable. match goal with |- context [forward_stats ?r0 ?e0] => destruct (forward_stats_state r0 e0) as (-> & _ & ->) end.
  done.
Qed.

Lemma announce_refines clock r p id name stats rt :
  routing r !! id = None -> implements clock r p ->
  let '(rs, r1) := build_routable_state r rt in
  implements clock (register_routable r1 id name stats (Some rs)) (announce p id rt).
Proof.
  intros Hfresh Him. unfold build_routable_state. cbv zeta. set (r1 := match group (rt_identity rt) with Some g => _ | None => r end).
  set (rs := {| rs_tx_queue := _ |}).
  assert (Hr1 : routing r1 = routing r /\ dedup r1 = dedup r) by (unfold r1; by destruct (group (rt_identity rt))). destruct Hr1 as [Hr1 Hd1].
  destruct (register_state r1 id name stats (Some rs)) as [Hg' Hd'].
  pose proof (register_routing r1 id name stats (Some rs)) as Hr'. rewrite Hr1 in Hr'.
  set (r' := register_routable r1 id name stats (Some rs)) in *. clearbody r'. destruct Him as [Hm Hh Ht]. split; cbn [announce po_members po_heard po_accepted].
  - intros i. rewrite Hr'. destruct (decide (id = i)) as [<-|Hne]; [by rewrite !lookup_insert_eq|]. rewrite !lookup_insert_ne by done. apply Hm.
  - assert (Hown : forall i, i <> id -> table_of r' (inl i) = table_of r (inl i)) by (intros i Hi; simpl; by rewrite Hr', lookup_insert_ne).
    assert (Hnone : po_heard p !! inl id = None).
    { pose proof (Hh (inl id)) as Hx. simpl in Hx. rewrite Hfresh in Hx. by inversion Hx. }
    assert (Hid : table_of r' (inl id) = match group (rt_identity rt) with None => Some (LearnTable_new LEARN_CAPACITY) | Some _ => None end)
      by (simpl; by rewrite Hr', lookup_insert_eq).
    unfold side_of, heard. destruct (group (rt_identity rt)) as [g|] eqn:Eg; unfold r1 in Hg'; intros [i|g'].
    + rewrite lookup_insert_ne by done. destruct (decide (i = id)) as [->|Hi]; [rewrite Hid, Hnone; constructor|rewrite Hown by done; apply Hh].
    + pose proof (Hh (inr g')) as Hx. simpl in Hx |- *. rewrite Hg'. cbn [groups with_groups join snd].
      destruct (decide (g = g')) as [<-|Hne]; [|by rewrite !lookup_insert_ne by congruence].
      rewrite !lookup_insert_eq. simpl. destruct (groups r !! g); simpl in *; inversion Hx; subst; simpl; constructor; [done|apply represents_new].
    + destruct (decide (i = id)) as [->|Hi]; [|rewrite lookup_insert_ne, Hown by congruence; apply Hh].
      rewrite lookup_insert_eq, Hid, Hnone. constructor. apply represents_new.
    + rewrite lookup_insert_ne by done. simpl. rewrite Hg'. apply (Hh (inr g')).
  - by rewrite Hd', Hd1.
Qed.

(** A side is occupied exactly when its group counts a member. *)
Lemma occupied_group clock r p g id :
  implements clock r p -> map_Exists (on_side (inr g)) (delete id (po_members p)) <-> (1 <= group_count (delete id (routing r)) g)%nat.
Proof.
  intros Him. split.
  - intros (i & mb & [Hne Hi]%lookup_delete_Some & Hs). destruct (implements_registered _ _ _ _ _ Him Hi) as (ep & rs & Hep & Hrs & ->).
    apply (group_count_pos _ i ep); [by rewrite lookup_delete_ne|]. unfold on_side, side_of in Hs. unfold ep_group. rewrite Hrs.
    simpl in Hs. destruct (group (rs_identity rs)); by simplify_eq.
  - intros (i & ep & [Hne Hi]%lookup_delete_Some & Hg)%group_count_member. unfold ep_group in Hg. destruct (re_routable ep) as [rs|] eqn:Hrs; [|done].
    exists i, (member_of rs). split; [rewrite lookup_delete_ne by done; by eapply implements_member|].
    unfold on_side, side_of. simpl. by rewrite Hg.
Qed.

Lemma depart_refines clock r p id (w : World Q) parent reason :
  members_exact r -> implements clock r p -> implements clock (handle_event r (PeerRemoved parent id reason) w).1 (depart p id).
Proof.
  intros Hex Him. cbn [handle_event]. pose proof Him as [Hm Hh Ht]. unfold depart. rewrite (Hm id). destruct (routing r !! id) as [ep|] eqn:Eid.
  2: { cbn. destruct (forward_stats_state r (Finalize id)) as (Hg & Hr & Hd). by apply (implements_ext clock r). }
  cbn [fst mbind option_bind]. set (r1 := match ep_group ep with Some g => _ | None => _ end).
  destruct (forward_stats_state r1 (Finalize id)) as (Hg & Hr & Hd). apply (implements_ext clock r1 (forward_stats r1 (Finalize id))); [done..|]. clear Hg Hr Hd.
  assert (Hr1 : routing r1 = delete id (routing r) /\ dedup r1 = dedup r) by (unfold r1; by destruct (ep_group ep)). destruct Hr1 as [Hr1 Hd1].
  assert (Hmem : forall i, delete id (po_members p) !! i = member_of <$> (routing r1 !! i ≫= re_routable)).
  { intros i. rewrite Hr1. destruct (decide (id = i)) as [<-|Hne]; [by rewrite !lookup_delete_eq|]. rewrite !lookup_delete_ne by done. apply Hm. }
  assert (Hown : forall i, i <> id -> table_of r1 (inl i) = table_of r (inl i)) by (intros i Hi; simpl; by rewrite Hr1, lookup_delete_ne).
  assert (Hid : table_of r1 (inl id) = None) by (simpl; by rewrite Hr1, lookup_delete_eq).
  destruct (re_routable ep) as [rs|] eqn:Hrs; cbn.
  2: { assert (Hgr : groups r1 = groups r) by (unfold r1, ep_group; by rewrite Hrs). split; [|intros [i|g]|by rewrite Hd1].
       - intros i. rewrite <- Hmem. destruct (decide (id = i)) as [<-|Hne]; [|by rewrite lookup_delete_ne]. rewrite lookup_delete_eq, Hm, Eid. simpl. by rewrite Hrs.
       - destruct (decide (i = id)) as [->|Hi]; [|by rewrite Hown]. rewrite Hid. pose proof (Hh (inl id)) as Hx. simpl in Hx. rewrite Eid in Hx. simpl in Hx. by rewrite Hrs in Hx.
       - simpl. rewrite Hgr. apply (Hh (inr g)). }
  unfold side_of. cbn [mb_identity member_of]. assert (Hep : ep_group ep = group (rs_identity rs)) by (unfold ep_group; by rewrite Hrs).
  destruct (group (rs_identity rs)) as [g|] eqn:Eg.
  - assert (Hgr : groups r1 = leave (groups r) g) by (unfold r1; by rewrite Hep).
    pose proof (Hex g) as Hcount. rewrite (group_count_delete _ id ep g Eid) in Hcount. unfold is_member in Hcount. rewrite decide_True in Hcount by done.
    split; [exact Hmem| |by rewrite Hd1].
    assert (Hoth : forall g', g' <> g -> table_of r1 (inr g') = table_of r (inr g')).
    { intros g' Hne. simpl. rewrite Hgr. unfold leave. destruct (groups r !! g); [|done].
      destruct (_ =? 0)%nat; [by rewrite lookup_delete_ne|by rewrite lookup_insert_ne]. }
    assert (Hnone : po_heard p !! inl id = None).
    { pose proof (Hh (inl id)) as Hx. simpl in Hx. rewrite Eid in Hx. simpl in Hx. rewrite Hrs, Eg in Hx. by inversion Hx. }
    unfold members_of in Hcount. destruct (groups r !! g) as [gl|] eqn:Egl; [|lia].
    cbn [po_heard]. case_decide as Hocc; (rewrite (occupied_group clock r p g id Him) in Hocc); intros [i|g'].
    + destruct (decide (i = id)) as [->|Hi]; [rewrite Hid, Hnone; constructor|by rewrite Hown].
    + destruct (decide (g' = g)) as [->|Hne]; [|by rewrite Hoth]. pose proof (Hh (inr g)) as Hx. simpl in Hx |- *.
      rewrite Hgr. unfold leave. rewrite Egl in Hx |- *. rewrite (proj2 (Nat.eqb_neq _ _)) by lia. by rewrite lookup_insert_eq.
    + rewrite lookup_delete_ne by done. destruct (decide (i = id)) as [->|Hi]; [rewrite Hid, Hnone; constructor|by rewrite Hown].
    + destruct (decide (g' = g)) as [->|Hne]; [|rewrite lookup_delete_ne, Hoth by congruence; apply Hh].
      rewrite lookup_delete_eq. simpl. rewrite Hgr. unfold leave. rewrite Egl, (proj2 (Nat.eqb_eq _ _)) by lia. rewrite lookup_delete_eq. constructor.
  - assert (Hgr : groups r1 = groups r) by (unfold r1; by rewrite Hep).
    rewrite decide_False.
    2: { intros (i & mb & [Hne _]%lookup_delete_Some & Hs). unfold on_side, side_of in Hs. destruct (group (mb_identity mb)); congruence. }
    split; [exact Hmem| |by rewrite Hd1]. cbn [po_heard]. intros [i|g].
    + destruct (decide (i = id)) as [->|Hi]; [rewrite Hid, lookup_delete_eq; constructor|]. rewrite lookup_delete_ne, Hown by congruence. apply Hh.
    + rewrite lookup_delete_ne by done. simpl. rewrite Hgr. apply (Hh (inr g)).
Qed.

(** The router's handling of an event implements the policy's. *)
Lemma event_refines clock r p e (w : World Q) :
  members_exact r -> event_fresh r e -> implements clock r p -> implements clock (handle_event r e w).1 (policy_event p e).
Proof.
  intros Hex Hf Him. destruct e as [id name stats [rt|]|pid id name stats rt|pid id reason]; cbn [policy_event].
  - cbn [handle_event]. pose proof (announce_refines clock r p id name stats rt Hf Him) as Ha. by destruct (build_routable_state r rt).
  - cbn [handle_event fst]. destruct (register_state r id name stats None) as [Hg Hd]. pose proof (register_routing r id name stats None) as Hr.
    set (r' := register_routable r id name stats None) in *. clearbody r'. destruct Him as [Hm Hh Ht]. simpl in Hf. split; [| |by rewrite Hd].
    + intros i. rewrite Hm, Hr. destruct (decide (id = i)) as [<-|Hne]; [by rewrite lookup_insert_eq, Hf|by rewrite lookup_insert_ne].
    + intros [i|g]; [|simpl; rewrite Hg; apply (Hh (inr g))]. pose proof (Hh (inl i)) as Hx. simpl in Hx |- *. rewrite Hr.
      destruct (decide (id = i)) as [<-|Hne]; [by rewrite lookup_insert_eq; rewrite Hf in Hx|by rewrite lookup_insert_ne].
  - cbn [handle_event]. pose proof (announce_refines clock r p id name stats rt Hf Him) as Ha. by destruct (build_routable_state r rt).
  - by apply depart_refines.
Qed.

(** ** Frames *)

(** The router's decision on the table is the policy's on the set, as long as the table holds
    the whole set (a sniffer does not consult it). *)
Definition exact_for p (id : EndpointId) (mb : Member) : Prop :=
  sniffer (mb_identity mb) = true \/ (size (heard p (side_of id (mb_identity mb))) <= LEARN_CAPACITY)%nat.

Lemma target_match_reaches header t : learn_ok t -> target_match header t = reaches header (nodes t).
Proof.
  intros Hok. unfold target_match, reaches. destruct (target_system header) as [[|s|s]|]; try done; simpl;
    destruct (target_component header) as [[|c|c]|]; rewrite ?contains_sys_nodes, ?contains_nodes by done; done.
Qed.

Lemma decide_wants t known mb header name :
  represents t known -> sniffer (mb_identity mb) = true \/ (size known <= LEARN_CAPACITY)%nat ->
  bool_decide (decide_for_dest header t (mb_identity mb) name = Admit) = wants mb known header name.
Proof.
  intros [Hok _ _ Hall] Hex. unfold decide_for_dest, wants. destruct (sniffer (mb_identity mb)); [done|].
  destruct Hex as [|Hsz]; [done|]. rewrite <- (Hall Hsz), <- (target_match_reaches header t Hok), (contains_nodes t _ Hok).
  destruct (decide (source header ∈ nodes t)) as [Hin|Hin].
  - rewrite (bool_decide_eq_true_2 (_ ∈ _)), (bool_decide_eq_false_2 (_ ∉ _)) by first [done|intros Hn; by apply Hn]. done.
  - rewrite (bool_decide_eq_false_2 (_ ∈ _)), (bool_decide_eq_true_2 (_ ∉ _)) by done.
    destruct (passes_out_filter _ _ _ _); [|done]. by destruct (target_match header t).
Qed.

Lemma implements_later clock now r p : clock <= now -> implements clock r p -> implements now r p.
Proof.
  intros Hle [Hm Hh Ht]. split; [done|done|]. destruct Ht as [Hok Htt Hc Hs Hp Hl]. split; try done.
  - destruct Hok. split; try done. eapply Forall_impl; [done|]. simpl. intros. lia.
  - eapply Forall_impl; [done|]. simpl. intros. lia.
  - by eapply tracks_live.
Qed.

(** The window's answer, and what it has seen afterwards. *)
Lemma window_repeated clock r p frame now :
  implements clock r p -> clock <= now ->
  let '(dup, d) := check_and_insert hash (dedup r) frame now in
  dup = repeated hash ttl cap p frame now /\ tracks ttl cap now d (if dup then po_accepted p else po_accepted p ++ [(hash frame, now)]).
Proof.
  intros Him Hle. pose proof (tracks_step hash ttl cap Hcap clock (dedup r) (po_accepted p) frame now (im_dedup _ _ _ Him) Hle) as Hstep.
  destruct (check_and_insert hash (dedup r) frame now) as [dup d] eqn:E. destruct Hstep as [Hdup Htr]. split; [|done].
  unfold repeated. destruct (Z.eqb_spec ttl 0) as [Hz|]; [|done]. unfold check_and_insert, is_enabled in E.
  rewrite (tr_ttl _ _ _ _ _ (im_dedup _ _ _ Him)), Hz in E. by injection E.
Qed.

(** An accepted frame: its sender is heard on the source's side. *)
Lemma ingest_refines clock r p rf now (w : World Q) sep srs :
  router_inv r -> implements clock r p -> clock <= now ->
  routing r !! rf_endpoint_id rf = Some sep -> re_routable sep = Some srs ->
  (check_and_insert hash (dedup r) (rf_frame rf) now).1 = false ->
  exists p', policy_frame hash ttl cap p rf now = Some (member_of srs, p') /\
    implements now (ingest_source_frame hash r (rf_endpoint_id rf) (rf_frame rf) (rf_header rf) now w).1.2 p'.
Proof.
  intros Hinv Him Hle Hsrc Hrs Hdup. pose proof (implements_member _ _ _ _ _ _ Him Hsrc Hrs) as Hmb.
  pose proof (window_repeated clock r p (rf_frame rf) now Him Hle) as Hstep. destruct Him as [Hm Hh Ht].
  unfold policy_frame. rewrite Hmb. unfold ingest_source_frame. rewrite Hsrc, Hrs.
  destruct (check_and_insert hash (dedup r) (rf_frame rf) now) as [dup d]. simpl in Hdup. subst dup. destruct Hstep as [<- Htr].
  eexists. split; [done|]. unfold side_of, heard. cbn [mb_identity member_of].
  destruct (effective_learn_Some r _ sep srs Hinv Hsrc Hrs) as (t0 & Ht0 & _). unfold effective_learn in Ht0.
  destruct (group (rs_identity srs)) as [g|] eqn:Eg; cbn [groups with_dedup].
  - destruct (groups r !! g) as [gl|] eqn:Egl; [|done]. split; [exact Hm| |exact Htr]. cbn. intros [i|g']; cbn.
    + rewrite lookup_insert_ne by done. apply (Hh (inl i)).
    + pose proof (Hh (inr g')) as Hx. simpl in Hx. unfold group_touch. destruct (decide (g = g')) as [<-|Hne].
      * rewrite lookup_alter_eq, lookup_insert_eq. rewrite Egl in Hx |- *. simpl in *. inversion Hx; subst; simpl. constructor. by apply represents_touch.
      * by rewrite lookup_alter_ne, lookup_insert_ne by congruence.
  - split; [| |exact Htr]; cbn.
    + intros i. rewrite Hm. destruct (decide (rf_endpoint_id rf = i)) as [<-|Hne]; [|by rewrite lookup_alter_ne].
      rewrite lookup_alter_eq, Hsrc. simpl. by rewrite Hrs.
    + intros [i|g]; cbn; [|rewrite lookup_insert_ne by done; apply (Hh (inr g))].
      pose proof (Hh (inl i)) as Hx. simpl in Hx. destruct (decide (rf_endpoint_id rf = i)) as [<-|Hne].
      * rewrite lookup_alter_eq, lookup_insert_eq. rewrite Hsrc in Hx |- *. simpl in *. rewrite Hrs in Hx |- *. simpl in *. rewrite Eg in Hx |- *.
        inversion Hx; subst; simpl. constructor. by apply represents_touch.
      * by rewrite lookup_alter_ne, lookup_insert_ne by congruence.
Qed.

Abbreviation push_frame frame := (fun q => (aq_force_push q frame).2).

(** What a frame does to the queue and the drop counter of a registered endpoint, by the
    policy's decision. *)
Definition routed_as (got : bool) (frame : Bytes) (ep : RegisteredEndpoint) (rs : RoutableState) w w' : Prop :=
  let q := w_queues w !! tq_inner (rs_tx_queue rs) in
  w_queues w' !! tq_inner (rs_tx_queue rs) = (if got then push_frame frame <$> q else q) /\
  load DroppedTx <$> w_stats w' !! re_stats ep =
    (if got && evicts frame q then (fun v => wrap 64 (v + 1)) else id) <$> (load DroppedTx <$> w_stats w !! re_stats ep).

Lemma routed_as_nothing frame ep rs w w' :
  w_queues w' = w_queues w -> load DroppedTx <$> w_stats w' !! re_stats ep = load DroppedTx <$> w_stats w !! re_stats ep ->
  routed_as false frame ep rs w w'.
Proof. intros Hq Hs. split; [by rewrite Hq|]. rewrite Hs. simpl. by rewrite option_fmap_id. Qed.

(** The router's handling of a frame implements the policy's: it does not panic, and every
    registered endpoint is served as the policy says, provided its table has not overflowed;
    nothing else is touched. *)
Lemma frame_refines clock r p rf now w :
  router_inv r -> owned (routing r) -> implements clock r p -> clock <= now ->
  exists r' w', handle_frame hash iter debug_assertions r rf now w = Done (r', w') /\
    implements now r' (policy_step hash ttl cap p (InFrame rf now)) /\
    (forall id ep rs, routing r !! id = Some ep -> re_routable ep = Some rs ->
      exact_for (policy_step hash ttl cap p (InFrame rf now)) id (member_of rs) ->
      routed_as (gets hash ttl cap id p rf now) (rf_frame rf) ep rs w w') /\
    (forall h, (forall id ep rs, routing r !! id = Some ep -> re_routable ep = Some rs -> tq_inner (rs_tx_queue rs) <> h) ->
       w_queues w' !! h = w_queues w !! h) /\
    (forall k, (forall id ep, routing r !! id = Some ep -> re_stats ep <> k) -> w_stats w' !! k = w_stats w !! k).
Proof.
  intros Hinv Hown Him Hle. cbn [policy_step].
  destruct (routing r !! rf_endpoint_id rf ≫= re_routable) as [srs|] eqn:Hsrc.
  2: { assert (Hpf : policy_frame hash ttl cap p rf now = None) by (unfold policy_frame; by rewrite (im_members _ _ _ Him), Hsrc).
       exists r, w. unfold gets. rewrite Hpf. split_and!; [|by eapply implements_later|intros; by apply routed_as_nothing|done|done].
       unfold handle_frame, ingest_source_frame. destruct (routing r !! rf_endpoint_id rf) as [sep|]; [|done]. simpl in Hsrc. by rewrite Hsrc. }
  apply bind_Some in Hsrc as (sep & Hsep & Hsrs). pose proof (implements_member _ _ _ _ _ _ Him Hsep Hsrs) as Hmb.
  pose proof (window_repeated clock r p (rf_frame rf) now Him Hle) as Hstep.
  destruct (check_and_insert hash (dedup r) (rf_frame rf) now) as [[] d] eqn:Ed.
  - destruct Hstep as [Hdup Htr]. assert (Hpf : policy_frame hash ttl cap p rf now = None) by (unfold policy_frame; by rewrite Hmb, <- Hdup).
    exists (with_dedup r d), (stats_update (re_stats sep) (fetch_add DedupDrops 1) w). unfold gets. rewrite Hpf. split_and!.
    + unfold handle_frame, ingest_source_frame. by rewrite Hsep, Hsrs, Ed.
    + destruct Him as [Hm Hh _]. split; [done|done|exact Htr].
    + intros id ep rs _ _ _. apply routed_as_nothing; [done|]. simpl. destruct (decide (re_stats sep = re_stats ep)) as [->|Hne].
      * rewrite lookup_alter_eq. destruct (w_stats w !! re_stats ep) as [st|]; [|done]. cbn [fmap option_fmap option_map]. by rewrite load_fetch_add.
      * by rewrite lookup_alter_ne.
    + done.
    + intros k Hk. simpl. rewrite lookup_alter_ne; [done|]. by eapply Hk.
  - assert (Hnd : (check_and_insert hash (dedup r) (rf_frame rf) now).1 = false) by by rewrite Ed.
    destruct (ingest_refines clock r p rf now w sep srs Hinv Him Hle Hsep Hsrs Hnd) as (p' & Hpf & Him').
    destruct (handle_frame_effect hash iter debug_assertions iter_perm r rf now w sep srs Hinv Hown Hsep Hsrs Hnd)
      as (r' & w' & t & Hrun & _ & _ & Hoth & _ & _ & _ & Hq & Hst & Hself & Hfq & Hfs).
    pose proof (handle_frame_router _ _ _ _ _ _ _ _ _ Hrun) as Hr'. rewrite <- Hr' in Him'. exists r', w'. rewrite Hpf.
    split_and!; [done|done| |done|done]. intros id ep rs Hid Hrs Hex. unfold gets. rewrite Hpf, (implements_member _ _ _ _ _ _ Him Hid Hrs).
    specialize (Hq id ep rs Hid Hrs). destruct (Z.eqb_spec id (rf_endpoint_id rf)) as [->|Hne]; cbn [negb andb].
    + assert (ep = sep) as -> by congruence. split; cbn.
      * rewrite Hq. unfold route_verdict. by rewrite Z.eqb_refl.
      * rewrite Hself. destruct (w_stats w !! re_stats sep); done.
    + destruct (handle_frame_inv _ _ _ _ _ _ _ _ _ Hinv Hrun) as [Hinv' _]. rewrite <- (Hoth id Hne) in Hid.
      destruct (effective_learn_Some r' id ep rs Hinv' Hid Hrs) as (td & Htd & _).
      pose proof (decide_wants td _ (member_of rs) (rf_header rf) (rs_endpoint_name srs) (implements_table _ _ _ _ _ _ _ Him' Hid Hrs Htd) Hex) as Hdw.
      rewrite (Hoth id Hne) in Hid. specialize (Hst id ep Hid Hne). rewrite Hrs in Hst. unfold route_verdict in Hq, Hst.
      rewrite (proj2 (Z.eqb_neq _ _)), Hrs, Htd in Hq, Hst by done. cbn [mb_name member_of mb_identity] in *. rewrite <- Hdw.
      unfold routed_as. rewrite Hq, Hst. case_bool_decide as Hd; cbn [mb_identity member_of] in Hd.
      * rewrite decide_True by congruence. rewrite Hd. split; [done|]. cbn [andb].
        destruct (w_stats w !! re_stats ep); [|done]. simpl. by destruct (evicts _ _).
      * rewrite decide_False by congruence. split; [done|]. cbn [andb]. destruct (w_stats w !! re_stats ep); [|done].
        cbn [fmap option_fmap option_map]. destruct (decide_for_dest _ _ _ _); cbn [count_effect]; by rewrite ?load_fetch_add.
Qed.
End Refinement.
