(* ===== verification/RouterExamples.v ===== *)
(** * A small router, to exercise the theorems

    Two plain links [a] and [b], a sniffer, two members of one group, and a parent listener. *)

From S2P Require Import Prelude Frame Filters LruVec Learn Dedup Group EndpointStats TxQueue Identity Decide Router RouterInv Dispatch RouterProps RouterRun.
#[local] Open Scope Z_scope.

(** A stats channel with room for [room] more events. *)
Module ListChan.
Record t := { log : list StatsEvent; room : nat }.
#[global] Instance ops : StatsSender t := {
  try_send c e := match room c with
                  | O => (Full, c)
                  | S n => (Sent, {| log := log c ++ [e]; room := n |})
                  end;
}.
#[global] Instance laws : StatsSenderLaws t.
Proof. refine {| accepted := log |}. intros c e. simpl. by destruct (room c). Defined.
End ListChan.

Module Net.
Definition link (n : nat) (sniff : bool) (g : option string) : Routable :=
  {| rt_tx_queue := {| tq_inner := n; tq_stats := n |};
     rt_identity := {| filters := Filters_default; sniffer := sniff; group := g |};
     rt_endpoint_name := "link" |}.

Definition events : list EndpointEvent :=
  [EndpointAdded 1 "a" 1 (Some (link 1 false None));
   EndpointAdded 2 "b" 2 (Some (link 2 false None));
   EndpointAdded 3 "tap" 3 (Some (link 3 true None));
   EndpointAdded 4 "udps" 4 None;
   PeerAdded 4 5 "udps/x" 5 (link 5 false (Some "g"%string));
   PeerAdded 4 6 "udps/y" 6 (link 6 false (Some "g"%string))].

Definition chan : ListChan.t := {| ListChan.log := []; ListChan.room := 20 |}.
Definition world : World ListQueue.t :=
  {| w_stats := list_to_map ((fun n => (n, EndpointStats_new Connected)) <$> List.seq 1 6);
     w_queues := list_to_map ((fun n => (n, aq_new 4)) <$> List.seq 1 6);
     w_notified := ∅ |}.
Definition router0 : Router ListChan.t := Router_new chan 100 16.
Definition router : Router ListChan.t := foldl (fun r e => (handle_event r e world).1) router0 events.

Lemma events_inv (r : Router ListChan.t) l :
  router_inv r -> router_inv (foldl (fun r e => (handle_event r e world).1) r l).
Proof. revert r; induction l as [|e l IH]; intros r Hr; [done|]. apply IH. by apply handle_event_inv. Qed.

Lemma router_ok : router_inv router.
Proof. apply events_inv, Router_new_inv. Qed.

Definition dests : list (EndpointId * RegisteredEndpoint) := Eval vm_compute in map_to_list (routing router).
Lemma dests_eq : map_to_list (routing router) = dests.
Proof. vm_compute. reflexivity. Qed.

Lemma router_owned : owned (routing router).
Proof.
  assert (Hl : forall id ep, routing router !! id = Some ep -> (id, ep) ∈ dests).
  { intros id ep Hid. rewrite <- dests_eq. by apply elem_of_map_to_list. }
  split.
  - intros id ep rs Hid%Hl. unfold dests in Hid. rewrite !elem_of_cons in Hid.
    destruct_or!; simplify_eq/=; intros; simplify_eq/=; try done; by apply not_elem_of_nil in Hid.
  - intros i j e1 e2 Hi%Hl Hj%Hl. unfold dests in Hi, Hj. rewrite !elem_of_cons in Hi, Hj.
    destruct_or!; simplify_eq/=; try done; by apply not_elem_of_nil in Hi || by apply not_elem_of_nil in Hj.
  - intros i j e1 e2 r1 r2 Hi%Hl Hj%Hl. unfold dests in Hi, Hj. rewrite !elem_of_cons in Hi, Hj.
    destruct_or!; simplify_eq/=; intros; simplify_eq/=; try done;
      by apply not_elem_of_nil in Hi || by apply not_elem_of_nil in Hj.
Qed.

Definition ep (id : EndpointId) : RegisteredEndpoint :=
  default {| re_name := ""; re_stats := 0; re_routable := None |} (routing router !! id).
Definition rs (id : EndpointId) : RoutableState :=
  default {| rs_tx_queue := {| tq_inner := 0; tq_stats := 0 |}; rs_identity := IdentityFlags_default;
             rs_endpoint_name := ""; rs_learn := LearnTable_new 1 |} (re_routable (ep id)).

(** A frame of node (7, 1) with no target, and one of node (255, 190) for node (7, 1). *)
Definition hdr (src : NodeId) (ts tc : option Z) : ParsedHeader :=
  {| version := Version_V2; source := src; msgid := 0; seq := 0; payload_len := 9;
     target_system := ts; target_component := tc |}.
Definition beat (id : EndpointId) : RouterFrame :=
  {| rf_endpoint_id := id; rf_frame := [1]; rf_header := hdr (NodeId_new 7 1) None None |}.
Definition command (id : EndpointId) : RouterFrame :=
  {| rf_endpoint_id := id; rf_frame := [2; 2]; rf_header := hdr (NodeId_new 255 190) (Some 7) (Some 1) |}.
End Net.

Definition list_iter (m : registry) : list (EndpointId * RegisteredEndpoint) := map_to_list m.
Lemma list_iter_perm m : list_iter m ≡ₚ map_to_list m.
Proof. done. Qed.

Import Net.

Lemma handle_frame_delivers_witness :
  exists r' w' t,
    handle_frame length_hash list_iter true router (beat 1) 5 world = Done (r', w') /\
    touched (groups router) (rs 1) (NodeId_new 7 1) 5 = Some t /\
    delivered_by router r' (beat 1) "link" (ep 1) (LearnTable_len t) world w'.
Proof.
  destruct (handle_frame_delivers length_hash list_iter true list_iter_perm router (beat 1) 5 world (ep 1) (rs 1)
    router_ok router_owned) as (r' & w' & t & Hh & Ht & _ & _ & _ & _ & Hd); [vm_compute; reflexivity..|].
  exists r', w', t. split; [exact Hh|]. split; [exact Ht|exact Hd].
Defined.

Lemma unroutable_frame_dropped_witness :
  exists r' w', handle_frame length_hash list_iter true router (beat 4) 5 world = Done (r', w') /\ w_queues w' = w_queues world.
Proof.
  destruct (unroutable_frame_dropped length_hash list_iter true router (beat 4) 5 world)
    as (r' & w' & Hh & _ & _ & _ & _ & Hq & _); [vm_compute; exact I|].
  exists r', w'. split; assumption.
Defined.

Lemma no_echo_to_source_or_group_witness :
  exists r' w', handle_frame length_hash list_iter true router (beat 5) 5 world = Done (r', w') /\
    w_queues w' !! 6%nat = w_queues world !! 6%nat.
Proof.
  apply (no_echo_to_source_or_group length_hash list_iter true list_iter_perm router (beat 5) 5 world
    (ep 5) (rs 5) 6 (ep 6) (rs 6) router_ok router_owned); try (vm_compute; reflexivity).
  right. split_and!; vm_compute; [reflexivity | reflexivity | discriminate].
Defined.

Lemma sniffer_sees_every_frame_witness :
  exists r' w', handle_frame length_hash list_iter true router (command 1) 5 world = Done (r', w') /\
    w_queues w' !! 3%nat = (fun q => (aq_force_push q [2; 2]).2) <$> w_queues world !! 3%nat.
Proof.
  apply (sniffer_sees_every_frame length_hash list_iter true list_iter_perm router (command 1) 5 world
    (ep 1) (rs 1) 3 (ep 3) (rs 3) router_ok router_owned); try (vm_compute; reflexivity); vm_compute; discriminate.
Defined.

Lemma reply_routed_back_witness :
  exists r1 w1 r2 w2,
    handle_frame length_hash list_iter true router (beat 1) 5 world = Done (r1, w1) /\
    handle_frame length_hash list_iter true r1 (command 2) 6 w1 = Done (r2, w2) /\
    w_queues w2 !! 1%nat = (fun q => (aq_force_push q [2; 2]).2) <$> w_queues w1 !! 1%nat.
Proof.
  apply (reply_routed_back length_hash list_iter true list_iter_perm router (beat 1) 5 world (ep 1) (rs 1)
    (command 2) 6 (ep 2) (rs 2) router_ok router_owned); try (vm_compute; reflexivity).
  - vm_compute; discriminate.
  - split; [vm_compute; reflexivity|right; right; vm_compute; reflexivity].
  - apply passes_out_filter_spec. vm_compute. reflexivity.
Defined.

Definition hello : EndpointEvent := EndpointAdded 1 "a" 1 (Some (link 1 false None)).

(** The announcement and the frame of an endpoint are both queued when the router polls the
    event channel: the endpoint is registered before the frame is taken. *)
Definition registered : Sys :=
  {| sys_run := set_task (sys_run (sys_init chan 100 16 world))
       (handle_event (run_router (sys_run (sys_init chan 100 16 world))) hello world).1 world [] [beat 1] PollFrames;
     sys_announced := {[1]} ∪ ∅; sys_retired := ∅; sys_seen := {[1]} ∪ ∅ |}.

Lemma registered_reachable : rtc (sys_step length_hash list_iter true) (sys_init chan 100 16 world) registered.
Proof.
  eapply rtc_l; [exact (step_event length_hash list_iter true _ hello _ _ _)|].
  eapply rtc_l; [apply (step_frame _ _ _ _ (beat 1)); simpl; set_solver|].
  do 3 (eapply rtc_l; [apply (step_turn _ _ _ 0); reflexivity|]).
  apply rtc_once. apply (step_turn _ _ _ 0). reflexivity.
Qed.

(** Both arrive between the poll of the events and the poll of the frames. *)
Definition overtaken : Sys :=
  {| sys_run := send_frame_to_router (send_event
       (set_task (sys_run (sys_init chan 100 16 world)) (run_router (sys_run (sys_init chan 100 16 world))) world [] [] PollFrames)
       hello) (beat 1);
     sys_announced := {[1]} ∪ ∅; sys_retired := ∅; sys_seen := ∅ |}.

Lemma overtaken_reachable : rtc (sys_step length_hash list_iter true) (sys_init chan 100 16 world) overtaken.
Proof.
  do 2 (eapply rtc_l; [apply (step_turn _ _ _ 0); reflexivity|]).
  eapply rtc_l; [exact (step_event length_hash list_iter true _ hello _ _ _)|].
  apply rtc_once. apply step_frame. simpl. set_solver.
Qed.

(** The select does not guarantee that an announcement is handled before a frame sent after
    it: the router can take the frame first, and drops it. *)
Theorem frame_can_overtake_registration :
  exists y s', rtc (sys_step length_hash list_iter true) (sys_init chan 100 16 world) y /\
    run_inner_turn length_hash list_iter true 9 (sys_run y) = Some s' /\
    run_events (sys_run y) = [hello] /\ run_frames (sys_run y) = [beat 1] /\
    run_frames s' = [] /\ routing (run_router s') = ∅ /\ run_world s' = run_world (sys_run y).
Proof.
  exists overtaken, (set_task (sys_run overtaken) (run_router (sys_run overtaken)) world [hello] [] Running).
  split; [apply overtaken_reachable|]. split_and!; reflexivity.
Qed.

Lemma router_task_never_panics_witness : run_phase (sys_run registered) <> Crashed.
Proof.
  apply (proj1 (router_task_never_panics length_hash list_iter true list_iter_perm chan 100 16 world registered registered_reachable)).
Defined.

Lemma frame_overtakes_only_within_turn_witness :
  exists s', run_inner_turn length_hash list_iter true 9 (sys_run overtaken) = Some s' /\
    (1 ∈ sys_retired overtaken \/ is_Some (routing (run_router (sys_run overtaken)) !! 1) \/
     ((1 ∉ sys_seen overtaken) /\
      (exists e, e ∈ run_events (sys_run overtaken) /\ adds e = true /\ event_id e = 1) /\
      run_router s' = run_router (sys_run overtaken) /\ run_world s' = run_world (sys_run overtaken))).
Proof.
  exists (set_task (sys_run overtaken) (run_router (sys_run overtaken)) world [hello] [] Running). split; [reflexivity|].
  exact (frame_overtakes_only_within_turn length_hash list_iter true list_iter_perm chan 100 16 world overtaken 9
    (beat 1) _ overtaken_reachable eq_refl eq_refl).
Defined.

Lemma group_members_exact_witness :
  members_of (groups (handle_event router0 (PeerAdded 4 5 "udps/x" 5 (link 5 false (Some "g"%string))) world).1) "g" = 1%nat.
Proof.
  rewrite (proj1 (group_members_exact length_hash list_iter true chan 100 16
    (handle_event router0 (PeerAdded 4 5 "udps/x" 5 (link 5 false (Some "g"%string))) world).1 "g"
    (rtc_once _ _ (fs_event length_hash list_iter true router0
       (PeerAdded 4 5 "udps/x" 5 (link 5 false (Some "g"%string))) world eq_refl)))).
  vm_compute. reflexivity.
Defined.
Lemma shutdown_sweep_finalizes_witness :
  routing (shutdown_sweep list_iter router world).1 = ∅.
Proof.
  pose proof (shutdown_sweep_finalizes list_iter list_iter_perm router world) as H.
  destruct (shutdown_sweep list_iter router world) as [r' w'].
  cbv zeta in H. destruct (offer_all (stats_event_tx router) (Finalize <$> (list_iter (routing router)).*1)) as [answers tx].
  exact (proj1 H).
Defined.
