(* ===== verification/RustStr.v ===== *)
(** * Rust's [str]: the operations the parsers use

    A [str] is its UTF-8 bytes, a Rocq [string].  Splitting and searching are at ASCII
    characters, whose byte never occurs inside another character's encoding. *)

From Stdlib Require Import Ascii.
From S2P Require Import Prelude.
#[local] Open Scope string_scope.
#[local] Open Scope Z_scope.

Abbreviation concat_str := String.append.
#[global] Arguments String.append : simpl nomatch.
Infix "++s" := String.append (right associativity, at level 60) : rust_scope.

Definition byte_val (c : ascii) : Z := Z.of_N (N_of_ascii c).

Fixpoint str_rev_onto (s acc : string) : string :=
  match s with
  | EmptyString => acc
  | String c s' => str_rev_onto s' (String c acc)
  end.
Definition str_rev (s : string) : string := str_rev_onto s "".

(** ** Searching and splitting at a character *)

(** [s.contains(c)] *)
Fixpoint contains_char (c : ascii) (s : string) : bool :=
  match s with
  | EmptyString => false
  | String d s' => Ascii.eqb d c || contains_char c s'
  end.

(** [s.split_once(c)]: at the first occurrence. *)
Fixpoint split_once (c : ascii) (s : string) : option (string * string) :=
  match s with
  | EmptyString => None
  | String d s' =>
      if Ascii.eqb d c then Some ("", s')
      else match split_once c s' with
           | Some (a, b) => Some (String d a, b)
           | None => None
           end
  end.

(** [s.rsplit_once(c)]: at the last occurrence. *)
Fixpoint rsplit_once (c : ascii) (s : string) : option (string * string) :=
  match s with
  | EmptyString => None
  | String d s' =>
      match rsplit_once c s' with
      | Some (a, b) => Some (String d a, b)
      | None => if Ascii.eqb d c then Some ("", s') else None
      end
  end.

(** [s.find(c)] *)
Fixpoint find_char (c : ascii) (s : string) : option nat :=
  match s with
  | EmptyString => None
  | String d s' => if Ascii.eqb d c then Some 0%nat else S <$> find_char c s'
  end.

(** [s.rfind(c)] *)
Fixpoint rfind_char (c : ascii) (s : string) : option nat :=
  match s with
  | EmptyString => None
  | String d s' =>
      match rfind_char c s' with
      | Some i => Some (S i)
      | None => if Ascii.eqb d c then Some 0%nat else None
      end
  end.

(** [s.split(c)], collected: always at least one piece. *)
Fixpoint split_char (c : ascii) (s : string) : list string :=
  match s with
  | EmptyString => [""]
  | String d s' =>
      if Ascii.eqb d c then "" :: split_char c s'
      else match split_char c s' with
           | piece :: rest => String d piece :: rest
           | [] => [String d ""]
           end
  end.

(** [pieces.join(c)] *)
Fixpoint join_char (c : ascii) (l : list string) : string :=
  match l with
  | [] => ""
  | [s] => s
  | s :: rest => s ++s String c (join_char c rest)
  end.

(** [&s[..n]] and [&s[n..]] at a character boundary in range. *)
Fixpoint str_take (n : nat) (s : string) : string :=
  match n, s with
  | S n', String c s' => String c (str_take n' s')
  | _, _ => ""
  end.
Fixpoint str_drop (n : nat) (s : string) : string :=
  match n, s with
  | S n', String c s' => str_drop n' s'
  | _, _ => s
  end.

(** [s.strip_prefix(c)] *)
Definition strip_prefix_char (c : ascii) (s : string) : option string :=
  match s with
  | String d s' => if Ascii.eqb d c then Some s' else None
  | EmptyString => None
  end.

Definition str_is_empty (s : string) : bool :=
  match s with EmptyString => true | String _ _ => false end.

Fixpoint str_forallb (p : ascii -> bool) (s : string) : bool :=
  match s with
  | EmptyString => true
  | String c s' => p c && str_forallb p s'
  end.

Fixpoint str_map (f : ascii -> ascii) (s : string) : string :=
  match s with
  | EmptyString => ""
  | String c s' => String (f c) (str_map f s')
  end.

(** ** Character classes *)

Definition is_ascii_digit (c : ascii) : bool := (48 <=? byte_val c) && (byte_val c <=? 57).
Definition is_ascii_upper (c : ascii) : bool := (65 <=? byte_val c) && (byte_val c <=? 90).
Definition is_ascii_lower (c : ascii) : bool := (97 <=? byte_val c) && (byte_val c <=? 122).
Definition is_ascii_alphanumeric (c : ascii) : bool :=
  is_ascii_digit c || is_ascii_upper c || is_ascii_lower c.

Definition ascii_of_Z (z : Z) : ascii := ascii_of_N (Z.to_N z).
Definition to_lower_char (c : ascii) : ascii := if is_ascii_upper c then ascii_of_Z (byte_val c + 32) else c.

(** [s.to_ascii_lowercase()] *)
Definition to_ascii_lowercase (s : string) : string := str_map to_lower_char s.

(** ** [trim]

    White space is Unicode's [White_Space]; [ws_len] is the number of bytes of the white
    space character at the head, 0 if there is none. *)

Definition byte_of (s : string) (i : nat) : Z :=
  match String.get i s with Some c => byte_val c | None => -1 end.

Definition ws_len (s : string) : nat :=
  let a := byte_of s 0 in
  let b := byte_of s 1 in
  let c := byte_of s 2 in
  if ((9 <=? a) && (a <=? 13)) || (a =? 32) then 1
  else if (a =? 0xC2) && ((b =? 0x85) || (b =? 0xA0)) then 2
  else if (a =? 0xE1) && (b =? 0x9A) && (c =? 0x80) then 3
  else if (a =? 0xE2) && (b =? 0x80) && (((0x80 <=? c) && (c <=? 0x8A)) || (c =? 0xA8) || (c =? 0xA9) || (c =? 0xAF)) then 3
  else if (a =? 0xE2) && (b =? 0x81) && (c =? 0x9F) then 3
  else if (a =? 0xE3) && (b =? 0x80) && (c =? 0x80) then 3
  else 0.

(** The same at the tail, on the reversed bytes. *)
Definition ws_len_rev (s : string) : nat :=
  let c := byte_of s 0 in
  let b := byte_of s 1 in
  let a := byte_of s 2 in
  if ((9 <=? c) && (c <=? 13)) || (c =? 32) then 1
  else if (b =? 0xC2) && ((c =? 0x85) || (c =? 0xA0)) then 2
  else if (a =? 0xE1) && (b =? 0x9A) && (c =? 0x80) then 3
  else if (a =? 0xE2) && (b =? 0x80) && (((0x80 <=? c) && (c <=? 0x8A)) || (c =? 0xA8) || (c =? 0xA9) || (c =? 0xAF)) then 3
  else if (a =? 0xE2) && (b =? 0x81) && (c =? 0x9F) then 3
  else if (a =? 0xE3) && (b =? 0x80) && (c =? 0x80) then 3
  else 0.

Fixpoint trim_with (len : string -> nat) (fuel : nat) (s : string) : string :=
  match fuel with
  | O => s
  | S fuel' => match len s with O => s | n => trim_with len fuel' (str_drop n s) end
  end.

(** [s.trim()] *)
Definition trim (s : string) : string :=
  let s := trim_with ws_len (String.length s) s in
  str_rev (trim_with ws_len_rev (String.length s) (str_rev s)).

(** ** Numbers *)

Definition digit_val (c : ascii) : option Z :=
  if is_ascii_digit c then Some (byte_val c - 48) else None.

(** The digits of [from_str_radix]: [None] on an invalid digit or on overflow of [max]. *)
Fixpoint parse_digits (max acc : Z) (s : string) : option Z :=
  match s with
  | EmptyString => Some acc
  | String c s' =>
      match digit_val c with
      | None => None
      | Some d => let acc := acc * 10 + d in if max <? acc then None else parse_digits max acc s'
      end
  end.

(** [s.parse::<uN>()] with [uN::MAX = max]: a leading [+] is accepted, nothing else. *)
Definition parse_uint (max : Z) (s : string) : option Z :=
  match s with
  | EmptyString => None
  | String c s' =>
      if Ascii.eqb c "+" then match s' with EmptyString => None | _ => parse_digits max 0 s' end
      else parse_digits max 0 s
  end.

(** [n.to_string()] of an unsigned integer. *)
Fixpoint show_digits (fuel : nat) (n : Z) (acc : string) : string :=
  match fuel with
  | O => acc
  | S fuel' =>
      let acc := String (ascii_of_Z (48 + n mod 10)) acc in
      if n <? 10 then acc else show_digits fuel' (n / 10) acc
  end.
Definition show_uint (n : Z) : string := show_digits (S (Z.to_nat (Z.log2_up (n + 1)))) n "".

(** ** Lemmas *)

Lemma append_nil_r s : s ++s "" = s.
Proof. induction s; simpl; congruence. Qed.
Lemma append_assoc a b c : (a ++s b) ++s c = a ++s (b ++s c).
Proof. induction a; simpl; congruence. Qed.

Lemma contains_char_app c a b : contains_char c (a ++s b) = contains_char c a || contains_char c b.
Proof. induction a as [|d a IH]; simpl; [done|]. by rewrite IH, orb_assoc. Qed.

Lemma split_once_app c a b : contains_char c a = false -> split_once c (a ++s String c b) = Some (a, b).
Proof.
  induction a as [|d a IH]; simpl; [by rewrite Ascii.eqb_refl|].
  intros [-> Ha]%orb_false_iff. by rewrite IH.
Qed.

Lemma split_once_None c s : contains_char c s = false -> split_once c s = None.
Proof. induction s as [|d s IH]; simpl; [done|]. intros [-> Hs]%orb_false_iff. by rewrite IH. Qed.

Lemma split_once_Some c s a b :
  split_once c s = Some (a, b) -> s = a ++s String c b /\ contains_char c a = false.
Proof.
  revert a; induction s as [|d s IH]; intros a; simpl; [done|]. destruct (Ascii.eqb d c) eqn:E.
  - apply Ascii.eqb_eq in E as ->. by intros [= <- <-].
  - destruct (split_once c s) as [[a' b']|]; [|done]. intros [= <- <-].
    destruct (IH a' eq_refl) as [-> Hc]. simpl. by rewrite E, Hc.
Qed.

Lemma rsplit_once_None c s : contains_char c s = false -> rsplit_once c s = None.
Proof. induction s as [|d s IH]; simpl; [done|]. intros [E Hs]%orb_false_iff. by rewrite IH, E. Qed.

Lemma rsplit_once_app c a b : contains_char c b = false -> rsplit_once c (a ++s String c b) = Some (a, b).
Proof.
  intros Hb. induction a as [|d a IH]; simpl; [by rewrite rsplit_once_None, Ascii.eqb_refl|]. by rewrite IH.
Qed.

Lemma rsplit_once_Some c s a b :
  rsplit_once c s = Some (a, b) -> s = a ++s String c b /\ contains_char c b = false.
Proof.
  revert a b; induction s as [|d s IH]; intros a b; simpl; [done|].
  destruct (rsplit_once c s) as [[a' b']|] eqn:E.
  - intros [= <- <-]. destruct (IH a' b' eq_refl) as [-> ?]. done.
  - destruct (Ascii.eqb d c) eqn:Ed; [|done]. apply Ascii.eqb_eq in Ed as ->. intros [= <- <-].
    split; [done|]. clear IH. revert E. induction s as [|e s IHs]; simpl; [done|].
    destruct (rsplit_once c s) as [[]|]; [done|]. destruct (Ascii.eqb e c); [done|]. intros _. simpl. auto.
Qed.

Lemma split_char_nonempty c s : split_char c s <> [].
Proof. destruct s as [|d s]; simpl; [done|]. repeat case_match; done. Qed.

Lemma split_char_none c s : contains_char c s = false -> split_char c s = [s].
Proof. induction s as [|d s IH]; simpl; [done|]. intros [-> Hs]%orb_false_iff. by rewrite IH. Qed.

Lemma split_char_app c a b : contains_char c a = false -> split_char c (a ++s String c b) = a :: split_char c b.
Proof.
  induction a as [|d a IH]; simpl; [by rewrite Ascii.eqb_refl|]. intros [-> Ha]%orb_false_iff. by rewrite IH.
Qed.

(** Splitting undoes joining. *)
Lemma split_join c l :
  l <> [] -> Forall (fun s => contains_char c s = false) l -> split_char c (join_char c l) = l.
Proof.
  intros Hne HF. induction HF as [|s l Hs HF IH]; [done|]. destruct l as [|s' l].
  - by apply split_char_none.
  - change (join_char c (s :: s' :: l)) with (s ++s String c (join_char c (s' :: l))).
    rewrite split_char_app by done. f_equal. by apply IH.
Qed.

(** ** Decimal round trip *)

Lemma byte_val_ascii_of_Z z : 0 <= z < 256 -> byte_val (ascii_of_Z z) = z.
Proof. intros Hz. unfold byte_val, ascii_of_Z. rewrite N_ascii_embedding by lia. lia. Qed.

Lemma digit_val_show d : 0 <= d < 10 -> digit_val (ascii_of_Z (48 + d)) = Some d.
Proof.
  intros Hd. unfold digit_val, is_ascii_digit. rewrite byte_val_ascii_of_Z by lia.
  rewrite (proj2 (Z.leb_le 48 (48 + d))), (proj2 (Z.leb_le (48 + d) 57)) by lia. simpl. f_equal. lia.
Qed.

Lemma show_digits_parse fuel n acc max :
  0 <= n -> n < 10 ^ Z.of_nat fuel -> (0 < fuel)%nat -> n <= max ->
  parse_digits max 0 (show_digits fuel n acc) = parse_digits max n acc.
Proof.
  intros Hn Hlt Hf Hmax. revert n acc Hn Hlt Hmax.
  induction fuel as [|fuel IH]; intros n acc Hn Hlt Hmax; [lia|]. cbn [show_digits].
  assert (Hmod : 0 <= n mod 10 < 10) by (apply Z.mod_pos_bound; lia).
  assert (Hdiv : n = 10 * (n / 10) + n mod 10) by (apply Z.div_mod; lia).
  assert (Hstep : forall a, a * 10 + n mod 10 <= max ->
    parse_digits max a (String (ascii_of_Z (48 + n mod 10)) acc) = parse_digits max (a * 10 + n mod 10) acc).
  { intros a Ha. cbn [parse_digits]. rewrite digit_val_show by done. by rewrite (proj2 (Z.ltb_ge _ _)). }
  destruct (Z.ltb_spec n 10) as [Hs|Hs].
  - assert (Hm : n mod 10 = n) by (apply Z.mod_small; lia). rewrite Hstep by lia. by rewrite Hm.
  - destruct fuel as [|fuel]; [simpl in Hlt; lia|].
    rewrite IH; [|lia|apply Z.div_pos; lia| |lia].
    + rewrite Hstep by lia. f_equal. lia.
    + apply Z.div_lt_upper_bound; [lia|]. rewrite Nat2Z.inj_succ, Z.pow_succ_r in Hlt by lia. lia.
Qed.

Lemma show_uint_fuel n : 0 <= n -> n < 10 ^ Z.of_nat (S (Z.to_nat (Z.log2_up (n + 1)))).
Proof.
  intros Hn. pose proof (Z.log2_up_nonneg (n + 1)) as Hl.
  rewrite Nat2Z.inj_succ, Z2Nat.id, Z.pow_succ_r by done.
  assert (n < 2 ^ Z.log2_up (n + 1)) by (pose proof (Z.log2_log2_up_spec (n + 1)); lia).
  assert (2 ^ Z.log2_up (n + 1) <= 10 ^ Z.log2_up (n + 1)) by (apply Z.pow_le_mono_l; lia). lia.
Qed.

Lemma show_digit_is_digit n : is_ascii_digit (ascii_of_Z (48 + n mod 10)) = true.
Proof.
  pose proof (Z.mod_pos_bound n 10 ltac:(lia)). pose proof (digit_val_show (n mod 10) ltac:(lia)) as Hd.
  unfold digit_val in Hd. by destruct (is_ascii_digit _).
Qed.

(** The first character printed is a digit, never a sign. *)
Lemma show_digits_head fuel n acc :
  0 <= n -> exists c s, show_digits (S fuel) n acc = String c s /\ is_ascii_digit c = true.
Proof.
  revert n acc; induction fuel as [|fuel IH]; intros n acc Hn; cbn [show_digits].
  - destruct (n <? 10); eauto using show_digit_is_digit.
  - destruct (n <? 10); [eauto using show_digit_is_digit|]. apply IH. apply Z.div_pos; lia.
Qed.

(** Parsing undoes printing. *)
Lemma parse_show_uint max n : 0 <= n -> n <= max -> parse_uint max (show_uint n) = Some n.
Proof.
  intros Hn Hm. unfold show_uint. set (fuel := Z.to_nat (Z.log2_up (n + 1))).
  pose proof (show_digits_parse (S fuel) n "" max Hn (show_uint_fuel n Hn) ltac:(lia) Hm) as Hp.
  destruct (show_digits_head fuel n "" Hn) as (c & s & E & Hc). rewrite E in *. unfold parse_uint.
  destruct (Ascii.eqb c "+") eqn:Eq; [|done]. apply Ascii.eqb_eq in Eq as ->. done.
Qed.

(** What [parse] returns is in range. *)
Lemma parse_digits_range max acc s n : 0 <= acc <= max -> parse_digits max acc s = Some n -> 0 <= n <= max.
Proof.
  revert acc; induction s as [|c s IH]; intros acc Hacc; simpl; [by intros [= <-]|].
  unfold digit_val, is_ascii_digit. destruct ((48 <=? byte_val c) && (byte_val c <=? 57)) eqn:E; [|done]. bool_hyps.
  destruct (Z.ltb_spec max (acc * 10 + (byte_val c - 48))); [done|]. apply IH. lia.
Qed.

Lemma parse_uint_range max s n : 0 <= max -> parse_uint max s = Some n -> 0 <= n <= max.
Proof.
  intros Hm. destruct s as [|c s]; [done|]. unfold parse_uint. repeat case_match; try done; by apply parse_digits_range; lia.
Qed.

Definition all_digits (s : string) : bool := str_forallb is_ascii_digit s.

Lemma show_digits_all fuel n acc : 0 <= n -> all_digits acc = true -> all_digits (show_digits fuel n acc) = true.
Proof.
  revert n acc; induction fuel as [|fuel IH]; intros n acc Hn Ha; cbn [show_digits]; [done|].
  assert (Hd : all_digits (String (ascii_of_Z (48 + n mod 10)) acc) = true).
  { unfold all_digits. simpl. apply andb_true_iff. split; [|done]. apply show_digit_is_digit. }
  destruct (n <? 10); [done|]. apply IH; [apply Z.div_pos; lia|done].
Qed.

Lemma show_uint_all n : 0 <= n -> all_digits (show_uint n) = true.
Proof. intros Hn. by apply show_digits_all. Qed.

Lemma str_forallb_app p a b : str_forallb p (a ++s b) = str_forallb p a && str_forallb p b.
Proof. induction a as [|c a IH]; simpl; [done|]. by rewrite IH, andb_assoc. Qed.

Lemma str_forallb_impl (p q : ascii -> bool) s :
  (forall c, p c = true -> q c = true) -> str_forallb p s = true -> str_forallb q s = true.
Proof. intros Hpq. induction s as [|c s IH]; simpl; [done|]. intros [? ?]%andb_prop. by rewrite Hpq, IH. Qed.

Lemma str_forallb_contains p c s : str_forallb p s = true -> p c = false -> contains_char c s = false.
Proof.
  intros Hs Hc. induction s as [|d s IH]; simpl in *; [done|]. apply andb_prop in Hs as [Hd Hs].
  apply orb_false_iff. split; [|auto]. apply Ascii.eqb_neq. congruence.
Qed.

(** Text without white space at either end is its own [trim]. *)
Lemma trim_with_id len fuel s : len s = 0%nat -> trim_with len fuel s = s.
Proof. destruct fuel; simpl; [done|]. by intros ->. Qed.

Lemma str_rev_onto_app s acc : str_rev_onto s acc = str_rev s ++s acc.
Proof.
  unfold str_rev. revert acc. induction s as [|c s IH]; intros acc; simpl; [done|].
  rewrite IH, (IH (String c "")), append_assoc. done.
Qed.
Lemma str_rev_cons c s : str_rev (String c s) = str_rev s ++s String c "".
Proof. unfold str_rev at 1. simpl. apply str_rev_onto_app. Qed.
Lemma str_rev_app a b : str_rev (a ++s b) = str_rev b ++s str_rev a.
Proof.
  induction a as [|c a IH]; simpl; [by rewrite append_nil_r|]. by rewrite !str_rev_cons, IH, append_assoc.
Qed.
Lemma str_rev_involutive s : str_rev (str_rev s) = s.
Proof. induction s as [|c s IH]; [done|]. rewrite str_rev_cons, str_rev_app, IH. done. Qed.

Lemma trim_id s : ws_len s = 0%nat -> ws_len_rev (str_rev s) = 0%nat -> trim s = s.
Proof.
  intros H1 H2. unfold trim. rewrite (trim_with_id _ _ s) by done. rewrite trim_with_id by done. apply str_rev_involutive.
Qed.

(** Printable ASCII without a space is not white space, at either end. *)
Definition is_ascii_graphic (c : ascii) : bool := (33 <=? byte_val c) && (byte_val c <=? 126).

Lemma str_forallb_rev p s : str_forallb p (str_rev s) = str_forallb p s.
Proof. induction s as [|c s IH]; [done|]. rewrite str_rev_cons, str_forallb_app, IH. simpl. rewrite andb_true_r. apply andb_comm. Qed.

Lemma byte_of_graphic s i : str_forallb is_ascii_graphic s = true -> 33 <= byte_of s i <= 126 \/ byte_of s i = -1.
Proof.
  unfold byte_of. revert i; induction s as [|c s IH]; intros i Hs; simpl in *; [auto|].
  apply andb_prop in Hs as [Hc Hs]. destruct i; [|by apply IH]. unfold is_ascii_graphic in Hc. bool_hyps. lia.
Qed.

Lemma ws_len_graphic s : str_forallb is_ascii_graphic s = true -> ws_len s = 0%nat /\ ws_len_rev s = 0%nat.
Proof.
  intros Hs. pose proof (byte_of_graphic s 0 Hs). pose proof (byte_of_graphic s 1 Hs). pose proof (byte_of_graphic s 2 Hs).
  unfold ws_len, ws_len_rev. generalize dependent (byte_of s 0). generalize dependent (byte_of s 1).
  generalize dependent (byte_of s 2). intros c Hc b Hb a Ha.
  split; repeat case_match; bool_hyps; try lia;
    repeat match goal with H : (_ || _) = true |- _ => apply orb_true_iff in H as [?|?] end; bool_hyps; lia.
Qed.

Lemma trim_graphic s : str_forallb is_ascii_graphic s = true -> trim s = s.
Proof.
  intros Hs. apply trim_id; [by apply ws_len_graphic|]. apply ws_len_graphic. by rewrite str_forallb_rev.
Qed.
