(* ===== verification/RustNet.v ===== *)
(** * Socket addresses: [std::net] as the parsers and the UDP endpoints use it

    [IpAddr::from_str] is the recursive-descent parser of the standard library; a parser
    takes the remaining text and returns [None] with nothing consumed. *)

From Stdlib Require Import Ascii.
From S2P Require Import Prelude RustStr.
#[local] Open Scope string_scope.
#[local] Open Scope Z_scope.

Inductive IpAddr :=
| V4 (octets : list Z)      (** four octets *)
| V6 (segments : list Z).   (** eight 16-bit segments *)

#[global] Instance IpAddr_eq_dec : EqDecision IpAddr.
Proof. solve_decision. Defined.

#[global] Instance IpAddr_countable : Countable IpAddr.
Proof.
  refine (inj_countable' (fun a => match a with V4 l => inl l | V6 l => inr l end)
    (fun s => match s with inl l => V4 l | inr l => V6 l end) _). by intros [].
Defined.

(** [SocketAddr]; the flow information and the scope id are those of a [SocketAddrV6], and 0 in
    a [SocketAddrV4]. *)
Record SocketAddr := { addr_ip : IpAddr; addr_port : Z; addr_flowinfo : Z; addr_scope_id : Z }.
(** [SocketAddr::new(ip, port)] *)
Definition SocketAddr_new (ip : IpAddr) (port : Z) : SocketAddr :=
  {| addr_ip := ip; addr_port := port; addr_flowinfo := 0; addr_scope_id := 0 |}.

#[global] Instance SocketAddr_eq_dec : EqDecision SocketAddr.
Proof. solve_decision. Defined.
#[global] Instance SocketAddr_countable : Countable SocketAddr.
Proof.
  refine (inj_countable' (fun a => (addr_ip a, addr_port a, addr_flowinfo a, addr_scope_id a))
    (fun '(ip, port, flow, scope) => {| addr_ip := ip; addr_port := port; addr_flowinfo := flow; addr_scope_id := scope |}) _).
  by intros [].
Defined.

(** ** Parsing *)

Definition hex_val (c : ascii) : option Z :=
  if is_ascii_digit c then Some (byte_val c - 48)
  else if (97 <=? byte_val c) && (byte_val c <=? 102) then Some (byte_val c - 87)
  else if (65 <=? byte_val c) && (byte_val c <=? 70) then Some (byte_val c - 55)
  else None.

Definition to_digit (radix : Z) (c : ascii) : option Z :=
  match hex_val c with Some d => if d <? radix then Some d else None | None => None end.

(** [Parser::read_number]: [left] digits may still be read; the value must stay below
    [max]. *)
Fixpoint read_digits (radix max : Z) (left count : nat) (acc : Z) (s : string) {struct s} : option (Z * nat * string) :=
  match s with
  | EmptyString => Some (acc, count, s)
  | String c s' =>
      match to_digit radix c with
      | None => Some (acc, count, s)
      | Some d =>
          let acc := acc * radix + d in
          if max <? acc then None
          else match left with O => None | S left' => read_digits radix max left' (S count) acc s' end
      end
  end.

Definition read_number (radix max : Z) (max_digits : nat) (allow_zero_prefix : bool) (s : string)
  : option (Z * string) :=
  let has_leading_zero := match s with String c _ => Ascii.eqb c "0" | _ => false end in
  match read_digits radix max max_digits 0 0 s with
  | Some (n, count, rest) =>
      if (count =? 0)%nat then None
      else if negb allow_zero_prefix && has_leading_zero && (1 <? count)%nat then None
      else Some (n, rest)
  | None => None
  end.

(** [Parser::read_separator]: the separator precedes every item but the first. *)
Definition read_separator {A} (sep : ascii) (index : nat) (inner : string -> option (A * string)) (s : string)
  : option (A * string) :=
  if (index =? 0)%nat then inner s
  else match strip_prefix_char sep s with Some s' => inner s' | None => None end.

Definition read_octet (i : nat) (s : string) : option (Z * string) :=
  read_separator "." i (read_number 10 255 3 false) s.

Definition read_ipv4_addr (s : string) : option (list Z * string) :=
  match read_octet 0 s with
  | Some (a, s) =>
      match read_octet 1 s with
      | Some (b, s) =>
          match read_octet 2 s with
          | Some (c, s) => match read_octet 3 s with Some (d, s) => Some ([a; b; c; d], s) | None => None end
          | None => None
          end
      | None => None
      end
  | None => None
  end.

(** [read_groups] into [limit] slots from slot [i]: the groups read, whether they end in an
    embedded IPv4 address, and the rest. *)
Fixpoint read_groups (slots i : nat) (s : string) : list Z * bool * string :=
  match slots with
  | O => ([], false, s)
  | S slots' =>
      let v4 := if (1 <? slots)%nat then read_separator ":" i read_ipv4_addr s else None in
      match v4 with
      | Some ([a; b; c; d], s) => ([a * 256 + b; c * 256 + d], true, s)
      | _ =>
          match read_separator ":" i (read_number 16 65535 4 true) s with
          | Some (g, s) => let '(gs, v4, s) := read_groups slots' (S i) s in (g :: gs, v4, s)
          | None => ([], false, s)
          end
      end
  end.

Definition read_ipv6_addr (s : string) : option (list Z * string) :=
  let '(head, head_ipv4, s) := read_groups 8 0 s in
  if (length head =? 8)%nat then Some (head, s)
  else if head_ipv4 then None
  else match strip_prefix_char ":" s with
  | None => None
  | Some s =>
      match strip_prefix_char ":" s with
      | None => None
      | Some s =>
          let '(tail, _, s) := read_groups (8 - (length head + 1)) 0 s in
          Some ((head ++ replicate (8 - length head - length tail) 0 ++ tail)%list, s)
      end
  end.

(** [s.parse::<IpAddr>()]: the whole text is one address. *)
Definition parse_ip (s : string) : option IpAddr :=
  match read_ipv4_addr s with
  | Some (octets, rest) => if str_is_empty rest then Some (V4 octets) else None
  | None =>
      match read_ipv6_addr s with
      | Some (segments, rest) => if str_is_empty rest then Some (V6 segments) else None
      | None => None
      end
  end.

(** ** [Display] *)

Definition hex_char (d : Z) : ascii := if d <? 10 then ascii_of_Z (48 + d) else ascii_of_Z (87 + d).

Fixpoint show_hex_digits (fuel : nat) (n : Z) (acc : string) : string :=
  match fuel with
  | O => acc
  | S fuel' =>
      let acc := String (hex_char (n mod 16)) acc in
      if n <? 16 then acc else show_hex_digits fuel' (n / 16) acc
  end.
(** [{:x}] of a [u16] *)
Definition show_hex (n : Z) : string := show_hex_digits 4 n "".

Definition show_ipv4 (octets : list Z) : string := join_char "." (map show_uint octets).

(** The longest run of zero segments, the first of the longest. *)
Fixpoint zero_run (i : nat) (segments : list Z) (current longest : nat * nat) : nat * nat :=
  match segments with
  | [] => longest
  | seg :: rest =>
      if seg =? 0 then
        let current := (if (current.2 =? 0)%nat then i else current.1, S current.2) in
        zero_run (S i) rest current (if (longest.2 <? current.2)%nat then current else longest)
      else zero_run (S i) rest (0%nat, 0%nat) longest
  end.

Definition fmt_subslice (chunk : list Z) : string := join_char ":" (map show_hex chunk).

(** [Ipv6Addr::to_ipv4_mapped] *)
Definition to_ipv4_mapped (segments : list Z) : option (list Z) :=
  match segments with
  | [a; b; c; d; e; f; ab; cd] =>
      if (a =? 0) && (b =? 0) && (c =? 0) && (d =? 0) && (e =? 0) && (f =? 0xFFFF)
      then Some [ab / 256; ab mod 256; cd / 256; cd mod 256] else None
  | _ => None
  end.

Definition show_ipv6 (segments : list Z) : string :=
  match to_ipv4_mapped segments with
  | Some octets => "::ffff:" ++s show_ipv4 octets
  | None =>
      let '(start, len) := zero_run 0 segments (0%nat, 0%nat) (0%nat, 0%nat) in
      if (1 <? len)%nat
      then fmt_subslice (take start segments) ++s "::" ++s fmt_subslice (drop (start + len) segments)
      else fmt_subslice segments
  end.

(** [ip.to_string()] *)
Definition show_ip (ip : IpAddr) : string :=
  match ip with V4 octets => show_ipv4 octets | V6 segments => show_ipv6 segments end.

(** [addr.to_string()], which is also [SocketAddr]'s [Debug]. *)
Definition SocketAddr_to_string (a : SocketAddr) : string :=
  match addr_ip a with
  | V4 _ => show_ip (addr_ip a) ++s ":" ++s show_uint (addr_port a)
  | V6 _ =>
      "[" ++s show_ip (addr_ip a) ++s (if addr_scope_id a =? 0 then "" else "%" ++s show_uint (addr_scope_id a))
        ++s "]:" ++s show_uint (addr_port a)
  end.

(** [IpAddr::to_canonical]: an IPv4-mapped IPv6 address is the IPv4 address it maps. *)
Definition to_canonical (ip : IpAddr) : IpAddr :=
  match ip with
  | V6 segments => match to_ipv4_mapped segments with Some octets => V4 octets | None => ip end
  | V4 _ => ip
  end.

(** ** Examples of the standard library's behaviour *)

Example parse_ip_v4 : parse_ip "192.168.1.5" = Some (V4 [192; 168; 1; 5]).
Proof. reflexivity. Qed.
Example parse_ip_leading_zero : parse_ip "192.168.01.5" = None.
Proof. reflexivity. Qed.
Example parse_ip_octet_overflow : parse_ip "256.0.0.1" = None.
Proof. reflexivity. Qed.
Example parse_ip_any : parse_ip "::" = Some (V6 [0; 0; 0; 0; 0; 0; 0; 0]).
Proof. reflexivity. Qed.
Example parse_ip_loopback : parse_ip "::1" = Some (V6 [0; 0; 0; 0; 0; 0; 0; 1]).
Proof. reflexivity. Qed.
Example parse_ip_mapped : parse_ip "::ffff:10.0.0.1" = Some (V6 [0; 0; 0; 0; 0; 0xFFFF; 0x0A00; 1]).
Proof. reflexivity. Qed.
Example parse_ip_hostname : parse_ip "gcs.example" = None.
Proof. reflexivity. Qed.
Example show_ip_v6 : show_ip (V6 [0xFE80; 0; 0; 1; 0; 0; 0; 0xAB]) = "fe80:0:0:1::ab".
Proof. reflexivity. Qed.
Example show_ip_mapped : show_ip (V6 [0; 0; 0; 0; 0; 0xFFFF; 0x0A00; 1]) = "::ffff:10.0.0.1".
Proof. reflexivity. Qed.

(** ** Well-formed addresses *)

Definition ip_ok (ip : IpAddr) : Prop :=
  match ip with
  | V4 octets => length octets = 4%nat /\ Forall (fun o => 0 <= o <= 255) octets
  | V6 segments => length segments = 8%nat /\ Forall (fun g => 0 <= g <= 65535) segments
  end.

Definition addr_ok (a : SocketAddr) : Prop :=
  ip_ok (addr_ip a) /\ 0 <= addr_port a <= u16_max /\ 0 <= addr_flowinfo a <= u32_max /\ 0 <= addr_scope_id a <= u32_max /\
  match addr_ip a with V4 _ => addr_flowinfo a = 0 /\ addr_scope_id a = 0 | V6 _ => True end.

Lemma to_digit_nonneg radix c d : to_digit radix c = Some d -> 0 <= d.
Proof.
  unfold to_digit, hex_val, is_ascii_digit. destruct ((48 <=? byte_val c) && _) eqn:E1; [|destruct ((97 <=? byte_val c) && _) eqn:E2; [|destruct ((65 <=? byte_val c) && _) eqn:E3; [|done]]];
    case_match; intros [= <-]; bool_hyps; lia.
Qed.

Lemma read_digits_bounds radix max left count acc s n c rest :
  0 <= radix -> 0 <= acc <= max -> read_digits radix max left count acc s = Some (n, c, rest) -> 0 <= n <= max.
Proof.
  intros Hr. revert left count acc; induction s as [|d s IH]; intros left count acc Ha; simpl; [by intros [= <- _ _]|].
  destruct (to_digit radix d) as [v|] eqn:Ev; [|by intros [= <- _ _]]. apply to_digit_nonneg in Ev.
  destruct (Z.ltb_spec max (acc * radix + v)); [done|]. destruct left as [|left]; [done|]. apply IH. nia.
Qed.

Lemma read_number_bounds radix max k z s n rest : 0 <= radix -> 0 <= max -> read_number radix max k z s = Some (n, rest) -> 0 <= n <= max.
Proof.
  intros Hr Hm. unfold read_number. destruct (read_digits radix max k 0 0 s) as [[[m c] r]|] eqn:E; [|done].
  apply read_digits_bounds in E; [|done..]. repeat case_match; try done; by intros [= <- _].
Qed.

(** What a reader returns, a separator in front or not. *)
Lemma read_separator_inv {A} sep i (inner : string -> option (A * string)) s x rest :
  read_separator sep i inner s = Some (x, rest) -> exists s', inner s' = Some (x, rest).
Proof. unfold read_separator. repeat case_match; try done; by eauto. Qed.

Lemma read_octet_bounds i s o rest : read_octet i s = Some (o, rest) -> 0 <= o <= 255.
Proof. intros (s' & Hn)%read_separator_inv. by eapply read_number_bounds in Hn. Qed.

Lemma read_ipv4_ok s octets rest : read_ipv4_addr s = Some (octets, rest) -> ip_ok (V4 octets).
Proof.
  unfold read_ipv4_addr. repeat case_match; try done. intros [= <- _]. split; [done|]. repeat constructor; eauto using read_octet_bounds; eapply read_octet_bounds; eauto.
Qed.

Lemma read_groups_ok slots i s gs v4 rest :
  read_groups slots i s = (gs, v4, rest) -> (length gs <= slots)%nat /\ Forall (fun g => 0 <= g <= 65535) gs.
Proof.
  revert i s gs v4 rest; induction slots as [|slots IH]; intros i s gs v4 rest; [intros [= <- _ _]; by split|].
  cbn [read_groups]. destruct (if (1 <? S slots)%nat then _ else None) as [[octets s']|] eqn:E4.
  - destruct (Nat.ltb_spec 1 (S slots)); [|done]. apply read_separator_inv in E4 as (s1 & H4). apply read_ipv4_ok in H4 as [Hl HF].
    destruct octets as [|a [|b [|c [|d [|]]]]]; try done. intros [= <- _ _]. cbn [length].
    repeat match goal with HF : Forall _ (_ :: _) |- _ => apply Forall_cons in HF as [? HF] end.
    split; [lia|]. repeat constructor; lia.
  - destruct (read_separator ":" i (read_number 16 65535 4 true) s) as [[g s']|] eqn:Eg; [|intros [= <- _ _]; split; [cbn; lia|constructor]].
    apply read_separator_inv in Eg as (s1 & Hg). apply read_number_bounds in Hg; [|done..].
    destruct (read_groups slots (S i) s') as [[gs' v4'] r'] eqn:Er. intros [= <- _ _]. destruct (IH _ _ _ _ _ Er). cbn. split; [lia|by constructor].
Qed.

Lemma read_ipv6_ok s segments rest : read_ipv6_addr s = Some (segments, rest) -> ip_ok (V6 segments).
Proof.
  unfold read_ipv6_addr. destruct (read_groups 8 0 s) as [[head v4] s1] eqn:Eh. apply read_groups_ok in Eh as [Hl HF].
  destruct (Nat.eqb_spec (length head) 8); [intros [= <- _]; by split|]. destruct v4; [done|].
  destruct (strip_prefix_char ":" s1) as [s2|]; [|done]. destruct (strip_prefix_char ":" s2) as [s3|]; [|done].
  destruct (read_groups (8 - (length head + 1)) 0 s3) as [[tail v4'] s4] eqn:Et. apply read_groups_ok in Et as [Hl' HF'].
  intros [= <- _]. split; [rewrite !length_app, length_replicate; lia|].
  apply Forall_app. split; [done|]. apply Forall_app. split; [|done]. by apply Forall_replicate.
Qed.

Lemma parse_ip_ok s ip : parse_ip s = Some ip -> ip_ok ip.
Proof.
  unfold parse_ip. destruct (read_ipv4_addr s) as [[octets rest]|] eqn:E4.
  - case_match; [|done]. intros [= <-]. by eapply read_ipv4_ok.
  - destruct (read_ipv6_addr s) as [[segments rest]|] eqn:E6; [|done]. case_match; [|done]. intros [= <-]. by eapply read_ipv6_ok.
Qed.
