(* ===== verification/FilterParse.v ===== *)
(** * Parsing filter lists and identity flags
    ([src/src/endpoint/filters.rs], [src/src/endpoint/identity_flags.rs],
     [src/src/endpoint/spec/error.rs], the name checks of [src/src/endpoint/spec/parse.rs]) *)

From Stdlib Require Import Ascii.
From S2P Require Import Prelude RustStr Frame Filters TxQueue Identity.
#[local] Open Scope string_scope.
#[local] Open Scope Z_scope.

(** [enum Scheme] of [src/src/endpoint/spec/mod.rs]. *)
Inductive Scheme := Scheme_Serial | Scheme_UdpServer | Scheme_UdpClient | Scheme_TcpServer | Scheme_TcpClient.

#[global] Instance Scheme_eq_dec : EqDecision Scheme.
Proof. solve_decision. Defined.

(** [enum SpecError] *)
Inductive SpecError :=
| MissingScheme (input : string)
| UnknownScheme (scheme : string)
| InvalidName (name : string)
| UnknownQueryKey (scheme : Scheme) (key : string) (suggestion : option string)
| MalformedQuery (reason : string)
| DuplicateQueryKey (key : string)
| MalformedBody (scheme : Scheme) (body reason : string)
| InvalidQueryValue (key reason : string).

(** [fn name_matches_regex(name: &str) -> bool]: [[A-Za-z0-9_-]+] *)
Definition name_char (byte : ascii) : bool :=
  is_ascii_alphanumeric byte || Ascii.eqb byte "_" || Ascii.eqb byte "-".
Definition name_matches_regex (name : string) : bool :=
  negb (str_is_empty name) && str_forallb name_char name.

Definition validate_name (name : string) : result unit SpecError :=
  if negb (name_matches_regex name) then Err (InvalidName name) else Ok tt.

Definition validate_name_value (value key : string) : result unit SpecError :=
  if name_matches_regex value then Ok tt
  else Err (InvalidQueryValue key ("'" ++s value ++s "': must match [A-Za-z0-9_-]+")).

(** [fn sanitize_for_name(text: &str) -> String].  The source maps characters; here each
    byte of a multi-byte character would be one underscore, so continuation bytes
    (10xxxxxx) are dropped and the lead byte gives the character's single underscore. *)
Definition is_continuation (c : ascii) : bool := (128 <=? byte_val c) && (byte_val c <=? 191).
Fixpoint sanitize_for_name (text : string) : string :=
  match text with
  | EmptyString => ""
  | String ch rest =>
      if is_continuation ch then sanitize_for_name rest
      else String (if name_char ch then ch else "_"%char) (sanitize_for_name rest)
  end.

(** [fn parse_range_pair_u32(item, key) -> Result<(u32, u32), SpecError>] *)
Definition parse_range_pair_u32 (item key : string) : result (Z * Z) SpecError :=
  let? (lo, hi) :=
    match split_once "-" item with
    | Some (lo_text, hi_text) =>
        let? lo := ok_or (parse_uint u32_max (trim lo_text))
          (InvalidQueryValue key ("range lower bound '" ++s lo_text ++s "' is not a decimal integer")) in
        let? hi := ok_or (parse_uint u32_max (trim hi_text))
          (InvalidQueryValue key ("range upper bound '" ++s hi_text ++s "' is not a decimal integer")) in
        Ok (lo, hi)
    | None =>
        let? value := ok_or (parse_uint u32_max item)
          (InvalidQueryValue key ("'" ++s item ++s "' is not a decimal integer or 'lo-hi' range")) in
        Ok (value, value)
    end in
  if hi <? lo
  then Err (InvalidQueryValue key ("range " ++s show_uint lo ++s "-" ++s show_uint hi ++s " has lo > hi"))
  else Ok (lo, hi).

(** The loop the three list parsers share: every item is trimmed, must not be empty, and is
    converted; the first error is returned. *)
Fixpoint parse_items {A} (one : string -> result A SpecError) (value key : string) (items : list string)
  : result (list A) SpecError :=
  match items with
  | [] => Ok []
  | item :: rest =>
      let item := trim item in
      if str_is_empty item then Err (InvalidQueryValue key ("empty entry in '" ++s value ++s "'"))
      else
        let? x := one item in
        let? xs := parse_items one value key rest in
        Ok (x :: xs)
  end.

Definition parse_msgid_ranges (value key : string) : result (list MsgIdRange) SpecError :=
  parse_items (fun item =>
    let? (lo, hi) := parse_range_pair_u32 item key in Ok {| mr_lo := lo; mr_hi := hi |})
    value key (split_char "," value).

Definition parse_u8_ranges (value key : string) : result (list U8Range) SpecError :=
  parse_items (fun item =>
    let? (lo, hi) := parse_range_pair_u32 item key in
    if (u8_max <? lo) || (u8_max <? hi)
    then Err (InvalidQueryValue key ("value out of u8 range in '" ++s item ++s "'"))
    else Ok {| ur_lo := wrap 8 lo; ur_hi := wrap 8 hi |})
    value key (split_char "," value).

Definition parse_endpoint_name_list (value key : string) : result (list string) SpecError :=
  parse_items (fun item => let? _ := validate_name_value item key in Ok item) value key (split_char "," value).

(** [Filters::KEYS] *)
Definition Filters_KEYS : list string :=
  ["allow_msgid_in"; "allow_msgid_out"; "allow_src_comp_in"; "allow_src_comp_out"; "allow_src_endpoint_out";
   "allow_src_sys_in"; "allow_src_sys_out"; "block_msgid_in"; "block_msgid_out"; "block_src_comp_in";
   "block_src_comp_out"; "block_src_endpoint_out"; "block_src_sys_in"; "block_src_sys_out"].

Definition msgid_keys : list string := ["allow_msgid_in"; "block_msgid_in"; "allow_msgid_out"; "block_msgid_out"].
Definition u8_keys : list string :=
  ["allow_src_sys_in"; "block_src_sys_in"; "allow_src_sys_out"; "block_src_sys_out";
   "allow_src_comp_in"; "block_src_comp_in"; "allow_src_comp_out"; "block_src_comp_out"].
Definition name_keys : list string := ["allow_src_endpoint_out"; "block_src_endpoint_out"].

Definition mem_str (x : string) (l : list string) : bool := existsb (String.eqb x) l.

(** [self.<key> = v]: the field named by the key, every other field kept. *)
Definition set_filter (key : string) (ms : list MsgIdRange) (us : list U8Range) (ns : list string) (f : Filters) : Filters :=
  let m name old := if String.eqb key name then ms else old in
  let u name old := if String.eqb key name then us else old in
  let n name old := if String.eqb key name then ns else old in
  {| allow_msgid_in := m "allow_msgid_in" (allow_msgid_in f);
     block_msgid_in := m "block_msgid_in" (block_msgid_in f);
     allow_msgid_out := m "allow_msgid_out" (allow_msgid_out f);
     block_msgid_out := m "block_msgid_out" (block_msgid_out f);
     allow_src_sys_in := u "allow_src_sys_in" (allow_src_sys_in f);
     block_src_sys_in := u "block_src_sys_in" (block_src_sys_in f);
     allow_src_sys_out := u "allow_src_sys_out" (allow_src_sys_out f);
     block_src_sys_out := u "block_src_sys_out" (block_src_sys_out f);
     allow_src_comp_in := u "allow_src_comp_in" (allow_src_comp_in f);
     block_src_comp_in := u "block_src_comp_in" (block_src_comp_in f);
     allow_src_comp_out := u "allow_src_comp_out" (allow_src_comp_out f);
     block_src_comp_out := u "block_src_comp_out" (block_src_comp_out f);
     allow_src_endpoint_out := n "allow_src_endpoint_out" (allow_src_endpoint_out f);
     block_src_endpoint_out := n "block_src_endpoint_out" (block_src_endpoint_out f) |}.

(** [fn apply(&mut self, key, value) -> Result<bool, SpecError>] of [Filters]: [stringify!]
    makes the field name the key. *)
Definition Filters_apply (f : Filters) (key value : string) : result (bool * Filters) SpecError :=
  if mem_str key msgid_keys then
    let? ms := parse_msgid_ranges value key in Ok (true, set_filter key ms [] [] f)
  else if mem_str key u8_keys then
    let? us := parse_u8_ranges value key in Ok (true, set_filter key [] us [] f)
  else if mem_str key name_keys then
    let? ns := parse_endpoint_name_list value key in Ok (true, set_filter key [] [] ns f)
  else Ok (false, f).

Definition parse_bool (value key : string) : result bool SpecError :=
  if String.eqb value "true" then Ok true
  else if String.eqb value "false" then Ok false
  else Err (InvalidQueryValue key ("expected 'true' or 'false', got '" ++s value ++s "'")).

(** [IdentityFlags::KEYS] *)
Definition IdentityFlags_KEYS : list string := ["group"; "sniffer"].

(** [fn apply(&mut self, key, value) -> Result<bool, SpecError>] of [IdentityFlags] *)
Definition IdentityFlags_apply (i : IdentityFlags) (key value : string) : result (bool * IdentityFlags) SpecError :=
  let? (handled, fs) := Filters_apply (filters i) key value in
  if handled then Ok (true, {| filters := fs; sniffer := sniffer i; group := group i |})
  else if String.eqb key "sniffer" then
    let? b := parse_bool value "sniffer" in
    Ok (true, {| filters := filters i; sniffer := b; group := group i |})
  else if String.eqb key "group" then
    let? _ := validate_name_value value "group" in
    Ok (true, {| filters := filters i; sniffer := sniffer i; group := Some value |})
  else Ok (false, i).

(** ** Properties *)

(** What a parsed filter list promises to the routing decision: ordered ranges within the
    width of their axis, names of the endpoint-name grammar. *)
Definition filters_wf (f : Filters) : Prop :=
  let msgid_ok := Forall (fun r => 0 <= mr_lo r <= mr_hi r /\ mr_hi r <= u32_max) in
  let u8_ok := Forall (fun r => 0 <= ur_lo r <= ur_hi r /\ ur_hi r <= u8_max) in
  let names_ok := Forall (fun n => name_matches_regex n = true) in
  Forall msgid_ok [allow_msgid_in f; block_msgid_in f; allow_msgid_out f; block_msgid_out f] /\
  Forall u8_ok [allow_src_sys_in f; block_src_sys_in f; allow_src_sys_out f; block_src_sys_out f;
                allow_src_comp_in f; block_src_comp_in f; allow_src_comp_out f; block_src_comp_out f] /\
  Forall names_ok [allow_src_endpoint_out f; block_src_endpoint_out f].

Definition identity_wf (i : IdentityFlags) : Prop :=
  filters_wf (filters i) /\ match group i with Some g => name_matches_regex g = true | None => True end.

Lemma parse_range_pair_ok item key lo hi :
  parse_range_pair_u32 item key = Ok (lo, hi) -> 0 <= lo <= hi /\ hi <= u32_max.
Proof.
  unfold parse_range_pair_u32. destruct (split_once "-" item) as [[l h]|].
  - destruct (parse_uint u32_max (trim l)) as [a|] eqn:Ea; [|done].
    destruct (parse_uint u32_max (trim h)) as [b|] eqn:Eb; [|done]. simpl.
    apply parse_uint_range in Ea, Eb; [|done..]. destruct (Z.ltb_spec b a); [done|]. intros [= <- <-]. lia.
  - destruct (parse_uint u32_max item) as [a|] eqn:Ea; [|done]. simpl. apply parse_uint_range in Ea; [|done].
    rewrite Z.ltb_irrefl. intros [= <- <-]. lia.
Qed.

Lemma parse_items_Forall {A} (P : A -> Prop) one value key items l :
  (forall item x, one item = Ok x -> P x) -> parse_items one value key items = Ok l -> Forall P l.
Proof.
  intros Hone. revert l; induction items as [|item items IH]; intros l; simpl; [by intros [= <-]|].
  destruct (str_is_empty (trim item)); [done|]. destruct (one (trim item)) as [x|] eqn:E; [|done].
  destruct (parse_items one value key items) as [xs|]; [|done]. intros [= <-]. constructor; eauto.
Qed.

Lemma parse_msgid_ranges_ok value key l :
  parse_msgid_ranges value key = Ok l -> Forall (fun r => 0 <= mr_lo r <= mr_hi r /\ mr_hi r <= u32_max) l.
Proof.
  apply parse_items_Forall. intros item x. destruct (parse_range_pair_u32 item key) as [[lo hi]|] eqn:E; [|done].
  intros [= <-]. by apply parse_range_pair_ok in E.
Qed.

Lemma parse_u8_ranges_ok value key l :
  parse_u8_ranges value key = Ok l -> Forall (fun r => 0 <= ur_lo r <= ur_hi r /\ ur_hi r <= u8_max) l.
Proof.
  apply parse_items_Forall. intros item x. destruct (parse_range_pair_u32 item key) as [[lo hi]|] eqn:E; [|done].
  apply parse_range_pair_ok in E. destruct ((u8_max <? lo) || (u8_max <? hi)) eqn:Eb; [done|]. bool_hyps.
  intros [= <-]. simpl. unfold u8_max in *. rewrite !wrap_small by (unfold in_width; lia). lia.
Qed.

Lemma parse_endpoint_name_list_ok value key l :
  parse_endpoint_name_list value key = Ok l -> Forall (fun n => name_matches_regex n = true) l.
Proof.
  apply parse_items_Forall. intros item x. unfold validate_name_value.
  destruct (name_matches_regex item) eqn:E; [|done]. by intros [= <-].
Qed.

Lemma Filters_default_wf : filters_wf Filters_default.
Proof. repeat constructor. Qed.

(** Setting one list keeps the others, so well-formedness needs only the new list. *)
Lemma set_filter_wf key ms us ns f :
  filters_wf f ->
  Forall (fun r => 0 <= mr_lo r <= mr_hi r /\ mr_hi r <= u32_max) ms ->
  Forall (fun r => 0 <= ur_lo r <= ur_hi r /\ ur_hi r <= u8_max) us ->
  Forall (fun n => name_matches_regex n = true) ns ->
  filters_wf (set_filter key ms us ns f).
Proof.
  intros (Hm & Hu & Hn) Hms Hus Hns. unfold filters_wf in *. rewrite !Forall_cons in *. unfold set_filter; simpl.
  destruct_and!. split_and!; try done; case_match; done.
Qed.

Lemma Filters_apply_wf f key value b f' :
  filters_wf f -> Filters_apply f key value = Ok (b, f') -> filters_wf f'.
Proof.
  intros Hf. unfold Filters_apply. destruct (mem_str key msgid_keys).
  { destruct (parse_msgid_ranges value key) eqn:E; [|done]. intros [= <- <-].
    apply set_filter_wf; auto. by eapply parse_msgid_ranges_ok. }
  destruct (mem_str key u8_keys).
  { destruct (parse_u8_ranges value key) eqn:E; [|done]. intros [= <- <-].
    apply set_filter_wf; auto. by eapply parse_u8_ranges_ok. }
  destruct (mem_str key name_keys); [|by intros [= <- <-]].
  destruct (parse_endpoint_name_list value key) eqn:E; [|done]. intros [= <- <-].
  apply set_filter_wf; auto. by eapply parse_endpoint_name_list_ok.
Qed.

Lemma IdentityFlags_apply_wf i key value b i' :
  identity_wf i -> IdentityFlags_apply i key value = Ok (b, i') -> identity_wf i'.
Proof.
  intros [Hf Hg]. unfold IdentityFlags_apply.
  destruct (Filters_apply (filters i) key value) as [[h fs]|] eqn:E; [|done].
  apply Filters_apply_wf in E; [|done]. destruct h; [by intros [= <- <-]|].
  destruct (String.eqb key "sniffer").
  { destruct (parse_bool value "sniffer"); [|done]. by intros [= <- <-]. }
  destruct (String.eqb key "group"); [|by intros [= <- <-]].
  unfold validate_name_value. destruct (name_matches_regex value) eqn:En; [|done]. by intros [= <- <-].
Qed.

(** ** Round trip of a filter list *)

Definition show_range (r : MsgIdRange) : string := show_uint (mr_lo r) ++s String "-" (show_uint (mr_hi r)).
Definition show_ranges (l : list MsgIdRange) : string := join_char "," (map show_range l).

Lemma digit_graphic c : is_ascii_digit c = true -> is_ascii_graphic c = true.
Proof. unfold is_ascii_digit, is_ascii_graphic. intros. bool_hyps. apply andb_true_iff. rewrite !Z.leb_le. lia. Qed.

Lemma show_uint_graphic n : 0 <= n -> str_forallb is_ascii_graphic (show_uint n) = true.
Proof. intros Hn. eapply str_forallb_impl; [apply digit_graphic|]. by apply show_uint_all. Qed.

Lemma show_uint_no c n : is_ascii_digit c = false -> 0 <= n -> contains_char c (show_uint n) = false.
Proof. intros Hc Hn. eapply str_forallb_contains; [by apply show_uint_all|done]. Qed.

Lemma show_uint_nonempty n : 0 <= n -> exists c s, show_uint n = String c s.
Proof. intros Hn. destruct (show_digits_head (Z.to_nat (Z.log2_up (n + 1))) n "" Hn) as (c & s & E & _). eauto. Qed.

Lemma show_range_graphic r : 0 <= mr_lo r <= mr_hi r -> str_forallb is_ascii_graphic (show_range r) = true.
Proof.
  intros Hr. unfold show_range. rewrite str_forallb_app. simpl. by rewrite !show_uint_graphic by lia.
Qed.

Lemma parse_show_range r key :
  0 <= mr_lo r <= mr_hi r -> mr_hi r <= u32_max -> parse_range_pair_u32 (show_range r) key = Ok (mr_lo r, mr_hi r).
Proof.
  intros Hr Hm. unfold parse_range_pair_u32, show_range.
  rewrite split_once_app by (apply show_uint_no; [reflexivity|lia]).
  rewrite !trim_graphic by (apply show_uint_graphic; lia).
  rewrite !parse_show_uint by lia. simpl. by rewrite (proj2 (Z.ltb_ge _ _)) by lia.
Qed.

Lemma parse_items_show value key (l : list MsgIdRange) :
  Forall (fun r => 0 <= mr_lo r <= mr_hi r /\ mr_hi r <= u32_max) l ->
  parse_items (fun item => let? (lo, hi) := parse_range_pair_u32 item key in Ok {| mr_lo := lo; mr_hi := hi |})
    value key (map show_range l) = Ok l.
Proof.
  induction 1 as [|r l [Hr Hm] _ IH]; [done|]. cbn [map parse_items].
  rewrite trim_graphic by (by apply show_range_graphic).
  destruct (show_uint_nonempty (mr_lo r) ltac:(lia)) as (c & s & E).
  assert (He : str_is_empty (show_range r) = false) by (unfold show_range; by rewrite E).
  rewrite He, parse_show_range, IH by done. by destruct r.
Qed.

Lemma show_range_no_comma r : 0 <= mr_lo r <= mr_hi r -> contains_char "," (show_range r) = false.
Proof.
  intros Hr. unfold show_range. rewrite contains_char_app. simpl.
  by rewrite !show_uint_no by (reflexivity || lia).
Qed.

(** Filter lists round trip and are well formed.  Printing a list of ordered ranges as
    [lo-hi,lo-hi,...] and parsing it gives the list back under every msgid key; and whatever
    [IdentityFlags::apply] accepts keeps every filter list well formed (ordered ranges in
    the width of their axis, grammatical names and group), so a malformed list never reaches
    the routing decision. *)
Theorem filter_lists_roundtrip l i key value b i' :
  l <> [] -> Forall (fun r => 0 <= mr_lo r <= mr_hi r /\ mr_hi r <= u32_max) l -> identity_wf i ->
  parse_msgid_ranges (show_ranges l) key = Ok l /\
  (IdentityFlags_apply i key value = Ok (b, i') -> identity_wf i').
Proof.
  intros Hne HF Hi. split; [|by apply IdentityFlags_apply_wf].
  unfold parse_msgid_ranges, show_ranges. rewrite split_join.
  - by apply parse_items_show.
  - by destruct l.
  - apply Forall_map. eapply Forall_impl; [exact HF|]. intros r [Hr _]. by apply show_range_no_comma.
Qed.

Lemma filter_lists_roundtrip_witness :
  parse_msgid_ranges (show_ranges [{| mr_lo := 0; mr_hi := 300 |}; {| mr_lo := 7; mr_hi := 7 |}]) "allow_msgid_in"
  = Ok [{| mr_lo := 0; mr_hi := 300 |}; {| mr_lo := 7; mr_hi := 7 |}].
Proof.
  apply (filter_lists_roundtrip [{| mr_lo := 0; mr_hi := 300 |}; {| mr_lo := 7; mr_hi := 7 |}]
    IdentityFlags_default "allow_msgid_in" "0-300" true IdentityFlags_default);
    [discriminate | repeat constructor; simpl; unfold u32_max; lia | split; [apply Filters_default_wf | exact I]].
Defined.
