(* ===== verification/Spec.v ===== *)
(** * Endpoint specs ([src/src/endpoint/spec/])

    From one CLI string (or one TOML entry, already tokenised) to a typed [EndpointSpec].
    The edit distance behind the did-you-mean suggestion ([strsim::levenshtein]) is a
    parameter: it only selects the suggestion text. *)

From Stdlib Require Import Ascii.
From S2P Require Import Prelude RustStr RustNet Frame Filters TxQueue Identity FilterParse.
#[local] Open Scope string_scope.
#[local] Open Scope Z_scope.

(** ** Schemes ([spec/mod.rs]) *)

Definition Scheme_as_str (s : Scheme) : string :=
  match s with
  | Scheme_Serial => "serial" | Scheme_UdpServer => "udps" | Scheme_UdpClient => "udpc"
  | Scheme_TcpServer => "tcps" | Scheme_TcpClient => "tcpc"
  end.

Definition Scheme_try_from_str (raw : string) : option Scheme :=
  if String.eqb raw "serial" then Some Scheme_Serial
  else if String.eqb raw "udps" then Some Scheme_UdpServer
  else if String.eqb raw "udpc" then Some Scheme_UdpClient
  else if String.eqb raw "tcps" then Some Scheme_TcpServer
  else if String.eqb raw "tcpc" then Some Scheme_TcpClient
  else None.

Definition Scheme_from_cli_prefix (raw : string) : result Scheme SpecError :=
  ok_or (Scheme_try_from_str raw) (UnknownScheme raw).

(** ** Endpoint kinds ([spec/endpoint_kinds.rs]) *)

Inductive SerialFlowControl := FlowControl_None | FlowControl_RtsCts.

Record SerialEndpoint := { se_path : string; se_baud : Z; se_flow_control : SerialFlowControl; se_identity : IdentityFlags }.
Record UdpServerEndpoint := { us_bind_addr : SocketAddr; us_idle_secs : option Z; us_identity : IdentityFlags }.
Record UdpClientEndpoint := { uc_host : string; uc_port : Z; uc_latch_idle_secs : option Z; uc_identity : IdentityFlags }.
Record TcpServerEndpoint := { ts_bind_addr : SocketAddr; ts_identity : IdentityFlags }.
Record TcpClientEndpoint := { tc_host : string; tc_port : Z; tc_identity : IdentityFlags }.

(** [SocketAddr::new(IpAddr::V4(Ipv4Addr::UNSPECIFIED), 0)] *)
Definition unspecified_v4 : SocketAddr := SocketAddr_new (V4 [0; 0; 0; 0]) 0.

(** The [Default] of each kind. *)
Definition SerialFlowControl_default : SerialFlowControl := FlowControl_None.
Definition SerialEndpoint_default : SerialEndpoint :=
  {| se_path := ""; se_baud := 0; se_flow_control := SerialFlowControl_default; se_identity := IdentityFlags_default |}.
Definition UdpServerEndpoint_default : UdpServerEndpoint :=
  {| us_bind_addr := unspecified_v4; us_idle_secs := None; us_identity := IdentityFlags_default |}.
Definition UdpClientEndpoint_default : UdpClientEndpoint :=
  {| uc_host := ""; uc_port := 0; uc_latch_idle_secs := None; uc_identity := IdentityFlags_default |}.
Definition TcpServerEndpoint_default : TcpServerEndpoint :=
  {| ts_bind_addr := unspecified_v4; ts_identity := IdentityFlags_default |}.
Definition TcpClientEndpoint_default : TcpClientEndpoint := {| tc_host := ""; tc_port := 0; tc_identity := IdentityFlags_default |}.

Inductive EndpointKind :=
| Kind_Serial (endpoint : SerialEndpoint)
| Kind_UdpServer (endpoint : UdpServerEndpoint)
| Kind_UdpClient (endpoint : UdpClientEndpoint)
| Kind_TcpServer (endpoint : TcpServerEndpoint)
| Kind_TcpClient (endpoint : TcpClientEndpoint).

Definition EndpointKind_scheme (k : EndpointKind) : Scheme :=
  match k with
  | Kind_Serial _ => Scheme_Serial | Kind_UdpServer _ => Scheme_UdpServer | Kind_UdpClient _ => Scheme_UdpClient
  | Kind_TcpServer _ => Scheme_TcpServer | Kind_TcpClient _ => Scheme_TcpClient
  end.

Definition EndpointKind_identity (k : EndpointKind) : IdentityFlags :=
  match k with
  | Kind_Serial e => se_identity e | Kind_UdpServer e => us_identity e | Kind_UdpClient e => uc_identity e
  | Kind_TcpServer e => ts_identity e | Kind_TcpClient e => tc_identity e
  end.

(** [fn default_name(&self) -> String] *)
Definition default_name (k : EndpointKind) : string :=
  match k with
  | Kind_Serial e => "serial-" ++s sanitize_for_name (se_path e) ++s "-" ++s show_uint (se_baud e)
  | Kind_UdpServer e =>
      "udps-" ++s sanitize_for_name (show_ip (addr_ip (us_bind_addr e))) ++s "-" ++s show_uint (addr_port (us_bind_addr e))
  | Kind_UdpClient e => "udpc-" ++s sanitize_for_name (uc_host e) ++s "-" ++s show_uint (uc_port e)
  | Kind_TcpServer e =>
      "tcps-" ++s sanitize_for_name (show_ip (addr_ip (ts_bind_addr e))) ++s "-" ++s show_uint (addr_port (ts_bind_addr e))
  | Kind_TcpClient e => "tcpc-" ++s sanitize_for_name (tc_host e) ++s "-" ++s show_uint (tc_port e)
  end.

(** ** Query strings ([spec/query.rs], [spec/bounds.rs]) *)

Definition MIN_IDLE_SECS : Z := 1.
Definition MAX_IDLE_SECS : Z := 86400.
Definition MIN_LATCH_IDLE_SECS : Z := 1.
Definition MAX_LATCH_IDLE_SECS : Z := 86400.

Definition known_keys_for (s : Scheme) : list string :=
  match s with
  | Scheme_Serial => ["flow_control"]
  | Scheme_UdpServer => ["idle_secs"]
  | Scheme_UdpClient => ["latch_idle_secs"]
  | Scheme_TcpServer | Scheme_TcpClient => []
  end.

(** [fn check_u64_range(value, key, min, max) -> Result<u64, SpecError>] *)
Definition check_u64_range (value : Z) (key : string) (min max : Z) : result Z SpecError :=
  if (value <? min) || (max <? value)
  then Err (InvalidQueryValue key ("must be in " ++s show_uint min ++s "..=" ++s show_uint max ++s ", got " ++s show_uint value))
  else Ok value.

Definition parse_u64 (value key : string) : result Z SpecError :=
  ok_or (parse_uint u64_max value)
    (InvalidQueryValue key ("expected a non-negative integer, got '" ++s value ++s "'")).

Definition parse_flow_control (value : string) : result SerialFlowControl SpecError :=
  if String.eqb value "none" then Ok FlowControl_None
  else if String.eqb value "rtscts" then Ok FlowControl_RtsCts
  else Err (InvalidQueryValue "flow_control" ("expected 'none' or 'rtscts', got '" ++s value ++s "'")).

(** The loop of [parse_query_pairs]; [seen] is the [BTreeSet] of keys. *)
Fixpoint query_pairs_loop (pieces : list string) (seen : list string) : result (list (string * string)) SpecError :=
  match pieces with
  | [] => Ok []
  | pair_ :: rest =>
      if str_is_empty pair_ then query_pairs_loop rest seen
      else
        let? (key, value) := ok_or (split_once "=" pair_)
          (MalformedQuery ("expected '<key>=<value>' (got '" ++s pair_ ++s "')")) in
        if str_is_empty key then Err (MalformedQuery ("empty key in '" ++s pair_ ++s "'"))
        else
          let key := to_ascii_lowercase key in
          if mem_str key seen then Err (DuplicateQueryKey key)
          else
            let? out := query_pairs_loop rest (key :: seen) in
            Ok ((key, value) :: out)
  end.

(** [fn parse_query_pairs(text: &str) -> Result<Vec<(String, String)>, SpecError>] *)
Definition parse_query_pairs (text : string) : result (list (string * string)) SpecError :=
  if str_is_empty text then Ok [] else query_pairs_loop (split_char "&" text) [].

(** [trait QueryApplier] *)
Class QueryApplier (E : Type) := applier_set : E -> string -> string -> result (bool * E) SpecError.

#[global] Instance IdentityApplier : QueryApplier IdentityFlags := IdentityFlags_apply.

(** [SerialApplier::set] *)
#[global] Instance SerialApplier : QueryApplier SerialEndpoint := fun e key value =>
  if String.eqb key "flow_control" then
    let? fc := parse_flow_control value in
    Ok (true, {| se_path := se_path e; se_baud := se_baud e; se_flow_control := fc; se_identity := se_identity e |})
  else
    let? (b, i) := IdentityFlags_apply (se_identity e) key value in
    Ok (b, {| se_path := se_path e; se_baud := se_baud e; se_flow_control := se_flow_control e; se_identity := i |}).

(** [UdpServerApplier::set] *)
#[global] Instance UdpServerApplier : QueryApplier UdpServerEndpoint := fun e key value =>
  if String.eqb key "idle_secs" then
    let? secs := parse_u64 value "idle_secs" in
    let? secs := check_u64_range secs "idle_secs" MIN_IDLE_SECS MAX_IDLE_SECS in
    Ok (true, {| us_bind_addr := us_bind_addr e; us_idle_secs := Some secs; us_identity := us_identity e |})
  else
    let? (b, i) := IdentityFlags_apply (us_identity e) key value in
    Ok (b, {| us_bind_addr := us_bind_addr e; us_idle_secs := us_idle_secs e; us_identity := i |}).

(** [UdpClientApplier::set] *)
#[global] Instance UdpClientApplier : QueryApplier UdpClientEndpoint := fun e key value =>
  if String.eqb key "latch_idle_secs" then
    let? secs := parse_u64 value "latch_idle_secs" in
    let? secs := check_u64_range secs "latch_idle_secs" MIN_LATCH_IDLE_SECS MAX_LATCH_IDLE_SECS in
    Ok (true, {| uc_host := uc_host e; uc_port := uc_port e; uc_latch_idle_secs := Some secs; uc_identity := uc_identity e |})
  else
    let? (b, i) := IdentityFlags_apply (uc_identity e) key value in
    Ok (b, {| uc_host := uc_host e; uc_port := uc_port e; uc_latch_idle_secs := uc_latch_idle_secs e; uc_identity := i |}).

(** ** Bodies ([spec/parse.rs]) *)

(** [fn split_body_name_query(rest) -> (&str, Option<&str>, Option<&str>)] *)
Definition split_body_name_query (rest : string) : string * option string * option string :=
  match split_once "#" rest with
  | Some (body, after_hash) =>
      match split_once "?" after_hash with
      | Some (name, query) => (body, Some name, Some query)
      | None => (body, Some after_hash, None)
      end
  | None =>
      match split_once "?" rest with
      | Some (body, query) => (body, None, Some query)
      | None => (rest, None, None)
      end
  end.

Definition SERIAL_GRAMMAR : string :=
  "expected 'serial:<path>:<baud>' or 'serial:<path>,<baud>', e.g. 'serial:/dev/ttyUSB0:115200'".

(** [fn parse_serial_body(body) -> Result<(String, u32), SpecError>] *)
Definition parse_serial_body (body : string) : result (string * Z) SpecError :=
  let malformed reason := MalformedBody Scheme_Serial body (reason ++s " (" ++s SERIAL_GRAMMAR ++s ")") in
  if str_is_empty body then Err (malformed "empty body")
  else
    let last_colon := rfind_char ":" body in
    let last_comma := rfind_char "," body in
    let pos := match last_colon, last_comma with
               | Some colon, Some comma => Some (Nat.max colon comma)
               | Some colon, None => Some colon
               | None, Some comma => Some comma
               | None, None => None
               end in
    match pos with
    | None => Err (malformed "no ':' or ',' separator between path and baud")
    | Some pos =>
        let path := str_take pos body in
        let baud_str := str_drop (pos + 1) body in
        if str_is_empty path then Err (malformed "empty device path")
        else
          let? baud := ok_or (parse_uint u32_max baud_str) (malformed ("baud '" ++s baud_str ++s "' is not a valid u32")) in
          if baud =? 0 then Err (malformed "baud must be > 0") else Ok (path, baud)
    end.

Definition host_port_grammar (s : Scheme) : string :=
  match s with
  | Scheme_UdpServer | Scheme_TcpServer =>
      "expected '<ip>:<port>', e.g. '0.0.0.0:14550' or '[::]:5760' (hostnames are not resolved for listen-side endpoints)"
  | Scheme_UdpClient | Scheme_TcpClient =>
      "expected '<host>:<port>', e.g. '192.168.1.5:14550' or 'gcs.example:5760'"
  | Scheme_Serial => SERIAL_GRAMMAR
  end.

(** [fn parse_host_port(body, scheme) -> Result<(String, u16), SpecError>] *)
Definition parse_host_port (body : string) (scheme : Scheme) : result (string * Z) SpecError :=
  let malformed reason := MalformedBody scheme body (reason ++s " (" ++s host_port_grammar scheme ++s ")") in
  if str_is_empty body then Err (malformed "empty body")
  else
    let? (host, port_str) :=
      match strip_prefix_char "[" body with
      | Some rest =>
          match find_char "]" rest with
          | None => Err (malformed "unclosed '[' in IPv6 literal")
          | Some end_ =>
              let host := str_take end_ rest in
              let after := str_drop (end_ + 1) rest in
              match strip_prefix_char ":" after with
              | None => Err (malformed "expected ':<port>' after ']'")
              | Some port_str => Ok (host, port_str)
              end
          end
      | None =>
          match rsplit_once ":" body with
          | None => Err (malformed "no ':' between host and port")
          | Some (host, port_str) =>
              if contains_char ":" host
              then Err (malformed ("unbracketed ':' in host '" ++s host ++s "'; IPv6 literals must be bracketed, e.g. '[::1]:<port>'"))
              else Ok (host, port_str)
          end
      end in
    if str_is_empty host then Err (malformed "empty host")
    else
      let? port := ok_or (parse_uint u16_max port_str) (malformed ("port '" ++s port_str ++s "' is not a valid u16")) in
      Ok (host, port).

(** [fn parse_listen_addr(body, scheme) -> Result<SocketAddr, SpecError>] *)
Definition parse_listen_addr (body : string) (scheme : Scheme) : result SocketAddr SpecError :=
  let? (host, port) := parse_host_port body scheme in
  let? ip_addr := ok_or (parse_ip host)
    (MalformedBody scheme body ("listen host '" ++s host ++s "' must be an IP literal (e.g. '0.0.0.0', '[::]', '[::1]'); hostnames are not resolved for " ++s Scheme_as_str scheme ++s ": endpoints")) in
  Ok (SocketAddr_new ip_addr port).

(** [struct EndpointSpec] *)
Record EndpointSpec := { spec_kind : EndpointKind; spec_name : string }.

Section WithDistance.
Context (levenshtein : string -> string -> nat).

(** [fn suggest_query_key(scheme, unknown) -> Option<&'static str>] *)
Definition suggest_query_key (scheme : Scheme) (unknown : string) : option string :=
  let keys := (IdentityFlags_KEYS ++ Filters_KEYS ++ known_keys_for scheme)%list in
  let scored := map (fun key => (key, levenshtein unknown key)) keys in
  let near := List.filter (fun p => (p.2 <=? 4)%nat) scored in
  match min_index (fun p => Z.of_nat p.2) near with
  | Some i => fst <$> near !! i
  | None => None
  end.

(** [fn apply_pairs(applier, scheme, pairs) -> Result<(), SpecError>] *)
Fixpoint apply_pairs {E} `{QueryApplier E} (e : E) (scheme : Scheme) (pairs : list (string * string)) : result E SpecError :=
  match pairs with
  | [] => Ok e
  | (key, value) :: rest =>
      let? (handled, e) := applier_set e key value in
      if negb handled then Err (UnknownQueryKey scheme key (suggest_query_key scheme key))
      else apply_pairs e scheme rest
  end.

(** [fn parse_kind(scheme, body, pairs) -> Result<EndpointKind, SpecError>] *)
Definition parse_kind (scheme : Scheme) (body : string) (pairs : list (string * string)) : result EndpointKind SpecError :=
  match scheme with
  | Scheme_Serial =>
      let? (path, baud) := parse_serial_body body in
      let? e := apply_pairs {| se_path := path; se_baud := baud; se_flow_control := FlowControl_None;
                               se_identity := IdentityFlags_default |} scheme pairs in
      Ok (Kind_Serial e)
  | Scheme_UdpServer =>
      let? bind_addr := parse_listen_addr body scheme in
      let? e := apply_pairs {| us_bind_addr := bind_addr; us_idle_secs := None; us_identity := IdentityFlags_default |} scheme pairs in
      Ok (Kind_UdpServer e)
  | Scheme_UdpClient =>
      let? (host, port) := parse_host_port body scheme in
      let? e := apply_pairs {| uc_host := host; uc_port := port; uc_latch_idle_secs := None;
                               uc_identity := IdentityFlags_default |} scheme pairs in
      Ok (Kind_UdpClient e)
  | Scheme_TcpServer =>
      let? bind_addr := parse_listen_addr body scheme in
      let? i := apply_pairs IdentityFlags_default scheme pairs in
      Ok (Kind_TcpServer {| ts_bind_addr := bind_addr; ts_identity := i |})
  | Scheme_TcpClient =>
      let? (host, port) := parse_host_port body scheme in
      let? i := apply_pairs IdentityFlags_default scheme pairs in
      Ok (Kind_TcpClient {| tc_host := host; tc_port := port; tc_identity := i |})
  end.

(** [EndpointSpec::build] *)
Definition EndpointSpec_build (scheme : Scheme) (body : string) (explicit_name : option string)
    (pairs : list (string * string)) : result EndpointSpec SpecError :=
  let? kind := parse_kind scheme body pairs in
  let? name := match explicit_name with
               | Some name => let? _ := validate_name name in Ok name
               | None => Ok (default_name kind)
               end in
  Ok {| spec_kind := kind; spec_name := name |}.

(** [EndpointSpec::parse] *)
Definition EndpointSpec_parse (input : string) : result EndpointSpec SpecError :=
  let? (scheme_str, rest) := ok_or (split_once ":" input) (MissingScheme input) in
  if str_is_empty scheme_str then Err (MissingScheme input)
  else
    let '(body, explicit_name, query_str) := split_body_name_query rest in
    if contains_char "?" body
    then Err (MalformedQuery ("'?' must follow '#name' (got '" ++s body ++s "')"))
    else
      let? pairs := parse_query_pairs (default "" query_str) in
      let? scheme := Scheme_from_cli_prefix scheme_str in
      EndpointSpec_build scheme body explicit_name pairs.
End WithDistance.
