(* ===== verification/SpecProps.v ===== *)
(** * The CLI grammar: what parses, and to what *)

From Stdlib Require Import Ascii.
From S2P Require Import Prelude RustStr RustNet Frame Filters TxQueue Identity FilterParse Spec.
#[local] Open Scope string_scope.
#[local] Open Scope Z_scope.

(** ** Names *)

Lemma sanitize_name_chars s : str_forallb name_char (sanitize_for_name s) = true.
Proof.
  induction s as [|c s IH]; simpl; [done|]. destruct (is_continuation c); [done|]. simpl. rewrite IH.
  destruct (name_char c) eqn:E; [by rewrite E|done].
Qed.

Lemma digit_name_char c : is_ascii_digit c = true -> name_char c = true.
Proof. unfold name_char, is_ascii_alphanumeric. by intros ->. Qed.

Lemma show_uint_name_chars n : 0 <= n -> str_forallb name_char (show_uint n) = true.
Proof. intros Hn. eapply str_forallb_impl; [apply digit_name_char|]. by apply show_uint_all. Qed.

Definition kind_numbers_ok (k : EndpointKind) : Prop :=
  match k with
  | Kind_Serial e => 0 < se_baud e <= u32_max
  | Kind_UdpServer e => 0 <= addr_port (us_bind_addr e) <= u16_max
  | Kind_UdpClient e => 0 <= uc_port e <= u16_max
  | Kind_TcpServer e => 0 <= addr_port (ts_bind_addr e) <= u16_max
  | Kind_TcpClient e => 0 <= tc_port e <= u16_max
  end.

Lemma dashed_name_ok prefix s n :
  str_is_empty prefix = false -> str_forallb name_char prefix = true -> 0 <= n ->
  name_matches_regex (prefix ++s sanitize_for_name s ++s "-" ++s show_uint n) = true.
Proof.
  intros Hp Hc Hn. unfold name_matches_regex. apply andb_true_iff. split; [by destruct prefix|].
  rewrite !str_forallb_app, Hc, sanitize_name_chars, show_uint_name_chars by done. done.
Qed.

Lemma default_name_ok k : kind_numbers_ok k -> name_matches_regex (default_name k) = true.
Proof.
  destruct k as [e|e|e|e|e]; simpl; intros Hn;
    [apply (dashed_name_ok "serial-")|apply (dashed_name_ok "udps-")|apply (dashed_name_ok "udpc-")
    |apply (dashed_name_ok "tcps-")|apply (dashed_name_ok "tcpc-")]; reflexivity || lia.
Qed.

(** ** What the body parsers return *)

Lemma str_is_empty_false s : str_is_empty s = false <-> s <> "".
Proof. by destruct s. Qed.

Lemma parse_serial_body_ok body path baud :
  parse_serial_body body = Ok (path, baud) -> path <> "" /\ 0 < baud <= u32_max.
Proof.
  unfold parse_serial_body. destruct (str_is_empty body); [done|].
  destruct (match rfind_char ":" body, rfind_char "," body with
            | Some colon, Some comma => Some (Nat.max colon comma)
            | Some colon, None => Some colon | None, Some comma => Some comma | None, None => None end) as [pos|]; [|done].
  destruct (str_is_empty (str_take pos body)) eqn:Ep; [done|].
  destruct (parse_uint u32_max (str_drop (pos + 1) body)) as [n|] eqn:En; [|done]. simpl.
  apply parse_uint_range in En; [|done]. destruct (Z.eqb_spec n 0); [done|]. intros [= <- <-].
  apply str_is_empty_false in Ep. split; [done|lia].
Qed.

Lemma parse_host_port_ok body scheme host port :
  parse_host_port body scheme = Ok (host, port) -> host <> "" /\ 0 <= port <= u16_max.
Proof.
  unfold parse_host_port. destruct (str_is_empty body); [done|].
  match goal with |- (match ?m with Ok _ => _ | Err _ => _ end) = _ -> _ => destruct m as [[h p]|]; [|done] end.
  destruct (str_is_empty h) eqn:Eh; [done|]. destruct (parse_uint u16_max p) as [n|] eqn:En; [|done]. simpl.
  intros [= <- <-]. apply parse_uint_range in En; [|done]. split; [by apply str_is_empty_false|done].
Qed.

Lemma parse_listen_addr_ok body scheme addr :
  parse_listen_addr body scheme = Ok addr -> 0 <= addr_port addr <= u16_max /\ ip_ok (addr_ip addr).
Proof.
  unfold parse_listen_addr. destruct (parse_host_port body scheme) as [[h p]|] eqn:E; [|done].
  destruct (parse_ip h) eqn:Ei; [|done]. intros [= <-]. apply parse_host_port_ok in E as [_ ?]. split; [done|]. by eapply parse_ip_ok.
Qed.

(** ** Appliers keep what they do not set *)

(** An invariant every successful [set] keeps is kept by [apply_pairs]. *)
Lemma apply_pairs_inv {E} `{QueryApplier E} lev (P : E -> Prop) e scheme pairs e' :
  (forall e k v b e', P e -> applier_set e k v = Ok (b, e') -> P e') ->
  P e -> apply_pairs lev e scheme pairs = Ok e' -> P e'.
Proof.
  intros Hset. revert e; induction pairs as [|[k v] pairs IH]; intros e He; cbn [apply_pairs]; [by intros [= <-]|].
  destruct (applier_set e k v) as [[b e1]|] eqn:E1; [|done]. destruct b; [|done]. simpl. apply IH. by eapply Hset.
Qed.

Definition opt_in (lo hi : Z) (o : option Z) : Prop :=
  match o with Some n => lo <= n <= hi | None => True end.

Definition kind_wf (k : EndpointKind) : Prop :=
  kind_numbers_ok k /\ identity_wf (EndpointKind_identity k) /\
  match k with
  | Kind_Serial e => se_path e <> ""
  | Kind_UdpServer e => ip_ok (addr_ip (us_bind_addr e)) /\ opt_in MIN_IDLE_SECS MAX_IDLE_SECS (us_idle_secs e)
  | Kind_UdpClient e => uc_host e <> "" /\ opt_in MIN_LATCH_IDLE_SECS MAX_LATCH_IDLE_SECS (uc_latch_idle_secs e)
  | Kind_TcpServer e => ip_ok (addr_ip (ts_bind_addr e))
  | Kind_TcpClient e => tc_host e <> ""
  end.

Lemma identity_default_wf : identity_wf IdentityFlags_default.
Proof. split; [apply Filters_default_wf|done]. Qed.

Lemma check_u64_range_ok n key lo hi m : check_u64_range n key lo hi = Ok m -> m = n /\ lo <= n <= hi.
Proof. unfold check_u64_range. destruct ((n <? lo) || (hi <? n)) eqn:E; [done|]. bool_hyps. intros [= <-]. lia. Qed.

Lemma serial_set_wf e k v b e' :
  kind_wf (Kind_Serial e) -> SerialApplier e k v = Ok (b, e') -> kind_wf (Kind_Serial e').
Proof.
  intros (Hn & Hi & Hp). unfold SerialApplier. destruct (String.eqb k "flow_control").
  - destruct (parse_flow_control v); [|done]. by intros [= <- <-].
  - destruct (IdentityFlags_apply (se_identity e) k v) as [[b' i]|] eqn:E; [|done]. intros [= <- <-].
    by apply IdentityFlags_apply_wf in E.
Qed.

Lemma udp_server_set_wf e k v b e' :
  kind_wf (Kind_UdpServer e) -> UdpServerApplier e k v = Ok (b, e') -> kind_wf (Kind_UdpServer e').
Proof.
  intros (Hn & Hi & Ha & Hp). unfold UdpServerApplier. destruct (String.eqb k "idle_secs").
  - destruct (parse_u64 v "idle_secs") as [n|]; [|done].
    destruct (check_u64_range n "idle_secs" MIN_IDLE_SECS MAX_IDLE_SECS) as [m|] eqn:E; [|done]. intros [= <- <-].
    apply check_u64_range_ok in E as [-> ?]. split; [done|]. split; [done|]. split; done.
  - destruct (IdentityFlags_apply (us_identity e) k v) as [[b' i]|] eqn:E; [|done]. intros [= <- <-].
    by apply IdentityFlags_apply_wf in E.
Qed.

Lemma udp_client_set_wf e k v b e' :
  kind_wf (Kind_UdpClient e) -> UdpClientApplier e k v = Ok (b, e') -> kind_wf (Kind_UdpClient e').
Proof.
  intros (Hn & Hi & Hp & Hl). unfold UdpClientApplier. destruct (String.eqb k "latch_idle_secs").
  - destruct (parse_u64 v "latch_idle_secs") as [n|]; [|done].
    destruct (check_u64_range n "latch_idle_secs" MIN_LATCH_IDLE_SECS MAX_LATCH_IDLE_SECS) as [m|] eqn:E; [|done].
    intros [= <- <-]. apply check_u64_range_ok in E as [-> ?]. split; [done|]. split; [done|]. split; done.
  - destruct (IdentityFlags_apply (uc_identity e) k v) as [[b' i]|] eqn:E; [|done]. intros [= <- <-].
    by apply IdentityFlags_apply_wf in E.
Qed.

Lemma parse_kind_wf lev scheme body pairs k :
  parse_kind lev scheme body pairs = Ok k -> kind_wf k /\ EndpointKind_scheme k = scheme.
Proof.
  pose proof identity_default_wf as Hid. destruct scheme; cbn [parse_kind].
  - destruct (parse_serial_body body) as [[path baud]|] eqn:Eb; [|done]. apply parse_serial_body_ok in Eb as [Hp Hb].
    match goal with |- context [apply_pairs lev ?e0 ?s pairs] => destruct (apply_pairs lev e0 s pairs) as [e|] eqn:Ea; [|done] end.
    intros [= <-]. split; [|done]. eapply (apply_pairs_inv lev (fun e => kind_wf (Kind_Serial e))); [apply serial_set_wf| |exact Ea].
    split; [done|]. split; done.
  - destruct (parse_listen_addr body Scheme_UdpServer) as [a|] eqn:Eb; [|done]. apply parse_listen_addr_ok in Eb as [Hp Ha].
    match goal with |- context [apply_pairs lev ?e0 ?s pairs] => destruct (apply_pairs lev e0 s pairs) as [e|] eqn:Ea; [|done] end.
    intros [= <-]. split; [|done]. eapply (apply_pairs_inv lev (fun e => kind_wf (Kind_UdpServer e))); [apply udp_server_set_wf| |exact Ea].
    split; [done|]. split; done.
  - destruct (parse_host_port body Scheme_UdpClient) as [[h p]|] eqn:Eb; [|done]. apply parse_host_port_ok in Eb as [Hh Hp].
    match goal with |- context [apply_pairs lev ?e0 ?s pairs] => destruct (apply_pairs lev e0 s pairs) as [e|] eqn:Ea; [|done] end.
    intros [= <-]. split; [|done]. eapply (apply_pairs_inv lev (fun e => kind_wf (Kind_UdpClient e))); [apply udp_client_set_wf| |exact Ea].
    split; [done|]. split; done.
  - destruct (parse_listen_addr body Scheme_TcpServer) as [a|] eqn:Eb; [|done]. apply parse_listen_addr_ok in Eb as [Hp Ha].
    destruct (apply_pairs lev IdentityFlags_default Scheme_TcpServer pairs) as [i|] eqn:Ea; [|done].
    intros [= <-]. split; [|done].
    eapply (apply_pairs_inv lev identity_wf) in Ea; [|by intros ?????; apply IdentityFlags_apply_wf|done]. split; [done|]. split; done.
  - destruct (parse_host_port body Scheme_TcpClient) as [[h p]|] eqn:Eb; [|done]. apply parse_host_port_ok in Eb as [Hh Hp].
    destruct (apply_pairs lev IdentityFlags_default Scheme_TcpClient pairs) as [i|] eqn:Ea; [|done].
    intros [= <-]. split; [|done].
    eapply (apply_pairs_inv lev identity_wf) in Ea; [|by intros ?????; apply IdentityFlags_apply_wf|done]. split; [done|]. split; done.
Qed.

Lemma build_wf lev scheme body name pairs spec :
  EndpointSpec_build lev scheme body name pairs = Ok spec ->
  name_matches_regex (spec_name spec) = true /\ kind_wf (spec_kind spec) /\ EndpointKind_scheme (spec_kind spec) = scheme.
Proof.
  unfold EndpointSpec_build. destruct (parse_kind lev scheme body pairs) as [k|] eqn:Ek; [|done].
  apply parse_kind_wf in Ek as [Hk Hs]. destruct name as [n|]; simpl.
  - unfold validate_name. destruct (name_matches_regex n) eqn:En; [|done]. by intros [= <-].
  - intros [= <-]. simpl. split_and!; [|done|done]. apply default_name_ok. apply Hk.
Qed.

(** ** Rendering a spec *)

Definition render_pair (p : string * string) : string := p.1 ++s String "=" p.2.
Definition render_query (pairs : list (string * string)) : string := join_char "&" (map render_pair pairs).
Definition render_spec (scheme : Scheme) (body : string) (name : option string) (pairs : list (string * string)) : string :=
  Scheme_as_str scheme ++s String ":" (body ++s
    (match name with Some n => String "#" n | None => "" end) ++s
    (match pairs with [] => "" | _ => String "?" (render_query pairs) end)).

(** Pairs as the TOML side produces them: distinct lowercase keys without separators. *)
Definition pairs_ok (pairs : list (string * string)) : Prop :=
  NoDup pairs.*1 /\
  Forall (fun p => p.1 <> "" /\ to_ascii_lowercase p.1 = p.1 /\ contains_char "=" p.1 = false /\
                   contains_char "&" p.1 = false /\ contains_char "&" p.2 = false) pairs.

Lemma mem_str_spec x l : mem_str x l = true <-> x ∈ l.
Proof. unfold mem_str. rewrite existsb_exists'. setoid_rewrite String.eqb_eq. naive_solver. Qed.

Lemma query_pairs_loop_render pairs seen :
  pairs_ok pairs -> Forall (fun p => p.1 ∉ seen) pairs ->
  query_pairs_loop (map render_pair pairs) seen = Ok pairs.
Proof.
  revert seen; induction pairs as [|[k v] pairs IH]; intros seen [Hnd HF] Hs; [done|].
  rewrite fmap_cons, NoDup_cons in Hnd. destruct Hnd as [Hk Hnd].
  apply Forall_cons in HF as [(Hne & Hlow & Heq & _ & _) HF]. apply Forall_cons in Hs as [Hks Hs]. simpl in *.
  cbn [map query_pairs_loop]. change (render_pair (k, v)) with (k ++s String "=" v).
  assert (Hnz : str_is_empty (k ++s String "=" v) = false) by (by destruct k).
  rewrite Hnz, split_once_app by done. cbn [ok_or].
  rewrite (proj2 (str_is_empty_false k)) by done. rewrite Hlow.
  destruct (mem_str k seen) eqn:Em; [by apply mem_str_spec in Em|].
  rewrite IH; [done|by split|]. apply Forall_forall. intros p Hp. rewrite elem_of_cons. intros [Heqk|Hin].
  - apply Hk. rewrite <- Heqk. by apply list_elem_of_fmap_2.
  - rewrite Forall_forall in Hs. by apply (Hs p).
Qed.

Lemma parse_render_query pairs : pairs_ok pairs -> parse_query_pairs (render_query pairs) = Ok pairs.
Proof.
  intros Hp. unfold parse_query_pairs, render_query. destruct pairs as [|[k v] pairs]; [done|].
  assert (Hne : str_is_empty (join_char "&" (map render_pair ((k, v) :: pairs))) = false).
  { destruct Hp as [_ HF]. apply Forall_cons in HF as [(Hk & _) _]. simpl in *. unfold render_pair; simpl.
    by destruct k, pairs. }
  rewrite Hne, split_join; [|done|].
  - apply query_pairs_loop_render; [done|]. apply Forall_forall. set_solver.
  - apply Forall_map. destruct Hp as [_ HF]. eapply Forall_impl; [exact HF|]. intros [k' v'] (_ & _ & _ & Ha & Hb). simpl in *.
    unfold render_pair; simpl. rewrite contains_char_app, Ha. simpl. by rewrite Hb.
Qed.

Lemma scheme_as_str_facts s :
  contains_char ":" (Scheme_as_str s) = false /\ str_is_empty (Scheme_as_str s) = false /\
  Scheme_try_from_str (Scheme_as_str s) = Some s.
Proof. by destruct s. Qed.

Lemma name_char_no c s : name_char c = false -> name_matches_regex s = true -> contains_char c s = false.
Proof. intros Hc [_ Hs]%andb_prop. by eapply str_forallb_contains. Qed.

Lemma parse_render_spec lev scheme body name pairs :
  contains_char "#" body = false -> contains_char "?" body = false ->
  match name with Some n => name_matches_regex n = true | None => True end ->
  pairs_ok pairs -> (name = None -> Forall (fun p => contains_char "#" p.1 = false /\ contains_char "#" p.2 = false) pairs) ->
  EndpointSpec_parse lev (render_spec scheme body name pairs) = EndpointSpec_build lev scheme body name pairs.
Proof.
  intros Hh Hq Hn Hp Hpn. destruct (scheme_as_str_facts scheme) as (Hs1 & Hs2 & Hs3).
  unfold EndpointSpec_parse, render_spec. rewrite split_once_app by done. simpl. rewrite Hs2.
  assert (Hsplit : split_body_name_query (body ++s (match name with Some n => String "#" n | None => "" end) ++s
      (match pairs with [] => "" | _ => String "?" (render_query pairs) end)) =
    (body, name, match pairs with [] => None | _ => Some (render_query pairs) end)).
  { unfold split_body_name_query. destruct name as [n|].
    - simpl. rewrite split_once_app by done. destruct pairs as [|p pairs].
      + rewrite append_nil_r, split_once_None by (by apply name_char_no). done.
      + rewrite split_once_app by (by apply name_char_no). done.
    - simpl. destruct pairs as [|p pairs].
      + rewrite append_nil_r, !split_once_None by done. done.
      + change ("" ++s String "?" (render_query (p :: pairs))) with (String "?" (render_query (p :: pairs))).
        rewrite (split_once_None "#"); [by rewrite split_once_app|]. rewrite contains_char_app, Hh. simpl.
        assert (Hall : forall l, Forall (fun p => contains_char "#" p.1 = false /\ contains_char "#" p.2 = false) l ->
          contains_char "#" (render_query l) = false).
        { intros l HF. unfold render_query. induction HF as [|[k v] l [Hk Hv] _ IH]; [done|]. simpl in *.
          destruct l as [|p' l']; unfold render_pair in *; simpl in *.
          - rewrite contains_char_app, Hk. simpl. done.
          - rewrite !contains_char_app, Hk. simpl. rewrite Hv. simpl. done. }
        apply Hall. by apply Hpn. }
  rewrite Hsplit, Hq. unfold Scheme_from_cli_prefix. rewrite Hs3.
  assert (Hquery : parse_query_pairs (default "" (match pairs with [] => None | _ => Some (render_query pairs) end)) = Ok pairs).
  { destruct pairs as [|p pairs]; [done|]. by apply parse_render_query. }
  by rewrite Hquery.
Qed.

(** C33. The CLI grammar.  A spec rendered as [scheme:body#name?key=value&...] (name and
    query optional, [#name] before [?query]) parses to exactly what [build] makes of its
    parts: the tokeniser loses nothing and confuses nothing.  The conditions: the body has no
    [#] and no [?]; the name, if there is one, is grammatical; the keys are distinct, lowercase,
    not empty and without [=] and [&]; the values are without [&]; and if there is no name, no
    key and no value has a [#], since the first [#] of a spec starts its name (in
    [udpc:h:1?group=a#b] the name would be [b]). *)
Theorem spec_grammar_roundtrip lev scheme body name pairs :
  contains_char "#" body = false -> contains_char "?" body = false ->
  match name with Some n => name_matches_regex n = true | None => True end ->
  pairs_ok pairs -> (name = None -> Forall (fun p => contains_char "#" p.1 = false /\ contains_char "#" p.2 = false) pairs) ->
  EndpointSpec_parse lev (render_spec scheme body name pairs) = EndpointSpec_build lev scheme body name pairs.
Proof. apply parse_render_spec. Qed.

Lemma EndpointSpec_parse_wf lev input spec :
  EndpointSpec_parse lev input = Ok spec ->
  name_matches_regex (spec_name spec) = true /\ kind_wf (spec_kind spec) /\
  exists rest, input = Scheme_as_str (EndpointKind_scheme (spec_kind spec)) ++s String ":" rest.
Proof.
  unfold EndpointSpec_parse. destruct (split_once ":" input) as [[s rest]|] eqn:Es; [|done]. simpl.
  apply split_once_Some in Es as [-> _]. destruct (str_is_empty s); [done|].
  destruct (split_body_name_query rest) as [[body name] query]. destruct (contains_char "?" body); [done|].
  destruct (parse_query_pairs (default "" query)) as [pairs|]; [|done].
  unfold Scheme_from_cli_prefix. destruct (Scheme_try_from_str s) as [scheme|] eqn:Esc; [|done]. simpl.
  intros Hb. apply build_wf in Hb as (Hn & Hk & <-). split_and!; [done|done|]. exists rest. f_equal.
  unfold Scheme_try_from_str in Esc.
  repeat match type of Esc with (if ?b then _ else _) = _ => destruct b eqn:E; [apply String.eqb_eq in E; injection Esc as <-; done|clear E] end.
  done.
Qed.

(** Accepted specs are well formed.  Every spec the parser accepts has a name of the
    grammar [[A-Za-z0-9_-]+], explicit or derived from the address, and a kind of the
    scheme that was named whose numbers are in range: a port fits 16 bits, a baud rate is
    positive and fits 32 bits, idle times are within their bounds, filters are well formed. *)
Theorem parsed_spec_well_formed lev input spec :
  EndpointSpec_parse lev input = Ok spec ->
  name_matches_regex (spec_name spec) = true /\ kind_wf (spec_kind spec) /\
  exists rest, input = Scheme_as_str (EndpointKind_scheme (spec_kind spec)) ++s String ":" rest.
Proof. apply EndpointSpec_parse_wf. Qed.

(** ** Examples *)

Definition no_distance (a b : string) : nat := 9.

Lemma spec_grammar_roundtrip_witness :
  EndpointSpec_parse no_distance (render_spec Scheme_UdpServer "0.0.0.0:14550" (Some "gcs") [("idle_secs", "30"); ("group", "g1")])
  = EndpointSpec_build no_distance Scheme_UdpServer "0.0.0.0:14550" (Some "gcs") [("idle_secs", "30"); ("group", "g1")].
Proof.
  apply (spec_grammar_roundtrip no_distance Scheme_UdpServer "0.0.0.0:14550" (Some "gcs") [("idle_secs", "30"); ("group", "g1")]);
    try reflexivity; [|discriminate].
  split; [|repeat constructor; discriminate].
  apply (bool_decide_unpack _). vm_compute. exact I.
Defined.

Lemma parsed_spec_well_formed_witness :
  exists spec, EndpointSpec_parse no_distance "udpc:gcs.example:14550?latch_idle_secs=5" = Ok spec /\
    name_matches_regex (spec_name spec) = true.
Proof.
  destruct (EndpointSpec_parse no_distance "udpc:gcs.example:14550?latch_idle_secs=5") as [spec|e] eqn:E.
  - exists spec. split; [reflexivity|]. exact (proj1 (parsed_spec_well_formed no_distance _ spec E)).
  - vm_compute in E. discriminate E.
Defined.
