(* ===== verification/Session.v ===== *)
(** * The reader/writer session ([src/src/endpoint/session.rs])

    Shared by [serial:], [tcpc:] and [tcps:] children; the ingress pipeline
    [forward_inbound_frames] also serves both UDP endpoints.  The [mpsc] sender is an
    interface; reads and writes of the transport are inputs of a turn of the loop. *)

From S2P Require Import Prelude Crc Frame MsgTable Framer FramerSpec LruVec SeqTracker Filters EndpointStats TxQueue Identity.
#[local] Open Scope Z_scope.

(** ** [mpsc::Sender<T>], an interface

    [send(x).await] waits for room; it fails only when the receiver is gone. *)

Class Sender (A C : Type) := { send : C -> A -> bool * C }.
Arguments send {A C _} _ _.

Class SenderLaws (A C : Type) `{Sender A C} := {
  sent : C -> list A;
  send_sent c x : sent (send c x).2 = if (send c x).1 then sent c ++ [x] else sent c;
}.

(** An unbounded channel whose receiver is alive, or gone. *)
Module ListSender.
Record t (A : Type) := { items : list A; open : bool }.
Arguments items {A}.
Arguments open {A}.
#[global] Instance ops A : Sender A (t A) :=
  { send c x := if open c then (true, {| items := items c ++ [x]; open := true |}) else (false, c) }.
#[global] Instance laws A : SenderLaws A (t A).
Proof. refine {| sent := items |}. intros c x. simpl. by destruct (open c). Defined.
End ListSender.

(** A receiver that never goes away. *)
Module LiveSender.
Record t (A : Type) := { log : list A }.
Arguments log {A}.
#[global] Instance ops A : Sender A (t A) := { send c x := (true, {| log := log c ++ [x] |}) }.
#[global] Instance laws A : SenderLaws A (t A).
Proof. refine {| sent := log |}. done. Defined.
Lemma alive A (c : t A) x : (send c x).1 = true.
Proof. done. Qed.
End LiveSender.

(** [std::ops::ControlFlow] *)
Inductive ControlFlow (B : Type) := Continue | Break (b : B).
Arguments Continue {B}.
Arguments Break {B} b.

(** [enum SessionOutcome] *)
Inductive SessionOutcome := Terminated | SessionDisconnected.

(** [struct SessionCtx]; [frame_tx] is threaded through the operations. *)
Record SessionCtx := { ctx_endpoint_id : EndpointId; ctx_stats : nat; ctx_filters : Filters }.

(** The reader's own state: [framer], [framer_counters], [seq_tracker]. *)
Record ReaderState := { rd_framer : Framer; rd_counters : FramerCounters; rd_tracker : SeqTracker }.

Definition ReaderState_new : ReaderState :=
  {| rd_framer := Framer_new; rd_counters := FramerCounters_new; rd_tracker := SeqTracker_new SEQ_TRACKER_CAPACITY |}.

Section Session.
Context `{MsgTable} {Q : Type} `{ArrayQueue Q} {C : Type} `{Sender RouterFrame C}.
Abbreviation World := (World Q).

(** The body of the loop of [forward_inbound_frames] up to the filter: whether the frame
    passes it. *)
Definition account_frame (ctx : SessionCtx) (now : Z) (header : ParsedHeader) (frame : Bytes)
    (tracker : SeqTracker) (w : World) : bool * SeqTracker * World :=
  let w := stats_update (ctx_stats ctx) (add_rx_frame (length frame)) w in
  let '(lost, tracker) := observe tracker (source header) (seq header) now in
  let w := if 0 <? lost then stats_update (ctx_stats ctx) (fetch_add RxLostEst lost) w else w in
  if negb (passes_in_filter (ctx_filters ctx) (msgid header) (source header))
  then (false, tracker, stats_update (ctx_stats ctx) (fetch_add InFilterDrops 1) w)
  else (true, tracker, w).

Fixpoint forward_loop (fuel : nat) (ctx : SessionCtx) (now : Z) (framer : Framer) (tracker : SeqTracker)
    (tx : C) (w : World) : outcome (ControlFlow unit * Framer * SeqTracker * C * World) :=
  match fuel with
  | O => OutOfFuel
  | S fuel' =>
      let! (next, framer) := try_next_frame framer in
      match next with
      | None => Done (Continue, framer, tracker, tx, w)
      | Some (header, frame) =>
          let '(pass, tracker, w) := account_frame ctx now header frame tracker w in
          if pass then
            let '(ok, tx) := send tx {| rf_endpoint_id := ctx_endpoint_id ctx; rf_frame := frame; rf_header := header |} in
            if ok then forward_loop fuel' ctx now framer tracker tx w
            else Done (Break tt, framer, tracker, tx, w)
          else forward_loop fuel' ctx now framer tracker tx w
      end
  end.

(** [async fn forward_inbound_frames(&self, framer, seq_tracker) -> ControlFlow<()>]: a frame
    takes at least a byte of the buffer, so one turn per byte and a last one are enough. *)
Definition forward_inbound_frames (ctx : SessionCtx) (now : Z) (framer : Framer) (tracker : SeqTracker)
    (tx : C) (w : World) : outcome (ControlFlow unit * Framer * SeqTracker * C * World) :=
  forward_loop (S (length (buf framer))) ctx now framer tracker tx w.

(** [io::Result<usize>] of a read, with the bytes it appended to the framer's buffer. *)
Inductive read_result := ReadOk (data : Bytes) | ReadErr.

(** [async fn handle_read_result(..) -> ControlFlow<SessionOutcome>] *)
Definition handle_read_result (ctx : SessionCtx) (now : Z) (res : read_result) (rd : ReaderState) (tx : C) (w : World)
    : outcome (ControlFlow SessionOutcome * ReaderState * C * World) :=
  match res with
  | ReadErr => Done (Break SessionDisconnected, rd, tx, w)
  | ReadOk [] => Done (Break SessionDisconnected, rd, tx, w)
  | ReadOk data =>
      let! (flow, framer, tracker, tx, w) :=
        forward_inbound_frames ctx now (buffer_extend (rd_framer rd) data) (rd_tracker rd) tx w in
      match flow with
      | Break _ =>
          Done (Break Terminated, {| rd_framer := framer; rd_counters := rd_counters rd; rd_tracker := tracker |}, tx, w)
      | Continue =>
          let stats := default (EndpointStats_new Reconnecting) (w_stats w !! ctx_stats ctx) in
          let counters := (sync (rd_counters rd) framer stats).1 in
          let w := stats_update (ctx_stats ctx) (fun s => (sync (rd_counters rd) framer s).2) w in
          Done (Continue, {| rd_framer := framer; rd_counters := counters; rd_tracker := tracker |}, tx, w)
      end
  end.

(** [async fn write_outbound_frame(write_half, frame, stats)]; [ok] is the transport's
    answer to [write_all]. *)
Definition write_outbound_frame (frame : Bytes) (ok : bool) (stats : nat) (w : World)
    : ControlFlow SessionOutcome * World :=
  if ok then (Continue, stats_update stats (add_tx_frame (length frame)) w)
  else (Break SessionDisconnected, w).

(** What the biased [select!] of [run_session] resolved to. *)
Inductive session_input :=
| SelCancelled
| SelRead (res : read_result) (now : Z)
| SelFrame (write_ok : bool).

Record SessionState := { ss_reader : ReaderState; ss_tx : C; ss_world : World }.

(** One turn of [run_session]. *)
Definition session_turn (ctx : SessionCtx) (tq : TxQueue) (input : session_input) (s : SessionState)
    : outcome (ControlFlow SessionOutcome * SessionState) :=
  match input with
  | SelCancelled => Done (Break Terminated, s)
  | SelRead res now =>
      let! (flow, rd, tx, w) := handle_read_result ctx now res (ss_reader s) (ss_tx s) (ss_world s) in
      Done (flow, {| ss_reader := rd; ss_tx := tx; ss_world := w |})
  | SelFrame write_ok =>
      match TxQueue_pop tq (ss_world s) with
      | (None, w) => Done (Continue, {| ss_reader := ss_reader s; ss_tx := ss_tx s; ss_world := w |})
      | (Some frame, w) =>
          let '(flow, w) := write_outbound_frame frame write_ok (ctx_stats ctx) w in
          Done (flow, {| ss_reader := ss_reader s; ss_tx := ss_tx s; ss_world := w |})
      end
  end.

(** [run_session] on the inputs it meets, until it returns. *)
Fixpoint run_session (ctx : SessionCtx) (tq : TxQueue) (inputs : list session_input) (s : SessionState)
    : outcome (SessionOutcome * SessionState) :=
  match inputs with
  | [] => OutOfFuel
  | input :: rest =>
      let! (flow, s) := session_turn ctx tq input s in
      match flow with
      | Break out => Done (out, s)
      | Continue => run_session ctx tq rest s
      end
  end.
End Session.

(** ** The ingress pipeline, exactly *)

Definition passes (ctx : SessionCtx) (e : ParsedHeader * Bytes) : bool :=
  passes_in_filter (ctx_filters ctx) (msgid e.1) (source e.1).

Definition to_router (ctx : SessionCtx) (e : ParsedHeader * Bytes) : RouterFrame :=
  {| rf_endpoint_id := ctx_endpoint_id ctx; rf_frame := e.2; rf_header := e.1 |}.

Definition total_bytes (frames : list (ParsedHeader * Bytes)) : Z :=
  foldr (fun e acc => Z.of_nat (length e.2) + acc) 0 frames.

(** The losses the tracker reports for a run of frames, all seen at [now]. *)
Fixpoint observe_frames (now : Z) (t : SeqTracker) (frames : list (ParsedHeader * Bytes)) : Z * SeqTracker :=
  match frames with
  | [] => (0, t)
  | e :: rest =>
      let '(lost, t) := observe t (source e.1) (seq e.1) now in
      let '(more, t) := observe_frames now t rest in (lost + more, t)
  end.

Lemma observe_nonneg t node s now : 0 <= (observe t node s now).1.
Proof.
  unfold observe. destruct (SeqTracker_find_mut t node); [|simpl; lia]. unfold seq_gap, wrap.
  repeat case_match; simpl; try lia; apply Z.mod_pos_bound; lia.
Qed.

Section Ingress.
Context `{MsgTable} {Q : Type} `{ArrayQueue Q} {C : Type} `{SenderLaws RouterFrame C}.
Implicit Types (w : World Q) (tx : C).

Definition count_ingress (n drops : nat) (bytes lost : Z) (s : EndpointStats) : EndpointStats :=
  fetch_add InFilterDrops (Z.of_nat drops)
    (fetch_add RxLostEst lost (fetch_add RxBytes bytes (fetch_add RxFrames (Z.of_nat n) s))).

(** One frame's share of the counters. *)
Lemma account_frame_spec ctx now h fr t w :
  map_Forall (fun _ => stats_ok) (w_stats w) ->
  account_frame ctx now h fr t w =
  (passes ctx (h, fr), (observe t (source h) (seq h) now).2,
   stats_update (ctx_stats ctx)
     (count_ingress 1 (if passes ctx (h, fr) then 0 else 1) (Z.of_nat (length fr)) (observe t (source h) (seq h) now).1) w).
Proof.
  intros Hst. unfold account_frame, passes, count_ingress. simpl.
  pose proof (observe_nonneg t (source h) (seq h) now) as Hl.
  destruct (observe t (source h) (seq h) now) as [lost t']. simpl in *.
  assert (Hz : forall c n k (g : EndpointStats -> EndpointStats), (forall s, stats_ok s -> stats_ok (g s)) -> 0 <= n ->
    (if 0 <? n then stats_update k (fetch_add c n) (stats_update k g w) else stats_update k g w) =
    stats_update k (fun s => fetch_add c n (g s)) w).
  { intros c n k g Hg Hn. apply world_ext; [|by case_match..].
    destruct (Z.ltb_spec 0 n); simpl; rewrite ?alter_alter_eq; [done|]. assert (n = 0) as -> by lia.
    apply alter_ext. intros s Hs. rewrite fetch_add_0; [done|]. apply Hg. by apply (Hst k). }
  rewrite Hz; [|intros; unfold add_rx_frame; auto with rmr|done].
  destruct (passes_in_filter _ _ _); simpl; f_equal; apply world_ext; simpl; try done.
  - apply alter_ext. intros s Hs. unfold add_rx_frame. rewrite (fetch_add_0 InFilterDrops); [done|].
    assert (stats_ok s) by by apply (Hst (ctx_stats ctx)). repeat apply fetch_add_ok. done.
  - rewrite alter_alter_eq. apply alter_ext. intros s _. done.
Qed.

Lemma count_ingress_ok n d b l s : stats_ok s -> stats_ok (count_ingress n d b l s).
Proof. unfold count_ingress. auto with rmr. Qed.

Lemma count_ingress_add n d b l n' d' b' l' s :
  count_ingress n' d' b' l' (count_ingress n d b l s) = count_ingress (n + n') (d + d') (b + b') (l + l') s.
Proof.
  unfold count_ingress. apply stats_ext; [|done]. intros c. rewrite !load_fetch_add.
  destruct c; simpl; rewrite ?wrap_wrap_add; try done; f_equal; lia.
Qed.

Lemma stats_update_ok k (g : EndpointStats -> EndpointStats) w :
  (forall s, stats_ok s -> stats_ok (g s)) -> map_Forall (fun _ => stats_ok) (w_stats w) ->
  map_Forall (fun _ => stats_ok) (w_stats (stats_update k g w)).
Proof.
  intros Hg Hm i s. simpl. destruct (decide (k = i)) as [<-|]; [rewrite lookup_alter_eq|rewrite lookup_alter_ne by done; apply Hm].
  destruct (w_stats w !! k) as [s0|] eqn:E; [|done]. simpl. intros [= <-]. apply Hg. by apply (Hm k).
Qed.

(** However it ends, the framer and the counters stay in range. *)
Lemma forward_loop_ok fuel ctx now f t tx w flow f' t' tx' w' :
  counters_ok f -> map_Forall (fun _ => stats_ok) (w_stats w) ->
  forward_loop fuel ctx now f t tx w = Done (flow, f', t', tx', w') ->
  counters_ok f' /\ map_Forall (fun _ => stats_ok) (w_stats w').
Proof.
  revert f t tx w; induction fuel as [|fuel IH]; intros f t tx w Hok Hst; cbn [forward_loop]; [done|].
  destruct (try_next_frame_spec f Hok) as (r & f1 & -> & dr & dc & Hdr & Hdc & Hf1 & _).
  assert (Hok1 : counters_ok f1) by (rewrite Hf1; by apply advanced_ok).
  destruct r as [[h fr]|]; [|by intros [= <- <- <- <- <-]]. rewrite account_frame_spec by done.
  pose proof (stats_update_ok (ctx_stats ctx) (count_ingress 1 (if passes ctx (h, fr) then 0 else 1)
    (Z.of_nat (length fr)) (observe t (source h) (seq h) now).1) w (count_ingress_ok _ _ _ _) Hst) as Hst1.
  destruct (passes ctx (h, fr)); [|by apply IH]. destruct (send tx _) as [[] tx1]; [by apply IH|by intros [= <- <- <- <- <-]].
Qed.

(** What [forward_inbound_frames] has done when it says [Continue]. *)
Definition forwarded ctx now (frames : list (ParsedHeader * Bytes)) (t t' : SeqTracker) tx tx' w w' : Prop :=
  sent tx' = sent tx ++ (to_router ctx <$> List.filter (passes ctx) frames) /\
  t' = (observe_frames now t frames).2 /\
  w_queues w' = w_queues w /\ w_notified w' = w_notified w /\
  w_stats w' = alter (count_ingress (length frames) (length (List.filter (negb ∘ passes ctx) frames))
                 (total_bytes frames) (observe_frames now t frames).1) (ctx_stats ctx) (w_stats w).

Lemma forwarded_nil ctx now t tx w :
  map_Forall (fun _ => stats_ok) (w_stats w) -> forwarded ctx now [] t t tx tx w w.
Proof.
  intros Hst. unfold forwarded. simpl. rewrite app_nil_r. split_and!; try done. symmetry. apply alter_id.
  intros s Hs. assert (stats_ok s) as Hok by by apply (Hst (ctx_stats ctx)). unfold count_ingress. simpl.
  rewrite !fetch_add_0; try done; repeat apply fetch_add_ok; try done; apply Hok.
Qed.

(** One more frame in front. *)
Lemma forwarded_cons ctx now h fr frames t t' tx tx1 tx' w w' :
  (if passes ctx (h, fr) then sent tx1 = sent tx ++ [to_router ctx (h, fr)] else tx1 = tx) ->
  forwarded ctx now frames (observe t (source h) (seq h) now).2 t' tx1 tx'
    (stats_update (ctx_stats ctx) (count_ingress 1 (if passes ctx (h, fr) then 0 else 1) (Z.of_nat (length fr))
       (observe t (source h) (seq h) now).1) w) w' ->
  forwarded ctx now ((h, fr) :: frames) t t' tx tx' w w'.
Proof.
  intros Htx (Hs & Ht & Hq & Hn & Hw). unfold forwarded. cbn [observe_frames fst].
  destruct (observe t (source h) (seq h) now) as [lost t1]. simpl in *.
  destruct (observe_frames now t1 frames) as [more t2]. simpl in *.
  assert (Hcomp : (negb ∘ passes ctx) (h, fr) = negb (passes ctx (h, fr))) by done.
  split_and!; try done.
  - rewrite Hs. destruct (passes ctx (h, fr)); [rewrite Htx, fmap_cons, <- app_assoc; done|by rewrite Htx].
  - rewrite Hw, alter_alter_eq. apply alter_ext. intros s _. simpl. rewrite count_ingress_add.
    destruct (passes ctx (h, fr)); simpl; done.
Qed.

(** The router refused [e], the first frame after [handled]: those were forwarded, [e] was
    accounted for, and the channel did not take it. *)
Definition refused_at ctx now (handled : list (ParsedHeader * Bytes)) (e : ParsedHeader * Bytes)
    (t t' : SeqTracker) tx tx' w w' : Prop :=
  passes ctx e = true /\
  exists t1 tx1 w1, forwarded ctx now handled t t1 tx tx1 w w1 /\
    account_frame ctx now e.1 e.2 t1 w1 = (true, t', w') /\ send tx1 (to_router ctx e) = (false, tx').

(** On [Continue] every frame of the buffer was handled; on [Break] a proper prefix was,
    and the next frame found the router gone. *)
Definition forward_post ctx now (f : Framer) (t : SeqTracker) tx w (flow : ControlFlow unit) (f' : Framer)
    (t' : SeqTracker) tx' w' : Prop :=
  match flow with
  | Continue =>
      f' = advanced f (sc_resync (parse (buf f))) (sc_crc (parse (buf f))) (sc_rest (parse (buf f))) /\
      forwarded ctx now (sc_frames (parse (buf f))) t t' tx tx' w w'
  | Break _ => exists handled e rest, sc_frames (parse (buf f)) = handled ++ e :: rest /\
      refused_at ctx now handled e t t' tx tx' w w'
  end.

Lemma forward_loop_spec fuel ctx now f t tx w :
  counters_ok f -> (length (buf f) < fuel)%nat -> map_Forall (fun _ => stats_ok) (w_stats w) ->
  exists flow f' t' tx' w', forward_loop fuel ctx now f t tx w = Done (flow, f', t', tx', w') /\
    forward_post ctx now f t tx w flow f' t' tx' w'.
Proof.
  revert f t tx w; induction fuel as [|fuel IH]; intros f t tx w Hok Hf Hst; [lia|]. cbn [forward_loop].
  destruct (try_next_frame_spec f Hok) as (r & f1 & -> & dr & dc & Hdr & Hdc & Hf1 & _ & Hp).
  destruct r as [[h fr]|].
  2: { eexists _, _, _, _, _. split; [done|]. unfold forward_post. rewrite Hp. simpl. split; [exact Hf1|]. by apply forwarded_nil. }
  destruct Hp as [Hp Hlt]. rewrite account_frame_spec by done.
  set (w1 := stats_update _ _ w). set (t1 := (observe t (source h) (seq h) now).2).
  assert (Hok1 : counters_ok f1) by (rewrite Hf1; by apply advanced_ok).
  assert (Hst1 : map_Forall (fun _ => stats_ok) (w_stats w1)).
  { apply stats_update_ok; [|done]. intros s. apply count_ingress_ok. }
  assert (Hgo : forall tx1, (if passes ctx (h, fr) then sent tx1 = sent tx ++ [to_router ctx (h, fr)] else tx1 = tx) ->
    exists flow f' t' tx' w', forward_loop fuel ctx now f1 t1 tx1 w1 = Done (flow, f', t', tx', w') /\
      forward_post ctx now f t tx w flow f' t' tx' w').
  { intros tx1 Htx. destruct (IH f1 t1 tx1 w1 Hok1 ltac:(lia) Hst1) as (flow & f' & t' & tx' & w' & Hd & Hpost).
    exists flow, f', t', tx', w'. split; [done|]. unfold forward_post in *. rewrite Hp. destruct flow as [|[]].
    - destruct Hpost as [Hf' Hfw]. split; [|by eapply forwarded_cons].
      rewrite Hf'. rewrite Hf1 at 1. pose proof (scan_nonneg (buf f1)). simpl. by rewrite advanced_advanced by tauto.
    - destruct Hpost as (dn & e & rest & Hfr & He & t2 & tx2 & w2 & Hfw & Hacc & Hsend). exists ((h, fr) :: dn), e, rest.
      simpl. rewrite Hfr. split; [done|]. split; [done|]. exists t2, tx2, w2. split; [by eapply forwarded_cons|done]. }
  destruct (passes ctx (h, fr)) eqn:Ep; [|by apply (Hgo tx)].
  pose proof (send_sent tx (to_router ctx (h, fr))) as Hs. unfold to_router in Hs at 1 2; simpl in Hs.
  change {| rf_endpoint_id := ctx_endpoint_id ctx; rf_frame := fr; rf_header := h |} with (to_router ctx (h, fr)) in *.
  destruct (send tx (to_router ctx (h, fr))) as [[] tx1] eqn:Esend; simpl in Hs; [by apply (Hgo tx1)|].
  eexists _, _, _, _, _. split; [done|]. exists [], (h, fr), (sc_frames (parse (buf f1))). rewrite Hp. split; [done|].
  split; [done|]. exists t, tx, w. split; [by apply forwarded_nil|].
  split; [|exact Esend]. cbn [fst snd]. by rewrite account_frame_spec, Ep by done.
Qed.
End Ingress.
