(* ===== verification/SessionProps.v ===== *)
(** * What a session forwards and counts *)

From S2P Require Import Prelude Crc Frame MsgTable Framer FramerSpec FramerProps LruVec SeqTracker Filters EndpointStats TxQueue Identity Session.
#[local] Open Scope Z_scope.

Section Props.
Context `{MsgTable} {Q : Type} `{ArrayQueue Q} {C : Type} `{SenderLaws RouterFrame C}.
Implicit Types (w : World Q) (tx : C).

Definition world_ok w : Prop := map_Forall (fun _ => stats_ok) (w_stats w).

Lemma forward_inbound_frames_spec ctx now f t tx w :
  counters_ok f -> world_ok w ->
  exists flow f' t' tx' w', forward_inbound_frames ctx now f t tx w = Done (flow, f', t', tx', w') /\
    forward_post ctx now f t tx w flow f' t' tx' w'.
Proof. intros. apply forward_loop_spec; [done|lia|done]. Qed.

(** C11. The ingress pipeline is exact.  Forwarding always terminates without panic.  When
    it completes, the frames it handled are those the framer extracts from the buffer, in
    order; exactly those the ingress filter admits were sent to the router, stamped with
    the endpoint's id; [rx_frames], [rx_bytes], [rx_lost_est] and [in_filter_drops] grew
    by the number of frames, their bytes, the sequence gaps and the number of rejected
    frames, and nothing else in the shared store changed.  It stops early only when the router
    is gone: a frame that the ingress filter admits was accounted for and offered to the
    channel, which refused it, and the frames before it were forwarded as above. *)
Theorem ingress_pipeline_exact ctx now f t tx w :
  counters_ok f -> world_ok w ->
  exists frames f1 flow f' t' tx' w',
    drain_frames f = Done (frames, f1) /\
    forward_inbound_frames ctx now f t tx w = Done (flow, f', t', tx', w') /\
    match flow with
    | Continue => f' = f1 /\ forwarded ctx now frames t t' tx tx' w w'
    | Break _ => exists handled e rest t1 tx1 w1, frames = handled ++ e :: rest /\ passes ctx e = true /\
        forwarded ctx now handled t t1 tx tx1 w w1 /\ account_frame ctx now e.1 e.2 t1 w1 = (true, t', w') /\
        send tx1 (to_router ctx e) = (false, tx') /\
        sent tx' = sent tx ++ (to_router ctx <$> List.filter (passes ctx) handled)
    end.
Proof.
  intros Hok Hst. destruct (forward_inbound_frames_spec ctx now f t tx w Hok Hst)
    as (flow & f' & t' & tx' & w' & Hd & Hpost).
  eexists _, _, flow, f', t', tx', w'. split; [by apply drain_frames_spec|]. split; [done|].
  unfold forward_post in Hpost. destruct flow; [done|].
  destruct Hpost as (handled & e & rest & Hfr & He & t1 & tx1 & w1 & Hfw & Hacc & Hsend).
  exists handled, e, rest, t1, tx1, w1. split_and!; try done.
  pose proof (send_sent tx1 (to_router ctx e)) as Hs. rewrite Hsend in Hs. simpl in Hs. rewrite Hs. apply Hfw.
Qed.

(** ** A whole session *)

Definition read_data (i : @session_input) : Bytes := match i with SelRead (ReadOk d) _ => d | _ => [] end.

(** Inputs of a healthy session: data and successful writes. *)
Definition healthy (i : session_input) : Prop :=
  match i with SelRead (ReadOk d) _ => d <> [] | SelFrame ok => ok = true | _ => False end.

Hypothesis router_alive : forall (c : C) (x : RouterFrame), (send c x).1 = true.

Lemma forward_never_breaks fuel ctx now f t tx w flow f' t' tx' w' :
  forward_loop fuel ctx now f t tx w = Done (flow, f', t', tx', w') -> flow = Continue.
Proof.
  revert f t tx w; induction fuel as [|fuel IH]; intros f t tx w; cbn [forward_loop]; [done|].
  destruct (try_next_frame f) as [[[[h fr]|] f1]| |]; [|by intros [= <- _ _ _ _]|done|done].
  destruct (account_frame ctx now h fr t w) as [[pass t1] w1]. destruct pass; [|apply IH].
  pose proof (router_alive tx {| rf_endpoint_id := ctx_endpoint_id ctx; rf_frame := fr; rf_header := h |}) as Ha.
  destruct (send tx _) as [ok tx1]. simpl in Ha. subst ok. apply IH.
Qed.

Lemma read_turn ctx now d rd tx w :
  d <> [] -> counters_ok (rd_framer rd) -> world_ok w ->
  exists rd' tx' w', handle_read_result ctx now (ReadOk d) rd tx w = Done (Continue, rd', tx', w') /\
    (let sc := parse (buf (rd_framer rd) ++ d) in
     rd_framer rd' = advanced (rd_framer rd) (sc_resync sc) (sc_crc sc) (sc_rest sc) /\
     sent tx' = sent tx ++ (to_router ctx <$> List.filter (passes ctx) (sc_frames sc))) /\
    world_ok w'.
Proof.
  intros Hd Hok Hst. unfold handle_read_result. destruct d as [|b d]; [done|].
  destruct (forward_inbound_frames_spec ctx now (buffer_extend (rd_framer rd) (b :: d)) (rd_tracker rd) tx w)
    as (flow & f' & t' & tx' & w' & Hf & Hpost); [done|done|].
  pose proof (forward_never_breaks _ _ _ _ _ _ _ _ _ _ _ _ Hf) as ->. rewrite Hf.
  destruct Hpost as (Hf' & Hs & _ & _ & _ & Hw). eexists _, _, _. split; [done|]. simpl. split_and!; [|exact Hs|].
  - rewrite Hf'. done.
  - apply stats_update_ok; [intros s; apply sync_ok|]. rewrite Hw.
    apply (stats_update_ok (ctx_stats ctx) _ w); [intros s; apply count_ingress_ok|done].
Qed.

Lemma pop_world_ok tq w : world_ok w -> world_ok (TxQueue_pop tq w).2.
Proof. intros Hw. unfold TxQueue_pop. destruct (w_queues w !! tq_inner tq); [|done]. by destruct (aq_pop _). Qed.

(** A buffer with nothing left to extract. *)
Definition drained (b : list Z) : Prop := parse b = mk_scan 0 0 [] b.

Lemma parse_rest_drained b : drained (sc_rest (parse b)).
Proof.
  pose proof (parse_app b []) as Hp. rewrite !app_nil_r in Hp. unfold drained.
  destruct (parse (sc_rest (parse b))) as [r k fs rest]. unfold scan_cons in Hp. simpl in Hp.
  destruct (parse b) as [r0 k0 fs0 rest0]. simpl in *. injection Hp as Hr Hk Hfs Hrest. subst rest.
  assert (fs = []) as -> by (apply (f_equal length) in Hfs; rewrite length_app in Hfs; destruct fs; [done|simpl in Hfs; lia]).
  f_equal; lia.
Qed.

(** Starting from a drained buffer, the session's reader is a scan of the whole input. *)
Lemma run_session_stream ctx tq inputs s :
  Forall healthy inputs -> counters_ok (rd_framer (ss_reader s)) -> world_ok (ss_world s) ->
  drained (buf (rd_framer (ss_reader s))) ->
  exists s', run_session ctx tq (inputs ++ [SelCancelled]) s = Done (Terminated, s') /\
    let sc := parse (buf (rd_framer (ss_reader s)) ++ concat (map read_data inputs)) in
    sent (ss_tx s') = sent (ss_tx s) ++ (to_router ctx <$> List.filter (passes ctx) (sc_frames sc)) /\
    buf (rd_framer (ss_reader s')) = sc_rest sc.
Proof.
  intros HF. revert s; induction HF as [|i inputs Hi HF IH]; intros s Hok Hst Hdr.
  { exists s. split; [done|]. simpl. rewrite app_nil_r, Hdr. simpl. by rewrite app_nil_r. }
  cbn [app run_session]. destruct i as [|[d|] now|ok]; simpl in Hi; try done; unfold session_turn.
  - destruct (read_turn ctx now d (ss_reader s) (ss_tx s) (ss_world s) Hi Hok Hst)
      as (rd' & tx' & w' & -> & [Hf' Hs'] & Hw').
    pose proof (scan_nonneg (buf (rd_framer (ss_reader s)) ++ d)) as [Hr Hk].
    destruct (IH {| ss_reader := rd'; ss_tx := tx'; ss_world := w' |}) as (s' & Hrun & Hsent & Hbuf); simpl in *.
    { rewrite Hf'. by apply advanced_ok. }
    { done. }
    { rewrite Hf'. apply parse_rest_drained. }
    exists s'. split; [done|]. rewrite Hsent, Hbuf, Hs', Hf'. simpl.
    rewrite (app_assoc (buf (rd_framer (ss_reader s)))), (parse_app (_ ++ d)). simpl.
    by rewrite List.filter_app, fmap_app, app_assoc.
  - subst ok. pose proof (pop_world_ok tq (ss_world s) Hst) as Hpw.
    destruct (TxQueue_pop tq (ss_world s)) as [[frame|] w1]; simpl in Hpw |- *;
      (match goal with |- context [run_session ctx tq _ ?s1] => apply (IH s1); [done| |done] end); simpl; [|done].
    apply stats_update_ok; [|done]. intros st Hs. unfold add_tx_frame. auto with rmr.
Qed.

(** A session is transparent to how the transport cuts the stream.  Over any healthy
    run (data reads of any sizes interleaved with writes, router alive), a session started
    on a fresh reader does not end by itself, and when it is cancelled it has sent to the
    router exactly the frames a framer finds in the concatenated input and the ingress
    filter admits, in order, with the unfinished tail still buffered. *)
Theorem session_forwards_stream ctx tq inputs tx w :
  Forall healthy inputs -> world_ok w ->
  exists s', run_session ctx tq (inputs ++ [SelCancelled]) {| ss_reader := ReaderState_new; ss_tx := tx; ss_world := w |}
      = Done (Terminated, s') /\
    exists frames f1, drain_frames (buffer_extend Framer_new (concat (map read_data inputs))) = Done (frames, f1) /\
    sent (ss_tx s') = sent tx ++ (to_router ctx <$> List.filter (passes ctx) frames) /\
    buf (rd_framer (ss_reader s')) = buf f1.
Proof.
  intros HF Hw. destruct (run_session_stream ctx tq inputs {| ss_reader := ReaderState_new; ss_tx := tx; ss_world := w |}) as (s' & Hr & Hs); try done.
  exists s'. split; [done|]. rewrite drain_frames_spec by (apply buffer_extend_ok; done). eexists _, _. by split.
Qed.
End Props.

(** ** Examples *)

Module Link.
Definition ctx : SessionCtx := {| ctx_endpoint_id := 3; ctx_stats := 0; ctx_filters := Filters_default |}.
Definition tx : ListSender.t RouterFrame := {| ListSender.items := []; ListSender.open := true |}.
End Link.

Import ChunkSamples.
#[local] Existing Instance SampleTable.sample.

Lemma ingress_pipeline_exact_witness :
  exists frames f1 flow f' t' tx' w',
    drain_frames (fresh (first_read ++ second_read)) = Done (frames, f1) /\
    forward_inbound_frames Link.ctx 0 (fresh (first_read ++ second_read)) (SeqTracker_new 4) Link.tx (sample_world (aq_new 2))
      = Done (flow, f', t', tx', w').
Proof.
  destruct (ingress_pipeline_exact Link.ctx 0 (fresh (first_read ++ second_read)) (SeqTracker_new 4) Link.tx
    (sample_world (aq_new 2)) (fresh_ok _) (sample_world_ok _)) as (fs & f1 & flow & f' & t' & tx' & w' & Hd & Hf & _).
  exists fs, f1, flow, f', t', tx', w'. split; assumption.
Defined.

Lemma session_forwards_stream_witness :
  exists s', run_session Link.ctx sample_queue ([SelRead (ReadOk first_read) 0; SelFrame true; SelRead (ReadOk second_read) 5] ++ [SelCancelled])
     {| ss_reader := ReaderState_new; ss_tx := {| LiveSender.log := [] |}; ss_world := sample_world (aq_new 2) |} = Done (Terminated, s') /\
   exists frames f1, drain_frames (fresh (first_read ++ second_read)) = Done (frames, f1) /\
     buf (rd_framer (ss_reader s')) = buf f1 /\ length (sent (ss_tx s')) = length (List.filter (passes Link.ctx) frames).
Proof.
  destruct (session_forwards_stream (C := LiveSender.t RouterFrame) (LiveSender.alive _) Link.ctx sample_queue
    [SelRead (ReadOk first_read) 0; SelFrame true; SelRead (ReadOk second_read) 5] {| LiveSender.log := [] |} (sample_world (aq_new 2)))
    as (s' & Hr & frames & f1 & Hd & Hs & Hb).
  - repeat constructor; discriminate.
  - apply sample_world_ok.
  - exists s'. split; [assumption|]. exists frames, f1. split; [exact Hd|]. split; [exact Hb|]. rewrite Hs. apply length_map.
Defined.
