(* ===== verification/Backoff.v ===== *)
(** * Reconnect backoff ([src/src/endpoint/backoff.rs], [wait_or_cancel] of [src/src/endpoint/mod.rs])

    Durations are whole milliseconds: every one of them is built by [Duration::from_millis],
    doubled, or taken as a minimum. *)

From S2P Require Import Prelude.
#[local] Open Scope Z_scope.

(** [struct Xorshift(u64)] *)
Definition shl64 (x k : Z) : Z := wrap 64 (Z.shiftl x k).

(** [Xorshift::seeded_from_clock], from the nanoseconds since the epoch; a clock before it has
    none. *)
Definition seeded_from_clock (since_epoch : option Z) : Z :=
  let nanos := match since_epoch with Some duration => wrap 64 duration | None => 0xdeadbeefcafebabe end in
  Z.lor nanos 1.

(** [Xorshift::next]: the new state is also the number returned. *)
Definition xorshift_next (state : Z) : Z :=
  let state := Z.lxor state (shl64 state 13) in
  let state := Z.lxor state (Z.shiftr state 7) in
  Z.lxor state (shl64 state 17).

(** [struct Backoff] *)
Record Backoff := { bo_initial : Z; bo_max : Z; bo_current : Z; bo_rng : Z }.

(** [Backoff::new(initial_ms, max_ms)] *)
Definition Backoff_new (initial_ms max_ms : Z) (since_epoch : option Z) : Backoff :=
  let initial_ms := Z.max initial_ms 1 in
  let max_ms := Z.max max_ms initial_ms in
  {| bo_initial := initial_ms; bo_max := max_ms; bo_current := initial_ms; bo_rng := seeded_from_clock since_epoch |}.

Definition Backoff_reset (b : Backoff) : Backoff :=
  {| bo_initial := bo_initial b; bo_max := bo_max b; bo_current := bo_initial b; bo_rng := bo_rng b |}.

(** [x as i64] *)
Definition as_i64 (x : Z) : Z := (x + 2 ^ 63) mod 2 ^ 64 - 2 ^ 63.

(** [fn next_delay(&mut self) -> Duration].  The [i64] operations wrap, as in a release build;
    they are exact up to a base of 2^62 ms ([backoff_ok]). *)
Definition next_delay (b : Backoff) : Z * Backoff :=
  let base_ms := bo_current b in
  let jitter_range := base_ms / 5 in
  let span := jitter_range * 2 + 1 in
  let rng := xorshift_next (bo_rng b) in
  let jitter := as_i64 (as_i64 (rng mod span) - as_i64 jitter_range) in
  let jittered_ms := Z.max (as_i64 (as_i64 base_ms + jitter)) 1 in
  (jittered_ms,
   {| bo_initial := bo_initial b; bo_max := bo_max b; bo_current := Z.min (bo_current b * 2) (bo_max b); bo_rng := rng |}).

(** [enum BindOutcome<T>] *)
Inductive BindOutcome (T : Type) := Bound (t : T) | Cancelled.
Arguments Bound {T} t.
Arguments Cancelled {T}.

(** One round of [bind_with_backoff] as the environment answers it: whether the token was
    cancelled at the check, what [bind_fn] returned, and whether the wait that follows a
    failure ran to its end ([wait_or_cancel] returns [true]). *)
Record bind_round (T : Type) := { br_cancelled : bool; br_bind : option T; br_waited : bool }.
Arguments br_cancelled {T}.
Arguments br_bind {T}.
Arguments br_waited {T}.

(** [async fn bind_with_backoff(cancel, backoff, addr, bind_fn) -> BindOutcome<T>], with the
    delays it slept. *)
Fixpoint bind_with_backoff {T} (rounds : list (bind_round T)) (b : Backoff) : outcome (BindOutcome T * Backoff * list Z) :=
  match rounds with
  | [] => OutOfFuel
  | r :: rest =>
      if br_cancelled r then Done (Cancelled, b, [])
      else match br_bind r with
      | Some bound => Done (Bound bound, Backoff_reset b, [])
      | None =>
          let '(delay, b) := next_delay b in
          if negb (br_waited r) then Done (Cancelled, b, [delay])
          else
            let! (out, b, delays) := bind_with_backoff rest b in
            Done (out, b, delay :: delays)
      end
  end.

(** ** The generator never sticks at zero *)

Lemma shl64_range x k : in_width 64 (shl64 x k).
Proof. apply wrap_range. lia. Qed.

(** A left-shifted xor of a non-zero state is non-zero: [x = (x << k) mod 2^64] makes every
    bit of [x] equal to the bit [k] places below it, down to bits that are zero. *)
Lemma lxor_shl_nonzero x k : 0 < k -> in_width 64 x -> x <> 0 -> Z.lxor x (shl64 x k) <> 0.
Proof.
  intros Hk Hx Hnz Heq. apply Z.lxor_eq in Heq. apply Hnz. apply Z.bits_inj'. intros i Hi. rewrite Z.bits_0.
  destruct (Z.lt_ge_cases i 64) as [Hlt|Hge].
  2: { apply Z.bits_above_log2; [apply Hx|]. apply Z.log2_lt_pow2; unfold in_width in Hx; [lia|].
       assert (2 ^ 64 <= 2 ^ i) by (apply Z.pow_le_mono_r; lia). lia. }
  revert Hlt. pattern i. apply Zlt_0_ind; [|done]. clear i Hi. intros i IH Hi Hlt.
  rewrite Heq. unfold shl64, wrap. rewrite Z.mod_pow2_bits_low by lia. rewrite Z.shiftl_spec by lia.
  destruct (Z.lt_ge_cases (i - k) 0); [by apply Z.testbit_neg_r|]. apply IH; lia.
Qed.

Lemma lxor_shr_nonzero x k : 0 < k -> 0 < x -> Z.lxor x (Z.shiftr x k) <> 0.
Proof.
  intros Hk Hx Heq. apply Z.lxor_eq in Heq. rewrite Z.shiftr_div_pow2 in Heq by lia.
  assert (1 < 2 ^ k) by (apply Z.pow_gt_1; lia).
  pose proof (Z.div_lt x (2 ^ k) Hx ltac:(lia)). lia.
Qed.

Lemma lxor_range w a b : 0 <= w -> in_width w a -> in_width w b -> in_width w (Z.lxor a b).
Proof.
  intros Hw Ha Hb. unfold in_width in *. assert (Hn : 0 <= Z.lxor a b) by (apply Z.lxor_nonneg; split; intros; lia).
  split; [done|]. destruct (Z.eq_dec a 0) as [->|Ha0]; [rewrite Z.lxor_0_l; lia|].
  destruct (Z.eq_dec b 0) as [->|Hb0]; [rewrite Z.lxor_0_r; lia|].
  destruct (Z.eq_dec (Z.lxor a b) 0) as [->|Hne]; [lia|]. apply Z.log2_lt_pow2; [lia|].
  eapply Z.le_lt_trans; [apply Z.log2_lxor; lia|]. apply Z.max_lub_lt; apply Z.log2_lt_pow2; lia.
Qed.

Definition rng_ok (x : Z) : Prop := in_width 64 x /\ x <> 0.

Lemma xorshift_next_ok x : rng_ok x -> rng_ok (xorshift_next x).
Proof.
  intros [Hx Hnz]. unfold xorshift_next. set (a := Z.lxor x (shl64 x 13)).
  assert (Ha : rng_ok a) by (split; [apply lxor_range; [lia|done|apply shl64_range]|by apply lxor_shl_nonzero]).
  clearbody a. set (b := Z.lxor a (Z.shiftr a 7)).
  assert (Hb : rng_ok b).
  { destruct Ha as [Ha Ha0]. unfold in_width in Ha. split; [|apply lxor_shr_nonzero; lia].
    apply lxor_range; [lia|done|]. unfold in_width. rewrite Z.shiftr_div_pow2 by lia.
    split; [apply Z.div_pos; lia|]. apply Z.div_lt_upper_bound; lia. }
  clearbody b. destruct Hb as [Hb Hb0].
  split; [apply lxor_range; [lia|done|apply shl64_range]|by apply lxor_shl_nonzero].
Qed.

Lemma seeded_ok since_epoch : rng_ok (seeded_from_clock since_epoch).
Proof.
  unfold seeded_from_clock. destruct since_epoch as [duration|]; [|by split; vm_compute].
  pose proof (wrap_range 64 duration ltac:(lia)) as Hw. cbv zeta. set (nanos := wrap 64 duration) in *. unfold in_width in Hw.
  assert (Hodd : Z.testbit (Z.lor nanos 1) 0 = true) by (rewrite Z.lor_spec; by rewrite orb_true_r).
  split.
  - unfold in_width. assert (0 <= Z.lor nanos 1) by (apply Z.lor_nonneg; lia). split; [done|].
    apply Z.log2_lt_pow2; [destruct (Z.eq_dec (Z.lor nanos 1) 0) as [E|]; [rewrite E in Hodd; done|lia]|].
    rewrite Z.log2_lor by lia. apply Z.max_lub_lt; [|simpl; lia].
    destruct (Z.eq_dec nanos 0) as [->|]; [simpl; lia|]. apply Z.log2_lt_pow2; lia.
  - intros E. by rewrite E in Hodd.
Qed.

(** ** The curve *)

(** Bounds that keep every cast exact: the configured maximum is at most 2^62 ms. *)
Record backoff_ok (b : Backoff) : Prop := {
  bo_pos : 1 <= bo_initial b;
  bo_range : bo_initial b <= bo_current b <= bo_max b;
  bo_small : bo_max b <= 2 ^ 62;
  bo_rng_ok : rng_ok (bo_rng b);
}.

Lemma Backoff_new_ok i m clock : m <= 2 ^ 62 -> i <= 2 ^ 62 -> backoff_ok (Backoff_new i m clock).
Proof. intros Hm Hi. split; simpl; try lia. apply seeded_ok. Qed.

Lemma as_i64_small x : - 2 ^ 63 <= x < 2 ^ 63 -> as_i64 x = x.
Proof. intros Hx. unfold as_i64. rewrite Z.mod_small by lia. lia. Qed.

Lemma next_delay_spec b :
  backoff_ok b ->
  backoff_ok (next_delay b).2 /\ bo_current (next_delay b).2 = Z.min (bo_current b * 2) (bo_max b) /\
  bo_initial (next_delay b).2 = bo_initial b /\ bo_max (next_delay b).2 = bo_max b /\
  1 <= (next_delay b).1 /\
  bo_current b - bo_current b / 5 <= (next_delay b).1 <= bo_current b + bo_current b / 5.
Proof.
  intros [Hp Hr Hs Hg]. unfold next_delay. simpl.
  assert (H5 : 0 <= bo_current b / 5 <= bo_current b).
  { split; [apply Z.div_pos; lia|]. apply Z.div_le_upper_bound; lia. }
  assert (Hlt : bo_current b / 5 < bo_current b) by (apply Z.div_lt; lia).
  pose proof (Z.mod_pos_bound (xorshift_next (bo_rng b)) (bo_current b / 5 * 2 + 1) ltac:(lia)) as Hm.
  set (r := xorshift_next (bo_rng b) mod _) in *.
  rewrite (as_i64_small r), (as_i64_small (bo_current b / 5)), (as_i64_small (bo_current b)), (as_i64_small (r - _)), as_i64_small by lia.
  split_and!; try done; try lia. split; simpl; try lia. by apply xorshift_next_ok.
Qed.

Lemma Backoff_reset_ok b : backoff_ok b -> backoff_ok (Backoff_reset b).
Proof. intros [Hp Hr Hs Hg]. split; simpl; try done; lia. Qed.

(** The base of the [n]-th consecutive delay. *)
Definition curve (b : Backoff) (n : nat) : Z := Z.min (bo_current b * 2 ^ Z.of_nat n) (bo_max b).

Fixpoint delays (n : nat) (b : Backoff) : list Z * Backoff :=
  match n with
  | O => ([], b)
  | S n' => let '(d, b) := next_delay b in let '(ds, b) := delays n' b in (d :: ds, b)
  end.

Lemma curve_step b n : backoff_ok b -> curve (next_delay b).2 n = curve b (S n).
Proof.
  intros Hok. destruct (next_delay_spec b Hok) as (_ & Hc & _ & Hm & _). destruct Hok as [? ? ? ?].
  unfold curve. rewrite Hc, Hm, Nat2Z.inj_succ, Z.pow_succ_r by lia.
  assert (1 <= 2 ^ Z.of_nat n) by (pose proof (Z.pow_pos_nonneg 2 (Z.of_nat n)); lia). nia.
Qed.

Lemma delays_curve n b k d :
  backoff_ok b -> (delays n b).1 !! k = Some d ->
  1 <= d /\ curve b k - curve b k / 5 <= d <= curve b k + curve b k / 5.
Proof.
  revert b k; induction n as [|n IH]; intros b k Hok; cbn [delays]; [done|].
  destruct (next_delay_spec b Hok) as (Hok' & _ & _ & _ & H1 & Hb). pose proof (curve_step b) as Hstep.
  destruct (next_delay b) as [d0 b']. simpl in *. specialize (IH b'). destruct (delays n b') as [ds b''].
  destruct k as [|k]; simpl.
  - intros [= <-]. assert (curve b 0 = bo_current b) as -> by (unfold curve; destruct Hok; simpl; lia). lia.
  - intros Hk. rewrite <- Hstep by done. by apply IH.
Qed.

(** The reconnect curve.  The delays between consecutive failed attempts follow
    [min(initial * 2^k, max)] within 20 per cent either way, are never shorter than one
    millisecond, and the jitter generator never degenerates to zero; all without overflow for
    any configured maximum up to 2^62 ms. *)
Theorem backoff_follows_curve i m clock n k d :
  1 <= i -> i <= m -> m <= 2 ^ 62 ->
  (delays n (Backoff_new i m clock)).1 !! k = Some d ->
  let base := Z.min (i * 2 ^ Z.of_nat k) m in
  1 <= d /\ base - base / 5 <= d <= base + base / 5 /\ rng_ok (bo_rng (delays n (Backoff_new i m clock)).2).
Proof.
  intros Hi Him Hm Hk base. assert (Hok : backoff_ok (Backoff_new i m clock)) by (apply Backoff_new_ok; lia).
  destruct (delays_curve n _ k d Hok Hk) as [H1 Hb]. unfold curve in Hb. simpl in Hb.
  replace (Z.max i 1) with i in Hb by lia. replace (Z.max m i) with m in Hb by lia. split_and!; [done|apply Hb|apply Hb|].
  clear Hk Hb H1 base. revert Hok. generalize (Backoff_new i m clock). induction n as [|n IH]; intros b Hok; cbn [delays].
  - apply Hok.
  - destruct (next_delay_spec b Hok) as (Hok' & _). destruct (next_delay b) as [d0 b']. simpl in *.
    specialize (IH b' Hok'). by destruct (delays n b').
Qed.

Lemma backoff_follows_curve_witness :
  exists d, (delays 3 (Backoff_new 250 30000 (Some 12345))).1 !! 2%nat = Some d /\ 800 <= d <= 1200.
Proof.
  destruct ((delays 3 (Backoff_new 250 30000 (Some 12345))).1 !! 2%nat) as [d|] eqn:E; [|vm_compute in E; discriminate E].
  exists d. split; [reflexivity|].
  destruct (backoff_follows_curve 250 30000 (Some 12345) 3 2 d ltac:(lia) ltac:(lia) ltac:(lia) E) as (_ & Hb & _).
  change (Z.min (250 * 2 ^ Z.of_nat 2) 30000) with 1000 in Hb. change (1000 / 5) with 200 in Hb. lia.
Defined.

(** ** Binding *)

(** A script on which [bind_with_backoff] returns: some round ends it. *)
Definition bind_ends {T} (rounds : list (bind_round T)) : bool :=
  existsb (fun r => br_cancelled r || (match br_bind r with Some _ => true | None => false end) || negb (br_waited r)) rounds.

Lemma bind_with_backoff_total {T} (rounds : list (bind_round T)) b :
  bind_ends rounds = true -> exists out b' slept, bind_with_backoff rounds b = Done (out, b', slept).
Proof.
  revert b; induction rounds as [|r rounds IH]; intros b; cbn [bind_ends existsb bind_with_backoff]; [done|].
  destruct (br_cancelled r); [by eexists _, _, _|]. destruct (br_bind r) as [t|]; [by eexists _, _, _|].
  destruct (next_delay b) as [d b1]. destruct (br_waited r); cbn [orb negb]; [|by eexists _, _, _].
  intros Hr. destruct (IH b1 Hr) as (out & b' & slept & Hb). rewrite Hb. by eexists _, _, _.
Qed.

(** Binding with backoff.  It returns the resource of the first successful attempt, with
    the curve reset, after sleeping one curve delay per failed attempt, provided no
    cancellation was seen before; otherwise it returns [Cancelled] at the first cancelled
    check or interrupted wait. *)
Theorem bind_with_backoff_outcome {T} (failures : list (bind_round T)) (last : bind_round T) rest b :
  Forall (fun r => br_cancelled r = false /\ br_bind r = None /\ br_waited r = true) failures ->
  let '(slept, b') := delays (length failures) b in
  let result := bind_with_backoff (failures ++ last :: rest) b in
  (br_cancelled last = true -> result = Done (Cancelled, b', slept)) /\
  (forall t, br_cancelled last = false -> br_bind last = Some t -> result = Done (Bound t, Backoff_reset b', slept)) /\
  (br_cancelled last = false -> br_bind last = None -> br_waited last = false ->
     result = Done (Cancelled, (next_delay b').2, slept ++ [(next_delay b').1])).
Proof.
  intros HF. revert b. induction HF as [|r failures (Hc & Hb & Hw) _ IH]; intros b; cbn [app length delays bind_with_backoff].
  - split_and!; [by intros ->|by intros t -> ->|]. intros -> -> ->. by destruct (next_delay b).
  - rewrite Hc, Hb, Hw. simpl negb. destruct (next_delay b) as [d b1] eqn:E. specialize (IH b1).
    destruct (delays (length failures) b1) as [ds b2]. destruct IH as (H1 & H2 & H3). split_and!.
    + intros Hl. by rewrite H1.
    + intros t Hl Ht. by rewrite (H2 t).
    + intros Hl Ht Hw'. by rewrite H3.
Qed.

Lemma bind_with_backoff_outcome_witness :
  exists b' slept, bind_with_backoff [{| br_cancelled := false; br_bind := None; br_waited := true |};
      {| br_cancelled := false; br_bind := Some 7; br_waited := true |}] (Backoff_new 250 30000 (Some 9)) = Done (Bound 7, b', slept).
Proof.
  pose proof (bind_with_backoff_outcome [{| br_cancelled := false; br_bind := None; br_waited := true |}]
    {| br_cancelled := false; br_bind := Some 7; br_waited := true |} [] (Backoff_new 250 30000 (Some 9))) as H.
  destruct (delays _ (Backoff_new 250 30000 (Some 9))) as [slept b'].
  exists (Backoff_reset b'), slept. apply H; [repeat constructor | reflexivity | reflexivity].
Defined.

(** ** Against the clock

    Moments are milliseconds; the token is cancelled at [cancelled], or never. *)

(** [cancel.is_cancelled()] *)
Definition is_cancelled (cancelled : option Z) (now : Z) : bool :=
  match cancelled with Some c => c <=? now | None => false end.

(** [pub async fn wait_or_cancel(cancel, delay) -> bool], and when it returns.  The select
    is biased: when both are ready the cancellation wins. *)
Definition wait_or_cancel (cancelled : option Z) (now delay : Z) : bool * Z :=
  match cancelled with
  | Some c => if c <=? now + delay then (false, Z.max c now) else (true, now + delay)
  | None => (true, now + delay)
  end.

(** [bind_with_backoff] started at [now]; [bind_fn] is what an attempt at a moment gives.
    Also when it returned, and the rounds it went through. *)
Fixpoint bind_at {T} (fuel : nat) (cancelled : option Z) (bind_fn : Z -> option T) (now : Z) (b : Backoff)
    : outcome (BindOutcome T * Backoff * Z * list (bind_round T)) :=
  match fuel with
  | O => OutOfFuel
  | S fuel' =>
      let round waited := {| br_cancelled := is_cancelled cancelled now; br_bind := bind_fn now; br_waited := waited |} in
      if is_cancelled cancelled now then Done (Cancelled, b, now, [round true])
      else match bind_fn now with
      | Some bound => Done (Bound bound, Backoff_reset b, now, [round true])
      | None =>
          let '(delay, b) := next_delay b in
          let '(waited, now) := wait_or_cancel cancelled now delay in
          if negb waited then Done (Cancelled, b, now, [round false])
          else
            let! (out, b, at_time, rounds) := bind_at fuel' cancelled bind_fn now b in
            Done (out, b, at_time, round true :: rounds)
      end
  end.

Lemma next_delay_pos b : 1 <= (next_delay b).1.
Proof. unfold next_delay. cbn. lia. Qed.

(** The clocked version is a run of [bind_with_backoff]. *)
Lemma bind_at_rounds {T} fuel cancelled (bind_fn : Z -> option T) now b out b' t rounds :
  bind_at fuel cancelled bind_fn now b = Done (out, b', t, rounds) ->
  exists slept, bind_with_backoff rounds b = Done (out, b', slept).
Proof.
  revert now b out b' t rounds; induction fuel as [|fuel IH]; intros now b out b' t rounds; cbn [bind_at]; [done|].
  destruct (is_cancelled cancelled now) eqn:Ec; [intros [= <- <- <- <-]; cbn; eauto|].
  destruct (bind_fn now) as [x|] eqn:Eb; [intros [= <- <- <- <-]; cbn; rewrite ?Ec, ?Eb; eauto|].
  destruct (next_delay b) as [d b1] eqn:Ed. destruct (wait_or_cancel cancelled now d) as [[|] now']; cbn [negb].
  - destruct (bind_at fuel cancelled bind_fn now' b1) as [[[[o b2] t2] rs]| |] eqn:E; try done. intros [= <- <- <- <-].
    apply IH in E as [slept E]. cbn [bind_with_backoff br_cancelled br_bind br_waited negb]. rewrite Ed. cbn [negb]. rewrite E. eauto.
  - intros [= <- <- <- <-]. cbn [bind_with_backoff br_cancelled br_bind br_waited negb]. rewrite Ed. eauto.
Qed.


