(* ===== verification/Endpoint.v ===== *)
(** * What every endpoint task shares ([src/src/endpoint/mod.rs], [defaults.rs])

    Default values, the name of a sub-endpoint, and the allocation of a stats object. *)

From S2P Require Import Prelude RustStr RustNet EndpointStats TxQueue.
#[local] Open Scope Z_scope.

Definition DEFAULT_TX_QUEUE_FRAMES : nat := 256.
Definition DEFAULT_RECONNECT_INITIAL_MS : Z := 250.
Definition DEFAULT_RECONNECT_MAX_MS : Z := 30000.
Definition DEFAULT_DEDUP_WINDOW_CAPACITY : nat := 4096.

(** [Duration::from_secs], in nanoseconds. *)
Definition from_secs (s : Z) : Z := s * 1000000000.

(** [impl Display for EndpointId] *)
Definition EndpointId_fmt (id : Z) : string := show_uint id.

(** [fn peer_endpoint_name(parent_name, addr) -> String] *)
Definition peer_endpoint_name (parent_name : string) (addr : SocketAddr) : string :=
  match addr_ip addr with
  | V4 _ => parent_name ++s "/" ++s show_ip (addr_ip addr) ++s "-" ++s show_uint (addr_port addr)
  | V6 _ => parent_name ++s "/[" ++s show_ip (addr_ip addr) ++s "]-" ++s show_uint (addr_port addr)
  end.

(** [Arc::new(EndpointStats::new(state))] *)
Definition stats_alloc {Q} (state : EndpointState) (w : World Q) : nat * World Q :=
  let h := fresh (dom (w_stats w)) in
  (h, {| w_stats := <[h := EndpointStats_new state]> (w_stats w); w_queues := w_queues w; w_notified := w_notified w |}).
