(* ===== verification/AddrProps.v ===== *)
(** * Addresses round trip

    What [std::net] prints for an address, the listen-address parser reads back; so the
    names of sub-endpoints tell their peers apart. *)

From Stdlib Require Import Ascii.
From S2P Require Import Prelude RustStr RustNet Frame Filters TxQueue Identity FilterParse Spec SpecProps EndpointStats Endpoint.
#[local] Open Scope string_scope.
#[local] Open Scope Z_scope.

(** ** IPv4 *)

Definition ends_number (radix : Z) (rest : string) : Prop :=
  match rest with EmptyString => True | String c _ => to_digit radix c = None end.

Lemma read_digits_app radix max left count acc s rest n c :
  read_digits radix max left count acc s = Some (n, c, "") -> ends_number radix rest ->
  read_digits radix max left count acc (s ++s rest) = Some (n, c, rest).
Proof.
  revert left count acc; induction s as [|d s IH]; intros left count acc; simpl.
  - intros Heq Hr. simplify_eq. destruct rest as [|d rest]; [done|].
    change ("" ++s String d rest) with (String d rest). cbn [ends_number read_digits] in *. by rewrite Hr.
  - destruct (to_digit radix d) as [v|]; [|done]. destruct (max <? acc * radix + v); [done|].
    destruct left as [|left]; [done|]. apply IH.
Qed.

(** All 256 octets, printed, are read back in full. *)
Lemma octets_checked :
  forallb (fun n => match read_digits 10 255 3 0 0 (show_uint n) with
                    | Some (m, c, "") => (m =? n) && negb (c =? 0)%nat &&
                        negb (match show_uint n with String d _ => Ascii.eqb d "0" | _ => false end && (1 <? c)%nat)
                    | _ => false end) (map Z.of_nat (List.seq 0 256)) = true.
Proof. vm_compute. reflexivity. Qed.

Lemma read_octet_number n rest :
  0 <= n <= 255 -> ends_number 10 rest -> read_number 10 255 3 false (show_uint n ++s rest) = Some (n, rest).
Proof.
  intros Hn Hr. pose proof octets_checked as Hc. rewrite forallb_forall in Hc.
  assert (Hin : In n (map Z.of_nat (List.seq 0 256))).
  { apply in_map_iff. exists (Z.to_nat n). split; [lia|]. apply in_seq. lia. }
  specialize (Hc n Hin). destruct (read_digits 10 255 3 0 0 (show_uint n)) as [[[m c] [|]]|] eqn:E; try done.
  bool_hyps. subst m. unfold read_number. rewrite (read_digits_app _ _ _ _ _ _ rest n c E Hr).
  destruct (c =? 0)%nat; [done|]. simpl.
  destruct (show_uint_nonempty n ltac:(lia)) as (d & s & Es). rewrite Es in *. simpl. by destruct (Ascii.eqb d "0" && _).
Qed.

Lemma read_show_ipv4 a b c d rest :
  0 <= a <= 255 -> 0 <= b <= 255 -> 0 <= c <= 255 -> 0 <= d <= 255 -> ends_number 10 rest ->
  read_ipv4_addr (show_ipv4 [a; b; c; d] ++s rest) = Some ([a; b; c; d], rest).
Proof.
  intros Ha Hb Hc Hd Hr. unfold show_ipv4, read_ipv4_addr. simpl map. cbn [join_char].
  rewrite !append_assoc. unfold read_octet, read_separator. cbn [Nat.eqb].
  assert (Hdot : forall x, ends_number 10 (String "." x)) by done.
  assert (Hstrip : forall x, strip_prefix_char "." (String "." x) = Some x) by done.
  assert (Happ : forall x y, String "." x ++s y = String "." (x ++s y)) by done.
  repeat (rewrite read_octet_number by done; cbv beta iota; rewrite ?Happ, ?append_assoc, ?Hstrip; cbv beta iota).
  done.
Qed.

(** ** IPv6 *)

(** A run of hexadecimal digits. *)
Definition is_hex (c : ascii) : bool := match hex_val c with Some _ => true | None => false end.

Lemma hex_digit_back d : 0 <= d < 16 -> to_digit 16 (hex_char d) = Some d.
Proof.
  intros Hd. assert (Hin : In d (map Z.of_nat (List.seq 0 16))) by (apply in_map_iff; exists (Z.to_nat d); split; [lia|]; apply in_seq; lia).
  revert Hin. apply (proj1 (List.Forall_forall (fun d => to_digit 16 (hex_char d) = Some d) _)). repeat constructor.
Qed.

(** Up to four digits, most significant first. *)
Definition hex_digits (n : Z) : list Z :=
  if n <? 16 then [n mod 16]
  else if n / 16 <? 16 then [n / 16 mod 16; n mod 16]
  else if n / 16 / 16 <? 16 then [n / 16 / 16 mod 16; n / 16 mod 16; n mod 16]
  else [n / 16 / 16 / 16 mod 16; n / 16 / 16 mod 16; n / 16 mod 16; n mod 16].

Definition hex_text (l : list Z) (rest : string) : string := foldr (fun d s => String (hex_char d) s) rest l.

Lemma hex_text_app l s rest : hex_text l s ++s rest = hex_text l (s ++s rest).
Proof. induction l as [|d l IH]; [done|]. change (String (hex_char d) (hex_text l s ++s rest) = String (hex_char d) (hex_text l (s ++s rest))). by rewrite IH. Qed.

Lemma show_hex_text n rest : show_hex n ++s rest = hex_text (hex_digits n) rest.
Proof.
  assert (Hs : show_hex n = hex_text (hex_digits n) "").
  { unfold show_hex, hex_digits. cbn [show_hex_digits]. destruct (n <? 16); [done|]. destruct (n / 16 <? 16); [done|].
    destruct (n / 16 / 16 <? 16); [done|]. by destruct (n / 16 / 16 / 16 <? 16). }
  rewrite Hs. apply hex_text_app.
Qed.

Lemma hex_digits_range n : Forall (fun d => 0 <= d < 16) (hex_digits n).
Proof. unfold hex_digits. repeat case_match; repeat constructor; try (apply Z.mod_pos_bound; lia). Qed.

Lemma read_hex n rest : 0 <= n <= 65535 -> ends_number 16 rest -> read_number 16 65535 4 true (show_hex n ++s rest) = Some (n, rest).
Proof.
  intros Hn Hr. rewrite show_hex_text. unfold read_number. cbn [negb andb].
  assert (Hend : forall left count acc, read_digits 16 65535 left count acc rest = Some (acc, count, rest)).
  { intros. destruct rest as [|c rest]; [done|]. cbn [read_digits ends_number] in *. by rewrite Hr. }
  assert (Hstep : forall left count acc d s, 0 <= d < 16 -> acc * 16 + d <= 65535 ->
    read_digits 16 65535 (S left) count acc (String (hex_char d) s) = read_digits 16 65535 left (S count) (acc * 16 + d) s).
  { intros left count acc d s Hd Hm. cbn [read_digits]. rewrite hex_digit_back by done. by rewrite (proj2 (Z.ltb_ge _ _)) by lia. }
  unfold hex_digits.
  destruct (Z.ltb_spec n 16); [|destruct (Z.ltb_spec (n / 16) 16); [|destruct (Z.ltb_spec (n / 16 / 16) 16)]]; cbn [hex_text foldr];
    rewrite !Hstep, Hend by (Z.div_mod_to_equations; lia); cbn [Nat.eqb]; do 2 f_equal; Z.div_mod_to_equations; lia.
Qed.

(** Hexadecimal digits followed by something that is not a dot are not an IPv4 address. *)
Definition no_dot (s : string) : bool := match s with String "." _ => false | _ => true end.

Lemma no_dot_strip s : no_dot s = true -> strip_prefix_char "." s = None.
Proof. destruct s as [|c s]; [done|]. cbn. destruct (Ascii.eqb_spec c "."); [by subst|done]. Qed.

Lemma hex_not_dot c : is_hex c = true -> c <> "."%char.
Proof. by intros Hc ->. Qed.

Lemma read_digits_hex h t max left count acc n c r :
  str_forallb is_hex h = true -> ends_number 16 t -> no_dot t = true ->
  read_digits 10 max left count acc (h ++s t) = Some (n, c, r) -> no_dot r = true.
Proof.
  revert left count acc; induction h as [|d h IH]; intros left count acc Hh Ht Hd.
  - change ("" ++s t) with t. destruct t as [|d t]; [by intros [= _ _ <-]|]. cbn [read_digits].
    assert (Hn : to_digit 10 d = None).
    { cbn in Ht. unfold to_digit in *. destruct (hex_val d) as [v|]; [|done]. destruct (Z.ltb_spec v 16), (Z.ltb_spec v 10); done || lia. }
    rewrite Hn. by intros [= _ _ <-].
  - cbn in Hh. apply andb_prop in Hh as [Hc Hh]. change (String d h ++s t) with (String d (h ++s t)). cbn [read_digits].
    destruct (to_digit 10 d) as [v|].
    + destruct (max <? acc * 10 + v); [done|]. destruct left as [|left]; [done|]. by apply IH.
    + intros [= _ _ <-]. cbn. apply hex_not_dot in Hc. by destruct (Ascii.eqb_spec d "."); repeat case_match.
Qed.

Lemma hex_no_octet h t i n r :
  str_forallb is_hex h = true -> ends_number 16 t -> no_dot t = true -> i = 0%nat ->
  read_octet i (h ++s t) = Some (n, r) -> no_dot r = true.
Proof.
  intros Hh Ht Hd -> Ho. change (read_number 10 255 3 false (h ++s t) = Some (n, r)) in Ho. unfold read_number in Ho.
  destruct (read_digits 10 255 3 0 0 (h ++s t)) as [[[m c] r']|] eqn:E; [|done]. apply read_digits_hex in E; [|done..].
  destruct (c =? 0)%nat; [done|]. destruct (_ && _); [done|]. by injection Ho as _ <-.
Qed.

Lemma hex_no_ipv4 h t : str_forallb is_hex h = true -> ends_number 16 t -> no_dot t = true -> read_ipv4_addr (h ++s t) = None.
Proof.
  intros Hh Ht Hd. unfold read_ipv4_addr. destruct (read_octet 0 (h ++s t)) as [[n r]|] eqn:E; [|done].
  apply hex_no_octet in E; [|done..].
  assert (Hn : read_octet 1 r = None) by (unfold read_octet, read_separator; cbn [Nat.eqb]; by rewrite no_dot_strip).
  by rewrite Hn.
Qed.

Lemma show_hex_is_hex n : 0 <= n -> str_forallb is_hex (show_hex n) = true.
Proof.
  intros Hn. rewrite <- (append_nil_r (show_hex n)), show_hex_text. pose proof (hex_digits_range n) as HF.
  induction HF as [|d l Hd HF IH]; [done|].
  change (is_hex (hex_char d) && str_forallb is_hex (hex_text l "") = true). rewrite IH, andb_true_r. unfold is_hex.
  pose proof (hex_digit_back d Hd) as Hb. unfold to_digit in Hb. by destruct (hex_val (hex_char d)).
Qed.

(** Groups as the reader meets them: a colon before each but the first. *)
Fixpoint groups_text (sep : bool) (gs : list Z) (rest : string) : string :=
  match gs with
  | [] => rest
  | g :: gs => (if sep then ":" else "") ++s show_hex g ++s groups_text true gs rest
  end.

Lemma fmt_subslice_text gs rest : fmt_subslice gs ++s rest = groups_text false gs rest.
Proof.
  unfold fmt_subslice. induction gs as [|g gs IH]; [done|]. cbn [map]. destruct gs as [|g' gs]; [done|].
  change (join_char ":" (show_hex g :: map show_hex (g' :: gs))) with (show_hex g ++s String ":" (join_char ":" (map show_hex (g' :: gs)))).
  rewrite append_assoc. change (groups_text false (g :: g' :: gs) rest) with (show_hex g ++s String ":" (groups_text false (g' :: gs) rest)).
  by rewrite <- IH.
Qed.

(** Where reading groups stops. *)
Definition stops (rest : string) : Prop := rest = "" \/ (exists r, rest = String ":" (String ":" r)).

Lemma stops_ends gs rest : stops rest -> ends_number 16 (groups_text true gs rest) /\ no_dot (groups_text true gs rest) = true.
Proof. intros [->|[r ->]]; destruct gs; done. Qed.

Lemma read_groups_text slots i gs rest :
  Forall (fun g => 0 <= g <= 65535) gs -> (length gs <= slots)%nat -> stops rest ->
  read_groups slots i (groups_text (negb (i =? 0)%nat) gs rest) = (gs, false, rest).
Proof.
  intros HF. revert slots i; induction HF as [|g gs Hg HF IH]; intros slots i Hl Hs; cbn [length] in Hl.
  - destruct slots as [|slots]; [done|]. cbn [groups_text read_groups].
    assert (Hn : forall A (inner : string -> option (A * string)), inner "" = None -> (forall r, inner (String ":" r) = None) ->
      read_separator ":" i inner rest = None).
    { intros X inner H0 H1. unfold read_separator. destruct Hs as [->|[r ->]]; destruct (i =? 0)%nat; cbn; auto. }
    rewrite (Hn _ (read_number 16 65535 4 true)), (Hn _ read_ipv4_addr) by done. by destruct (1 <? S slots)%nat.
  - destruct slots as [|slots]; [lia|]. destruct (stops_ends gs rest Hs) as [He Hd].
    assert (Hsep : forall A (inner : string -> option (A * string)),
      read_separator ":" i inner (groups_text (negb (i =? 0)%nat) (g :: gs) rest) = inner (show_hex g ++s groups_text true gs rest)).
    { intros X inner. unfold read_separator. cbn [groups_text]. by destruct (i =? 0)%nat. }
    cbn [read_groups]. rewrite !Hsep, hex_no_ipv4, read_hex by (done || apply show_hex_is_hex; lia).
    specialize (IH slots (S i)). cbn [Nat.eqb negb] in IH. rewrite IH by (done || lia). by destruct (1 <? S slots)%nat.
Qed.

(** The run that is compressed is a run of zeros. *)
Definition zeros_at (l : list Z) (r : nat * nat) : Prop :=
  r.2 = 0%nat \/ ((r.1 + r.2 <= length l)%nat /\ take r.2 (drop r.1 l) = replicate r.2 0).

Lemma zeros_at_app l k r : zeros_at l r -> zeros_at (l ++ k) r.
Proof.
  intros [|[Hl Ht]]; [by left|right]. rewrite length_app. split; [lia|].
  rewrite drop_app_le, take_app_le by (rewrite ?length_drop; lia). done.
Qed.

Lemma zero_run_inv pre rest current longest :
  zeros_at pre current -> (current.2 = 0 \/ current.1 + current.2 = length pre)%nat -> zeros_at pre longest ->
  zeros_at (pre ++ rest) (zero_run (length pre) rest current longest).
Proof.
  revert pre current longest; induction rest as [|seg rest IH]; intros pre [cs cl] [ls ll] Hc He Hl; cbn [zero_run].
  { by rewrite app_nil_r. }
  assert (Hlen : length (pre ++ [seg]) = S (length pre)) by (rewrite length_app; cbn; lia).
  replace (pre ++ seg :: rest)%list with ((pre ++ [seg]) ++ rest)%list by (by rewrite <- app_assoc).
  destruct (Z.eqb_spec seg 0) as [->|Hz]; rewrite <- Hlen.
  - cbn [fst snd] in *. set (cs' := if (cl =? 0)%nat then length pre else cs).
    assert (Hc' : zeros_at (pre ++ [0]) (cs', S cl) /\ (cs' + S cl = length (pre ++ [0%Z]))%nat).
    { unfold cs'. destruct (Nat.eqb_spec cl 0) as [->|Hn].
      - split; [|cbn; lia]. right. cbn [fst snd]. split; [lia|]. by rewrite drop_app_length.
      - destruct He as [|He]; [done|]. destruct Hc as [|[_ Hc]]; [done|]. cbn [fst snd] in *. split; [|lia]. right. split; [cbn; lia|].
        cbn [fst snd]. rewrite drop_app_le by lia. replace (S cl) with (length (drop cs pre ++ [0])%list) by (rewrite length_app, length_drop; cbn; lia).
        rewrite take_ge by lia. replace cl with (length (drop cs pre)) in Hc by (rewrite length_drop; lia). rewrite take_ge in Hc by lia.
        rewrite Hc at 1. rewrite length_app. change [0]%list with (replicate 1 0). by rewrite <- replicate_add. }
    destruct Hc' as [Hc' He']. apply IH; [done|by right|]. destruct (_ <? _)%nat; [done|by apply zeros_at_app].
  - apply IH; [by left|by left|by apply zeros_at_app].
Qed.

Lemma zero_run_spec segs start len :
  zero_run 0 segs (0%nat, 0%nat) (0%nat, 0%nat) = (start, len) -> (1 < len)%nat ->
  segs = (take start segs ++ replicate len 0 ++ drop (start + len) segs)%list /\ (start + len <= length segs)%nat.
Proof.
  intros Hz Hl. pose proof (zero_run_inv [] segs (0%nat, 0%nat) (0%nat, 0%nat)) as Hi. cbn [app length] in Hi. rewrite Hz in Hi.
  destruct Hi as [Hi|[Hi Ht]]; [by left|by left|by left|cbn in Hi; lia|]. cbn [fst snd] in *. split; [|done].
  rewrite <- Ht, <- drop_drop. by rewrite take_drop, take_drop.
Qed.

Lemma read_ipv6_compressed head tail :
  Forall (fun g => 0 <= g <= 65535) head -> Forall (fun g => 0 <= g <= 65535) tail -> (length head + length tail < 7)%nat ->
  read_ipv6_addr (fmt_subslice head ++s "::" ++s fmt_subslice tail) =
  Some ((head ++ replicate (8 - length head - length tail) 0 ++ tail)%list, "").
Proof.
  intros Hh Ht Hl. rewrite <- (append_nil_r (fmt_subslice tail)), !fmt_subslice_text. unfold read_ipv6_addr.
  pose proof (read_groups_text 8 0 head ("::" ++s groups_text false tail "") Hh ltac:(lia) ltac:(right; eexists; reflexivity)) as Hr.
  cbn [Nat.eqb negb] in Hr. rewrite Hr, (proj2 (Nat.eqb_neq _ _)) by lia.
  change (strip_prefix_char ":" ("::" ++s groups_text false tail "")) with (Some (String ":" (groups_text false tail ""))). cbv beta iota.
  change (strip_prefix_char ":" (String ":" (groups_text false tail ""))) with (Some (groups_text false tail "")). cbv beta iota.
  pose proof (read_groups_text (8 - (length head + 1)) 0 tail "" Ht ltac:(lia) ltac:(by left)) as Hr2.
  cbn [Nat.eqb negb] in Hr2. by rewrite Hr2.
Qed.

Lemma read_ipv6_full segs : Forall (fun g => 0 <= g <= 65535) segs -> length segs = 8%nat -> read_ipv6_addr (fmt_subslice segs) = Some (segs, "").
Proof.
  intros HF Hl. rewrite <- (append_nil_r (fmt_subslice segs)), fmt_subslice_text. unfold read_ipv6_addr.
  pose proof (read_groups_text 8 0 segs "" HF ltac:(lia) ltac:(by left)) as Hr. cbn [Nat.eqb negb] in Hr. by rewrite Hr, Hl.
Qed.

Definition general_ipv6 (segments : list Z) : string :=
  let '(start, len) := zero_run 0 segments (0%nat, 0%nat) (0%nat, 0%nat) in
  if (1 <? len)%nat then fmt_subslice (take start segments) ++s "::" ++s fmt_subslice (drop (start + len) segments)
  else fmt_subslice segments.

Lemma to_ipv4_mapped_Some segs octets : to_ipv4_mapped segs = Some octets ->
  exists ab cd, segs = [0; 0; 0; 0; 0; 65535; ab; cd]%list /\ octets = [ab / 256; ab mod 256; cd / 256; cd mod 256]%list.
Proof.
  destruct segs as [|a [|b [|c [|d [|e [|f [|ab [|cd [|]]]]]]]]]; cbn [to_ipv4_mapped]; try done.
  destruct (Z.eqb_spec a 0), (Z.eqb_spec b 0), (Z.eqb_spec c 0), (Z.eqb_spec d 0), (Z.eqb_spec e 0), (Z.eqb_spec f 65535); try done.
  intros [= <-]. subst. eauto.
Qed.

Lemma read_groups_S slots i s :
  read_groups (S slots) i s =
  let v4 := if (1 <? S slots)%nat then read_separator ":" i read_ipv4_addr s else None in
  match v4 with
  | Some ([a; b; c; d], s)%list => ([a * 256 + b; c * 256 + d]%list, true, s)
  | _ =>
      match read_separator ":" i (read_number 16 65535 4 true) s with
      | Some (g, s) => let '(gs, v4, s) := read_groups slots (S i) s in ((g :: gs)%list, v4, s)
      | None => ([]%list, false, s)
      end
  end.
Proof. reflexivity. Qed.

Lemma read_separator_0 {A} sep (inner : string -> option (A * string)) s : read_separator sep 0 inner s = inner s.
Proof. reflexivity. Qed.

Lemma read_mapped_tail v4 a b c d :
  read_ipv4_addr v4 = Some ([a; b; c; d]%list, "") ->
  read_groups 7 0 ("ffff" ++s String ":" v4) = ([65535; a * 256 + b; c * 256 + d]%list, true, "").
Proof.
  intros Hv. rewrite read_groups_S, !read_separator_0. cbv zeta. change (1 <? 7)%nat with true. cbv iota.
  rewrite hex_no_ipv4 by done. change ("ffff" ++s String ":" v4) with (show_hex 65535 ++s String ":" v4).
  rewrite read_hex by done. rewrite read_groups_S. change (1 <? 6)%nat with true.
  change (read_separator ":" 1 read_ipv4_addr (String ":" v4)) with (read_ipv4_addr v4). by rewrite Hv.
Qed.

Lemma read_ipv6_mapped ab cd : 0 <= ab <= 65535 -> 0 <= cd <= 65535 ->
  read_ipv6_addr ("::ffff:" ++s show_ipv4 [ab / 256; ab mod 256; cd / 256; cd mod 256]) = Some ([0; 0; 0; 0; 0; 65535; ab; cd]%list, "").
Proof.
  intros Hab Hcd. remember (show_ipv4 [ab / 256; ab mod 256; cd / 256; cd mod 256]) as v4 eqn:Ev. unfold read_ipv6_addr.
  change (read_groups 8 0 ("::ffff:" ++s v4)) with (@nil Z, false, "::ffff:" ++s v4). cbv beta iota. cbn [length Nat.eqb].
  change (strip_prefix_char ":" ("::ffff:" ++s v4)) with (Some (":ffff:" ++s v4)). cbv beta iota.
  change (strip_prefix_char ":" (":ffff:" ++s v4)) with (Some ("ffff:" ++s v4)). cbv beta iota.
  change ("ffff:" ++s v4) with ("ffff" ++s String ":" v4). change (8 - (0 + 1))%nat with 7%nat.
  pose proof (read_show_ipv4 (ab / 256) (ab mod 256) (cd / 256) (cd mod 256) "") as Hv. rewrite append_nil_r, <- Ev in Hv.
  rewrite (read_mapped_tail v4 _ _ _ _ (Hv ltac:(Z.div_mod_to_equations; lia) ltac:(Z.div_mod_to_equations; lia)
    ltac:(Z.div_mod_to_equations; lia) ltac:(Z.div_mod_to_equations; lia) I)).
  replace (ab / 256 * 256 + ab mod 256) with ab by (Z.div_mod_to_equations; lia).
  replace (cd / 256 * 256 + cd mod 256) with cd by (Z.div_mod_to_equations; lia). done.
Qed.

(** ** Every address *)

Definition addr_char (c : ascii) : bool := is_hex c || Ascii.eqb c ":" || Ascii.eqb c ".".

Lemma digits_addr n : 0 <= n -> str_forallb addr_char (show_uint n) = true.
Proof.
  intros Hn. apply (str_forallb_impl is_ascii_digit); [|by apply show_uint_all]. intros c Hc. unfold addr_char, is_hex, hex_val. by rewrite Hc.
Qed.

Lemma hex_addr n : 0 <= n -> str_forallb addr_char (show_hex n) = true.
Proof. intros Hn. apply (str_forallb_impl is_hex); [|by apply show_hex_is_hex]. intros c Hc. unfold addr_char. by rewrite Hc. Qed.

Lemma join_addr sep l : addr_char sep = true -> Forall (fun s => str_forallb addr_char s = true) l -> str_forallb addr_char (join_char sep l) = true.
Proof.
  intros Hs. induction 1 as [|s l Hl HF IH]; [done|]. destruct l as [|s' l]; [done|].
  change (join_char sep (s :: s' :: l)) with (s ++s String sep (join_char sep (s' :: l))). rewrite str_forallb_app, Hl. cbn [str_forallb andb]. by rewrite Hs, IH.
Qed.

Lemma subslice_addr gs : Forall (fun g => 0 <= g <= 65535) gs -> str_forallb addr_char (fmt_subslice gs) = true.
Proof. intros HF. apply join_addr; [done|]. apply Forall_map. eapply Forall_impl; [exact HF|]. intros g Hg. apply hex_addr. cbn in Hg. lia. Qed.

Lemma ipv4_addr octets : Forall (fun o => 0 <= o <= 255) octets -> str_forallb addr_char (show_ipv4 octets) = true.
Proof. intros HF. apply join_addr; [done|]. apply Forall_map. eapply Forall_impl; [exact HF|]. intros g Hg. apply digits_addr. cbn in Hg. lia. Qed.

Lemma mapped_octets ab cd : 0 <= ab <= 65535 -> 0 <= cd <= 65535 ->
  Forall (fun o => 0 <= o <= 255) [ab / 256; ab mod 256; cd / 256; cd mod 256].
Proof. intros. repeat constructor; Z.div_mod_to_equations; lia. Qed.

(** How an IPv6 address is shown: mapped, compressed or in full. *)
Lemma show_ipv6_cases segs :
  length segs = 8%nat -> Forall (fun g => 0 <= g <= 65535) segs ->
  (exists ab cd, segs = [0; 0; 0; 0; 0; 65535; ab; cd]%list /\
     show_ipv6 segs = "::ffff:" ++s show_ipv4 [ab / 256; ab mod 256; cd / 256; cd mod 256]) \/
  (exists head tail, show_ipv6 segs = fmt_subslice head ++s "::" ++s fmt_subslice tail /\ (length head + length tail < 7)%nat /\
     segs = (head ++ replicate (8 - length head - length tail) 0 ++ tail)%list) \/
  show_ipv6 segs = fmt_subslice segs.
Proof.
  intros Hl HF. unfold show_ipv6. destruct (to_ipv4_mapped segs) as [octets|] eqn:Em.
  { apply to_ipv4_mapped_Some in Em as (ab & cd & -> & ->). left. eauto. }
  right. destruct (zero_run 0 segs _ _) as [start len] eqn:Ez. destruct (Nat.ltb_spec 1 len) as [Hlen|]; [|by right]. left.
  apply zero_run_spec in Ez as [Hs Hb]; [|done]. rewrite Hl in Hb. exists (take start segs), (drop (start + len) segs). split; [done|].
  rewrite length_take, length_drop, Hl. split; [lia|]. rewrite Hs at 1. do 2 f_equal. f_equal. lia.
Qed.

Lemma no_ipv4_prefix g gs rest : 0 <= g -> stops rest -> read_ipv4_addr (groups_text false (g :: gs) rest) = None.
Proof.
  intros Hg Hs. destruct (stops_ends gs rest Hs). change (groups_text false (g :: gs) rest) with (show_hex g ++s groups_text true gs rest).
  apply hex_no_ipv4; [by apply show_hex_is_hex|done|done].
Qed.

Lemma show_ipv6_not_v4 segs : length segs = 8%nat -> Forall (fun g => 0 <= g <= 65535) segs -> read_ipv4_addr (show_ipv6 segs) = None.
Proof.
  intros Hl HF. destruct (show_ipv6_cases segs Hl HF) as [(ab & cd & _ & ->)|[(head & tail & -> & _ & Hs)| -> ]].
  - exact (hex_no_ipv4 "" ("::ffff:" ++s show_ipv4 _) eq_refl eq_refl eq_refl).
  - rewrite fmt_subslice_text. destruct head as [|g head]; [exact (hex_no_ipv4 "" ("::" ++s fmt_subslice tail) eq_refl eq_refl eq_refl)|].
    apply no_ipv4_prefix; [|right; eexists; reflexivity]. rewrite Hs in HF. apply Forall_cons in HF as [? _]. lia.
  - rewrite <- (append_nil_r (fmt_subslice segs)), fmt_subslice_text. destruct segs as [|g segs]; [done|].
    apply no_ipv4_prefix; [|by left]. apply Forall_cons in HF as [? _]. lia.
Qed.

Lemma parse_show_ip ip : ip_ok ip -> parse_ip (show_ip ip) = Some ip.
Proof.
  destruct ip as [octets|segs]; intros [Hl HF]; cbn [show_ip]; unfold parse_ip.
  - destruct octets as [|a [|b [|c [|d [|]]]]]; try done. rewrite !Forall_cons in HF. destruct HF as (Ha & Hb & Hc & Hd & _).
    pose proof (read_show_ipv4 a b c d "" Ha Hb Hc Hd I) as Hr. rewrite append_nil_r in Hr. by rewrite Hr.
  - rewrite show_ipv6_not_v4 by done. destruct (show_ipv6_cases segs Hl HF) as [(ab & cd & -> & ->)|[(head & tail & -> & Hlt & Hs)| -> ]].
    + rewrite !Forall_cons in HF. destruct HF as (_ & _ & _ & _ & _ & _ & Hab & Hcd & _). by rewrite read_ipv6_mapped.
    + rewrite Hs in HF. apply Forall_app in HF as [Hh HF]. apply Forall_app in HF as [_ Ht]. rewrite read_ipv6_compressed by done.
      cbn [str_is_empty]. by rewrite <- Hs.
    + by rewrite read_ipv6_full.
Qed.

Lemma show_ip_addr_chars ip : ip_ok ip -> str_forallb addr_char (show_ip ip) = true.
Proof.
  destruct ip as [octets|segs]; intros [Hl HF]; cbn [show_ip]; [by apply ipv4_addr|].
  destruct (show_ipv6_cases segs Hl HF) as [(ab & cd & -> & ->)|[(head & tail & -> & _ & Hs)| -> ]].
  - rewrite !Forall_cons in HF. destruct HF as (_ & _ & _ & _ & _ & _ & Hab & Hcd & _).
    rewrite str_forallb_app, ipv4_addr by by apply mapped_octets. done.
  - rewrite Hs in HF. apply Forall_app in HF as [Hh HF]. apply Forall_app in HF as [_ Ht].
    rewrite !str_forallb_app, !subslice_addr by done. done.
  - by apply subslice_addr.
Qed.

Lemma show_ip_nonempty ip : ip_ok ip -> show_ip ip <> "".
Proof. intros Hok E. pose proof (parse_show_ip ip Hok) as Hp. by rewrite E in Hp. Qed.

Lemma ipv4_no_colon octets : Forall (fun o => 0 <= o <= 255) octets -> contains_char ":" (show_ipv4 octets) = false.
Proof.
  intros HF. apply (str_forallb_contains (fun c => is_ascii_digit c || Ascii.eqb c ".")); [|done]. unfold show_ipv4.
  induction HF as [|o l Ho HF IH]; [done|]. cbn [map]. assert (Hd : str_forallb (fun c => is_ascii_digit c || Ascii.eqb c ".") (show_uint o) = true).
  { apply (str_forallb_impl is_ascii_digit); [by intros c ->|]. apply show_uint_all. lia. }
  destruct l as [|o' l]; [done|].
  change (join_char "." (show_uint o :: map show_uint (o' :: l))) with (show_uint o ++s String "." (join_char "." (map show_uint (o' :: l)))).
  rewrite str_forallb_app, Hd. cbn [andb str_forallb]. by rewrite IH.
Qed.

(** ** [host:port] *)

Lemma find_char_app c a b : contains_char c a = false -> find_char c (a ++s String c b) = Some (String.length a).
Proof.
  induction a as [|d a IH]; intros Hn; [change (find_char c (String c b) = Some 0%nat); cbn; by rewrite Ascii.eqb_refl|].
  cbn in Hn. apply orb_false_iff in Hn as [Hd Hn]. change (String d a ++s String c b) with (String d (a ++s String c b)).
  cbn [find_char String.length]. by rewrite Hd, IH.
Qed.

Lemma str_take_app a b : str_take (String.length a) (a ++s b) = a.
Proof. induction a as [|c a IH]; [by destruct b|]. change (String c a ++s b) with (String c (a ++s b)). cbn. by rewrite IH. Qed.

Lemma str_drop_app a c b : str_drop (String.length a + 1) (a ++s String c b) = b.
Proof. induction a as [|d a IH]; [by destruct b|]. change (String d a ++s String c b) with (String d (a ++s String c b)). cbn. by rewrite IH. Qed.

Lemma parse_host_port_plain host port scheme :
  host <> "" -> contains_char ":" host = false -> strip_prefix_char "[" host = None -> 0 <= port <= u16_max ->
  parse_host_port (host ++s ":" ++s show_uint port) scheme = Ok (host, port).
Proof.
  intros Hne Hc Hb Hp. destruct host as [|c host]; [done|]. unfold parse_host_port.
  change (":" ++s show_uint port) with (String ":" (show_uint port)).
  assert (Hb' : strip_prefix_char "[" (String c host ++s String ":" (show_uint port)) = None) by (cbn in Hb |- *; by destruct (Ascii.eqb c "[")).
  change (str_is_empty (String c host ++s String ":" (show_uint port))) with false. rewrite Hb', rsplit_once_app by (apply show_uint_no; (done || lia)).
  rewrite Hc. cbn [str_is_empty]. by rewrite parse_show_uint by lia.
Qed.

Lemma parse_host_port_bracketed host port scheme :
  host <> "" -> contains_char "]" host = false -> 0 <= port <= u16_max ->
  parse_host_port ("[" ++s host ++s "]:" ++s show_uint port) scheme = Ok (host, port).
Proof.
  intros Hne Hc Hp. unfold parse_host_port. set (rest := host ++s "]:" ++s show_uint port).
  change ("[" ++s rest) with (String "[" rest). cbn [str_is_empty strip_prefix_char Ascii.eqb Bool.eqb].
  change ("]:" ++s show_uint port) with (String "]" (String ":" (show_uint port))) in rest. unfold rest.
  rewrite find_char_app by done. rewrite str_take_app, str_drop_app.
  change (strip_prefix_char ":" (String ":" (show_uint port))) with (Some (show_uint port)).
  destruct host as [|c host]; [done|]. cbn [str_is_empty]. by rewrite parse_show_uint by lia.
Qed.

(** *** What the address readers take *)

(** [rest] is what is left of [s] after characters of addresses. *)
Definition consumes (s rest : string) : Prop := exists taken, s = taken ++s rest /\ str_forallb addr_char taken = true.

#[local] Instance consumes_preorder : PreOrder consumes.
Proof.
  split; [intros s; by exists ""|]. intros s1 s2 s3 (a & -> & Ha) (b & -> & Hb). exists (a ++s b).
  split; [by rewrite append_assoc|]. by rewrite str_forallb_app, Ha, Hb.
Qed.

Lemma consumes_char c s : addr_char c = true -> consumes (String c s) s.
Proof. intros Hc. exists (String c ""). split; [done|]. cbn. by rewrite Hc. Qed.

Lemma strip_consumes sep s s' : addr_char sep = true -> strip_prefix_char sep s = Some s' -> consumes s s'.
Proof. intros Hs. destruct s as [|c s]; [done|]. cbn. destruct (Ascii.eqb_spec c sep) as [->|]; [|done]. intros [= <-]. by apply consumes_char. Qed.

Lemma digit_addr_char radix c d : to_digit radix c = Some d -> addr_char c = true.
Proof. unfold to_digit, addr_char, is_hex. by destruct (hex_val c). Qed.

Lemma read_digits_consumes radix max left count acc s n c rest :
  read_digits radix max left count acc s = Some (n, c, rest) -> consumes s rest.
Proof.
  revert left count acc; induction s as [|d s IH]; intros left count acc; cbn [read_digits]; [by intros [= _ _ <-]|].
  destruct (to_digit radix d) as [v|] eqn:Ed; [|by intros [= _ _ <-]]. destruct (max <? acc * radix + v); [done|].
  destruct left as [|left]; [done|]. intros Hr. etrans; [by eapply consumes_char, digit_addr_char|by eapply IH].
Qed.

Lemma read_number_consumes radix max k z s n rest : read_number radix max k z s = Some (n, rest) -> consumes s rest.
Proof.
  unfold read_number. destruct (read_digits radix max k 0 0 s) as [[[m c] r]|] eqn:E; [|done].
  apply read_digits_consumes in E. repeat case_match; try done; by intros [= _ <-].
Qed.

Lemma read_separator_consumes {A} sep i (inner : string -> option (A * string)) s x rest :
  addr_char sep = true -> (forall s, inner s = Some (x, rest) -> consumes s rest) ->
  read_separator sep i inner s = Some (x, rest) -> consumes s rest.
Proof.
  intros Hsep Hin. unfold read_separator. destruct (i =? 0)%nat; [apply Hin|].
  destruct (strip_prefix_char sep s) as [s'|] eqn:E; [|done]. intros Hr. etrans; [by eapply strip_consumes|by apply Hin].
Qed.

Lemma read_octet_consumes i s o rest : read_octet i s = Some (o, rest) -> consumes s rest.
Proof. apply read_separator_consumes; [done|]. intros s'. apply read_number_consumes. Qed.

Lemma read_ipv4_consumes s octets rest : read_ipv4_addr s = Some (octets, rest) -> consumes s rest.
Proof.
  unfold read_ipv4_addr. destruct (read_octet 0 s) as [[a s1]|] eqn:E1; [|done]. destruct (read_octet 1 s1) as [[b s2]|] eqn:E2; [|done].
  destruct (read_octet 2 s2) as [[c s3]|] eqn:E3; [|done]. destruct (read_octet 3 s3) as [[d s4]|] eqn:E4; [|done]. intros [= _ <-].
  apply read_octet_consumes in E1, E2, E3, E4. by do 3 (etrans; [eassumption|]).
Qed.

Lemma read_groups_consumes slots i s gs v4 rest : read_groups slots i s = (gs, v4, rest) -> consumes s rest.
Proof.
  revert i s gs v4 rest; induction slots as [|slots IH]; intros i s gs v4 rest; [by intros [= _ _ <-]|]. cbn [read_groups].
  assert (Hcolon : addr_char ":" = true) by done.
  destruct (if (1 <? S slots)%nat then _ else None) as [[octets s']|] eqn:E4.
  - destruct (1 <? S slots)%nat; [|done]. apply read_separator_consumes in E4; [|done|intros s1; apply read_ipv4_consumes].
    destruct octets as [|a [|b [|c [|d [|]]]]]; try (intros [= _ _ <-]; exact E4);
      destruct (read_separator ":" i (read_number 16 65535 4 true) s) as [[g s2]|] eqn:Eg; try (by intros [= _ _ <-]);
      (apply read_separator_consumes in Eg; [|done|intros s1; apply read_number_consumes]);
      destruct (read_groups slots (S i) s2) as [[gs' v4'] r'] eqn:Er; intros [= _ _ <-]; (etrans; [exact Eg|by eapply IH]).
  - destruct (read_separator ":" i (read_number 16 65535 4 true) s) as [[g s2]|] eqn:Eg; [|by intros [= _ _ <-]].
    apply read_separator_consumes in Eg; [|done|intros s1; apply read_number_consumes].
    destruct (read_groups slots (S i) s2) as [[gs' v4'] r'] eqn:Er. intros [= _ _ <-]. etrans; [exact Eg|by eapply IH].
Qed.

Lemma read_ipv6_consumes s segments rest : read_ipv6_addr s = Some (segments, rest) -> consumes s rest.
Proof.
  unfold read_ipv6_addr. destruct (read_groups 8 0 s) as [[head v4] s1] eqn:Eh. apply read_groups_consumes in Eh.
  destruct (length head =? 8)%nat; [by intros [= _ <-]|]. destruct v4; [done|].
  destruct (strip_prefix_char ":" s1) as [s2|] eqn:E1; [|done]. destruct (strip_prefix_char ":" s2) as [s3|] eqn:E2; [|done].
  destruct (read_groups (8 - (length head + 1)) 0 s3) as [[tail v4'] s4] eqn:Et. apply read_groups_consumes in Et. intros [= _ <-].
  apply strip_consumes in E1; [|done]. apply strip_consumes in E2; [|done]. by do 3 (etrans; [eassumption|]).
Qed.

(** An address has nothing but the characters of addresses: no zone. *)
Lemma parse_ip_chars s ip : parse_ip s = Some ip -> str_forallb addr_char s = true.
Proof.
  assert (Hall : forall rest, consumes s rest -> str_is_empty rest = true -> str_forallb addr_char s = true).
  { intros rest (taken & -> & Ht) He. destruct rest; [|done]. by rewrite append_nil_r. }
  unfold parse_ip. destruct (read_ipv4_addr s) as [[octets rest]|] eqn:E4.
  - apply read_ipv4_consumes in E4. destruct (str_is_empty rest) eqn:Er; [|done]. intros _. by eapply Hall.
  - destruct (read_ipv6_addr s) as [[segments rest]|] eqn:E6; [|done]. apply read_ipv6_consumes in E6.
    destruct (str_is_empty rest) eqn:Er; [|done]. intros _. by eapply Hall.
Qed.

Lemma parse_ip_zone host zone : parse_ip (host ++s String "%" zone) = None.
Proof.
  destruct (parse_ip _) as [ip|] eqn:E; [|done]. apply parse_ip_chars in E. rewrite str_forallb_app in E.
  apply andb_prop in E as [_ E]. by vm_compute in E.
Qed.

(** The host of a printed address: a v6 address with its zone, if it has one. *)
Definition printed_host (a : SocketAddr) : string :=
  show_ip (addr_ip a) ++s (if addr_scope_id a =? 0 then "" else "%" ++s show_uint (addr_scope_id a)).

Lemma printed_host_port a scheme : addr_ok a -> parse_host_port (SocketAddr_to_string a) scheme = Ok (printed_host a, addr_port a).
Proof.
  intros (Hok & Hp & _ & Hs & Hv). unfold SocketAddr_to_string, printed_host.
  pose proof (show_ip_nonempty _ Hok) as Hne. pose proof (show_ip_addr_chars _ Hok) as Hch. destruct (addr_ip a) as [octets|segs].
  - destruct Hv as [_ ->]. cbn [Z.eqb]. rewrite append_nil_r. apply parse_host_port_plain; [done|apply ipv4_no_colon, Hok| |done].
    destruct (show_ip (V4 octets)) as [|c s]; [done|].
    cbn in Hch |- *. apply andb_prop in Hch as [Hc _]. destruct (Ascii.eqb_spec c "["); [by subst|done].
  - rewrite <- (append_assoc (show_ip (V6 segs))). apply parse_host_port_bracketed; [by destruct (show_ip (V6 segs))| |done].
    rewrite contains_char_app, (str_forallb_contains addr_char) by done. destruct (addr_scope_id a =? 0); [done|].
    change ("%" ++s show_uint (addr_scope_id a)) with (String "%" (show_uint (addr_scope_id a))). cbn. apply show_uint_no; (done || lia).
Qed.

(** C34. Listen addresses round trip.  What [SocketAddr] prints, IPv4 or bracketed IPv6
    (compressed, or with a mapped IPv4 tail, as the standard library chooses), is accepted as
    the body of a listener when it has no scope id, and denotes that very address and port; so
    such an address copied from a log can be pasted into the configuration.  A printed scope id
    is refused, with an error that quotes the host. *)
Theorem listen_addr_roundtrip addr scheme :
  addr_ok addr ->
  parse_listen_addr (SocketAddr_to_string addr) scheme =
  if addr_scope_id addr =? 0 then Ok (SocketAddr_new (addr_ip addr) (addr_port addr))
  else Err (MalformedBody scheme (SocketAddr_to_string addr)
    ("listen host '" ++s printed_host addr ++s "' must be an IP literal (e.g. '0.0.0.0', '[::]', '[::1]'); hostnames are not resolved for "
       ++s Scheme_as_str scheme ++s ": endpoints")).
Proof.
  intros Ha. unfold parse_listen_addr. rewrite printed_host_port by done. destruct Ha as (Hok & _). unfold printed_host. cbn.
  destruct (addr_scope_id addr =? 0).
  - by rewrite append_nil_r, parse_show_ip.
  - by rewrite parse_ip_zone.
Qed.

(** A host that is not an IP literal is refused by a listener. *)
Lemma listen_host_refused host port scheme :
  0 <= port <= u16_max -> strip_prefix_char "[" host = None -> parse_ip host = None ->
  is_ok (parse_listen_addr (host ++s ":" ++s show_uint port) scheme) = false.
Proof.
  intros Hp Hb Hip. unfold parse_listen_addr, parse_host_port. change (":" ++s show_uint port) with (String ":" (show_uint port)).
  assert (Hc : contains_char ":" (show_uint port) = false) by (apply show_uint_no; (done || lia)).
  assert (Hb' : strip_prefix_char "[" (host ++s String ":" (show_uint port)) = None) by (destruct host as [|c h]; [done|]; cbn in *; by destruct (Ascii.eqb c "[")).
  rewrite Hb', rsplit_once_app by done. destruct (str_is_empty _); [done|]. destruct (contains_char ":" host); [done|].
  destruct (str_is_empty host); [done|]. rewrite parse_show_uint by lia. cbn [ok_or]. by rewrite Hip.
Qed.

(** ** Names of sub-endpoints *)

Lemma append_cancel a x y : a ++s x = a ++s y -> x = y.
Proof. induction a as [|c a IH]; [done|]. change (String c a ++s x = String c a ++s y) with (String c (a ++s x) = String c (a ++s y)). intros [= E]. auto. Qed.

Definition peer_suffix (addr : SocketAddr) : string :=
  (match addr_ip addr with V4 _ => show_ip (addr_ip addr) | V6 _ => "[" ++s show_ip (addr_ip addr) ++s "]" end)
    ++s String "-" (show_uint (addr_port addr)).

Lemma peer_name_suffix parent addr : peer_endpoint_name parent addr = parent ++s String "/" (peer_suffix addr).
Proof. unfold peer_endpoint_name, peer_suffix. destruct (addr_ip addr); cbn [show_ip]; rewrite ?append_assoc; reflexivity. Qed.

Lemma show_uint_inj n m : 0 <= n <= u16_max -> 0 <= m <= u16_max -> show_uint n = show_uint m -> n = m.
Proof. intros Hn Hm E. pose proof (parse_show_uint u16_max n) as Hp. rewrite E, parse_show_uint in Hp by lia. specialize (Hp ltac:(lia) ltac:(lia)). congruence. Qed.

Lemma show_ip_inj a b : ip_ok a -> ip_ok b -> show_ip a = show_ip b -> a = b.
Proof. intros Ha Hb E. pose proof (parse_show_ip a Ha) as Hp. rewrite E, parse_show_ip in Hp by done. congruence. Qed.

Lemma peer_suffix_inj a b :
  ip_ok (addr_ip a) -> ip_ok (addr_ip b) -> 0 <= addr_port a <= u16_max -> 0 <= addr_port b <= u16_max ->
  peer_suffix a = peer_suffix b -> addr_ip a = addr_ip b /\ addr_port a = addr_port b.
Proof.
  destruct a as [ip p fl sc], b as [ip' p' fl' sc']. cbn [addr_ip addr_port]. intros Ha Hb Hp Hp' E. unfold peer_suffix in E. cbn [addr_ip addr_port] in E.
  apply (f_equal (rsplit_once "-")) in E. rewrite !rsplit_once_app in E by (apply show_uint_no; (done || lia)). injection E as Ehost Eport.
  apply show_uint_inj in Eport as ->; [|done..]. split; [|done]. pose proof (show_ip_addr_chars ip Ha) as Hc. pose proof (show_ip_addr_chars ip' Hb) as Hc'.
  pose proof (show_ip_nonempty ip Ha). pose proof (show_ip_nonempty ip' Hb).
  destruct ip as [o|s], ip' as [o'|s'].
  - by apply show_ip_inj.
  - rewrite Ehost in Hc. done.
  - rewrite <- Ehost in Hc'. done.
  - injection Ehost as Ehost. apply (f_equal (rsplit_once "]")) in Ehost. rewrite !rsplit_once_app in Ehost by done.
    injection Ehost as Ehost. by apply show_ip_inj.
Qed.

(** Sub-endpoint names identify peers.  Two peers of a listener have the same name only
    if they have the same address and port (link-local peers behind different interfaces,
    which differ in the scope id alone, share a name), and no sub-endpoint ever has the name of a configured
    endpoint; so the lines of the stats stream and a filter that names endpoints are never
    ambiguous between a listener's peers and the configuration. *)
Theorem peer_names_unambiguous parent a b name :
  ip_ok (addr_ip a) -> ip_ok (addr_ip b) -> 0 <= addr_port a <= u16_max -> 0 <= addr_port b <= u16_max ->
  name_matches_regex name = true ->
  (peer_endpoint_name parent a = peer_endpoint_name parent b <-> addr_ip a = addr_ip b /\ addr_port a = addr_port b) /\
  peer_endpoint_name parent a <> name.
Proof.
  intros Ha Hb Hp Hp' Hn. rewrite !peer_name_suffix. split; [split; [|intros [E E']; unfold peer_suffix; by rewrite E, E']|].
  - intros E. apply append_cancel in E. injection E as E. by apply peer_suffix_inj.
  - intros E. apply andb_prop in Hn as [_ Hn]. apply (str_forallb_contains _ "/") in Hn; [|done]. rewrite <- E in Hn.
    rewrite contains_char_app in Hn. apply orb_false_iff in Hn as [_ Hn]. done.
Qed.

Lemma peer_names_unambiguous_witness :
  peer_endpoint_name "gcs" (SocketAddr_new (V4 [10; 0; 0; 1]) 5) <> peer_endpoint_name "gcs" (SocketAddr_new (V4 [10; 0; 0; 1]) 6) /\
  peer_endpoint_name "gcs" (SocketAddr_new (V4 [10; 0; 0; 1]) 5) <> "gcs2".
Proof.
  destruct (peer_names_unambiguous "gcs" (SocketAddr_new (V4 [10; 0; 0; 1]) 5) (SocketAddr_new (V4 [10; 0; 0; 1]) 6) "gcs2") as [[Hs _] Hn].
  - split; [reflexivity|]. repeat constructor; vm_compute; discriminate.
  - split; [reflexivity|]. repeat constructor; vm_compute; discriminate.
  - split; vm_compute; discriminate.
  - split; vm_compute; discriminate.
  - reflexivity.
  - split; [|exact Hn]. intros E. destruct (Hs E) as [_ Hp]. discriminate Hp.
Defined.

Lemma listen_addr_roundtrip_witness :
  parse_listen_addr "[fe80::1:0:0:a]:14550" Scheme_UdpServer = Ok (SocketAddr_new (V6 [0xfe80; 0; 0; 0; 1; 0; 0; 0xa]) 14550) /\
  is_ok (parse_listen_addr "[fe80::1:0:0:a%2]:14550" Scheme_UdpServer) = false.
Proof.
  pose (a := {| addr_ip := V6 [0xfe80; 0; 0; 0; 1; 0; 0; 0xa]; addr_port := 14550; addr_flowinfo := 0; addr_scope_id := 2 |}).
  split.
  - change "[fe80::1:0:0:a]:14550" with (SocketAddr_to_string (SocketAddr_new (V6 [0xfe80; 0; 0; 0; 1; 0; 0; 0xa]) 14550)).
    rewrite (listen_addr_roundtrip (SocketAddr_new (V6 [0xfe80; 0; 0; 0; 1; 0; 0; 0xa]) 14550) Scheme_UdpServer); [reflexivity|].
    split_and!; try (vm_compute; discriminate); [split; [reflexivity|]|exact I]. repeat constructor; vm_compute; discriminate.
  - change "[fe80::1:0:0:a%2]:14550" with (SocketAddr_to_string a). rewrite (listen_addr_roundtrip a Scheme_UdpServer); [reflexivity|].
    split_and!; try (vm_compute; discriminate); [split; [reflexivity|]|exact I]. repeat constructor; vm_compute; discriminate.
Defined.
