(* ===== verification/UdpServer.v ===== *)
(** * The [udps:] listener ([src/src/endpoint/udp/server.rs])

    A table of learned peers, each a sub-endpoint of its own.  The clock of one handler
    invocation is read once ([now]); the iteration order of the peer table is a parameter.
    A [CancellationToken] child is named by the peer's id. *)

From S2P Require Import Prelude RustStr RustNet Crc Frame MsgTable Framer FramerSpec LruVec SeqTracker Filters EndpointStats TxQueue Identity FilterParse Spec Session Backoff Endpoint.
#[local] Open Scope Z_scope.

Definition DEFAULT_IDLE_SECS : Z := 60.
Definition DEFAULT_PEER_CAPACITY : nat := 256.

(** [struct PeerEntry] *)
Record PeerEntry := {
  pe_child_id : EndpointId;
  pe_framer : Framer;
  pe_last_seen : Z;
  pe_framer_counters : FramerCounters;
  pe_seq_tracker : SeqTracker;
  pe_stats : nat;
}.

(** [struct UdpServerSpec] *)
Record UdpServerSpec := {
  usp_listen_addr : SocketAddr;
  usp_parent_id : EndpointId;
  usp_parent_name : string;
  usp_idle_secs : Z;
  usp_peer_capacity : nat;
  usp_reconnect_initial_ms : Z;
  usp_reconnect_max_ms : Z;
  usp_identity : IdentityFlags;
}.

(** [UdpServerSpec::from_endpoint] *)
Definition UdpServerSpec_from_endpoint (ep : UdpServerEndpoint) (parent_id : EndpointId) (parent_name : string) : UdpServerSpec :=
  {| usp_listen_addr := us_bind_addr ep; usp_parent_id := parent_id; usp_parent_name := parent_name;
     usp_idle_secs := default DEFAULT_IDLE_SECS (us_idle_secs ep); usp_peer_capacity := DEFAULT_PEER_CAPACITY;
     usp_reconnect_initial_ms := DEFAULT_RECONNECT_INITIAL_MS; usp_reconnect_max_ms := DEFAULT_RECONNECT_MAX_MS;
     usp_identity := us_identity ep |}.

Abbreviation peer_table := (gmap SocketAddr PeerEntry).

(** What the listener task owns or shares. *)
Record Listener (Q CF CE : Type) := {
  ls_peers : peer_table;
  ls_allocator : EndpointIdAllocator;
  ls_frame_tx : CF;
  ls_event_tx : CE;
  ls_world : World Q;
  ls_cancelled : gset EndpointId;                     (** cancelled writer tokens *)
  ls_writers : list (SocketAddr * TxQueue * EndpointId);  (** spawned [run_peer_writer] tasks *)
}.
Arguments ls_peers {Q CF CE}.
Arguments ls_allocator {Q CF CE}.
Arguments ls_frame_tx {Q CF CE}.
Arguments ls_event_tx {Q CF CE}.
Arguments ls_world {Q CF CE}.
Arguments ls_cancelled {Q CF CE}.
Arguments ls_writers {Q CF CE}.

Section Listener.
Context `{MsgTable} {Q : Type} `{ArrayQueue Q} {CF : Type} `{Sender RouterFrame CF} {CE : Type} `{Sender EndpointEvent CE}.
Context (iter : peer_table -> list (SocketAddr * PeerEntry)).
Abbreviation Listener := (Listener Q CF CE).

Definition set_peers (st : Listener) (peers : peer_table) : Listener :=
  {| ls_peers := peers; ls_allocator := ls_allocator st; ls_frame_tx := ls_frame_tx st; ls_event_tx := ls_event_tx st;
     ls_world := ls_world st; ls_cancelled := ls_cancelled st; ls_writers := ls_writers st |}.

(** [entry.writer_cancel.cancel(); let _ = event_tx.send(PeerRemoved { .. }).await] after
    the entry was removed from the table. *)
Definition retire_peer (st : Listener) (parent_id : EndpointId) (addr : SocketAddr) (entry : PeerEntry)
    (reason : PeerRemovalReason) : Listener :=
  let '(_, tx) := send (ls_event_tx st) (PeerRemoved parent_id (pe_child_id entry) reason) in
  {| ls_peers := delete addr (ls_peers st); ls_allocator := ls_allocator st; ls_frame_tx := ls_frame_tx st;
     ls_event_tx := tx; ls_world := ls_world st; ls_cancelled := {[pe_child_id entry]} ∪ ls_cancelled st;
     ls_writers := ls_writers st |}.

(** [async fn evict_lru_peer(peers, parent_id, event_tx)] *)
Definition evict_lru_peer (st : Listener) (parent_id : EndpointId) : Listener :=
  let entries := iter (ls_peers st) in
  match min_index (fun p => pe_last_seen p.2) entries with
  | None => st
  | Some i =>
      match entries !! i with
      | None => st
      | Some (victim, _) =>
          match ls_peers st !! victim with
          | None => st
          | Some entry => retire_peer st parent_id victim entry LruEvicted
          end
      end
  end.

(** [async fn admit_new_peer(src, peers, writer_tasks, ctx) -> bool] *)
Definition admit_new_peer (spec : UdpServerSpec) (src : SocketAddr) (now : Z) (st : Listener) : bool * Listener :=
  let '(child_id, allocator) := alloc (ls_allocator st) in
  let '(stats, w) := stats_alloc Connected (ls_world st) in
  let '(tx_queue, w) := TxQueue_new DEFAULT_TX_QUEUE_FRAMES stats w in
  let name := peer_endpoint_name (usp_parent_name spec) src in
  let '(ok, event_tx) :=
    send (ls_event_tx st)
      (PeerAdded (usp_parent_id spec) child_id name stats
         {| rt_tx_queue := tx_queue; rt_identity := usp_identity spec; rt_endpoint_name := usp_parent_name spec |}) in
  let st := {| ls_peers := ls_peers st; ls_allocator := allocator; ls_frame_tx := ls_frame_tx st; ls_event_tx := event_tx;
               ls_world := w; ls_cancelled := ls_cancelled st; ls_writers := ls_writers st |} in
  if negb ok then (false, st)
  else
    let st := if (usp_peer_capacity spec <=? size (ls_peers st))%nat
              then evict_lru_peer st (usp_parent_id spec) else st in
    (true,
     {| ls_peers := <[src := {| pe_child_id := child_id; pe_framer := Framer_new; pe_last_seen := now;
                                pe_framer_counters := FramerCounters_new;
                                pe_seq_tracker := SeqTracker_new SEQ_TRACKER_CAPACITY; pe_stats := stats |}]> (ls_peers st);
        ls_allocator := ls_allocator st; ls_frame_tx := ls_frame_tx st; ls_event_tx := ls_event_tx st;
        ls_world := ls_world st; ls_cancelled := ls_cancelled st;
        ls_writers := ls_writers st ++ [(src, tx_queue, child_id)] |}).

(** The part of [handle_packet] after admission. *)
Definition ingest_packet (spec : UdpServerSpec) (data : Bytes) (src : SocketAddr) (now : Z) (st : Listener) : outcome Listener :=
  match ls_peers st !! src with
  | None => Done st
  | Some peer =>
      let ctx := {| ctx_endpoint_id := pe_child_id peer; ctx_stats := pe_stats peer; ctx_filters := filters (usp_identity spec) |} in
      let! (flow, framer, tracker, tx, w) :=
        forward_inbound_frames ctx now (buffer_extend (pe_framer peer) data) (pe_seq_tracker peer)
          (ls_frame_tx st) (ls_world st) in
      let '(counters, w) :=
        match flow with
        | Break _ => (pe_framer_counters peer, w)
        | Continue =>
            let stats := default (EndpointStats_new Reconnecting) (w_stats w !! pe_stats peer) in
            ((sync (pe_framer_counters peer) framer stats).1,
             stats_update (pe_stats peer) (fun s => (sync (pe_framer_counters peer) framer s).2) w)
        end in
      Done {| ls_peers := <[src := {| pe_child_id := pe_child_id peer; pe_framer := framer; pe_last_seen := now;
                                      pe_framer_counters := counters; pe_seq_tracker := tracker;
                                      pe_stats := pe_stats peer |}]> (ls_peers st);
              ls_allocator := ls_allocator st; ls_frame_tx := tx; ls_event_tx := ls_event_tx st; ls_world := w;
              ls_cancelled := ls_cancelled st; ls_writers := ls_writers st |}
  end.

(** [async fn handle_packet(data, src, peers, writer_tasks, ctx)] *)
Definition handle_packet (spec : UdpServerSpec) (data : Bytes) (src : SocketAddr) (now : Z) (st : Listener) : outcome Listener :=
  match ls_peers st !! src with
  | Some _ => ingest_packet spec data src now st
  | None =>
      let '(ok, st) := admit_new_peer spec src now st in
      if ok then ingest_packet spec data src now st else Done st
  end.

Fixpoint retire_all (parent_id : EndpointId) (reason : PeerRemovalReason) (addrs : list SocketAddr) (st : Listener) : Listener :=
  match addrs with
  | [] => st
  | addr :: rest =>
      let st := match ls_peers st !! addr with
                | Some entry => retire_peer st parent_id addr entry reason
                | None => st
                end in
      retire_all parent_id reason rest st
  end.

(** [now.duration_since(entry.last_seen) >= idle] ([duration_since] saturates at zero) *)
Definition is_idle (now idle : Z) (entry : PeerEntry) : bool := idle <=? Z.max (now - pe_last_seen entry) 0.

(** [async fn reap_idle_peers(peers, parent_id, idle, event_tx)] *)
Definition reap_idle_peers (parent_id : EndpointId) (idle now : Z) (st : Listener) : Listener :=
  let expired := map fst (List.filter (fun p => is_idle now idle p.2) (iter (ls_peers st))) in
  retire_all parent_id Reason_Idle expired st.

(** [async fn shutdown_all_peers(peers, parent_id, event_tx, writer_tasks)]: every peer is
    drained, then the writer tasks are joined. *)
Definition shutdown_all_peers (parent_id : EndpointId) (st : Listener) : Listener :=
  let st := retire_all parent_id ListenerShutdown (map fst (iter (ls_peers st))) st in
  {| ls_peers := ls_peers st; ls_allocator := ls_allocator st; ls_frame_tx := ls_frame_tx st; ls_event_tx := ls_event_tx st;
     ls_world := ls_world st; ls_cancelled := ls_cancelled st; ls_writers := [] |}.

(** [fn reap_finished(writer_tasks)]: the tasks that have run to their end are dropped from
    the set. *)
Definition reap_finished (finished : gset EndpointId) (st : Listener) : Listener :=
  {| ls_peers := ls_peers st; ls_allocator := ls_allocator st; ls_frame_tx := ls_frame_tx st; ls_event_tx := ls_event_tx st;
     ls_world := ls_world st; ls_cancelled := ls_cancelled st;
     ls_writers := List.filter (fun w => negb (bool_decide (w.2 ∈ finished))) (ls_writers st) |}.

(** What the listener's [select!] resolved to. *)
Inductive listener_input :=
| ListenCancel
| ListenReap (now : Z)
| ListenPacket (data : Bytes) (src : SocketAddr) (now : Z)
| ListenRecvError.

(** The writers that can have ended, of [finished], when the loop comes round to [input]: a
    writer returns only once its token is cancelled, and the token is a child of the
    listener's own. *)
Definition ended (finished : gset EndpointId) (input : listener_input) (st : Listener) : gset EndpointId :=
  match input with ListenCancel => finished | _ => finished ∩ ls_cancelled st end.

(** One turn of the loop of [run_inner]; [true] is [return]. *)
Definition listener_turn (spec : UdpServerSpec) (finished : gset EndpointId) (input : listener_input) (st : Listener)
    : outcome (bool * Listener) :=
  let st := reap_finished (ended finished input st) st in
  match input with
  | ListenCancel => Done (true, shutdown_all_peers (usp_parent_id spec) st)
  | ListenReap now => Done (false, reap_idle_peers (usp_parent_id spec) (from_secs (usp_idle_secs spec)) now st)
  | ListenPacket data src now => let! st := handle_packet spec data src now st in Done (false, st)
  | ListenRecvError => Done (false, st)
  end.

(** The loop of [run_inner] on the inputs it meets, until it returns. *)
Fixpoint run_listener (spec : UdpServerSpec) (inputs : list (gset EndpointId * listener_input)) (st : Listener) : outcome Listener :=
  match inputs with
  | [] => Done st
  | (finished, input) :: rest =>
      let! (stop, st) := listener_turn spec finished input st in
      if stop : bool then Done st else run_listener spec rest st
  end.

(** [async fn run_inner(spec, wiring)]: bind, publish [Connected] on the listener's own
    [stats], run the loop. *)
Definition udps_run_inner {S} (spec : UdpServerSpec) (stats : nat) (seed : option Z) (rounds : list (bind_round S))
    (inputs : list (gset EndpointId * listener_input)) (st : Listener) : outcome Listener :=
  let! (out, _, _) :=
    bind_with_backoff rounds (Backoff_new (usp_reconnect_initial_ms spec) (usp_reconnect_max_ms spec) seed) in
  match out with
  | Cancelled => Done st
  | Bound _ =>
      run_listener spec inputs
        {| ls_peers := ls_peers st; ls_allocator := ls_allocator st; ls_frame_tx := ls_frame_tx st; ls_event_tx := ls_event_tx st;
           ls_world := stats_update stats (store_state Connected) (ls_world st); ls_cancelled := ls_cancelled st;
           ls_writers := ls_writers st |}
  end.

(** [async fn run_peer_writer(..)], one turn: [None] is the cancel arm, [Some r] a frame popped
    and sent with result [r]. *)
Definition peer_writer_turn (queue : TxQueue) (stats : nat) (input : option (option nat)) (w : World Q)
    : outcome (ControlFlow unit * World Q) :=
  match input with
  | None => let! (_, w) := drain_and_discard queue w in Done (Break tt, w)
  | Some res =>
      match TxQueue_pop queue w with
      | (None, w) => Done (Continue, w)
      | (Some _, w) =>
          match res with
          | Some bytes_sent => Done (Continue, stats_update stats (add_tx_frame bytes_sent) w)
          | None => Done (Continue, stats_update stats (fetch_add DroppedTx 1) w)
          end
      end
  end.
End Listener.

(** ** The peer table and the router's view of it *)

(** Replaying the lifecycle events gives the set of live sub-endpoints. *)
Definition replay_event (live : gset EndpointId) (e : EndpointEvent) : gset EndpointId :=
  match e with
  | EndpointAdded id _ _ _ | PeerAdded _ id _ _ _ => {[id]} ∪ live
  | PeerRemoved _ id _ => live ∖ {[id]}
  end.
Definition replay (events : list EndpointEvent) : gset EndpointId := foldl replay_event ∅ events.

Definition peer_ids (peers : peer_table) : gset EndpointId := map_to_set (fun _ p => pe_child_id p) peers.

(** [extra] are sub-endpoints announced but not yet in the table. *)
Record listener_inv {Q CF CE} `{SenderLaws EndpointEvent CE} (extra : gset EndpointId) (st : Listener Q CF CE) : Prop := {
  li_extra : forall addr p, ls_peers st !! addr = Some p -> pe_child_id p ∉ extra;
  li_bound : forall addr p, ls_peers st !! addr = Some p -> 0 <= pe_child_id p < ls_allocator st;
  li_inj : forall a1 a2 p1 p2, ls_peers st !! a1 = Some p1 -> ls_peers st !! a2 = Some p2 ->
             pe_child_id p1 = pe_child_id p2 -> a1 = a2;
  li_live : replay (sent (ls_event_tx st)) = extra ∪ peer_ids (ls_peers st);
  li_framers : map_Forall (fun _ p => counters_ok (pe_framer p)) (ls_peers st);
  li_world : map_Forall (fun _ => stats_ok) (w_stats (ls_world st));
}.

(** The writer tasks: every peer of the table has its own, not cancelled, and there is no
    other that is not cancelled. *)
Record writers_inv {Q CF CE} (st : Listener Q CF CE) : Prop := {
  wi_running : forall addr p, ls_peers st !! addr = Some p ->
    (pe_child_id p ∉ ls_cancelled st) /\ exists tq, (addr, tq, pe_child_id p) ∈ ls_writers st;
  wi_serving : forall addr tq id, (addr, tq, id) ∈ ls_writers st ->
    id < ls_allocator st /\ (id ∈ ls_cancelled st \/ exists p, ls_peers st !! addr = Some p /\ pe_child_id p = id);
  wi_unique : NoDup (snd <$> ls_writers st);
  wi_cancelled : forall id, id ∈ ls_cancelled st -> id < ls_allocator st;
}.

Lemma elem_of_peer_ids peers id : id ∈ peer_ids peers <-> exists addr p, peers !! addr = Some p /\ pe_child_id p = id.
Proof. unfold peer_ids. rewrite elem_of_map_to_set. naive_solver. Qed.

Section ListenerProps.
Context `{MsgTable} {Q : Type} `{ArrayQueue Q} {CF : Type} `{SenderLaws RouterFrame CF} {CE : Type} `{SenderLaws EndpointEvent CE}.
Context (iter : peer_table -> list (SocketAddr * PeerEntry)).
Hypothesis iter_perm : forall m, iter m ≡ₚ map_to_list m.
Hypothesis router_alive : forall (c : CE) (x : EndpointEvent), (send c x).1 = true.
Implicit Types st : Listener Q CF CE.

Lemma send_alive (c : CE) (x : EndpointEvent) : send c x = (true, (send c x).2) /\ sent (send c x).2 = sent c ++ [x].
Proof.
  pose proof (router_alive c x) as Ha. pose proof (send_sent c x) as Hs. rewrite Ha in Hs. split; [|done].
  destruct (send c x). simpl in *. by subst.
Qed.

Lemma replay_snoc l e : replay (l ++ [e]) = replay_event (replay l) e.
Proof. unfold replay. by rewrite foldl_app. Qed.

(** Retiring a peer of the table removes it there and, by its event, from the replay. *)
Lemma retire_peer_inv x st pid addr p reason :
  listener_inv x st -> ls_peers st !! addr = Some p -> listener_inv x (retire_peer st pid addr p reason).
Proof.
  intros [Hx Hb Hi Hl Hf Hw] Hp. unfold retire_peer.
  destruct (send_alive (ls_event_tx st) (PeerRemoved pid (pe_child_id p) reason)) as [Hsend Hs].
  rewrite Hsend. split; simpl.
  - intros a q [_ Hq]%lookup_delete_Some. eauto.
  - intros a q [_ Hq]%lookup_delete_Some. eauto.
  - intros a1 a2 p1 p2 [_ Ha1]%lookup_delete_Some [_ Ha2]%lookup_delete_Some. eauto.
  - rewrite Hs, replay_snoc, Hl. simpl. apply set_eq. intros id.
    rewrite elem_of_difference, !elem_of_union, elem_of_singleton, !elem_of_peer_ids. split.
    + intros [[Hin|(a & q & Ha & <-)] Hne]; [by left|right]. exists a, q. split; [|done].
      rewrite lookup_delete_ne; [done|]. intros <-. by simplify_eq.
    + intros [Hin|(a & q & [Hne Ha]%lookup_delete_Some & <-)].
      * split; [by left|]. intros ->. by apply (Hx addr p).
      * split; [right; eauto|]. intros Heq. apply Hne. symmetry. by eapply Hi.
  - by apply map_Forall_delete.
  - done.
Qed.

Lemma retire_all_inv x st pid reason addrs : listener_inv x st -> listener_inv x (retire_all pid reason addrs st).
Proof.
  revert st; induction addrs as [|a addrs IH]; intros st Hst; simpl; [done|]. apply IH.
  destruct (ls_peers st !! a) eqn:E; [by apply retire_peer_inv|done].
Qed.

Lemma retire_all_peers st pid reason addrs :
  ls_peers (retire_all pid reason addrs st) = filter (fun p => p.1 ∉ addrs) (ls_peers st) /\
  ls_allocator (retire_all pid reason addrs st) = ls_allocator st.
Proof.
  revert st; induction addrs as [|a addrs IH]; intros st; simpl.
  { split; [|done]. symmetry. apply map_filter_id. intros. apply not_elem_of_nil. }
  set (st1 := match ls_peers st !! a with Some _ => _ | None => _ end).
  assert (Hp : ls_peers st1 = delete a (ls_peers st) /\ ls_allocator st1 = ls_allocator st).
  { unfold st1. destruct (ls_peers st !! a) as [p|] eqn:E; [|by rewrite delete_id].
    unfold retire_peer. by destruct (send (ls_event_tx st) _). }
  destruct (IH st1) as [-> ->]. destruct Hp as [-> ->]. split; [|done]. apply map_eq. intros b. apply option_eq. intros p.
  rewrite !map_lookup_filter_Some, lookup_delete_Some. simpl. rewrite not_elem_of_cons. naive_solver.
Qed.

Lemma evict_lru_spec st pid :
  ls_peers st <> ∅ ->
  exists victim p, ls_peers st !! victim = Some p /\
    (forall a q, ls_peers st !! a = Some q -> pe_last_seen p <= pe_last_seen q) /\
    evict_lru_peer iter st pid = retire_peer st pid victim p LruEvicted.
Proof.
  intros Hne. unfold evict_lru_peer.
  assert (Hmem : forall a q, (a, q) ∈ iter (ls_peers st) <-> ls_peers st !! a = Some q).
  { intros a q. rewrite iter_perm. apply elem_of_map_to_list. }
  destruct (min_index (fun p => pe_last_seen p.2) (iter (ls_peers st))) as [i|] eqn:E.
  - apply min_index_Some in E as ([victim p] & Hi & Hmin & _). rewrite Hi.
    assert (Hv : ls_peers st !! victim = Some p) by (apply Hmem; by eapply list_elem_of_lookup_2).
    rewrite Hv. exists victim, p. split_and!; [done| |done]. intros a q Hq. apply Hmem, list_elem_of_lookup in Hq as [j Hj].
    by apply (Hmin j (a, q)).
  - apply min_index_None in E. destruct Hne. apply map_to_list_empty_iff.
    apply Permutation_nil_r. by rewrite <- iter_perm, E.
Qed.

Lemma retire_peer_fields st pid addr p reason :
  ls_peers (retire_peer st pid addr p reason) = delete addr (ls_peers st) /\
  ls_allocator (retire_peer st pid addr p reason) = ls_allocator st.
Proof. unfold retire_peer. by destruct (send _ _). Qed.

Lemma retire_peer_writers x st pid addr p reason :
  listener_inv x st -> ls_peers st !! addr = Some p -> writers_inv st -> writers_inv (retire_peer st pid addr p reason).
Proof.
  intros Hinv Hp [Hr Hs Hu Hc]. unfold retire_peer. destruct (send _ _) as [ok tx]. split; cbn [ls_peers ls_cancelled ls_writers ls_allocator].
  - intros a q [Hne Hq]%lookup_delete_Some. destruct (Hr a q Hq) as [Hn Hw]. split; [|done].
    rewrite elem_of_union, elem_of_singleton. intros [Heq|Hin]; [|done]. apply Hne. symmetry. by eapply (li_inj _ _ Hinv).
  - intros a tq id Hw. destruct (Hs a tq id Hw) as [Hlt Hor]. split; [done|]. rewrite elem_of_union, elem_of_singleton.
    destruct Hor as [Hin|(q & Hq & <-)]; [by left; right|]. destruct (decide (a = addr)) as [->|Hne]; [left; left; congruence|].
    right. exists q. by rewrite lookup_delete_ne.
  - done.
  - intros id. rewrite elem_of_union, elem_of_singleton. intros [->|Hin]; [|by apply Hc]. by apply (li_bound _ _ Hinv addr).
Qed.

Lemma retire_all_writers x st pid reason addrs :
  listener_inv x st -> writers_inv st -> writers_inv (retire_all pid reason addrs st).
Proof.
  revert st; induction addrs as [|a addrs IH]; intros st Hst Hw; simpl; [done|]. destruct (ls_peers st !! a) eqn:E; [|by apply IH].
  apply IH; [by apply retire_peer_inv|by eapply retire_peer_writers].
Qed.

Lemma evict_lru_writers x st pid : listener_inv x st -> writers_inv st -> writers_inv (evict_lru_peer iter st pid).
Proof.
  intros Hinv Hw. unfold evict_lru_peer. repeat case_match; try done. by eapply retire_peer_writers.
Qed.

Lemma reap_finished_inv x finished st : listener_inv x st -> listener_inv x (reap_finished finished st).
Proof. intros []. by split. Qed.

(** Reaping the writers of cancelled tokens loses no live peer's. *)
Lemma reap_finished_writers finished st :
  finished ⊆ ls_cancelled st -> writers_inv st -> writers_inv (reap_finished finished st).
Proof.
  intros Hsub [Hr Hs Hu Hc]. split; cbn [reap_finished ls_peers ls_cancelled ls_writers ls_allocator]; [| | |done].
  - intros a p Hp. destruct (Hr a p Hp) as [Hn (tq & Hw)]. split; [done|]. exists tq.
    rewrite list_elem_of_In, List.filter_In, <- list_elem_of_In. split; [done|]. cbn [snd].
    rewrite bool_decide_eq_false_2; [done|]. intros Hin. by apply Hn, Hsub.
  - intros a tq id. rewrite list_elem_of_In, List.filter_In, <- list_elem_of_In. intros [Hw _]. by apply Hs in Hw.
  - clear -Hu. induction (ls_writers st) as [|w l IH]; simpl; [done|]. rewrite fmap_cons, NoDup_cons in Hu. destruct Hu as [Hn Hu].
    destruct (negb _); [|by apply IH]. rewrite fmap_cons, NoDup_cons. split; [|by apply IH].
    rewrite list_elem_of_fmap. intros (v & Hv & Hin). apply Hn. rewrite list_elem_of_fmap. exists v. split; [done|].
    apply list_elem_of_In, List.filter_In in Hin as [Hin _]. by apply list_elem_of_In.
Qed.

Lemma evict_lru_inv x st pid :
  listener_inv x st ->
  listener_inv x (evict_lru_peer iter st pid) /\ ls_allocator (evict_lru_peer iter st pid) = ls_allocator st /\
  size (ls_peers (evict_lru_peer iter st pid)) = (size (ls_peers st) - 1)%nat /\
  ls_peers (evict_lru_peer iter st pid) ⊆ ls_peers st.
Proof.
  intros Hinv. destruct (decide (ls_peers st = ∅)) as [He|Hne].
  - assert (Hn : evict_lru_peer iter st pid = st).
    { unfold evict_lru_peer. assert (iter (ls_peers st) = []) as ->; [|done].
      apply Permutation_nil_r. by rewrite iter_perm, He, map_to_list_empty. }
    rewrite Hn, He, map_size_empty. done.
  - destruct (evict_lru_spec st pid Hne) as (v & p & Hv & _ & ->).
    destruct (retire_peer_fields st pid v p LruEvicted) as [Hp Ha]. rewrite Hp, Ha.
    split_and!; [by apply retire_peer_inv|done| |apply delete_subseteq].
    rewrite map_size_delete_Some by eauto. lia.
Qed.

(** The table is within its capacity. *)
Definition capacity_ok (spec : UdpServerSpec) st : Prop := (size (ls_peers st) <= usp_peer_capacity spec)%nat.

(** Inserting the announced peer closes the gap. *)
Lemma insert_peer_inv id src p st :
  listener_inv {[id]} st -> pe_child_id p = id -> 0 <= id < ls_allocator st -> counters_ok (pe_framer p) ->
  ls_peers st !! src = None -> listener_inv ∅ (set_peers st (<[src := p]> (ls_peers st))).
Proof.
  intros [Hx Hb Hi Hl Hf Hw] Hid Hr Hc Hsrc. split; simpl.
  - set_solver.
  - intros a q [[<- <-]|[_ Hq]]%lookup_insert_Some; [by rewrite Hid|eauto].
  - intros a1 a2 p1 p2 [[<- <-]|[_ Hq1]]%lookup_insert_Some [[<- <-]|[_ Hq2]]%lookup_insert_Some Heq; [done| | |by eapply Hi].
    + destruct (Hx _ _ Hq2). set_solver.
    + destruct (Hx _ _ Hq1). set_solver.
  - rewrite Hl. apply set_eq. intros x. rewrite !elem_of_union, elem_of_singleton, elem_of_empty, !elem_of_peer_ids. split.
    + intros [->|(a & q & Ha & <-)]; right; [exists src, p; by rewrite lookup_insert_eq|].
      exists a, q. split; [|done]. rewrite lookup_insert_ne; [done|]. intros <-. congruence.
    + intros [[]|(a & q & [[<- <-]|[_ Ha]]%lookup_insert_Some & <-)]; [by left|right; eauto].
  - by apply map_Forall_insert_2.
  - done.
Qed.

(** A sub-endpoint announced and not yet in the table. *)
Lemma announced_inv st h w tq w2 n pid name st_h rt (tx : CE) :
  listener_inv ∅ st -> 0 <= ls_allocator st ->
  stats_alloc Connected (ls_world st) = (h, w) -> TxQueue_new n h w = (tq, w2) ->
  sent tx = sent (ls_event_tx st) ++ [PeerAdded pid (ls_allocator st) name st_h rt] ->
  listener_inv {[ls_allocator st]}
    {| ls_peers := ls_peers st; ls_allocator := ls_allocator st + 1; ls_frame_tx := ls_frame_tx st; ls_event_tx := tx;
       ls_world := w2; ls_cancelled := ls_cancelled st; ls_writers := ls_writers st |}.
Proof.
  intros [Hx Hb Hi Hl Hf Hw] Ha Ew Eq Hs. split; simpl; try done.
  - intros a p Hp. apply Hb in Hp. set_solver by lia.
  - intros a p Hp. apply Hb in Hp. lia.
  - rewrite Hs, replay_snoc, Hl. simpl. set_solver.
  - injection Eq as _ <-. injection Ew as _ <-. simpl. apply map_Forall_insert_2; [apply EndpointStats_new_ok|done].
Qed.

Lemma admit_inv spec src now st :
  listener_inv ∅ st -> capacity_ok spec st -> (1 <= usp_peer_capacity spec)%nat -> 0 <= ls_allocator st < 2 ^ 64 - 1 ->
  ls_peers st !! src = None ->
  let '(ok, st') := admit_new_peer iter spec src now st in
  ok = true /\ listener_inv ∅ st' /\ capacity_ok spec st' /\ ls_allocator st' = ls_allocator st + 1.
Proof.
  intros Hinv Hcap Hc1 Ha Hsrc. unfold admit_new_peer, alloc.
  destruct (stats_alloc Connected (ls_world st)) as [h w] eqn:Ew.
  destruct (TxQueue_new DEFAULT_TX_QUEUE_FRAMES h w) as [tq w2] eqn:Eq.
  match goal with |- context [send ?c ?e] => destruct (send_alive c e) as [Hsend Hs]; rewrite Hsend; set (tx := (send c e).2) in * end.
  cbn [negb]. rewrite wrap_small by (unfold in_width; lia).
  match goal with |- context [evict_lru_peer iter ?s0 _] => set (st1 := s0) end.
  assert (Hst1 : listener_inv {[ls_allocator st]} st1) by (eapply announced_inv; [done|lia|done..]).
  set (st2 := if (usp_peer_capacity spec <=? size (ls_peers st1))%nat then _ else _).
  assert (Hst2 : listener_inv {[ls_allocator st]} st2 /\ ls_allocator st2 = ls_allocator st + 1 /\
    (size (ls_peers st2) < usp_peer_capacity spec)%nat /\ ls_peers st2 !! src = None).
  { unfold st2. unfold capacity_ok in Hcap. destruct (Nat.leb_spec (usp_peer_capacity spec) (size (ls_peers st1))); [|done].
    destruct (evict_lru_inv {[ls_allocator st]} st1 (usp_parent_id spec) Hst1) as (? & -> & -> & Hsub). split_and!; [done|done|simpl in *; lia|].
    destruct (ls_peers (evict_lru_peer iter st1 (usp_parent_id spec)) !! src) eqn:E; [|done].
    eapply lookup_weaken in E; [|exact Hsub]. simpl in E. congruence. }
  destruct Hst2 as (Hi2 & Ha2 & Hsz & Hs2). split_and!; [done| | |done].
  - destruct (insert_peer_inv (ls_allocator st) src
      {| pe_child_id := ls_allocator st; pe_framer := Framer_new; pe_last_seen := now; pe_framer_counters := FramerCounters_new;
         pe_seq_tracker := SeqTracker_new SEQ_TRACKER_CAPACITY; pe_stats := h |} st2 Hi2) as [? ? ? ? ? ?]; [done|lia|apply Framer_new_ok|done|].
    by split.
  - unfold capacity_ok. simpl. rewrite map_size_insert_None by done. lia.
Qed.

(** The admitted peer's writer is new, and the only one of its id. *)
Lemma spawn_writer src tq p st :
  writers_inv st -> ls_peers st !! src = None -> pe_child_id p + 1 = ls_allocator st ->
  (forall addr tq id, (addr, tq, id) ∈ ls_writers st -> id < pe_child_id p) -> (forall id, id ∈ ls_cancelled st -> id < pe_child_id p) ->
  writers_inv {| ls_peers := <[src := p]> (ls_peers st); ls_allocator := ls_allocator st; ls_frame_tx := ls_frame_tx st;
                 ls_event_tx := ls_event_tx st; ls_world := ls_world st; ls_cancelled := ls_cancelled st;
                 ls_writers := ls_writers st ++ [(src, tq, pe_child_id p)] |}.
Proof.
  intros [Hr Hs Hu Hc] Hsrc Hnext Hwb Hcb. split; cbn [ls_peers ls_cancelled ls_writers ls_allocator].
  - intros a q [[<- <-]|[Hne Hq]]%lookup_insert_Some.
    + split; [intros Hin%Hcb; lia|]. exists tq. apply elem_of_app. right. by apply list_elem_of_singleton.
    + destruct (Hr a q Hq) as [Hn (tq' & Hw)]. split; [done|]. exists tq'. apply elem_of_app. by left.
  - intros a tq' id [Hw|[= -> -> ->]%list_elem_of_singleton]%elem_of_app.
    + destruct (Hs a tq' id Hw) as [Hlt Hor]. split; [done|]. destruct Hor as [Hin|(q & Hq & <-)]; [by left|right]. exists q.
      split; [|done]. rewrite lookup_insert_ne; [done|]. intros <-. congruence.
    + split; [lia|]. right. exists p. by rewrite lookup_insert_eq.
  - rewrite fmap_app, NoDup_app. split_and!; [done| |apply NoDup_singleton].
    intros id ([[a tq'] id'] & -> & Hw%Hwb)%list_elem_of_fmap Hin%list_elem_of_singleton. simpl in *. lia.
  - done.
Qed.

Lemma retire_peer_kept st pid addr p reason : ls_writers (retire_peer st pid addr p reason) = ls_writers st /\
  ls_cancelled (retire_peer st pid addr p reason) = {[pe_child_id p]} ∪ ls_cancelled st.
Proof. unfold retire_peer. by destruct (send _ _). Qed.

Lemma admit_writers spec src now st :
  listener_inv ∅ st -> writers_inv st -> 0 <= ls_allocator st < 2 ^ 64 - 1 -> ls_peers st !! src = None ->
  writers_inv (admit_new_peer iter spec src now st).2.
Proof.
  intros Hinv Hwi Ha Hsrc. unfold admit_new_peer, alloc.
  destruct (stats_alloc Connected (ls_world st)) as [h w] eqn:Ew.
  destruct (TxQueue_new DEFAULT_TX_QUEUE_FRAMES h w) as [tq w2] eqn:Eq.
  match goal with |- context [send ?c ?e] => destruct (send_alive c e) as [Hsend Hs]; rewrite Hsend; set (tx := (send c e).2) in * end.
  cbn [negb]. rewrite wrap_small by (unfold in_width; lia).
  match goal with |- context [evict_lru_peer iter ?s0 _] => set (st1 := s0) end.
  assert (Hw1 : writers_inv st1).
  { destruct Hwi as [Hr Hsv Hu Hc]. split; simpl; [done| |done|].
    - intros a q id Hin. destruct (Hsv a q id Hin) as [Hlt Hor]. split; [lia|done].
    - intros id Hin%Hc. lia. }
  assert (Hst1 : exists x, listener_inv x st1).
  { exists {[ls_allocator st]}. eapply announced_inv; [done|lia|done..]. }
  destruct Hst1 as [x Hst1].
  set (st2 := if (usp_peer_capacity spec <=? size (ls_peers st1))%nat then _ else _).
  assert (Hst2 : writers_inv st2 /\ ls_allocator st2 = ls_allocator st + 1 /\ ls_peers st2 !! src = None /\ ls_writers st2 = ls_writers st /\
    (forall id, id ∈ ls_cancelled st2 -> id < ls_allocator st)).
  { unfold st2. destruct (Nat.leb_spec (usp_peer_capacity spec) (size (ls_peers st1))); [|split_and!; try done; apply Hwi].
    split; [by eapply evict_lru_writers|]. destruct (evict_lru_inv x st1 (usp_parent_id spec) Hst1) as (_ & -> & _ & Hsub).
    split; [done|]. split.
    { destruct (ls_peers (evict_lru_peer iter st1 (usp_parent_id spec)) !! src) eqn:E; [|done].
      eapply lookup_weaken in E; [|exact Hsub]. simpl in E. congruence. }
    unfold evict_lru_peer. assert (Hc := wi_cancelled _ Hwi). repeat case_match; try done.
    match goal with Hp : ls_peers st1 !! _ = Some ?p |- _ => pose proof (li_bound _ _ Hinv _ _ Hp) as Hb end.
    rewrite !(proj1 (retire_peer_kept _ _ _ _ _)), !(proj2 (retire_peer_kept _ _ _ _ _)). split; [done|].
    intros id. rewrite elem_of_union, elem_of_singleton. intros [->|Hin]; [lia|by apply Hc]. }
  destruct Hst2 as (Hi2 & Ha2 & Hs2 & Hwr & Hcb). cbn [snd]. apply (spawn_writer src tq
    {| pe_child_id := ls_allocator st; pe_framer := Framer_new; pe_last_seen := now; pe_framer_counters := FramerCounters_new;
       pe_seq_tracker := SeqTracker_new SEQ_TRACKER_CAPACITY; pe_stats := h |} st2 Hi2 Hs2); simpl; [lia| |done].
  intros a q id. rewrite Hwr. intros Hin. by apply (wi_serving _ Hwi a q).
Qed.

(** Updating a peer in place, its id kept. *)
Lemma update_peer_inv src p p' st (tx : CF) (w : World Q) :
  listener_inv ∅ st -> ls_peers st !! src = Some p -> pe_child_id p' = pe_child_id p -> counters_ok (pe_framer p') ->
  map_Forall (fun _ => stats_ok) (w_stats w) ->
  listener_inv ∅ {| ls_peers := <[src := p']> (ls_peers st); ls_allocator := ls_allocator st; ls_frame_tx := tx;
                    ls_event_tx := ls_event_tx st; ls_world := w; ls_cancelled := ls_cancelled st; ls_writers := ls_writers st |}.
Proof.
  intros [Hx Hb Hi Hl Hf Hw] Hp Hid Hc Hw'. split; simpl.
  - set_solver.
  - intros a q [[<- <-]|[_ Hq]]%lookup_insert_Some; [rewrite Hid|]; eauto.
  - intros a1 a2 p1 p2 [[<- <-]|[Hn1 Hq1]]%lookup_insert_Some [[<- <-]|[Hn2 Hq2]]%lookup_insert_Some Heq; [done| | |by eapply Hi];
      rewrite Hid in Heq; by eapply Hi.
  - rewrite Hl. f_equal. apply set_eq. intros id. rewrite !elem_of_peer_ids. split.
    + intros (a & q & Ha & <-). destruct (decide (src = a)) as [<-|Hne].
      * exists src, p'. rewrite lookup_insert_eq. split; [done|]. congruence.
      * exists a, q. by rewrite lookup_insert_ne.
    + intros (a & q & [[<- <-]|[_ Ha]]%lookup_insert_Some & <-); [exists src, p; by rewrite Hid|eauto].
  - by apply map_Forall_insert_2.
  - done.
Qed.

Lemma ingest_packet_inv spec data src now st :
  listener_inv ∅ st ->
  exists st', ingest_packet spec data src now st = Done st' /\ listener_inv ∅ st' /\
    ls_allocator st' = ls_allocator st /\ dom (ls_peers st') = dom (ls_peers st).
Proof.
  intros Hinv. unfold ingest_packet. destruct (ls_peers st !! src) as [p|] eqn:Ep; [|eauto 6].
  set (ctx := {| ctx_endpoint_id := pe_child_id p |}).
  assert (Hc : counters_ok (buffer_extend (pe_framer p) data)) by (apply (li_framers _ _ Hinv src p Ep)).
  destruct (forward_loop_spec (S (length (buf (buffer_extend (pe_framer p) data)))) ctx now (buffer_extend (pe_framer p) data)
    (pe_seq_tracker p) (ls_frame_tx st) (ls_world st)) as (flow & f' & t' & tx' & w' & Hd & _); [done|lia|apply Hinv|].
  unfold forward_inbound_frames. destruct (forward_loop_ok _ _ _ _ _ _ _ _ _ _ _ _ Hc (li_world _ _ Hinv) Hd) as [Hc' Hw'].
  rewrite Hd. assert (Hdom : forall p', dom (<[src := p']> (ls_peers st)) = dom (ls_peers st)).
  { intros p'. rewrite dom_insert_L. apply elem_of_dom_2 in Ep. set_solver. }
  destruct flow; eexists; (split; [done|]); (split_and!; [|done|apply Hdom]); eapply update_peer_inv; try done.
  apply stats_update_ok; [|done]. intros s. apply sync_ok.
Qed.

Lemma ingest_packet_writers spec data src now st st' :
  writers_inv st -> ingest_packet spec data src now st = Done st' -> writers_inv st'.
Proof.
  intros [Hr Hs Hu Hc]. unfold ingest_packet. destruct (ls_peers st !! src) as [p|] eqn:Ep; [|by intros [= <-]].
  destruct (forward_inbound_frames _ _ _ _ _ _) as [[[[[flow f'] t'] tx'] w']| |]; try done.
  set (q := match flow with Continue => _ | Break _ => _ end). destruct q as [counters w2]. intros [= <-].
  split; cbn [ls_peers ls_cancelled ls_writers ls_allocator]; [| |done|done].
  - intros a q [[<- <-]|[Hne Hq]]%lookup_insert_Some; [by apply (Hr src p)|by apply Hr].
  - intros a tq id Hw. destruct (Hs a tq id Hw) as [Hlt Hor]. split; [done|]. destruct Hor as [Hin|(q & Hq & <-)]; [by left|right].
    destruct (decide (src = a)) as [<-|Hne]; [|exists q; by rewrite lookup_insert_ne].
    eexists. rewrite lookup_insert_eq. split; [done|]. simpl. congruence.
Qed.

Lemma retire_all_reaped finished pid reason addrs st :
  retire_all pid reason addrs (reap_finished finished st) = reap_finished finished (retire_all pid reason addrs st).
Proof.
  revert st; induction addrs as [|a addrs IH]; intros st; simpl; [done|]. rewrite <- IH. f_equal.
  destruct (ls_peers st !! a); [|done]. unfold retire_peer. simpl. by destruct (send _ _).
Qed.

Lemma shutdown_empties pid st : ls_peers (shutdown_all_peers iter pid st) = ∅.
Proof.
  unfold shutdown_all_peers. simpl. rewrite (proj1 (retire_all_peers _ _ _ _)). apply map_empty_filter_2.
  intros a p Hp. simpl. intros Hn. apply Hn. change (map fst ?l) with (fst <$> l). apply list_elem_of_fmap.
  exists (a, p). split; [done|]. rewrite iter_perm. by apply elem_of_map_to_list.
Qed.

Lemma shutdown_writers pid finished st :
  listener_inv ∅ st -> writers_inv st -> writers_inv (shutdown_all_peers iter pid (reap_finished finished st)).
Proof.
  intros Hinv Hw. assert (Heq : shutdown_all_peers iter pid (reap_finished finished st) = shutdown_all_peers iter pid st).
  { unfold shutdown_all_peers. simpl. by rewrite retire_all_reaped. }
  rewrite Heq. pose proof (shutdown_empties pid st) as He.
  destruct (retire_all_writers ∅ st pid ListenerShutdown (map fst (iter (ls_peers st))) Hinv Hw) as [_ _ _ Hc].
  split; [|by intros ??? ?%elem_of_nil|constructor|exact Hc]. intros a p. by rewrite He, lookup_empty.
Qed.

Lemma listener_turn_writers spec finished input st b st' :
  listener_inv ∅ st -> writers_inv st -> 0 <= ls_allocator st < 2 ^ 64 - 1 ->
  listener_turn iter spec finished input st = Done (b, st') -> writers_inv st'.
Proof.
  intros Hinv Hw Ha. unfold listener_turn. destruct input as [|now|data src now|]; cbn [ended].
  { intros [= <- <-]. by apply shutdown_writers. }
  all: pose proof (reap_finished_inv ∅ (finished ∩ ls_cancelled st) st Hinv) as Hinv'.
  all: pose proof (reap_finished_writers (finished ∩ ls_cancelled st) st ltac:(set_solver) Hw) as Hw'.
  all: change (ls_allocator st) with (ls_allocator (reap_finished (finished ∩ ls_cancelled st) st)) in Ha.
  all: generalize dependent (reap_finished (finished ∩ ls_cancelled st) st); intros st1 Ha1 Hinv1 Hw1.
  - intros [= <- <-]. by eapply retire_all_writers.
  - unfold handle_packet. destruct (ls_peers st1 !! src) as [p|] eqn:Ep.
    + destruct (ingest_packet spec data src now st1) eqn:Ei; [|done..]. intros [= <- <-]. by eapply ingest_packet_writers.
    + pose proof (admit_writers spec src now st1 Hinv1 Hw1 Ha1 Ep) as Hadm.
      destruct (admit_new_peer iter spec src now st1) as [[] st2]; [|by intros [= <- <-]].
      destruct (ingest_packet spec data src now st2) eqn:Ei; [|done..]. intros [= <- <-]. by eapply ingest_packet_writers.
  - by intros [= <- <-].
Qed.

Lemma listener_turn_inv spec finished input st :
  listener_inv ∅ st -> capacity_ok spec st -> (1 <= usp_peer_capacity spec)%nat -> 0 <= ls_allocator st < 2 ^ 64 - 1 ->
  exists b st', listener_turn iter spec finished input st = Done (b, st') /\ listener_inv ∅ st' /\ capacity_ok spec st' /\
    ls_allocator st <= ls_allocator st' <= ls_allocator st + 1.
Proof.
  intros Hinv0 Hcap0 Hc1 Ha0. unfold listener_turn.
  pose proof (reap_finished_inv ∅ (ended finished input st) st Hinv0) as Hinv.
  assert (Hcap : capacity_ok spec (reap_finished (ended finished input st) st)) by exact Hcap0.
  change (ls_allocator st) with (ls_allocator (reap_finished (ended finished input st) st)) in *.
  generalize dependent (reap_finished (ended finished input st) st). clear st Hinv0 Hcap0. intros st Ha Hinv Hcap.
  assert (Hretire : forall reason addrs, let st' := retire_all (usp_parent_id spec) reason addrs st in
    listener_inv ∅ st' /\ capacity_ok spec st' /\ ls_allocator st' = ls_allocator st).
  { intros reason addrs. destruct (retire_all_peers st (usp_parent_id spec) reason addrs) as [Hp Hal]. cbv zeta.
    split_and!; [by apply retire_all_inv| |done]. unfold capacity_ok in *. rewrite Hp.
    etrans; [|exact Hcap]. apply map_subseteq_size, map_filter_subseteq. }
  destruct input as [|now|data src now|]; simpl.
  - eexists _, _. split; [done|]. destruct (Hretire ListenerShutdown (map fst (iter (ls_peers st)))) as ([] & Hc & Hal).
    split_and!; [by split|done|simpl; lia|simpl; lia].
  - eexists _, _. split; [done|]. destruct (Hretire Reason_Idle (map fst (List.filter (fun p => is_idle now (from_secs (usp_idle_secs spec)) p.2) (iter (ls_peers st))))) as (? & ? & Hal).
    unfold reap_idle_peers. split_and!; [done|done|lia|lia].
  - unfold handle_packet. destruct (ls_peers st !! src) as [p|] eqn:Ep.
    + destruct (ingest_packet_inv spec data src now st Hinv) as (st' & -> & Hi & Hal & Hdom).
      eexists _, _. split; [done|]. split_and!; [done| |lia|lia].
      unfold capacity_ok in *. by rewrite <- size_dom, Hdom, size_dom.
    + pose proof (admit_inv spec src now st Hinv Hcap Hc1 Ha Ep) as Hadm.
      destruct (admit_new_peer iter spec src now st) as [ok st1]. destruct Hadm as (-> & Hi1 & Hc & Hal1).
      destruct (ingest_packet_inv spec data src now st1 Hi1) as (st' & -> & Hi & Hal & Hdom).
      eexists _, _. split; [done|]. split_and!; [done| |lia|lia].
      unfold capacity_ok in *. by rewrite <- size_dom, Hdom, size_dom.
  - eexists _, _. split; [done|]. split_and!; try done; lia.
Qed.

Lemma run_listener_inv spec inputs st :
  listener_inv ∅ st -> writers_inv st -> capacity_ok spec st -> (1 <= usp_peer_capacity spec)%nat ->
  0 <= ls_allocator st -> ls_allocator st + Z.of_nat (length inputs) < 2 ^ 64 ->
  exists st', run_listener iter spec inputs st = Done st' /\ listener_inv ∅ st' /\ writers_inv st' /\ capacity_ok spec st'.
Proof.
  revert st; induction inputs as [|[fin i] inputs IH]; intros st Hinv Hw Hcap Hc1 Hal Hb; cbn [run_listener]; [by exists st|].
  simpl in Hb. destruct (listener_turn_inv spec fin i st Hinv Hcap Hc1 ltac:(lia)) as (stop & st1 & Ht & Hi & Hc & Ha).
  pose proof (listener_turn_writers spec fin i st stop st1 Hinv Hw ltac:(lia) Ht) as Hw1. rewrite Ht.
  destruct stop; [by exists st1|apply IH; try done; lia].
Qed.

(** C22. The peer table and the router agree.  Whatever packets, reap ticks and errors a
    [udps:] listener meets once its bind ended (fewer than 2^64 of them, router alive), it
    never panics; the sub-endpoints the router sees as live by replaying the
    [PeerAdded]/[PeerRemoved] events are exactly the ids in the peer table, each belonging
    to one address; the table never exceeds its capacity; and every peer of the table has
    a writer task of its own whose token is not cancelled, while every other writer task
    left has been told to stop, whichever of them were reaped meanwhile. *)
Theorem udps_table_matches_router_view {S} spec stats seed (rounds : list (bind_round S)) inputs st :
  bind_ends rounds = true ->
  listener_inv ∅ st -> writers_inv st -> capacity_ok spec st -> (1 <= usp_peer_capacity spec)%nat ->
  0 <= ls_allocator st -> ls_allocator st + Z.of_nat (length inputs) < 2 ^ 64 ->
  exists st', udps_run_inner iter spec stats seed rounds inputs st = Done st' /\
    replay (sent (ls_event_tx st')) = peer_ids (ls_peers st') /\
    (forall a1 a2 p1 p2, ls_peers st' !! a1 = Some p1 -> ls_peers st' !! a2 = Some p2 ->
       pe_child_id p1 = pe_child_id p2 -> a1 = a2) /\
    (size (ls_peers st') <= usp_peer_capacity spec)%nat /\
    NoDup (snd <$> ls_writers st') /\
    (forall addr p, ls_peers st' !! addr = Some p ->
       (pe_child_id p ∉ ls_cancelled st') /\ exists tq, (addr, tq, pe_child_id p) ∈ ls_writers st') /\
    (forall addr tq id, (addr, tq, id) ∈ ls_writers st' ->
       id ∈ ls_cancelled st' \/ exists p, ls_peers st' !! addr = Some p /\ pe_child_id p = id).
Proof.
  intros He Hinv Hwi Hcap Hc1 Hal Hb. unfold udps_run_inner.
  destruct (bind_with_backoff_total rounds
    (Backoff_new (usp_reconnect_initial_ms spec) (usp_reconnect_max_ms spec) seed) He) as (out & b & slept & ->).
  cut (exists st', match out with
    | Cancelled => Done st
    | Bound _ => run_listener iter spec inputs
        {| ls_peers := ls_peers st; ls_allocator := ls_allocator st; ls_frame_tx := ls_frame_tx st; ls_event_tx := ls_event_tx st;
           ls_world := stats_update stats (store_state Connected) (ls_world st); ls_cancelled := ls_cancelled st;
           ls_writers := ls_writers st |} end = Done st' /\ listener_inv ∅ st' /\ writers_inv st' /\ capacity_ok spec st').
  { intros (st' & Hr & Hi & [Hrun Hserv Hu _] & Hc). exists st'. split_and!; [done| |apply Hi|done|done|done|].
    - rewrite (li_live _ _ Hi). set_solver.
    - intros addr tq id Hin. by apply (Hserv addr tq id). }
  destruct out as [t|]; [|by exists st]. apply run_listener_inv; try done; [|destruct Hwi; by split].
  destruct Hinv. split; try done. apply (stats_update_ok (Q:=Q)); [intros x; apply store_state_ok|done].
Qed.

(** Peer removal policy.  Reaping removes exactly the peers silent for at least the
    idle time; the peer evicted to make room is one with the oldest last packet; shutdown
    empties the table. *)
Theorem udps_removal_policy st pid idle now :
  ls_peers (reap_idle_peers iter pid idle now st) = filter (fun p => is_idle now idle p.2 = false) (ls_peers st) /\
  ls_peers (shutdown_all_peers iter pid st) = ∅ /\
  (ls_peers st <> ∅ ->
   exists victim p, ls_peers st !! victim = Some p /\
     (forall a q, ls_peers st !! a = Some q -> pe_last_seen p <= pe_last_seen q) /\
     ls_peers (evict_lru_peer iter st pid) = delete victim (ls_peers st)).
Proof.
  assert (Hmem : forall a q, (a, q) ∈ iter (ls_peers st) <-> ls_peers st !! a = Some q).
  { intros a q. rewrite iter_perm. apply elem_of_map_to_list. }
  split_and!.
  - unfold reap_idle_peers. rewrite (proj1 (retire_all_peers _ _ _ _)). apply map_filter_ext. intros a p Hp. simpl.
    change (map fst ?l) with (fst <$> l). rewrite list_elem_of_fmap. setoid_rewrite list_elem_of_In.
    setoid_rewrite List.filter_In. setoid_rewrite <- list_elem_of_In. split.
    + intros Hn. apply not_true_is_false. intros Hidle. apply Hn. exists (a, p). split; [done|]. split; [by apply Hmem|done].
    + intros Hidle ([a' p'] & -> & [Hin Hi]). apply Hmem in Hin. simpl in *. congruence.
  - apply shutdown_empties.
  - intros Hne. destruct (evict_lru_spec st pid Hne) as (v & p & Hv & Hmin & ->). exists v, p.
    split_and!; [done|done|]. apply retire_peer_fields.
Qed.
End ListenerProps.

(** ** Witnesses *)

Module UdpsSample.
Definition spec : UdpServerSpec :=
  {| usp_listen_addr := SocketAddr_new (V4 [0; 0; 0; 0]) 14550; usp_parent_id := 0; usp_parent_name := "gcs";
     usp_idle_secs := 60; usp_peer_capacity := 2; usp_reconnect_initial_ms := 250; usp_reconnect_max_ms := 30000;
     usp_identity := IdentityFlags_default |}.
Definition peer (n : Z) : SocketAddr := SocketAddr_new (V4 [10; 0; 0; n]) 14551.
Definition start : Listener ListQueue.t (LiveSender.t RouterFrame) (LiveSender.t EndpointEvent) :=
  {| ls_peers := ∅; ls_allocator := 1; ls_frame_tx := {| LiveSender.log := [] |}; ls_event_tx := {| LiveSender.log := [] |};
     ls_world := sample_world (aq_new 2); ls_cancelled := ∅; ls_writers := [] |}.
Definition binds : list (bind_round unit) :=
  [{| br_cancelled := false; br_bind := None; br_waited := true |}; {| br_cancelled := false; br_bind := Some tt; br_waited := true |}].
(** Three peers on a table of two: the first is evicted and its writer reaped; the second
    goes idle. *)
Definition inputs : list (gset EndpointId * listener_input) :=
  [(∅, ListenPacket [1; 2; 3] (peer 1) 0); (∅, ListenPacket [] (peer 2) 5); (∅, ListenRecvError);
   (∅, ListenPacket [4] (peer 3) 61000000000); ({[1]}, ListenReap 60000000006)].

Lemma udps_start_inv : listener_inv ∅ start.
Proof. split; try done. apply sample_world_ok. Qed.
Lemma udps_start_writers : writers_inv start.
Proof. split; [done|by intros ??? ?%elem_of_nil|constructor|done]. Qed.
End UdpsSample.

#[local] Existing Instance SampleTable.sample.

Lemma udps_table_matches_router_view_witness :
  exists st', udps_run_inner map_to_list UdpsSample.spec 0 (Some 7) UdpsSample.binds UdpsSample.inputs UdpsSample.start = Done st' /\
    replay (sent (ls_event_tx st')) = peer_ids (ls_peers st') /\ (size (ls_peers st') <= 2)%nat.
Proof.
  destruct (udps_table_matches_router_view map_to_list (fun m => Permutation_refl _) (LiveSender.alive EndpointEvent)
    UdpsSample.spec 0 (Some 7) UdpsSample.binds UdpsSample.inputs UdpsSample.start) as (st' & Hr & Hl & _ & Hc & _).
  - reflexivity.
  - apply UdpsSample.udps_start_inv.
  - apply UdpsSample.udps_start_writers.
  - vm_compute. lia.
  - simpl. lia.
  - simpl. lia.
  - simpl. lia.
  - exists st'. split; [exact Hr|]. split; [exact Hl|exact Hc].
Defined.

Lemma udps_removal_policy_witness :
  ls_peers (shutdown_all_peers map_to_list 0 UdpsSample.start) = ∅.
Proof. apply (udps_removal_policy map_to_list (fun m => Permutation_refl _) UdpsSample.start 0 5 9). Defined.

Example udps_evicts_then_reaps :
  match run_listener map_to_list UdpsSample.spec UdpsSample.inputs UdpsSample.start with
  | Done st => map fst (map_to_list (ls_peers st)) = [UdpsSample.peer 3] /\ ls_cancelled st = {[1; 2]} /\ map snd (ls_writers st) = [2; 3]
  | _ => False
  end.
Proof. vm_compute. done. Qed.
