(* ===== verification/UdpClient.v ===== *)
(** * The [udpc:] endpoint ([src/src/endpoint/udp/client.rs])

    A fixed destination that an accepted reply may narrow to the exact source address
    (the latch), until the peer falls silent.  DNS answers, socket results and clock
    readings are inputs of a turn. *)

From S2P Require Import Prelude RustStr RustNet Crc Frame MsgTable Framer FramerSpec LruVec SeqTracker Filters EndpointStats TxQueue Identity FilterParse Spec Session Backoff Endpoint.
#[local] Open Scope Z_scope.

Definition DEFAULT_LATCH_IDLE_SECS : Z := 30.

(** [struct UdpClientSpec] *)
Record UdpClientSpec := {
  ucp_host : string;
  ucp_port : Z;
  ucp_endpoint_id : EndpointId;
  ucp_name : string;
  ucp_latch_idle_secs : Z;
  ucp_reconnect_initial_ms : Z;
  ucp_reconnect_max_ms : Z;
  ucp_identity : IdentityFlags;
}.

(** [UdpClientSpec::from_endpoint] *)
Definition UdpClientSpec_from_endpoint (endpoint : UdpClientEndpoint) (endpoint_id : EndpointId) (name : string) : UdpClientSpec :=
  {| ucp_host := uc_host endpoint; ucp_port := uc_port endpoint; ucp_endpoint_id := endpoint_id; ucp_name := name;
     ucp_latch_idle_secs := default DEFAULT_LATCH_IDLE_SECS (uc_latch_idle_secs endpoint);
     ucp_reconnect_initial_ms := DEFAULT_RECONNECT_INITIAL_MS; ucp_reconnect_max_ms := DEFAULT_RECONNECT_MAX_MS;
     ucp_identity := uc_identity endpoint |}.

(** [struct LatchInfo] *)
Record LatchInfo := { latch_addr : SocketAddr; last_inbound : Z }.

(** [struct Destination] *)
Record Destination := {
  dest_host : string;
  dest_port : Z;
  resolved_ips : list IpAddr;
  latch : option LatchInfo;
}.

(** [Destination::current_target] *)
Definition current_target (dest : Destination) : option SocketAddr :=
  match latch dest with
  | Some l => Some (latch_addr l)
  | None =>
      match resolved_ips dest with
      | ip :: _ => Some (SocketAddr_new ip (dest_port dest))
      | [] => None
      end
  end.

(** [enum InboundDecision] *)
Inductive InboundDecision := AcceptAndLatch | AcceptUpdate | Reject.

(** [fn canonical_ip(ip: IpAddr) -> IpAddr] *)
Definition canonical_ip (ip : IpAddr) : IpAddr :=
  match ip with
  | V6 segments =>
      match segments with
      | [0; 0; 0; 0; 0; 0xFFFF; ab; cd] => V4 [ab / 256; ab mod 256; cd / 256; cd mod 256]
      | _ => V6 segments
      end
  | ip => ip
  end.

(** [fn classify_inbound(dest, src_ip) -> InboundDecision] *)
Definition classify_inbound (dest : Destination) (src_ip : IpAddr) : InboundDecision :=
  let src := canonical_ip src_ip in
  match latch dest with
  | Some l => if bool_decide (canonical_ip (addr_ip (latch_addr l)) = src) then AcceptUpdate else Reject
  | None =>
      if existsb (fun ip_addr => bool_decide (canonical_ip ip_addr = src)) (resolved_ips dest)
      then AcceptAndLatch else Reject
  end.

Definition is_ipv6 (ip : IpAddr) : bool := match ip with V6 _ => true | V4 _ => false end.

(** [fn pick_local_bind(resolved_ips) -> SocketAddr] *)
Definition pick_local_bind (ips : list IpAddr) : SocketAddr :=
  if bool_decide (ips = []) || existsb is_ipv6 ips
  then SocketAddr_new (V6 [0; 0; 0; 0; 0; 0; 0; 0]) 0
  else SocketAddr_new (V4 [0; 0; 0; 0]) 0.

(** What [lookup_host] answered: [None] is an error. *)
Definition lookup_answer := option (list SocketAddr).

(** [async fn resolve_host(host, port) -> Vec<IpAddr>] *)
Definition resolve_host (answer : lookup_answer) : list IpAddr :=
  match answer with
  | Some addrs => map addr_ip addrs
  | None => []
  end.

(** [if !fresh.is_empty() { dest.resolved_ips = fresh; }] *)
Definition refresh_ips (dest : Destination) (fresh : list IpAddr) : Destination :=
  match fresh with
  | [] => dest
  | _ => {| dest_host := dest_host dest; dest_port := dest_port dest; resolved_ips := fresh; latch := latch dest |}
  end.

Definition set_latch (dest : Destination) (l : option LatchInfo) : Destination :=
  {| dest_host := dest_host dest; dest_port := dest_port dest; resolved_ips := resolved_ips dest; latch := l |}.

(** [async fn bind_local_socket(spec, cancel) -> Option<(UdpSocket, Destination)>] *)
Definition bind_local_socket {S} (spec : UdpClientSpec) (answer : lookup_answer)
    (bind : SocketAddr -> list (bind_round S)) (seed : option Z) : outcome (option (S * Destination)) :=
  let initial_ips := resolve_host answer in
  let dest := {| dest_host := ucp_host spec; dest_port := ucp_port spec; resolved_ips := initial_ips; latch := None |} in
  let local_bind := pick_local_bind (resolved_ips dest) in
  let! (out, _, _) := bind_with_backoff (bind local_bind)
    (Backoff_new (ucp_reconnect_initial_ms spec) (ucp_reconnect_max_ms spec) seed) in
  match out with
  | Bound socket => Done (Some (socket, dest))
  | Cancelled => Done None
  end.

(** [async fn check_latch_idle(dest, idle)] *)
Definition check_latch_idle (dest : Destination) (idle now : Z) (answer : lookup_answer) : Destination :=
  match latch dest with
  | None => dest
  | Some l =>
      if Z.max (now - last_inbound l) 0 <? idle then dest
      else set_latch (refresh_ips dest (resolve_host answer)) None
  end.

Section UdpClient.
Context `{MsgTable} {Q : Type} `{ArrayQueue Q} {C : Type} `{Sender RouterFrame C}.
Abbreviation World := (World Q).

(** The locals of [event_loop]. *)
Record UdpcState := { uc_dest : Destination; uc_reader : ReaderState; uc_tx : C; uc_world : World }.

(** What [handle_inbound] does with an accepted packet, once the latch is updated. *)
Definition accept_inbound (ctx : SessionCtx) (data : Bytes) (now : Z) (dest : Destination) (s : UdpcState) : outcome UdpcState :=
  let w := stats_update (ctx_stats ctx) (store_state Connected) (uc_world s) in
  let rd := uc_reader s in
  let! (flow, framer, tracker, tx, w) :=
    forward_inbound_frames ctx now (buffer_extend (rd_framer rd) data) (rd_tracker rd) (uc_tx s) w in
  match flow with
  | Break _ =>
      Done {| uc_dest := dest; uc_reader := {| rd_framer := framer; rd_counters := rd_counters rd; rd_tracker := tracker |};
              uc_tx := tx; uc_world := w |}
  | Continue =>
      let stats := default (EndpointStats_new Reconnecting) (w_stats w !! ctx_stats ctx) in
      Done {| uc_dest := dest;
              uc_reader := {| rd_framer := framer; rd_counters := (sync (rd_counters rd) framer stats).1; rd_tracker := tracker |};
              uc_tx := tx;
              uc_world := stats_update (ctx_stats ctx) (fun s => (sync (rd_counters rd) framer s).2) w |}
  end.

(** [async fn handle_inbound(data, src, dest, framer, framer_counters, seq_tracker, session_ctx)] *)
Definition handle_inbound (ctx : SessionCtx) (data : Bytes) (src : SocketAddr) (now : Z) (s : UdpcState) : outcome UdpcState :=
  match classify_inbound (uc_dest s) (addr_ip src) with
  | Reject =>
      Done {| uc_dest := uc_dest s; uc_reader := uc_reader s; uc_tx := uc_tx s;
              uc_world := stats_update (ctx_stats ctx) (fetch_add InFilterDrops 1) (uc_world s) |}
  | AcceptAndLatch =>
      accept_inbound ctx data now (set_latch (uc_dest s) (Some {| latch_addr := src; last_inbound := now |})) s
  | AcceptUpdate =>
      let dest := match latch (uc_dest s) with
                  | Some _ => set_latch (uc_dest s) (Some {| latch_addr := src; last_inbound := now |})
                  | None => uc_dest s
                  end in
      accept_inbound ctx data now dest s
  end.

(** [async fn send_frame(socket, dest, frame, stats)]: [sent] is what [send_to] answers. *)
Definition send_frame (stats : nat) (sent : option nat) (answer : lookup_answer) (dest : Destination) (w : World)
    : Destination * World :=
  match current_target dest with
  | None =>
      let dest := refresh_ips dest (resolve_host answer) in
      let w := match current_target dest with
               | None => stats_update stats (store_state Reconnecting) w
               | Some _ => w
               end in
      (dest, w)
  | Some _ =>
      match sent with
      | Some bytes_sent =>
          (dest, stats_update stats (store_state Connected) (stats_update stats (add_tx_frame bytes_sent) w))
      | None =>
          (refresh_ips dest (resolve_host answer), stats_update stats (store_state Reconnecting) w)
      end
  end.

(** What the [select!] of [event_loop] resolved to. *)
Inductive udpc_input :=
| UdpcCancel
| UdpcTick (now : Z) (answer : lookup_answer)
| UdpcRecv (data : Bytes) (src : SocketAddr) (now : Z)
| UdpcRecvError
| UdpcSend (sent : option nat) (answer : lookup_answer).

(** One turn of [event_loop]; [true] is [return]. *)
Definition udpc_turn (spec : UdpClientSpec) (ctx : SessionCtx) (tq : TxQueue) (input : udpc_input) (s : UdpcState)
    : outcome (bool * UdpcState) :=
  match input with
  | UdpcCancel =>
      let! (_, w) := drain_and_discard tq (uc_world s) in
      Done (true, {| uc_dest := uc_dest s; uc_reader := uc_reader s; uc_tx := uc_tx s; uc_world := w |})
  | UdpcTick now answer =>
      Done (false, {| uc_dest := check_latch_idle (uc_dest s) (from_secs (ucp_latch_idle_secs spec)) now answer;
                      uc_reader := uc_reader s; uc_tx := uc_tx s; uc_world := uc_world s |})
  | UdpcRecv data src now => let! s := handle_inbound ctx data src now s in Done (false, s)
  | UdpcRecvError => Done (false, s)
  | UdpcSend sent answer =>
      match TxQueue_pop tq (uc_world s) with
      | (None, w) => Done (false, {| uc_dest := uc_dest s; uc_reader := uc_reader s; uc_tx := uc_tx s; uc_world := w |})
      | (Some _, w) =>
          let '(dest, w) := send_frame (ctx_stats ctx) sent answer (uc_dest s) w in
          Done (false, {| uc_dest := dest; uc_reader := uc_reader s; uc_tx := uc_tx s; uc_world := w |})
      end
  end.

(** [event_loop] on the inputs it meets, until it returns. *)
Fixpoint udpc_event_loop (spec : UdpClientSpec) (ctx : SessionCtx) (tq : TxQueue) (inputs : list udpc_input) (s : UdpcState)
    : outcome UdpcState :=
  match inputs with
  | [] => Done s
  | input :: rest =>
      let! (stop, s) := udpc_turn spec ctx tq input s in
      if stop : bool then Done s else udpc_event_loop spec ctx tq rest s
  end.

Definition udpc_ctx (spec : UdpClientSpec) (stats : nat) : SessionCtx :=
  {| ctx_endpoint_id := ucp_endpoint_id spec; ctx_stats := stats; ctx_filters := filters (ucp_identity spec) |}.

(** [async fn run_inner(spec, wiring)]: resolve and bind, publish [Connected], run
    [event_loop]; [None] is the return without a socket. *)
Definition udpc_run_inner {S} (spec : UdpClientSpec) (stats : nat) (tq : TxQueue) (answer : lookup_answer)
    (bind : SocketAddr -> list (bind_round S)) (seed : option Z) (inputs : list udpc_input) (tx : C) (w : World)
    : outcome (option UdpcState) :=
  let! bound := bind_local_socket spec answer bind seed in
  match bound with
  | None => Done None
  | Some (_, dest) =>
      let w := stats_update stats (store_state Connected) w in
      let! s := udpc_event_loop spec (udpc_ctx spec stats) tq inputs
        {| uc_dest := dest; uc_reader := ReaderState_new; uc_tx := tx; uc_world := w |} in
      Done (Some s)
  end.
End UdpClient.
Arguments UdpcState : clear implicits.

(** ** Strangers cannot interfere *)

(** Two stores that agree on the queues, whatever their counters say. *)
Definition world_sim {Q} (w1 w2 : World Q) : Prop := w_queues w1 = w_queues w2 /\ w_notified w1 = w_notified w2.
#[export] Instance world_sim_equivalence {Q} : Equivalence (@world_sim Q).
Proof. split; unfold world_sim; [done|intros ? ? []; by split|]. intros ? ? ? [] []; split; congruence. Qed.

Lemma stats_update_sim {Q} k g (w : World Q) : world_sim (stats_update k g w) w.
Proof. done. Qed.

(** Agreement of two endpoint states on all but the counters. *)
Definition udpc_sim {Q C} (s1 s2 : UdpcState Q C) : Prop :=
  uc_dest s1 = uc_dest s2 /\ uc_reader s1 = uc_reader s2 /\ uc_tx s1 = uc_tx s2 /\ world_sim (uc_world s1) (uc_world s2).
#[export] Instance udpc_sim_equivalence {Q C} : Equivalence (@udpc_sim Q C).
Proof.
  split; unfold udpc_sim; [done|intros ? ? (?&?&?&?); split_and!; done|].
  intros ? ? ? (?&?&?&?) (?&?&?&?); split_and!; try congruence. by etrans.
Qed.

(** [known] holds the canonical addresses the resolver ever answered for the host. *)
Definition dest_within (known : gset IpAddr) (dest : Destination) : Prop :=
  Forall (fun ip => canonical_ip ip ∈ known) (resolved_ips dest) /\
  forall l, latch dest = Some l -> canonical_ip (addr_ip (latch_addr l)) ∈ known.

Definition answer_within (known : gset IpAddr) (answer : lookup_answer) : Prop :=
  Forall (fun ip => canonical_ip ip ∈ known) (resolve_host answer).

Definition input_within (known : gset IpAddr) (i : udpc_input) : Prop :=
  match i with UdpcTick _ a | UdpcSend _ a => answer_within known a | _ => True end.

Definition from_stranger (known : gset IpAddr) (i : udpc_input) : bool :=
  match i with UdpcRecv _ src _ => bool_decide (canonical_ip (addr_ip src) ∉ known) | _ => false end.

Lemma refresh_within known dest fresh :
  dest_within known dest -> Forall (fun ip => canonical_ip ip ∈ known) fresh -> dest_within known (refresh_ips dest fresh).
Proof. intros [Hi Hl] Hf. unfold refresh_ips. by destruct fresh. Qed.

Lemma set_latch_within known dest l :
  dest_within known dest -> (forall x, l = Some x -> canonical_ip (addr_ip (latch_addr x)) ∈ known) ->
  dest_within known (set_latch dest l).
Proof. by intros [Hi _] Hl. Qed.

(** Only a known source is accepted. *)
Lemma classify_known known dest ip :
  dest_within known dest -> classify_inbound dest ip <> Reject -> canonical_ip ip ∈ known.
Proof.
  intros [Hi Hl]. unfold classify_inbound. destruct (latch dest) as [l|].
  - case_bool_decide as He; [|done]. intros _. rewrite <- He. by apply Hl.
  - destruct (existsb _ _) eqn:E; [|done]. intros _. apply existsb_exists in E as (x & Hx & He%bool_decide_eq_true).
    rewrite <- He. rewrite Forall_forall in Hi. apply Hi. by apply list_elem_of_In.
Qed.

Section UdpcProps.
Context `{MsgTable} {Q : Type} `{ArrayQueueLaws Q} {C : Type} `{SenderLaws RouterFrame C}.
Implicit Types (s : UdpcState Q C) (w : World Q).

Definition udpc_ok s : Prop := counters_ok (rd_framer (uc_reader s)) /\ map_Forall (fun _ => stats_ok) (w_stats (uc_world s)).

(** The ingress pipeline decides nothing by the counters. *)
Lemma forward_loop_sim fuel ctx now f t (tx : C) w1 w2 flow f' t' tx' w1' :
  world_sim w1 w2 -> forward_loop fuel ctx now f t tx w1 = Done (flow, f', t', tx', w1') ->
  exists w2', forward_loop fuel ctx now f t tx w2 = Done (flow, f', t', tx', w2') /\ world_sim w1' w2'.
Proof.
  revert f t tx w1 w2; induction fuel as [|fuel IH]; intros f t tx w1 w2 Hw; cbn [forward_loop]; [done|].
  destruct (try_next_frame f) as [[[[h fr]|] f1]| |]; [| |done|done].
  2: { intros [= <- <- <- <- <-]. eauto. }
  assert (Ha : exists pass t1 v1 v2, account_frame ctx now h fr t w1 = (pass, t1, v1) /\
    account_frame ctx now h fr t w2 = (pass, t1, v2) /\ world_sim v1 v2).
  { unfold account_frame. destruct (observe t (source h) (seq h) now) as [lost t1].
    destruct (passes_in_filter _ _ _); simpl; eexists _, _, _, _; (split; [done|]); (split; [done|]); by destruct (0 <? lost). }
  destruct Ha as (pass & t1 & v1 & v2 & -> & -> & Hv). destruct pass; [|by apply IH].
  destruct (send tx _) as [[] tx1]; [by apply IH|]. intros [= <- <- <- <- <-]. eauto.
Qed.

Lemma pop_sim tq w1 w2 :
  world_sim w1 w2 -> (TxQueue_pop tq w1).1 = (TxQueue_pop tq w2).1 /\ world_sim (TxQueue_pop tq w1).2 (TxQueue_pop tq w2).2.
Proof.
  intros [Hq Hn]. unfold TxQueue_pop. rewrite Hq. destruct (w_queues w2 !! tq_inner tq) as [q|]; [|done].
  destruct (aq_pop q). split; [done|]. split; simpl; [by rewrite Hq|done].
Qed.

Lemma drain_loop_sim fuel tq k w1 w2 n w1' :
  world_sim w1 w2 -> drain_loop fuel tq k w1 = Done (n, w1') ->
  exists w2', drain_loop fuel tq k w2 = Done (n, w2') /\ world_sim w1' w2'.
Proof.
  revert k w1 w2; induction fuel as [|fuel IH]; intros k w1 w2 Hw; cbn [drain_loop]; [done|].
  destruct (pop_sim tq w1 w2 Hw) as [Hp Hw']. destruct (TxQueue_pop tq w1) as [o v1], (TxQueue_pop tq w2) as [o2 v2].
  simpl in *. subst o2. destruct o; [by apply IH|]. intros [= <- <-]. eauto.
Qed.

Lemma drain_total tq w : exists n w', drain_and_discard tq w = Done (n, w') /\
  (map_Forall (fun _ => stats_ok) (w_stats w) -> map_Forall (fun _ => stats_ok) (w_stats w')).
Proof.
  destruct (w_queues w !! tq_inner tq) as [q|] eqn:Eq.
  - destruct (drain_and_discard_Done tq w q Eq) as (q' & _ & _ & ->). eexists _, _. split; [done|]. intros Hw.
    case_match; [|done]. apply stats_update_ok; [|done]. intros st. apply fetch_add_ok.
  - unfold drain_and_discard. cbn [drain_loop]. unfold TxQueue_pop. rewrite Eq. simpl. eauto.
Qed.

Lemma drain_sim tq w1 w2 n w1' :
  world_sim w1 w2 -> drain_and_discard tq w1 = Done (n, w1') ->
  exists w2', drain_and_discard tq w2 = Done (n, w2') /\ world_sim w1' w2'.
Proof.
  intros Hw. unfold drain_and_discard. assert (TxQueue_len tq w1 = TxQueue_len tq w2) as ->.
  { unfold TxQueue_len. by rewrite (proj1 Hw). }
  destruct (drain_loop _ tq 0 w1) as [[k v1]| |] eqn:E; [|done|done]. intros [= <- <-].
  destruct (drain_loop_sim _ _ _ _ _ _ _ Hw E) as (v2 & -> & Hv). eexists. split; [done|]. by case_match.
Qed.

Lemma accept_inbound_sim ctx data now dest s1 s2 s1' :
  udpc_sim s1 s2 -> accept_inbound ctx data now dest s1 = Done s1' ->
  exists s2', accept_inbound ctx data now dest s2 = Done s2' /\ udpc_sim s1' s2'.
Proof.
  intros (Hd & Hr & Ht & Hw). unfold accept_inbound. rewrite Hr, Ht.
  destruct (forward_inbound_frames ctx now _ _ _ (stats_update _ _ (uc_world s1))) as [[[[[flow f'] t'] tx'] v1]| |] eqn:E;
    [|done|done]. apply (forward_loop_sim _ _ _ _ _ _ _ (stats_update (ctx_stats ctx) (store_state Connected) (uc_world s2))) in E
    as (v2 & E2 & Hv); [|exact Hw]. unfold forward_inbound_frames. rewrite E2.
  destruct flow; intros [= <-]; eexists; (split; [done|]); split_and!; done || apply Hv.
Qed.

Lemma handle_inbound_sim ctx data src now s1 s2 s1' :
  udpc_sim s1 s2 -> handle_inbound ctx data src now s1 = Done s1' ->
  exists s2', handle_inbound ctx data src now s2 = Done s2' /\ udpc_sim s1' s2'.
Proof.
  intros Hs. pose proof Hs as (Hd & Hr & Ht & Hw). unfold handle_inbound. rewrite Hd.
  destruct (classify_inbound (uc_dest s2) (addr_ip src)); [by apply accept_inbound_sim..|].
  intros [= <-]. eexists. split; [done|]. split_and!; done || apply Hw.
Qed.

Lemma udpc_turn_sim spec ctx tq i s1 s2 b s1' :
  udpc_sim s1 s2 -> udpc_turn spec ctx tq i s1 = Done (b, s1') ->
  exists s2', udpc_turn spec ctx tq i s2 = Done (b, s2') /\ udpc_sim s1' s2'.
Proof.
  intros Hs. pose proof Hs as (Hd & Hr & Ht & Hw). destruct i as [|now a|data src now| |sent a]; cbn [udpc_turn].
  - destruct (drain_and_discard tq (uc_world s1)) as [[n v1]| |] eqn:E; [|done|done]. simpl. intros [= <- <-].
    destruct (drain_sim _ _ _ _ _ Hw E) as (v2 & -> & Hv). eexists. split; [done|]. split_and!; try done; apply Hv.
  - intros [= <- <-]. rewrite Hd. eexists. split; [done|]. split_and!; try done; apply Hw.
  - destruct (handle_inbound ctx data src now s1) as [v1| |] eqn:E; [|done|done]. simpl. intros [= <- <-].
    destruct (handle_inbound_sim _ _ _ _ _ _ _ Hs E) as (v2 & -> & Hv). eauto.
  - intros [= <- <-]. eauto.
  - destruct (pop_sim tq _ _ Hw) as [Hp Hw']. destruct (TxQueue_pop tq (uc_world s1)) as [o v1], (TxQueue_pop tq (uc_world s2)) as [o2 v2].
    simpl in *. subst o2. destruct o as [fr|].
    + rewrite Hd. unfold send_frame. repeat case_match; intros Hs1; simplify_eq; eexists; (split; [done|]); split_and!; done || apply Hw'.
    + intros [= <- <-]. eexists. split; [done|]. split_and!; try done; apply Hw'.
Qed.

Lemma accept_inbound_total ctx data now dest s :
  udpc_ok s -> exists s', accept_inbound ctx data now dest s = Done s' /\ udpc_ok s' /\ uc_dest s' = dest.
Proof.
  intros [Hc Hw]. unfold accept_inbound. set (f0 := buffer_extend _ _). set (w0 := stats_update _ _ _).
  assert (Hw0 : map_Forall (fun _ => stats_ok) (w_stats w0)) by (apply stats_update_ok; [intros st; apply store_state_ok|done]).
  destruct (forward_loop_spec (S (length (buf f0))) ctx now f0 (rd_tracker (uc_reader s)) (uc_tx s) w0 Hc ltac:(lia) Hw0)
    as (flow & f' & t' & tx' & w' & Hd & _).
  destruct (forward_loop_ok _ _ _ f0 _ _ _ _ _ _ _ _ Hc Hw0 Hd) as [Hc' Hw'].
  unfold forward_inbound_frames. rewrite Hd. destruct flow; eexists; (split; [done|]); split_and!; try done; split; try done.
  apply stats_update_ok; [intros st; apply sync_ok|done].
Qed.

Lemma send_frame_ok k sent a dest w :
  map_Forall (fun _ => stats_ok) (w_stats w) -> map_Forall (fun _ => stats_ok) (w_stats (send_frame k sent a dest w).2).
Proof.
  intros Hw. assert (Hst : forall st v, map_Forall (fun _ => stats_ok) (w_stats v) ->
    map_Forall (fun _ => stats_ok) (w_stats (stats_update (Q:=Q) k (store_state st) v))).
  { intros st v Hv. apply stats_update_ok; [|done]. intros x. apply store_state_ok. }
  unfold send_frame. repeat case_match; cbn [snd]; try done; apply Hst; try done.
  apply stats_update_ok; [|done]. intros x Hx. unfold add_tx_frame. auto with rmr.
Qed.

Lemma udpc_turn_total spec ctx tq i s :
  udpc_ok s -> exists b s', udpc_turn spec ctx tq i s = Done (b, s') /\ udpc_ok s'.
Proof.
  intros [Hc Hw]. destruct i as [|now a|data src now| |sent a]; cbn [udpc_turn].
  - destruct (drain_total tq (uc_world s)) as (n & w' & -> & Hw'). eexists _, _. split; [done|]. split; simpl; auto.
  - by eexists _, _.
  - unfold handle_inbound. destruct (classify_inbound (uc_dest s) (addr_ip src)).
    3: { eexists _, _. split; [done|]. split; [done|]. apply stats_update_ok; [|done]. intros st. apply fetch_add_ok. }
    + destruct (accept_inbound_total ctx data now (set_latch (uc_dest s) (Some {| latch_addr := src; last_inbound := now |})) s)
        as (s' & -> & Hok & _); [done|]. by eexists _, _.
    + match goal with |- context [accept_inbound ctx data now ?d s] =>
        destruct (accept_inbound_total ctx data now d s) as (s' & -> & Hok & _); [done|by eexists _, _] end.
  - by eexists _, _.
  - assert (Hp : map_Forall (fun _ => stats_ok) (w_stats (TxQueue_pop tq (uc_world s)).2)).
    { unfold TxQueue_pop. destruct (w_queues (uc_world s) !! tq_inner tq); [|done]. by destruct (aq_pop _). }
    destruct (TxQueue_pop tq (uc_world s)) as [[fr|] v]; simpl in Hp; [|by eexists _, _].
    pose proof (send_frame_ok (ctx_stats ctx) sent a (uc_dest s) v Hp) as Hsf.
    destruct (send_frame (ctx_stats ctx) sent a (uc_dest s) v). by eexists _, _.
Qed.

(** A turn keeps the destination within the known addresses. *)
Lemma udpc_turn_within known spec ctx tq i s b s' :
  dest_within known (uc_dest s) -> input_within known i -> udpc_ok s ->
  udpc_turn spec ctx tq i s = Done (b, s') -> dest_within known (uc_dest s').
Proof.
  intros Hd Hi Hok. destruct i as [|now a|data src now| |sent a]; cbn [udpc_turn].
  - destruct (drain_and_discard tq (uc_world s)) as [[n v1]| |]; [|done|done]. by intros [= <- <-].
  - intros [= <- <-]. simpl. unfold check_latch_idle. destruct (latch (uc_dest s)); [|done]. case_match; [done|].
    apply set_latch_within; [by apply refresh_within|done].
  - unfold handle_inbound. pose proof (classify_known known (uc_dest s) (addr_ip src) Hd) as Hk.
    assert (Hacc : forall d, dest_within known d -> (let! x := accept_inbound ctx data now d s in Done (false, x)) = Done (b, s') ->
      dest_within known (uc_dest s')).
    { intros d Hwd. destruct (accept_inbound_total ctx data now d s Hok) as (s1 & -> & _ & <-). by intros [= <- <-]. }
    assert (Hl : canonical_ip (addr_ip src) ∈ known ->
      dest_within known (set_latch (uc_dest s) (Some {| latch_addr := src; last_inbound := now |}))).
    { intros Hin. apply set_latch_within; [done|]. by intros x [= <-]. }
    destruct (classify_inbound (uc_dest s) (addr_ip src)); [apply Hacc; by apply Hl, Hk| |by intros [= <- <-]].
    apply Hacc. case_match; [by apply Hl, Hk|done].
  - by intros [= <- <-].
  - destruct (TxQueue_pop tq (uc_world s)) as [[fr|] v]; [|by intros [= <- <-]].
    unfold send_frame. repeat case_match; intros Hs1; simplify_eq; simpl; try done; by apply refresh_within.
Qed.

(** A stranger's packet costs a counter and nothing else. *)
Lemma stranger_turn known spec ctx tq i s :
  dest_within known (uc_dest s) -> from_stranger known i = true ->
  exists s', udpc_turn spec ctx tq i s = Done (false, s') /\ udpc_sim s' s /\
    w_stats (uc_world s') = alter (fetch_add InFilterDrops 1) (ctx_stats ctx) (w_stats (uc_world s)).
Proof.
  intros Hd. destruct i as [|now a|data src now| |sent a]; try done. intros Hs%bool_decide_eq_true. cbn [udpc_turn].
  unfold handle_inbound. pose proof (classify_known known (uc_dest s) (addr_ip src) Hd) as Hk.
  destruct (classify_inbound (uc_dest s) (addr_ip src)); [by destruct Hs; apply Hk..|].
  eexists. split; [done|]. split; [|done]. split_and!; done.
Qed.

Lemma target_known known dest target :
  dest_within known dest -> current_target dest = Some target -> canonical_ip (addr_ip target) ∈ known.
Proof.
  intros [Hip Hl]. unfold current_target. destruct (latch dest) as [l|]; [intros [= <-]; by apply Hl|].
  destruct (resolved_ips dest); [done|]. intros [= <-]. by inv Hip.
Qed.

(** Two runs in step, one without the strangers. *)
Lemma udpc_run_sim known spec ctx tq inputs s s0 :
  udpc_ok s -> udpc_ok s0 -> udpc_sim s s0 -> dest_within known (uc_dest s) -> Forall (input_within known) inputs ->
  exists s1 s2, udpc_event_loop spec ctx tq inputs s = Done s1 /\
    udpc_event_loop spec ctx tq (List.filter (fun i => negb (from_stranger known i)) inputs) s0 = Done s2 /\
    udpc_sim s1 s2 /\ dest_within known (uc_dest s1).
Proof.
  intros Hok Hok0 Hs Hd Hin. revert s s0 Hok Hok0 Hs Hd.
  induction Hin as [|i inputs Hi Hin IH]; intros s s0 Hok Hok0 Hs Hd; cbn [udpc_event_loop List.filter].
  { by exists s, s0. }
  destruct (udpc_turn_total spec ctx tq i s Hok) as (b & s' & Ht & Hok').
  pose proof (udpc_turn_within known spec ctx tq i s b s' Hd Hi Hok Ht) as Hd'. destruct (from_stranger known i) eqn:Ei; cbn [negb].
  - destruct (stranger_turn known spec ctx tq i s Hd Ei) as (s'' & Ht' & Hs' & _). rewrite Ht in Ht'. injection Ht' as -> ->.
    rewrite Ht. apply IH; [done|done| |done]. by etrans.
  - destruct (udpc_turn_sim _ _ _ _ _ _ _ _ Hs Ht) as (s0' & Ht0 & Hs').
    destruct (udpc_turn_total spec ctx tq i s0 Hok0) as (b' & s0'' & Ht0' & Hok0'). rewrite Ht0 in Ht0'. injection Ht0' as <- <-.
    cbn [udpc_event_loop]. rewrite Ht, Ht0. destruct b; [by exists s', s0'|by apply IH].
Qed.

(** C24. Latching is scoped to the host's addresses.  Let [known] be the addresses the
    resolver ever answered for the configured host (IPv4-mapped forms identified).
    Whatever the endpoint meets after its bind ended, it runs without panic, targets only a
    known address, and packets from other sources interfere with nothing: deleting them
    from the run leaves destination, framer, sequence tracker, frames forwarded and queues
    the same, counters apart. *)
Theorem udpc_ignores_strangers {S} known spec stats tq answer (bind : SocketAddr -> list (bind_round S)) seed inputs tx w :
  (forall addr, bind_ends (bind addr) = true) -> map_Forall (fun _ => stats_ok) (w_stats w) ->
  answer_within known answer -> Forall (input_within known) inputs ->
  exists r1 r2, udpc_run_inner spec stats tq answer bind seed inputs tx w = Done r1 /\
    udpc_run_inner spec stats tq answer bind seed (List.filter (fun i => negb (from_stranger known i)) inputs) tx w = Done r2 /\
    match r1, r2 with
    | Some s1, Some s2 => udpc_sim s1 s2 /\
        forall target, current_target (uc_dest s1) = Some target -> canonical_ip (addr_ip target) ∈ known
    | None, None => True
    | _, _ => False
    end.
Proof.
  intros He Hw Ha Hin. unfold udpc_run_inner, bind_local_socket.
  match goal with |- context [bind_with_backoff ?rs ?b] =>
    destruct (bind_with_backoff_total rs b (He _)) as (out & b' & slept & ->) end.
  destruct out as [sock|]; [|by exists None, None].
  match goal with |- context [udpc_event_loop spec ?c tq inputs ?x] => set (s0 := x); set (ctx := c) end.
  assert (Hok : udpc_ok s0).
  { split; [apply Framer_new_ok|]. apply (stats_update_ok (Q:=Q)); [intros x; apply store_state_ok|done]. }
  destruct (udpc_run_sim known spec ctx tq inputs s0 s0 Hok Hok ltac:(reflexivity) ltac:(by split) Hin)
    as (s1 & s2 & Hr1 & Hr2 & Hs & Hd1).
  exists (Some s1), (Some s2). rewrite Hr1, Hr2. split_and!; [done|done|done|]. intros target. by apply target_known.
Qed.

(** The latch's life cycle.  A packet from the host narrows the target to its exact
    source; a tick changes nothing while the latched peer was heard within the idle time,
    and from then on releases the latch, so that the target is the first address of a
    successful re-resolution (or of the previous one) on the configured port. *)
Theorem udpc_latch_lifecycle spec ctx tq data src now s :
  udpc_ok s ->
  (classify_inbound (uc_dest s) (addr_ip src) <> Reject ->
   exists s', udpc_turn spec ctx tq (UdpcRecv data src now) s = Done (false, s') /\
     current_target (uc_dest s') = Some src /\
     forall now2 answer,
       let dest2 := check_latch_idle (uc_dest s') (from_secs (ucp_latch_idle_secs spec)) now2 answer in
       if Z.max (now2 - now) 0 <? from_secs (ucp_latch_idle_secs spec) then dest2 = uc_dest s'
       else latch dest2 = None /\
            current_target dest2 =
            match resolve_host answer ++ resolved_ips (uc_dest s) with
            | ip :: _ => Some (SocketAddr_new ip (dest_port (uc_dest s)))
            | [] => None
            end).
Proof.
  intros Hok Hcl. cbn [udpc_turn]. unfold handle_inbound.
  set (d := set_latch (uc_dest s) (Some {| latch_addr := src; last_inbound := now |})).
  destruct (accept_inbound_total ctx data now d s Hok) as (s' & Ha & _ & Hd).
  exists s'. rewrite Hd. split_and!; [|done|].
  - unfold classify_inbound in *. destruct (latch (uc_dest s)) as [l|]; [destruct (bool_decide _)|destruct (existsb _ _)]; try done; by rewrite Ha.
  - intros now2 answer. unfold check_latch_idle. simpl. case_match; [done|]. split; [done|].
    unfold current_target. simpl. unfold refresh_ips. destruct (resolve_host answer); simpl; done.
Qed.
End UdpcProps.

(** ** Witnesses *)

Module UdpcSample.
Definition spec : UdpClientSpec := UdpClientSpec_from_endpoint
  {| uc_host := "gcs.local"; uc_port := 14550; uc_latch_idle_secs := None; uc_identity := IdentityFlags_default |} 3 "gcs".
Definition host : SocketAddr := SocketAddr_new (V4 [10; 0; 0; 7]) 40001.
Definition mapped : SocketAddr := SocketAddr_new (V6 [0; 0; 0; 0; 0; 0xFFFF; 0x0A00; 7]) 40002.
Definition stranger : SocketAddr := SocketAddr_new (V4 [10; 0; 0; 8]) 14550.
Definition ctx : SessionCtx := {| ctx_endpoint_id := 3; ctx_stats := 0; ctx_filters := Filters_default |}.
Definition start : UdpcState ListQueue.t (ListSender.t RouterFrame) :=
  {| uc_dest := {| dest_host := "gcs.local"; dest_port := 14550; resolved_ips := [V4 [10; 0; 0; 7]]; latch := None |};
     uc_reader := ReaderState_new; uc_tx := {| ListSender.items := []; ListSender.open := true |};
     uc_world := sample_world (aq_new 2) |}.
Definition answer : lookup_answer := Some [host].
Definition bind (local : SocketAddr) : list (bind_round unit) := [{| br_cancelled := false; br_bind := Some tt; br_waited := true |}].
Definition known : gset IpAddr := {[V4 [10; 0; 0; 7]]}.
Definition inputs : list udpc_input :=
  [UdpcRecv [1] stranger 0; UdpcRecv [2; 3] mapped 1; UdpcRecv [253] stranger 2; UdpcTick 5 None; UdpcRecv [4] host 9].
Lemma start_ok : udpc_ok start.
Proof. split; [apply Framer_new_ok|apply sample_world_ok]. Qed.
End UdpcSample.

#[local] Existing Instance SampleTable.sample.

Lemma udpc_ignores_strangers_witness :
  exists s1 s2,
    udpc_run_inner UdpcSample.spec 0 sample_queue UdpcSample.answer UdpcSample.bind (Some 7) UdpcSample.inputs
      (uc_tx UdpcSample.start) (uc_world UdpcSample.start) = Done (Some s1) /\
    udpc_run_inner UdpcSample.spec 0 sample_queue UdpcSample.answer UdpcSample.bind (Some 7)
      (List.filter (fun i => negb (from_stranger UdpcSample.known i)) UdpcSample.inputs)
      (uc_tx UdpcSample.start) (uc_world UdpcSample.start) = Done (Some s2) /\
    udpc_sim s1 s2.
Proof.
  destruct (udpc_ignores_strangers UdpcSample.known UdpcSample.spec 0 sample_queue UdpcSample.answer UdpcSample.bind (Some 7)
    UdpcSample.inputs (uc_tx UdpcSample.start) (uc_world UdpcSample.start)) as ([s1|] & [s2|] & Hr1 & Hr2 & Hs).
  - reflexivity.
  - apply UdpcSample.start_ok.
  - constructor; [|constructor]. vm_compute. reflexivity.
  - repeat constructor.
  - exists s1, s2. split; [exact Hr1|]. split; [exact Hr2|exact (proj1 Hs)].
  - destruct Hs.
  - destruct Hs.
  - vm_compute in Hr1. discriminate Hr1.
Defined.

Lemma udpc_latch_lifecycle_witness :
  exists s', udpc_turn UdpcSample.spec UdpcSample.ctx sample_queue (UdpcRecv [2; 3] UdpcSample.mapped 1) UdpcSample.start = Done (false, s') /\
    current_target (uc_dest s') = Some UdpcSample.mapped.
Proof.
  destruct (udpc_latch_lifecycle UdpcSample.spec UdpcSample.ctx sample_queue [2; 3] UdpcSample.mapped 1 UdpcSample.start
    UdpcSample.start_ok) as (s' & Hr & Ht & _).
  - vm_compute. discriminate.
  - exists s'. split; [exact Hr|exact Ht].
Defined.
