(* ===== verification/Stream.v ===== *)
(** * Stream endpoints: [tcpc:] and [serial:]
    ([src/src/endpoint/tcp/client.rs], [src/src/endpoint/serial.rs])

    Both tasks alternate between getting a byte stream and running a session on it.  What
    the outside does (cancellation, DNS, connects, device opens, reads, writes, frames the
    router pushes meanwhile) is a script the run consumes; a script that ends before the
    task returns gives [OutOfFuel]. *)

From S2P Require Import Prelude RustStr RustNet Crc Frame MsgTable Framer FramerSpec LruVec SeqTracker Filters EndpointStats TxQueue Identity FilterParse Spec Session Backoff Endpoint UdpClient.
#[local] Open Scope Z_scope.

(** ** Specs *)

(** [struct TcpClientSpec] *)
Record TcpClientSpec := {
  tcp_host : string;
  tcp_port : Z;
  tcp_endpoint_id : EndpointId;
  tcp_name : string;
  tcp_reconnect_initial_ms : Z;
  tcp_reconnect_max_ms : Z;
  tcp_identity : IdentityFlags;
}.

(** [TcpClientSpec::from_endpoint] *)
Definition TcpClientSpec_from_endpoint (endpoint : TcpClientEndpoint) (endpoint_id : EndpointId) (name : string) : TcpClientSpec :=
  {| tcp_host := tc_host endpoint; tcp_port := tc_port endpoint; tcp_endpoint_id := endpoint_id; tcp_name := name;
     tcp_reconnect_initial_ms := DEFAULT_RECONNECT_INITIAL_MS; tcp_reconnect_max_ms := DEFAULT_RECONNECT_MAX_MS;
     tcp_identity := tc_identity endpoint |}.

(** [struct SerialSpec] *)
Record SerialSpec := {
  ser_path : string;
  ser_baud : Z;
  ser_flow_control : SerialFlowControl;
  ser_endpoint_id : EndpointId;
  ser_name : string;
  ser_identity : IdentityFlags;
}.

(** [SerialSpec::from_endpoint] *)
Definition SerialSpec_from_endpoint (ep : SerialEndpoint) (endpoint_id : EndpointId) (name : string) : SerialSpec :=
  {| ser_path := se_path ep; ser_baud := se_baud ep; ser_flow_control := se_flow_control ep;
     ser_endpoint_id := endpoint_id; ser_name := name; ser_identity := se_identity ep |}.

(** ** Dialling *)

Definition family_rank (addr : SocketAddr) : Z := match addr_ip addr with V4 _ => 0 | V6 _ => 1 end.

(** [async fn resolve_to_socket_addrs(host, port) -> Vec<SocketAddr>] *)
Definition resolve_to_socket_addrs (host : string) (port : Z) (answer : lookup_answer) : list SocketAddr :=
  match parse_ip host with
  | Some ip_addr => [SocketAddr_new ip_addr port]
  | None =>
      match answer with
      | Some all => sort_by_key family_rank all
      | None => []
      end
  end.

(** [enum DialOutcome]; a connected stream is named by its target. *)
Inductive DialOutcome := DialConnected (target : SocketAddr) | DialCancelled | DialFailed.

(** What racing one connect against the token and the timeout can give. *)
Inductive connect_event := ConnCancelled | ConnOk | ConnErr | ConnTimeout.

(** [async fn connect_one(target, cancel) -> DialOutcome] *)
Definition connect_one (target : SocketAddr) (ev : connect_event) : DialOutcome :=
  match ev with
  | ConnCancelled => DialCancelled
  | ConnOk => DialConnected target
  | ConnErr => DialFailed
  | ConnTimeout => DialFailed
  end.

(** The loop of [dial_with_dns]; [env] answers the connects, by their number. *)
Fixpoint dial_loop (attempt : nat) (targets : list SocketAddr) (env : nat -> connect_event) : DialOutcome :=
  match targets with
  | [] => DialFailed
  | target :: rest =>
      match connect_one target (env attempt) with
      | DialConnected stream => DialConnected stream
      | DialCancelled => DialCancelled
      | DialFailed => dial_loop (S attempt) rest env
      end
  end.

(** [async fn dial_with_dns(host, port, cancel) -> DialOutcome] *)
Definition dial_with_dns (host : string) (port : Z) (answer : lookup_answer) (env : nat -> connect_event) : DialOutcome :=
  let resolved := resolve_to_socket_addrs host port answer in
  if bool_decide (resolved = []) then DialFailed else dial_loop 0 resolved env.

(** ** Opening a serial device *)

(** [tokio_serial::FlowControl], of what the source uses. *)
Inductive LineFlowControl := LineNone | LineHardware.
(** [tokio_serial::new(path, baud).flow_control(fc).open_native_async()], whether it gives
    a stream. *)
Abbreviation serial_driver := (string -> Z -> LineFlowControl -> bool).

(** [fn try_open(path, baud, flow_control) -> Result<SerialStream, Error>] *)
Definition try_open (driver : serial_driver) (path : string) (baud : Z) (flow_control : SerialFlowControl) : bool :=
  let fc := match flow_control with FlowControl_None => LineNone | FlowControl_RtsCts => LineHardware end in
  driver path baud fc.

(** ** Sessions beside a router that keeps pushing *)

Section Streams.
Context `{MsgTable} {Q : Type} `{ArrayQueue Q} {C : Type} `{Sender RouterFrame C}.
Abbreviation World := (World Q).
Abbreviation SessionState := (@SessionState Q C).

(** What happens to a session: a turn of its own loop, or the router pushing a frame. *)
Inductive session_event := SessInput (i : session_input) | SessPush (frame : Bytes).

(** The frames written to the transport and the frames pushed, in order. *)
Record session_log := { sl_written : list Bytes; sl_pushed : list Bytes }.
Definition log_cons (written pushed : list Bytes) (l : session_log) : session_log :=
  {| sl_written := written ++ sl_written l; sl_pushed := pushed ++ sl_pushed l |}.

(** The frame a turn writes. *)
Definition turn_writes (tq : TxQueue) (i : session_input) (w : World) : list Bytes :=
  match i with SelFrame true => option_list (TxQueue_pop tq w).1 | _ => [] end.

Fixpoint run_session_env (ctx : SessionCtx) (tq : TxQueue) (events : list session_event) (s : SessionState)
    : outcome (SessionOutcome * SessionState * session_log) :=
  match events with
  | [] => OutOfFuel
  | SessPush frame :: rest =>
      let! (out, s, l) := run_session_env ctx tq rest
        {| ss_reader := ss_reader s; ss_tx := ss_tx s; ss_world := TxQueue_push tq frame (ss_world s) |} in
      Done (out, s, log_cons [] [frame] l)
  | SessInput i :: rest =>
      let written := turn_writes tq i (ss_world s) in
      let! (flow, s) := session_turn ctx tq i s in
      match flow with
      | Break out => Done (out, s, {| sl_written := written; sl_pushed := [] |})
      | Continue =>
          let! (out, s, l) := run_session_env ctx tq rest s in
          Done (out, s, log_cons written [] l)
      end
  end.

(** With nobody pushing, this is [run_session]. *)
Lemma run_session_env_inputs ctx tq inputs s :
  (let! (out, s, _) := run_session_env ctx tq (map SessInput inputs) s in Done (out, s)) = run_session ctx tq inputs s.
Proof.
  revert s; induction inputs as [|i inputs IH]; intros s; [done|]. cbn [map run_session_env run_session].
  destruct (session_turn ctx tq i s) as [[[|out] s1]| |]; [|done..]. rewrite <- IH.
  by destruct (run_session_env ctx tq (map SessInput inputs) s1) as [[[out s2] l]| |].
Qed.

Fixpoint push_all (tq : TxQueue) (frames : list Bytes) (w : World) : World :=
  match frames with [] => w | f :: rest => push_all tq rest (TxQueue_push tq f w) end.

(** A task's wiring and state between sessions. *)
Record LeafState := { lf_tx : C; lf_world : World }.

(** Run a session on a fresh framer, as [run_session] starts one. *)
Definition leaf_session (ctx : SessionCtx) (tq : TxQueue) (events : list session_event) (l : LeafState)
    : outcome (SessionOutcome * LeafState * session_log) :=
  let! (out, s, log) := run_session_env ctx tq events
    {| ss_reader := ReaderState_new; ss_tx := lf_tx l; ss_world := lf_world l |} in
  Done (out, {| lf_tx := ss_tx s; lf_world := ss_world s |}, log).

Definition leaf_drain (tq : TxQueue) (l : LeafState) : outcome LeafState :=
  let! (_, w) := drain_and_discard tq (lf_world l) in Done {| lf_tx := lf_tx l; lf_world := w |}.

Definition leaf_state (stats : nat) (st : EndpointState) (l : LeafState) : LeafState :=
  {| lf_tx := lf_tx l; lf_world := stats_update stats (store_state st) (lf_world l) |}.

Definition leaf_push (tq : TxQueue) (frames : list Bytes) (l : LeafState) : LeafState :=
  {| lf_tx := lf_tx l; lf_world := push_all tq frames (lf_world l) |}.

(** ** [tcpc:] *)

(** One round of the loop of [tcp::client::run_inner] as the outside answers it.
    [tr_while_down] is pushed while the task dials, [tr_while_waiting] while it backs off. *)
Record tcpc_round := {
  tr_cancelled : bool;
  tr_while_down : list Bytes;
  tr_answer : lookup_answer;
  tr_connect : nat -> connect_event;
  tr_while_waiting : list Bytes;
  tr_waited : bool;
  tr_session : list session_event;
}.

Definition tcpc_ctx (spec : TcpClientSpec) (stats : nat) : SessionCtx :=
  {| ctx_endpoint_id := tcp_endpoint_id spec; ctx_stats := stats; ctx_filters := filters (tcp_identity spec) |}.

(** [async fn run_inner(spec, wiring)] of [tcp/client.rs], with the log of each session. *)
Fixpoint tcpc_run_inner (spec : TcpClientSpec) (tq : TxQueue) (stats : nat) (rounds : list tcpc_round)
    (backoff : Backoff) (l : LeafState) : outcome (LeafState * list session_log) :=
  match rounds with
  | [] => OutOfFuel
  | r :: rest =>
      if tr_cancelled r then let! l := leaf_drain tq l in Done (l, [])
      else
        let l := leaf_push tq (tr_while_down r) l in
        match dial_with_dns (tcp_host spec) (tcp_port spec) (tr_answer r) (tr_connect r) with
        | DialCancelled => let! l := leaf_drain tq l in Done (l, [])
        | DialFailed =>
            let '(_, backoff) := next_delay backoff in
            let l := leaf_push tq (tr_while_waiting r) l in
            if negb (tr_waited r) then let! l := leaf_drain tq l in Done (l, [])
            else tcpc_run_inner spec tq stats rest backoff l
        | DialConnected _ =>
            let backoff := Backoff_reset backoff in
            let! l := leaf_drain tq l in
            let l := leaf_state stats Connected l in
            let! (out, l, log) := leaf_session (tcpc_ctx spec stats) tq (tr_session r) l in
            match out with
            | Terminated => let! l := leaf_drain tq l in Done (l, [log])
            | SessionDisconnected =>
                let! (l, logs) := tcpc_run_inner spec tq stats rest backoff (leaf_state stats Reconnecting l) in
                Done (l, log :: logs)
            end
        end
  end.

(** ** [serial:] *)

(** One attempt of [open_until_cancel]; [oa_driver] is what opening a device with these
    settings answers at that moment. *)
Record open_attempt := { oa_cancelled : bool; oa_driver : serial_driver; oa_while_waiting : list Bytes; oa_waited : bool }.

(** [enum OpenOutcome] *)
Inductive OpenOutcome := Opened | OpenCancelled.

(** [async fn open_until_cancel(path, baud, flow_control, cancel) -> OpenOutcome] *)
Fixpoint open_until_cancel (path : string) (baud : Z) (flow_control : SerialFlowControl) (tq : TxQueue) (attempts : list open_attempt)
    (l : LeafState) : outcome (OpenOutcome * LeafState) :=
  match attempts with
  | [] => OutOfFuel
  | a :: rest =>
      if oa_cancelled a then Done (OpenCancelled, l)
      else if try_open (oa_driver a) path baud flow_control then Done (Opened, l)
      else
        let l := leaf_push tq (oa_while_waiting a) l in
        if negb (oa_waited a) then Done (OpenCancelled, l) else open_until_cancel path baud flow_control tq rest l
  end.

Record serial_round := {
  sr_cancelled : bool;
  sr_open : list open_attempt;
  sr_session : list session_event;
  sr_while_waiting : list Bytes;
  sr_waited : bool;
}.

Definition serial_ctx (spec : SerialSpec) (stats : nat) : SessionCtx :=
  {| ctx_endpoint_id := ser_endpoint_id spec; ctx_stats := stats; ctx_filters := filters (ser_identity spec) |}.

(** [async fn run_inner(spec, wiring)] of [serial.rs]. *)
Fixpoint serial_run_inner (spec : SerialSpec) (tq : TxQueue) (stats : nat) (rounds : list serial_round) (l : LeafState)
    : outcome (LeafState * list session_log) :=
  match rounds with
  | [] => OutOfFuel
  | r :: rest =>
      if sr_cancelled r then let! l := leaf_drain tq l in Done (l, [])
      else
        let! (opened, l) := open_until_cancel (ser_path spec) (ser_baud spec) (ser_flow_control spec) tq (sr_open r) l in
        match opened with
        | OpenCancelled => let! l := leaf_drain tq l in Done (l, [])
        | Opened =>
            let! l := leaf_drain tq l in
            let l := leaf_state stats Connected l in
            let! (out, l, log) := leaf_session (serial_ctx spec stats) tq (sr_session r) l in
            match out with
            | Terminated => let! l := leaf_drain tq l in Done (l, [log])
            | SessionDisconnected =>
                let! l := leaf_drain tq l in
                let l := leaf_state stats Reconnecting l in
                let l := leaf_push tq (sr_while_waiting r) l in
                if negb (sr_waited r) then Done (l, [log])
                else
                  let! (l, logs) := serial_run_inner spec tq stats rest l in
                  Done (l, log :: logs)
            end
        end
  end.
End Streams.
Arguments LeafState : clear implicits.
