(* ===== verification/StreamProps.v ===== *)
(** * What the stream endpoints guarantee

    Dialling order; no frame queued while the link was down is written on the next
    connection; the queue is empty when the task returns. *)

From S2P Require Import Prelude RustStr RustNet Crc Frame MsgTable Framer FramerSpec LruVec SeqTracker Filters EndpointStats TxQueue Identity FilterParse Spec Session SessionProps Backoff Endpoint UdpClient Stream.
#[local] Open Scope Z_scope.

(** ** Dialling order *)

Section SortProps.
Context {A : Type} (key : A -> Z).

(** Inserting behind every element of the lower or same class. *)
Lemma insert_by_key_two x lo hi :
  (forall y, y ∈ lo -> key y = 0) -> (forall y, y ∈ hi -> key y = 1) ->
  insert_by_key key x (lo ++ hi) =
  if key x =? 0 then lo ++ x :: hi else if key x =? 1 then lo ++ hi ++ [x] else insert_by_key key x (lo ++ hi).
Proof.
  intros Hlo Hhi. destruct (Z.eqb_spec (key x) 0) as [H0|H0]; [|destruct (Z.eqb_spec (key x) 1) as [H1'|H1']; [|done]].
  - induction lo as [|y lo IH]; simpl.
    + destruct hi as [|z hi]; [done|]. simpl. rewrite (Hhi z), H0 by (apply list_elem_of_here). done.
    + rewrite (Hlo y), H0 by (apply list_elem_of_here). simpl. f_equal. apply IH. intros z Hz. apply Hlo. by right.
  - induction lo as [|y lo IH]; simpl.
    + clear Hlo. induction hi as [|z hi IH]; [done|]. simpl. rewrite (Hhi z), H1' by (apply list_elem_of_here). simpl. f_equal.
      apply IH. intros u Hu. apply Hhi. by right.
    + rewrite (Hlo y), H1' by (apply list_elem_of_here). simpl. f_equal. apply IH. intros z Hz. apply Hlo. by right.
Qed.
End SortProps.

Definition is_v4 (a : SocketAddr) : bool := match addr_ip a with V4 _ => true | V6 _ => false end.

(** The stable sort by family is a partition. *)
Lemma sort_family l : sort_by_key family_rank l = List.filter is_v4 l ++ List.filter (negb ∘ is_v4) l.
Proof.
  unfold sort_by_key. induction l as [|x l IH] using rev_ind; [done|].
  rewrite foldl_app. cbn [foldl]. rewrite IH, !List.filter_app, insert_by_key_two.
  - unfold family_rank, is_v4. simpl. destruct (addr_ip x); simpl; rewrite ?app_nil_r, <- ?app_assoc; done.
  - intros y [_ Hy]%list_elem_of_In%List.filter_In. unfold family_rank, is_v4 in *. by destruct (addr_ip y).
  - intros y [_ Hy]%list_elem_of_In%List.filter_In. unfold family_rank, is_v4 in *. simpl in Hy. by destruct (addr_ip y).
Qed.

Lemma dial_loop_spec k targets env :
  match dial_loop k targets env with
  | DialConnected t => exists i, targets !! i = Some t /\ env (k + i)%nat = ConnOk /\
      forall j, (j < i)%nat -> env (k + j)%nat = ConnErr \/ env (k + j)%nat = ConnTimeout
  | DialCancelled => exists i, (i < length targets)%nat /\ env (k + i)%nat = ConnCancelled /\
      forall j, (j < i)%nat -> env (k + j)%nat = ConnErr \/ env (k + j)%nat = ConnTimeout
  | DialFailed => forall j, (j < length targets)%nat -> env (k + j)%nat = ConnErr \/ env (k + j)%nat = ConnTimeout
  end.
Proof.
  revert k; induction targets as [|t targets IH]; intros k; cbn [dial_loop]; [simpl; lia|].
  assert (Hstep : env k = ConnErr \/ env k = ConnTimeout -> forall n, (forall j, (j < n)%nat -> env (S k + j)%nat = ConnErr \/ env (S k + j)%nat = ConnTimeout) ->
    forall j, (j < S n)%nat -> env (k + j)%nat = ConnErr \/ env (k + j)%nat = ConnTimeout).
  { intros Hk n Hn [|j] Hj; [by rewrite Nat.add_0_r|]. rewrite Nat.add_succ_r. apply Hn. lia. }
  specialize (IH (S k)). destruct (env k) eqn:Ek; simpl.
  1: { exists 0%nat. rewrite Nat.add_0_r. split_and!; [lia|done|lia]. }
  1: { exists 0%nat. rewrite Nat.add_0_r. split_and!; [done|done|lia]. }
  all: destruct (dial_loop (S k) targets env) as [t'| |];
    [destruct IH as (i & Hi & He & Hj); exists (S i); rewrite Nat.add_succ_r; split_and!; [done|done|apply Hstep; [auto|done]]
    |destruct IH as (i & Hi & He & Hj); exists (S i); rewrite Nat.add_succ_r; split_and!; [lia|done|apply Hstep; [auto|done]]
    |apply Hstep; [auto|done]].
Qed.

(** Dialling order.  An IP literal is dialled as it is; otherwise the resolver's
    addresses are tried IPv4 first, each family in the resolver's order, one attempt each:
    the stream returned belongs to the first address that accepts, all earlier ones having
    failed; [Failed] means every address was tried; cancellation ends the dial at once. *)
Theorem dial_tries_v4_first host port answer env :
  let targets := match parse_ip host with
                 | Some ip => [SocketAddr_new ip port]
                 | None => List.filter is_v4 (default [] answer) ++ List.filter (negb ∘ is_v4) (default [] answer)
                 end in
  let failed k := env k = ConnErr \/ env k = ConnTimeout in
  match dial_with_dns host port answer env with
  | DialConnected t => exists i, targets !! i = Some t /\ env i = ConnOk /\ forall j, (j < i)%nat -> failed j
  | DialCancelled => exists i, (i < length targets)%nat /\ env i = ConnCancelled /\ forall j, (j < i)%nat -> failed j
  | DialFailed => forall j, (j < length targets)%nat -> failed j
  end.
Proof.
  cbv zeta. assert (Hr : resolve_to_socket_addrs host port answer =
    match parse_ip host with Some ip => [SocketAddr_new ip port]
    | None => List.filter is_v4 (default [] answer) ++ List.filter (negb ∘ is_v4) (default [] answer) end).
  { unfold resolve_to_socket_addrs. destruct (parse_ip host); [done|]. destruct answer; [apply sort_family|done]. }
  unfold dial_with_dns. rewrite <- Hr. case_bool_decide as He; [rewrite He; simpl; lia|].
  apply (dial_loop_spec 0).
Qed.

(** ** What a session writes *)

Section StreamProps.
Context `{MsgTable} {Q : Type} `{ArrayQueueLaws Q} {C : Type} `{SenderLaws RouterFrame C}.
Implicit Types (w : World Q) (l : LeafState Q C) (s : @SessionState Q C).

(** The queue holds exactly [elems]; counters are in range. *)
Definition holds (tq : TxQueue) (elems : list Bytes) w : Prop :=
  map_Forall (fun _ => stats_ok) (w_stats w) /\
  exists q, w_queues w !! tq_inner tq = Some q /\ queue_ok q /\ aq_elems q = elems.

Lemma holds_stats tq elems w k g :
  (forall x, stats_ok x -> stats_ok (g x)) -> holds tq elems w -> holds tq elems (stats_update k g w).
Proof. intros Hg [Hs Hq]. split; [by apply stats_update_ok|done]. Qed.

Lemma holds_push tq elems w frame :
  holds tq elems w -> exists elems', holds tq elems' (TxQueue_push tq frame w) /\ sublist elems' (elems ++ [frame]).
Proof.
  intros [Hs (q & Hq & Hok & <-)]. destruct (aq_force_push_split q frame Hok) as [He _].
  pose proof (aq_force_push_ok q frame Hok) as Hok'. unfold TxQueue_push. rewrite Hq.
  destruct (aq_force_push q frame) as [ev q1]. simpl in *. exists (aq_elems q1).
  split; [|rewrite He; by apply sublist_inserts_l].
  split; [|exists q1; split_and!; [|done|done]; destruct ev; simpl; apply lookup_insert_eq].
  destruct ev; simpl; [|done].
  apply (stats_update_ok (Q:=Q) (tq_stats tq) (fetch_add DroppedTx 1) w); [intros x; apply fetch_add_ok|done].
Qed.

Lemma holds_push_all tq elems w frames :
  holds tq elems w -> exists elems', holds tq elems' (push_all tq frames w).
Proof.
  revert elems w; induction frames as [|f frames IH]; intros elems w Hh; simpl; [eauto|].
  destruct (holds_push tq elems w f Hh) as (e1 & Hh1 & _). by eapply IH.
Qed.

Lemma holds_drain tq elems w : holds tq elems w -> exists n w', drain_and_discard tq w = Done (n, w') /\ holds tq [] w'.
Proof.
  intros [Hs (q & Hq & [Hc Hl] & <-)]. destruct (drain_and_discard_Done tq w q Hq) as (q' & He & Hcap & ->).
  eexists _, _. split; [done|]. assert (Hq' : queue_ok q') by (split; rewrite Hcap, ?He; simpl; lia).
  split; [|exists q'; split_and!; [|done|done]; case_match; simpl; apply lookup_insert_eq].
  case_match; [|done]. apply stats_update_ok; [intros x; apply fetch_add_ok|done].
Qed.

Lemma holds_pop tq elems w :
  holds tq elems w -> (TxQueue_pop tq w).1 = head elems /\ holds tq (tail elems) (TxQueue_pop tq w).2.
Proof.
  intros [Hs (q & Hq & Hok & <-)]. rewrite (pop_cases tq w q Hq). split; [done|].
  split; [done|]. exists (aq_pop q).2. simpl. split_and!; [apply lookup_insert_eq|by apply aq_pop_ok|apply aq_pop_elems].
Qed.

Lemma forward_loop_queues fuel ctx now f t (tx : C) w flow f' t' tx' w' :
  forward_loop fuel ctx now f t tx w = Done (flow, f', t', tx', w') -> w_queues w' = w_queues w.
Proof.
  revert f t tx w; induction fuel as [|fuel IH]; intros f t tx w; cbn [forward_loop]; [done|].
  destruct (try_next_frame f) as [[[[h fr]|] f1]| |]; [|by intros [= <- <- <- <- <-]|done|done].
  assert (Ha : exists pass t1 v, account_frame ctx now h fr t w = (pass, t1, v) /\ w_queues v = w_queues w).
  { unfold account_frame. destruct (observe t (source h) (seq h) now) as [lost t1].
    destruct (passes_in_filter _ _ _); simpl; eexists _, _, _; (split; [done|]); by destruct (0 <? lost). }
  destruct Ha as (pass & t1 & v & -> & <-). destruct pass; [|by apply IH].
  destruct (send tx _) as [[] tx1]; [by apply IH|by intros [= <- <- <- <- <-]].
Qed.

(** A session in order, its queue holding [elems]. *)
Definition session_ok (tq : TxQueue) (elems : list Bytes) s : Prop :=
  counters_ok (rd_framer (ss_reader s)) /\ holds tq elems (ss_world s).

Lemma read_result_total ctx tq elems res now s :
  session_ok tq elems s ->
  exists flow s', session_turn ctx tq (SelRead res now) s = Done (flow, s') /\ session_ok tq elems s'.
Proof.
  intros [Hc Hh]. unfold session_turn, handle_read_result. destruct res as [[|b d]|]; [eexists _, _; split; [done|by split]| |eexists _, _; split; [done|by split]].
  set (f0 := buffer_extend _ _).
  destruct (forward_loop_spec (S (length (buf f0))) ctx now f0 (rd_tracker (ss_reader s)) (ss_tx s) (ss_world s) Hc ltac:(lia) (proj1 Hh))
    as (flow & f' & t' & tx' & w' & Hd & _).
  destruct (forward_loop_ok _ _ _ f0 _ _ _ _ _ _ _ _ Hc (proj1 Hh) Hd) as [Hc' Hw'].
  assert (Hh' : holds tq elems w') by (split; [done|]; rewrite (forward_loop_queues _ _ _ _ _ _ _ _ _ _ _ _ Hd); apply Hh).
  unfold forward_inbound_frames. rewrite Hd. destruct flow; eexists _, _; (split; [done|]); split; try done.
  apply holds_stats; [intros x; apply sync_ok|done].
Qed.

Lemma session_turn_writes ctx tq elems i s :
  session_ok tq elems s ->
  exists flow s' elems', session_turn ctx tq i s = Done (flow, s') /\ session_ok tq elems' s' /\
    sublist (turn_writes tq i (ss_world s) ++ elems') elems.
Proof.
  intros Hok. destruct i as [|res now|ok].
  - exists (Break Terminated), s, elems. split_and!; [done|done|]. simpl. reflexivity.
  - destruct (read_result_total ctx tq elems res now s Hok) as (flow & s' & -> & Hok'). exists flow, s', elems. by split_and!.
  - destruct Hok as [Hc Hh]. destruct (holds_pop tq elems _ Hh) as [Hp Hh']. unfold session_turn, turn_writes.
    destruct (TxQueue_pop tq (ss_world s)) as [o v]. simpl in Hp, Hh'. subst o.
    destruct elems as [|x elems]; simpl in *.
    + eexists _, _, []. split_and!; [done|done|]. by destruct ok.
    + unfold write_outbound_frame. destruct ok; eexists _, _, elems; (split; [done|]).
      * split; [|reflexivity]. split; [done|]. apply holds_stats; [|done]. intros y Hy. unfold add_tx_frame. auto with rmr.
      * split; [done|]. by apply sublist_cons.
Qed.

(** The script of a session reaches its end. *)
Definition closing (i : session_input) : Prop :=
  match i with SelCancelled | SelRead ReadErr _ | SelRead (ReadOk []) _ => True | _ => False end.
Definition ends_session (events : list session_event) : Prop :=
  exists pre i, events = pre ++ [SessInput i] /\ closing i.

(** Every frame a session writes, and every frame it leaves queued, was queued when it
    began or pushed since, in order. *)
Lemma run_session_env_writes ctx tq pre i elems s :
  closing i -> session_ok tq elems s ->
  exists out s' log elems', run_session_env ctx tq (pre ++ [SessInput i]) s = Done (out, s', log) /\
    session_ok tq elems' s' /\ sublist (sl_written log ++ elems') (elems ++ sl_pushed log).
Proof.
  intros Hi. revert elems s; induction pre as [|[j|frame] pre IH]; intros elems s Hok; cbn [app run_session_env].
  - destruct (session_turn_writes ctx tq elems i s Hok) as (flow & s' & elems' & Ht & Hok' & Hsub). rewrite Ht.
    assert (exists out, flow = Break out) as [out ->].
    { destruct i as [|[[|]|]|]; simpl in Hi; try done; unfold session_turn in Ht; simpl in Ht; injection Ht as <- _; eauto. }
    eexists _, _, _, _. split; [done|]. split; [done|]. by rewrite app_nil_r.
  - destruct (session_turn_writes ctx tq elems j s Hok) as (flow & s1 & elems1 & -> & Hok1 & Hsub).
    destruct flow as [|out].
    + destruct (IH elems1 s1 Hok1) as (out & s' & log & elems' & -> & Hok' & Hsub').
      eexists _, _, _, _. split; [done|]. split; [done|]. unfold log_cons. simpl. rewrite <- app_assoc.
      etrans; [by apply sublist_app, Hsub'|]. rewrite app_assoc. by apply sublist_app.
    + eexists _, _, _, _. split; [done|]. split; [done|]. by rewrite app_nil_r.
  - destruct (holds_push tq elems _ frame (proj2 Hok)) as (e1 & Hh1 & Hsub1).
    destruct (IH e1 {| ss_reader := ss_reader s; ss_tx := ss_tx s; ss_world := TxQueue_push tq frame (ss_world s) |})
      as (out & s' & log & elems' & -> & Hok' & Hsub'); [split; [apply Hok|done]|].
    eexists _, _, _, _. split; [done|]. split; [done|]. unfold log_cons. simpl.
    etrans; [exact Hsub'|]. rewrite cons_middle, app_assoc. by apply sublist_app.
Qed.

(** A session begun on an empty queue writes only frames pushed during it. *)
Definition writes_only_pushed (log : session_log) : Prop := sublist (sl_written log) (sl_pushed log).

Lemma leaf_drain_total tq elems l :
  holds tq elems (lf_world l) -> exists l', leaf_drain tq l = Done l' /\ holds tq [] (lf_world l').
Proof.
  intros Hh. destruct (holds_drain tq elems _ Hh) as (n & w' & Hd & Hh'). unfold leaf_drain. rewrite Hd. eauto.
Qed.

Lemma leaf_state_holds tq elems k st l : holds tq elems (lf_world l) -> holds tq elems (lf_world (leaf_state k st l)).
Proof. intros Hh. apply holds_stats; [|done]. intros x. apply store_state_ok. Qed.

Lemma leaf_push_holds tq elems frames l :
  holds tq elems (lf_world l) -> exists elems', holds tq elems' (lf_world (leaf_push tq frames l)).
Proof. apply holds_push_all. Qed.

Lemma leaf_session_writes ctx tq events l :
  ends_session events -> holds tq [] (lf_world l) ->
  exists out l' log elems', leaf_session ctx tq events l = Done (out, l', log) /\
    holds tq elems' (lf_world l') /\ writes_only_pushed log.
Proof.
  intros (pre & i & -> & Hi) Hh. unfold leaf_session.
  destruct (run_session_env_writes ctx tq pre i [] {| ss_reader := ReaderState_new; ss_tx := lf_tx l; ss_world := lf_world l |} Hi)
    as (out & s' & log & elems' & -> & [_ Hh'] & Hsub); [by split; [apply Framer_new_ok|]|].
  eexists _, _, _, _. split; [done|]. split; [exact Hh'|]. unfold writes_only_pushed.
  etrans; [|exact Hsub]. by apply sublist_inserts_r.
Qed.

(** The script of a [tcpc:] task: every session ends, and the token fires at last. *)
Definition tcpc_script (rounds : list tcpc_round) : Prop :=
  Forall (fun r => ends_session (tr_session r)) rounds /\
  exists pre r, rounds = pre ++ [r] /\ tr_cancelled r = true.

(** C25. [tcpc:] never sends stale telemetry.  Whatever the sequence of failed dials,
    back-offs, sessions and frames pushed by the router in between, the task returns when
    cancelled; each connection writes only frames pushed while that connection was up, in
    the order they were pushed; and the queue is empty when the task returns. *)
Theorem tcpc_no_stale_frames spec tq stats rounds backoff l elems :
  tcpc_script rounds -> holds tq elems (lf_world l) ->
  exists l' logs, tcpc_run_inner spec tq stats rounds backoff l = Done (l', logs) /\
    Forall writes_only_pushed logs /\ holds tq [] (lf_world l').
Proof.
  intros [HF (pre & last & -> & Hlast)]. revert backoff l elems HF.
  induction pre as [|r pre IH]; intros backoff l elems HF Hh; cbn [app tcpc_run_inner].
  { rewrite Hlast. destruct (leaf_drain_total tq elems l Hh) as (l' & -> & Hh'). by exists l', []. }
  apply Forall_cons in HF as [Hr HF].
  destruct (tr_cancelled r).
  { destruct (leaf_drain_total tq elems l Hh) as (l' & -> & Hh'). by exists l', []. }
  destruct (leaf_push_holds tq elems (tr_while_down r) l Hh) as (e1 & Hh1).
  destruct (dial_with_dns _ _ _ _).
  - destruct (leaf_drain_total tq e1 _ Hh1) as (l1 & -> & Hh2).
    destruct (leaf_session_writes (tcpc_ctx spec stats) tq (tr_session r) (leaf_state stats Connected l1) Hr)
      as (out & l2 & log & e2 & -> & Hh3 & Hw); [by apply leaf_state_holds|].
    destruct out.
    + destruct (leaf_drain_total tq e2 l2 Hh3) as (l3 & -> & Hh4). exists l3, [log]. split_and!; [done|by constructor|done].
    + destruct (IH (Backoff_reset backoff) (leaf_state stats Reconnecting l2) e2 HF) as (l3 & logs & -> & HFl & Hh4); [by apply leaf_state_holds|].
      exists l3, (log :: logs). split_and!; [done|by constructor|done].
  - destruct (leaf_drain_total tq e1 _ Hh1) as (l1 & -> & Hh2). by exists l1, [].
  - destruct (next_delay backoff) as [d b1]. destruct (leaf_push_holds tq e1 (tr_while_waiting r) _ Hh1) as (e2 & Hh2).
    destruct (tr_waited r); simpl; [by eapply IH|].
    destruct (leaf_drain_total tq e2 _ Hh2) as (l1 & -> & Hh3). by exists l1, [].
Qed.

Lemma open_until_cancel_holds path baud fc tq attempts l elems :
  holds tq elems (lf_world l) ->
  (exists pre a, attempts = pre ++ [a] /\ (oa_cancelled a = true \/ try_open (oa_driver a) path baud fc = true)) ->
  exists o l' elems', open_until_cancel path baud fc tq attempts l = Done (o, l') /\ holds tq elems' (lf_world l').
Proof.
  intros Hh (pre & a & -> & Ha). revert l elems Hh; induction pre as [|x pre IH]; intros l elems Hh; cbn [app open_until_cancel].
  - destruct (oa_cancelled a); [by eexists _, _, _|]. destruct (try_open (oa_driver a) path baud fc); [by eexists _, _, _|by destruct Ha].
  - destruct (oa_cancelled x); [by eexists _, _, _|]. destruct (try_open (oa_driver x) path baud fc); [by eexists _, _, _|].
    destruct (leaf_push_holds tq elems (oa_while_waiting x) l Hh) as (e1 & Hh1). destruct (oa_waited x); simpl; [by eapply IH|].
    by eexists _, _, _.
Qed.

Definition serial_script (spec : SerialSpec) (rounds : list serial_round) : Prop :=
  Forall (fun r => ends_session (sr_session r) /\
    exists pre a, sr_open r = pre ++ [a] /\ (oa_cancelled a = true \/ try_open (oa_driver a) (ser_path spec) (ser_baud spec) (ser_flow_control spec) = true)) rounds /\
  exists pre r, rounds = pre ++ [r] /\ sr_cancelled r = true.

(** A replugged serial device never inherits stale telemetry.  Whatever the sequence of
    failed opens, sessions, unplugs and frames pushed in between, the task returns when
    cancelled, and each time the device is open only frames pushed meanwhile are written,
    in order.  The queue is empty on return unless the token fired during the delay
    after an unplug. *)
Theorem serial_no_stale_frames spec tq stats rounds l elems :
  serial_script spec rounds -> holds tq elems (lf_world l) ->
  exists l' logs, serial_run_inner spec tq stats rounds l = Done (l', logs) /\
    Forall writes_only_pushed logs /\
    (holds tq [] (lf_world l') \/ exists r, r ∈ rounds /\ sr_waited r = false).
Proof.
  intros [HF (pre & last & -> & Hlast)]. revert l elems HF.
  induction pre as [|r pre IH]; intros l elems HF Hh; cbn [app serial_run_inner].
  { rewrite Hlast. destruct (leaf_drain_total tq elems l Hh) as (l' & -> & Hh'). exists l', []. split_and!; auto. }
  apply Forall_cons in HF as [[Hr Ho] HF].
  destruct (sr_cancelled r).
  { destruct (leaf_drain_total tq elems l Hh) as (l' & -> & Hh'). exists l', []. split_and!; auto. }
  destruct (open_until_cancel_holds _ _ _ tq (sr_open r) l elems Hh Ho) as (o & l1 & e1 & -> & Hh1).
  destruct (leaf_drain_total tq e1 l1 Hh1) as (l2 & Hd2 & Hh2). rewrite Hd2.
  destruct o; [|exists l2, []; split_and!; auto].
  destruct (leaf_session_writes (serial_ctx spec stats) tq (sr_session r) (leaf_state stats Connected l2) Hr)
    as (out & l3 & log & e3 & -> & Hh3 & Hw); [by apply leaf_state_holds|].
  destruct (leaf_drain_total tq e3 l3 Hh3) as (l4 & Hd4 & Hh4). rewrite Hd4.
  destruct out; [exists l4, [log]; split_and!; auto|].
  destruct (leaf_push_holds tq [] (sr_while_waiting r) (leaf_state stats Reconnecting l4)) as (e5 & Hh5); [by apply leaf_state_holds|].
  destruct (sr_waited r) eqn:Ew; simpl.
  - destruct (IH _ e5 HF Hh5) as (l6 & logs & -> & HFl & He). exists l6, (log :: logs). split_and!; [done|by constructor|].
    destruct He as [He|(r' & Hin & Hw')]; [by left|right; exists r'; split; [by right|done]].
  - eexists _, [log]. split_and!; [done|auto|]. right. exists r. split; [by left|done].
Qed.
End StreamProps.

(** ** Witnesses *)

Module StreamSample.
Definition tcpc : TcpClientSpec := TcpClientSpec_from_endpoint
  {| tc_host := "10.0.0.9"; tc_port := 5760; tc_identity := IdentityFlags_default |} 4 "fc".
Definition serial : SerialSpec := SerialSpec_from_endpoint
  {| se_path := "/dev/ttyACM0"; se_baud := 57600; se_flow_control := FlowControl_None; se_identity := IdentityFlags_default |} 5 "fc".
Definition leaf : LeafState ListQueue.t (ListSender.t RouterFrame) :=
  {| lf_tx := {| ListSender.items := []; ListSender.open := true |}; lf_world := sample_world (aq_new 4) |}.
Definition session : list session_event :=
  [SessPush [3]; SessInput (SelFrame true); SessPush [4]; SessInput (SelRead (ReadOk [9; 9]) 5); SessInput (SelFrame true);
   SessInput (SelRead ReadErr 6)].
(** A refused dial with frames queued meanwhile, then a session, then shutdown. *)
Definition rounds : list tcpc_round :=
  [{| tr_cancelled := false; tr_while_down := [[1]]; tr_answer := None; tr_connect := fun _ => ConnErr;
      tr_while_waiting := [[2]]; tr_waited := true; tr_session := session |};
   {| tr_cancelled := false; tr_while_down := []; tr_answer := None; tr_connect := fun _ => ConnOk;
      tr_while_waiting := []; tr_waited := true; tr_session := session |};
   {| tr_cancelled := true; tr_while_down := []; tr_answer := None; tr_connect := fun _ => ConnOk;
      tr_while_waiting := []; tr_waited := true; tr_session := session |}].
Definition serial_rounds : list serial_round :=
  [{| sr_cancelled := false;
      sr_open := [{| oa_cancelled := false; oa_driver := fun _ _ _ => false; oa_while_waiting := [[1]]; oa_waited := true |};
                  {| oa_cancelled := false; oa_driver := fun path baud _ => bool_decide (path = "/dev/ttyACM0" /\ baud = 57600); oa_while_waiting := []; oa_waited := true |}];
      sr_session := session; sr_while_waiting := [[7]]; sr_waited := true |};
   {| sr_cancelled := true; sr_open := [{| oa_cancelled := true; oa_driver := fun _ _ _ => false; oa_while_waiting := []; oa_waited := true |}];
      sr_session := session; sr_while_waiting := []; sr_waited := true |}].

Lemma leaf_holds : holds sample_queue [] (lf_world leaf).
Proof. split; [apply sample_world_ok|]. exists (aq_new 4). split_and!; [done|apply (aq_new_ok 4)|done]. Qed.

Lemma session_ends : ends_session session.
Proof.
  exists [SessPush [3]; SessInput (SelFrame true); SessPush [4]; SessInput (SelRead (ReadOk [9; 9]) 5); SessInput (SelFrame true)].
  by eexists.
Qed.
End StreamSample.

#[local] Existing Instance SampleTable.sample.
Import StreamSample.

Lemma tcpc_no_stale_frames_witness :
  exists l' logs, tcpc_run_inner tcpc sample_queue 0 rounds (Backoff_new 250 30000 (Some 7)) leaf = Done (l', logs) /\
    Forall writes_only_pushed logs.
Proof.
  destruct (tcpc_no_stale_frames tcpc sample_queue 0 rounds (Backoff_new 250 30000 (Some 7)) leaf []) as (l' & logs & Hr & HF & _).
  - split; [repeat (apply Forall_cons; split; [apply session_ends|]); apply Forall_nil; exact I|].
    exists (take 2 rounds). eexists. split; reflexivity.
  - apply leaf_holds.
  - exists l', logs. split; [exact Hr|exact HF].
Defined.

Lemma serial_no_stale_frames_witness :
  exists l' logs, serial_run_inner serial sample_queue 0 serial_rounds leaf = Done (l', logs) /\ Forall writes_only_pushed logs.
Proof.
  destruct (serial_no_stale_frames serial sample_queue 0 serial_rounds leaf []) as (l' & logs & Hr & HF & _).
  - split.
    + apply Forall_cons. split; [split; [apply session_ends|]|apply Forall_cons; split; [split; [apply session_ends|]|apply Forall_nil; exact I]].
      * eexists [_], _. split; [reflexivity|right; reflexivity].
      * eexists [], _. split; [reflexivity|left; reflexivity].
    + exists (take 1 serial_rounds). eexists. split; reflexivity.
  - apply leaf_holds.
  - exists l', logs. split; [exact Hr|exact HF].
Defined.

(** Frames 1 and 2 were queued while the link was down: the connection writes 3 and 4. *)
Example tcpc_example :
  match tcpc_run_inner tcpc sample_queue 0 rounds (Backoff_new 250 30000 (Some 7)) leaf with
  | Done (_, logs) => map sl_written logs = [[[3]; [4]]]
  | _ => False
  end.
Proof. vm_compute. reflexivity. Qed.
