(* ===== verification/TcpServer.v ===== *)
(** * The [tcps:] listener and its client sessions ([src/src/endpoint/tcp/server.rs])

    The accept loop and the client sessions are tasks that interleave; they share the
    allocator, the channels and the store.  [tcps_act] is one atomic turn of one of them. *)

From S2P Require Import Prelude RustStr RustNet Crc Frame MsgTable Framer FramerSpec LruVec SeqTracker Filters EndpointStats TxQueue Identity FilterParse Spec Session Backoff Endpoint UdpServer Stream StreamProps.
#[local] Open Scope Z_scope.

(** [struct TcpServerSpec] *)
Record TcpServerSpec := {
  tsp_listen_addr : SocketAddr;
  tsp_parent_id : EndpointId;
  tsp_parent_name : string;
  tsp_reconnect_initial_ms : Z;
  tsp_reconnect_max_ms : Z;
  tsp_identity : IdentityFlags;
}.

(** [TcpServerSpec::from_endpoint] *)
Definition TcpServerSpec_from_endpoint (ep : TcpServerEndpoint) (parent_id : EndpointId) (parent_name : string) : TcpServerSpec :=
  {| tsp_listen_addr := ts_bind_addr ep; tsp_parent_id := parent_id; tsp_parent_name := parent_name;
     tsp_reconnect_initial_ms := DEFAULT_RECONNECT_INITIAL_MS; tsp_reconnect_max_ms := DEFAULT_RECONNECT_MAX_MS;
     tsp_identity := ts_identity ep |}.

(** A [run_client_session] task: its queue, its stats and its session's reader. *)
Record Child := { ch_tq : TxQueue; ch_stats : nat; ch_reader : ReaderState }.

(** Where [run_inner] is: in [bind_with_backoff], in the loop of [run_accept_loop], in its
    final [join_next] loop, or returned. *)
Inductive tcps_phase := Binding | Accepting | Joining | TcpsReturned.

Record TcpsState (Q CF CE : Type) := {
  ts_phase : tcps_phase;
  ts_backoff : Backoff;
  ts_allocator : EndpointIdAllocator;
  ts_frame_tx : CF;
  ts_event_tx : CE;
  ts_world : World Q;
  ts_children : gmap EndpointId Child;   (** running sessions *)
  ts_handles : list EndpointId;          (** the [JoinSet] of [run_accept_loop]: tasks spawned and not joined yet *)
}.
Arguments ts_phase {Q CF CE}.
Arguments ts_backoff {Q CF CE}.
Arguments ts_allocator {Q CF CE}.
Arguments ts_frame_tx {Q CF CE}.
Arguments ts_event_tx {Q CF CE}.
Arguments ts_world {Q CF CE}.
Arguments ts_children {Q CF CE}.
Arguments ts_handles {Q CF CE}.

Section TcpServer.
Context `{MsgTable} {Q : Type} `{ArrayQueue Q} {CF : Type} `{Sender RouterFrame CF} {CE : Type} `{Sender EndpointEvent CE}.
Abbreviation TcpsState := (TcpsState Q CF CE).

(** [async fn accept_one_client(stream, peer_addr, spec, wiring, children)] *)
Definition accept_one_client (spec : TcpServerSpec) (peer_addr : SocketAddr) (st : TcpsState) : TcpsState :=
  let '(child_id, allocator) := alloc (ts_allocator st) in
  let '(stats, w) := stats_alloc Connected (ts_world st) in
  let '(tx_queue, w) := TxQueue_new DEFAULT_TX_QUEUE_FRAMES stats w in
  let name := peer_endpoint_name (tsp_parent_name spec) peer_addr in
  let '(ok, event_tx) :=
    send (ts_event_tx st)
      (PeerAdded (tsp_parent_id spec) child_id name stats
         {| rt_tx_queue := tx_queue; rt_identity := tsp_identity spec; rt_endpoint_name := tsp_parent_name spec |}) in
  {| ts_phase := ts_phase st; ts_backoff := ts_backoff st; ts_allocator := allocator; ts_frame_tx := ts_frame_tx st; ts_event_tx := event_tx; ts_world := w;
     ts_children := if ok : bool
                    then <[child_id := {| ch_tq := tx_queue; ch_stats := stats; ch_reader := ReaderState_new |}]> (ts_children st)
                    else ts_children st;
     ts_handles := if ok then ts_handles st ++ [child_id] else ts_handles st |}.

Definition child_ctx (spec : TcpServerSpec) (child_id : EndpointId) (c : Child) : SessionCtx :=
  {| ctx_endpoint_id := child_id; ctx_stats := ch_stats c; ctx_filters := filters (tsp_identity spec) |}.

(** The end of [run_client_session]: drain, announce, return. *)
Definition end_session (spec : TcpServerSpec) (child_id : EndpointId) (c : Child) (out : SessionOutcome) (st : TcpsState)
    : outcome TcpsState :=
  let! (_, w) := drain_and_discard (ch_tq c) (ts_world st) in
  let reason := match out with Terminated => ListenerShutdown | SessionDisconnected => Disconnected end in
  let '(_, event_tx) := send (ts_event_tx st) (PeerRemoved (tsp_parent_id spec) child_id reason) in
  Done {| ts_phase := ts_phase st; ts_backoff := ts_backoff st; ts_allocator := ts_allocator st; ts_frame_tx := ts_frame_tx st; ts_event_tx := event_tx; ts_world := w;
          ts_children := delete child_id (ts_children st); ts_handles := ts_handles st |}.

(** [async fn run_client_session(..)], one turn of its session, or the last one. *)
Definition run_client_session_turn (spec : TcpServerSpec) (child_id : EndpointId) (i : session_input) (st : TcpsState)
    : outcome TcpsState :=
  match ts_children st !! child_id with
  | None => Done st
  | Some c =>
      let! (flow, s) := session_turn (child_ctx spec child_id c) (ch_tq c) i
        {| ss_reader := ch_reader c; ss_tx := ts_frame_tx st; ss_world := ts_world st |} in
      let st := {| ts_phase := ts_phase st; ts_backoff := ts_backoff st; ts_allocator := ts_allocator st; ts_frame_tx := ss_tx s; ts_event_tx := ts_event_tx st; ts_world := ss_world s;
                   ts_children := <[child_id := {| ch_tq := ch_tq c; ch_stats := ch_stats c; ch_reader := ss_reader s |}]>
                                    (ts_children st);
                   ts_handles := ts_handles st |} in
      match flow with
      | Continue => Done st
      | Break out => end_session spec child_id c out st
      end
  end.

(** What the [select!] of [run_accept_loop] resolved to; an accept error is followed by
    [wait_or_cancel]. *)
Inductive accept_input := AccCancelled | AccClient (peer_addr : SocketAddr) | AccError (waited : bool).

Definition goto (p : tcps_phase) (st : TcpsState) : TcpsState :=
  {| ts_phase := p; ts_backoff := ts_backoff st; ts_allocator := ts_allocator st; ts_frame_tx := ts_frame_tx st;
     ts_event_tx := ts_event_tx st; ts_world := ts_world st; ts_children := ts_children st; ts_handles := ts_handles st |}.

Definition set_handles (handles : list EndpointId) (st : TcpsState) : TcpsState :=
  {| ts_phase := ts_phase st; ts_backoff := ts_backoff st; ts_allocator := ts_allocator st; ts_frame_tx := ts_frame_tx st;
     ts_event_tx := ts_event_tx st; ts_world := ts_world st; ts_children := ts_children st; ts_handles := handles |}.

(** The tasks of the [JoinSet] that have not run to their end. *)
Definition unfinished (st : TcpsState) : list EndpointId :=
  List.filter (fun id => bool_decide (is_Some (ts_children st !! id))) (ts_handles st).

(** [fn reap_finished(children)]: [try_join_next] yields the tasks that have completed. *)
Definition tcps_reap_finished (st : TcpsState) : TcpsState := set_handles (unfinished st) st.

(** One turn of the loop of [run_accept_loop]: what the [select!] resolved to, and, when the
    loop goes round, the [reap_finished] ahead of the next [select!]. *)
Definition accept_loop_turn (spec : TcpServerSpec) (i : accept_input) (st : TcpsState) : TcpsState :=
  match i with
  | AccCancelled => goto Joining st
  | AccClient peer_addr => tcps_reap_finished (accept_one_client spec peer_addr st)
  | AccError waited => if negb waited then goto Joining st else tcps_reap_finished st
  end.

(** What [run_inner] awaits: the bind with its attempts, a turn of the accept loop, or, after
    it, [join_next] until no task is left. *)
Inductive listen_input :=
| ListenBind (rounds : list (bind_round unit))
| ListenAccept (i : accept_input)
| ListenJoined.

(** [async fn run_inner(spec, wiring)], up to its next await; [stats] is the listener's own. *)
Definition tcps_run_inner_turn (spec : TcpServerSpec) (stats : nat) (i : listen_input) (st : TcpsState) : outcome TcpsState :=
  match ts_phase st, i with
  | Binding, ListenBind rounds =>
      let! (out, backoff, _) := bind_with_backoff rounds (ts_backoff st) in
      match out with
      | Bound _ =>
          Done {| ts_phase := Accepting; ts_backoff := backoff; ts_allocator := ts_allocator st; ts_frame_tx := ts_frame_tx st;
                  ts_event_tx := ts_event_tx st; ts_world := stats_update stats (store_state Connected) (ts_world st);
                  ts_children := ts_children st; ts_handles := [] |}
      | Cancelled => Done (goto TcpsReturned st)
      end
  | Accepting, ListenAccept i => Done (accept_loop_turn spec i st)
  | Joining, ListenJoined =>
      let st := tcps_reap_finished st in
      Done (if decide (ts_handles st = []) then goto Binding st else st)
  | _, _ => Done st
  end.

(** One atomic turn: of the listener, of a client session, or the router pushing a frame
    to a client. *)
Inductive tcps_action :=
| ActListen (i : listen_input)
| ActChild (child_id : EndpointId) (i : session_input)
| ActPush (child_id : EndpointId) (frame : Bytes).

Definition tcps_act (spec : TcpServerSpec) (stats : nat) (a : tcps_action) (st : TcpsState) : outcome TcpsState :=
  match a with
  | ActListen i => tcps_run_inner_turn spec stats i st
  | ActChild child_id i => run_client_session_turn spec child_id i st
  | ActPush child_id frame =>
      match ts_children st !! child_id with
      | None => Done st
      | Some c =>
          Done {| ts_phase := ts_phase st; ts_backoff := ts_backoff st; ts_allocator := ts_allocator st; ts_frame_tx := ts_frame_tx st; ts_event_tx := ts_event_tx st;
                  ts_world := TxQueue_push (ch_tq c) frame (ts_world st); ts_children := ts_children st; ts_handles := ts_handles st |}
      end
  end.
End TcpServer.

(** ** The router's view of the clients *)

Section TcpServerProps.
Context `{MsgTable} {Q : Type} `{ArrayQueueLaws Q} {CF : Type} `{SenderLaws RouterFrame CF} {CE : Type} `{SenderLaws EndpointEvent CE}.
Hypothesis router_alive : forall (c : CE) (x : EndpointEvent), (send c x).1 = true.
Implicit Types st : TcpsState Q CF CE.

(** Ids announced by a [PeerAdded] so far. *)
Definition announced (events : list EndpointEvent) (id : EndpointId) : Prop :=
  exists parent name stats rt, PeerAdded parent id name stats rt ∈ events.

Record tcps_inv st : Prop := {
  ti_bound : forall id c, ts_children st !! id = Some c -> 0 <= id < ts_allocator st;
  ti_live : replay (sent (ts_event_tx st)) = dom (ts_children st);
  ti_announced : forall id c, ts_children st !! id = Some c -> announced (sent (ts_event_tx st)) id;
  ti_frames : forall rf, rf ∈ sent (ts_frame_tx st) -> announced (sent (ts_event_tx st)) (rf_endpoint_id rf);
  ti_queues : forall id c, ts_children st !! id = Some c -> counters_ok (rd_framer (ch_reader c)) /\
    is_Some (w_queues (ts_world st) !! tq_inner (ch_tq c));
  ti_queues_ok : map_Forall (fun _ q => queue_ok q) (w_queues (ts_world st));
  ti_stats : map_Forall (fun _ => stats_ok) (w_stats (ts_world st));
}.

Lemma announced_app l l' id : announced l id -> announced (l ++ l') id.
Proof. intros (p & n & s & rt & Hin). exists p, n, s, rt. apply elem_of_app. by left. Qed.

Lemma accept_inv spec peer st :
  0 <= ts_allocator st < 2 ^ 64 - 1 -> tcps_inv st ->
  tcps_inv (accept_one_client spec peer st) /\ ts_allocator (accept_one_client spec peer st) = ts_allocator st + 1.
Proof.
  intros Ha [Hb Hl Han Hfr Hq Hqo Hs]. unfold accept_one_client, alloc, stats_alloc, TxQueue_new.
  match goal with |- context [send ?c ?e] => destruct (send_alive router_alive c e) as [Hsend Hsent]; rewrite Hsend; set (tx := (send c e).2) in * end.
  rewrite wrap_small by (unfold in_width; lia). split; [|done]. split; simpl.
  - intros id c [[<- <-]|[_ Hc]]%lookup_insert_Some; [lia|]. apply Hb in Hc. lia.
  - rewrite Hsent, replay_snoc, Hl, dom_insert_L. done.
  - intros id c [[<- <-]|[_ Hc]]%lookup_insert_Some; rewrite Hsent.
    + eexists _, _, _, _. apply elem_of_app. right. by apply list_elem_of_singleton.
    + by eapply announced_app, Han.
  - intros rf Hin. rewrite Hsent. by apply announced_app, Hfr.
  - intros id c [[<- <-]|[_ Hc]]%lookup_insert_Some; simpl.
    + split; [apply Framer_new_ok|]. rewrite lookup_insert_eq. eauto.
    + destruct (Hq id c Hc) as [Hc1 Hc2]. split; [done|]. by apply lookup_insert_is_Some'; right.
  - apply map_Forall_insert_2; [apply (aq_new_ok DEFAULT_TX_QUEUE_FRAMES)|done].
  - apply map_Forall_insert_2; [apply EndpointStats_new_ok|done].
Qed.

(** A session turn keeps every queue in order and only sends frames stamped with its id. *)
Definition queues_kept (w w' : World Q) : Prop :=
  (forall h, is_Some (w_queues w !! h) -> is_Some (w_queues w' !! h)) /\
  (map_Forall (fun _ q => queue_ok q) (w_queues w) -> map_Forall (fun _ q => queue_ok q) (w_queues w')).

Lemma queues_kept_set h q w : queue_ok q -> queues_kept w (set_queue h q w).
Proof.
  intros Hq. split; [intros k Hk; simpl; apply lookup_insert_is_Some'; by right|]. intros Hm. simpl. by apply map_Forall_insert_2.
Qed.

Lemma forward_loop_stamps fuel ctx now f t (tx : CF) (w : World Q) flow f' t' tx' w' :
  forward_loop fuel ctx now f t tx w = Done (flow, f', t', tx', w') ->
  forall rf, rf ∈ sent tx' -> rf ∈ sent tx \/ rf_endpoint_id rf = ctx_endpoint_id ctx.
Proof.
  revert f t tx w; induction fuel as [|fuel IH]; intros f t tx w; cbn [forward_loop]; [done|].
  destruct (try_next_frame f) as [[[[h fr]|] f1]| |]; [| |done|done].
  2: { intros [= <- <- <- <- <-]. by left. }
  destruct (account_frame ctx now h fr t w) as [[pass t1] v]. destruct pass; [|by apply IH].
  set (x := {| rf_endpoint_id := ctx_endpoint_id ctx; rf_frame := fr; rf_header := h |}).
  pose proof (send_sent tx x) as Hs. destruct (send tx x) as [ok tx1]. simpl in Hs.
  assert (Hin1 : forall rf, rf ∈ sent tx1 -> rf ∈ sent tx \/ rf_endpoint_id rf = ctx_endpoint_id ctx).
  { intros rf. rewrite Hs. destruct ok; [|auto]. rewrite elem_of_app, list_elem_of_singleton. intros [?| ->]; auto. }
  destruct ok; [|by intros [= <- <- <- <- <-]].
  intros Hd rf Hrf. destruct (IH _ _ _ _ Hd rf Hrf) as [Hin|]; auto.
Qed.

Lemma session_turn_kept ctx tq i s :
  counters_ok (rd_framer (ss_reader s)) -> is_Some (w_queues (ss_world s) !! tq_inner tq) ->
  map_Forall (fun _ q => queue_ok q) (w_queues (ss_world s)) -> map_Forall (fun _ => stats_ok) (w_stats (ss_world s)) ->
  exists flow (s' : @SessionState Q CF), session_turn ctx tq i s = Done (flow, s') /\
    counters_ok (rd_framer (ss_reader s')) /\ queues_kept (ss_world s) (ss_world s') /\
    map_Forall (fun _ => stats_ok) (w_stats (ss_world s')) /\
    forall rf, rf ∈ sent (ss_tx s') -> rf ∈ sent (ss_tx s) \/ rf_endpoint_id rf = ctx_endpoint_id ctx.
Proof.
  intros Hc [q Hq] Hqo Hs.
  assert (Hok : session_ok tq (aq_elems q) s) by (split; [done|]; split; [done|]; exists q; split_and!; [done|by apply (Hqo _ _ Hq)|done]).
  destruct (session_turn_writes ctx tq _ i s Hok) as (flow & s' & e' & Ht & [Hc' Hh'] & _).
  exists flow, s'. split; [done|]. split; [done|]. cut (queues_kept (ss_world s) (ss_world s') /\
    forall rf, rf ∈ sent (ss_tx s') -> rf ∈ sent (ss_tx s) \/ rf_endpoint_id rf = ctx_endpoint_id ctx).
  { intros [Hk Hr]. split_and!; [done|apply Hh'|done]. }
  clear Hh' Hc'. destruct i as [|res now|ok]; unfold session_turn in Ht.
  - injection Ht as <- <-. split; [done|by left].
  - unfold handle_read_result in Ht. destruct res as [[|b d]|]; [injection Ht as <- <-; split; [done|by left]| |injection Ht as <- <-; split; [done|by left]].
    destruct (forward_inbound_frames ctx now _ _ (ss_tx s) (ss_world s)) as [[[[[fl f'] t'] tx'] w']| |] eqn:E; [|done|done].
    pose proof (forward_loop_queues _ _ _ _ _ _ _ _ _ _ _ _ E) as Hw. pose proof (forward_loop_stamps _ _ _ _ _ _ _ _ _ _ _ _ E) as Hst.
    destruct fl; injection Ht as <- <-; (split; [unfold queues_kept; simpl; by rewrite Hw|exact Hst]).
  - unfold TxQueue_pop in Ht. rewrite Hq in Ht. pose proof (aq_pop_ok q (Hqo _ _ Hq)) as Hpo.
    destruct (aq_pop q) as [[fr|] q1]; simpl in Hpo.
    + unfold write_outbound_frame in Ht. destruct ok; injection Ht as <- <-; (split; [by apply (queues_kept_set (tq_inner tq) q1)|by left]).
    + injection Ht as <- <-. split; [by apply queues_kept_set|by left].
Qed.

(** Replacing a running client's reader, with the store and frames it leaves. *)
Lemma child_update_inv st id c (s : @SessionState Q CF) :
  tcps_inv st -> ts_children st !! id = Some c -> counters_ok (rd_framer (ss_reader s)) ->
  queues_kept (ts_world st) (ss_world s) -> map_Forall (fun _ => stats_ok) (w_stats (ss_world s)) ->
  (forall rf, rf ∈ sent (ss_tx s) -> rf ∈ sent (ts_frame_tx st) \/ rf_endpoint_id rf = id) ->
  tcps_inv {| ts_phase := ts_phase st; ts_backoff := ts_backoff st; ts_allocator := ts_allocator st; ts_frame_tx := ss_tx s; ts_event_tx := ts_event_tx st; ts_world := ss_world s;
              ts_children := <[id := {| ch_tq := ch_tq c; ch_stats := ch_stats c; ch_reader := ss_reader s |}]> (ts_children st); ts_handles := ts_handles st |}.
Proof.
  intros [Hb Hl Han Hfr Hq Hqo Hs] Hid Hc [Hk1 Hk2] Hs' Hst. split; simpl.
  - intros i x [[<- <-]|[_ Hx]]%lookup_insert_Some; eauto.
  - rewrite Hl, dom_insert_L. apply elem_of_dom_2 in Hid. set_solver.
  - intros i x [[<- <-]|[_ Hx]]%lookup_insert_Some; eauto.
  - intros rf [Hin| ->]%Hst; eauto.
  - intros i x [[<- <-]|[_ Hx]]%lookup_insert_Some; simpl.
    + split; [done|]. by apply Hk1, (Hq _ _ Hid).
    + destruct (Hq i x Hx). auto.
  - auto.
  - done.
Qed.

Lemma end_session_inv spec id c out st :
  tcps_inv st -> is_Some (ts_children st !! id) -> is_Some (w_queues (ts_world st) !! tq_inner (ch_tq c)) ->
  exists st', end_session spec id c out st = Done st' /\ tcps_inv st' /\ ts_allocator st' = ts_allocator st /\
    ts_children st' = delete id (ts_children st) /\
    exists reason, sent (ts_event_tx st') = sent (ts_event_tx st) ++ [PeerRemoved (tsp_parent_id spec) id reason].
Proof.
  intros [Hb Hl Han Hfr Hq Hqo Hs] Hid [q Hcq]. unfold end_session.
  destruct (drain_and_discard_Done (ch_tq c) (ts_world st) q Hcq) as (q' & He & Hcap & ->).
  match goal with |- context [send ?c ?e] => destruct (send_alive router_alive c e) as [Hsend Hsent]; rewrite Hsend; set (tx := (send c e).2) in * end.
  eexists. split; [done|]. split; [|split_and!; [done|done|eauto]].
  assert (Hq' : queue_ok q') by (pose proof (Hqo _ _ Hcq) as [Hc1 _]; split; rewrite Hcap, ?He; simpl; lia).
  match goal with |- context [Build_TcpsState _ _ _ _ _ _ _ _ ?x _ _] => set (w1 := x) end.
  assert (Hw1 : w_queues w1 = <[tq_inner (ch_tq c) := q']> (w_queues (ts_world st))) by (unfold w1; by destruct (0 <? _)%nat).
  split; simpl.
  - intros i x [_ Hx]%lookup_delete_Some. eauto.
  - rewrite Hsent, replay_snoc, Hl, dom_delete_L. done.
  - intros i x [_ Hx]%lookup_delete_Some. rewrite Hsent. by eapply announced_app, Han.
  - intros rf Hin. rewrite Hsent. by apply announced_app, Hfr.
  - intros i x [_ Hx]%lookup_delete_Some. destruct (Hq i x Hx) as [Hc1 Hc2]. split; [done|]. rewrite Hw1.
    apply lookup_insert_is_Some'. by right.
  - rewrite Hw1. by apply map_Forall_insert_2.
  - unfold w1. destruct (0 <? _)%nat; [|done]. apply (stats_update_ok (Q:=Q)); [intros x; apply fetch_add_ok|done].
Qed.

Lemma push_inv id c frame st :
  tcps_inv st -> ts_children st !! id = Some c ->
  tcps_inv {| ts_phase := ts_phase st; ts_backoff := ts_backoff st; ts_allocator := ts_allocator st; ts_frame_tx := ts_frame_tx st; ts_event_tx := ts_event_tx st;
              ts_world := TxQueue_push (ch_tq c) frame (ts_world st); ts_children := ts_children st; ts_handles := ts_handles st |}.
Proof.
  intros [Hb Hl Han Hfr Hq Hqo Hs] Hid. destruct (Hq id c Hid) as [_ [q Hcq]].
  assert (Hp : queues_kept (ts_world st) (TxQueue_push (ch_tq c) frame (ts_world st)) /\
    map_Forall (fun _ => stats_ok) (w_stats (TxQueue_push (ch_tq c) frame (ts_world st)))).
  { unfold TxQueue_push. rewrite Hcq. pose proof (aq_force_push_ok q frame (Hqo _ _ Hcq)) as Hok.
    destruct (aq_force_push q frame) as [[ev|] q1]; (split; [by apply (queues_kept_set (tq_inner (ch_tq c)) q1)|]); [|done].
    apply (stats_update_ok (Q:=Q) (tq_stats (ch_tq c)) (fetch_add DroppedTx 1) (ts_world st)); [intros x; apply fetch_add_ok|done]. }
  destruct Hp as [[Hk1 Hk2] Hs']. split; simpl; eauto. intros i x Hx. destruct (Hq i x Hx). auto.
Qed.

(** Changes of the listener's own phase, backoff and state. *)
Lemma listener_inv_ext st st' :
  ts_allocator st' = ts_allocator st -> ts_frame_tx st' = ts_frame_tx st -> ts_event_tx st' = ts_event_tx st ->
  ts_children st' = ts_children st -> w_queues (ts_world st') = w_queues (ts_world st) ->
  map_Forall (fun _ => stats_ok) (w_stats (ts_world st')) -> tcps_inv st -> tcps_inv st'.
Proof. intros Ha Hf He Hc Hq Hs []. split; rewrite ?Ha, ?Hf, ?He, ?Hc, ?Hq; done. Qed.

Lemma goto_inv p st : tcps_inv st -> tcps_inv (goto p st).
Proof. intros Hinv. apply (listener_inv_ext st); try done. apply Hinv. Qed.

Lemma tcps_reap_inv st : tcps_inv st -> tcps_inv (tcps_reap_finished st).
Proof. intros Hinv. apply (listener_inv_ext st); try done. apply Hinv. Qed.

(** A bind the environment brings to an end. *)
Definition action_ends (a : tcps_action) : bool :=
  match a with ActListen (ListenBind rounds) => bind_ends rounds | _ => true end.

Lemma listen_turn_inv spec stats i st :
  0 <= ts_allocator st < 2 ^ 64 - 1 -> action_ends (ActListen i) = true -> tcps_inv st ->
  exists st', tcps_run_inner_turn spec stats i st = Done st' /\ tcps_inv st' /\ ts_allocator st <= ts_allocator st' <= ts_allocator st + 1.
Proof.
  intros Ha He Hinv. assert (Hstay : exists st', Done st = Done st' /\ tcps_inv st' /\ ts_allocator st <= ts_allocator st' <= ts_allocator st + 1).
  { exists st. split_and!; [done|done|lia|lia]. }
  assert (Hgo : forall p, tcps_inv (goto p st) /\ ts_allocator st <= ts_allocator (goto p st) <= ts_allocator st + 1).
  { intros p. split; [by apply goto_inv|simpl; lia]. }
  unfold tcps_run_inner_turn. destruct (ts_phase st), i as [rounds|i|]; try done.
  - destruct (bind_with_backoff_total rounds (ts_backoff st) He) as (out & b & slept & ->).
    destruct out as [u|]; (eexists; split; [done|]); [|apply Hgo]. split; [|simpl; lia].
    apply (listener_inv_ext st); try done. apply (stats_update_ok (Q:=Q)); [intros x; apply store_state_ok|apply Hinv].
  - eexists. split; [done|]. destruct i as [|peer|[]]; cbn [accept_loop_turn negb]; [apply Hgo| |split; [by apply tcps_reap_inv|simpl; lia]|apply Hgo].
    destruct (accept_inv spec peer st Ha Hinv) as [Hi Hal]. split; [by apply tcps_reap_inv|]. simpl. rewrite Hal. lia.
  - eexists. split; [done|]. destruct (decide _); (split; [|simpl; lia]); [by apply goto_inv, tcps_reap_inv|by apply tcps_reap_inv].
Qed.

(** Every action succeeds and keeps the invariant. *)
Lemma tcps_act_inv spec stats a st :
  0 <= ts_allocator st < 2 ^ 64 - 1 -> action_ends a = true -> tcps_inv st ->
  exists st', tcps_act spec stats a st = Done st' /\ tcps_inv st' /\ ts_allocator st <= ts_allocator st' <= ts_allocator st + 1.
Proof.
  intros Ha He Hinv. destruct a as [i|id i|id frame]; cbn [tcps_act].
  - by apply listen_turn_inv.
  - unfold run_client_session_turn. destruct (ts_children st !! id) as [c|] eqn:Ec; [|exists st; split_and!; [done|done|lia|lia]].
    destruct (ti_queues _ Hinv id c Ec) as [Hc Hq].
    destruct (session_turn_kept (child_ctx spec id c) (ch_tq c) i {| ss_reader := ch_reader c; ss_tx := ts_frame_tx st; ss_world := ts_world st |}
      Hc Hq (ti_queues_ok _ Hinv) (ti_stats _ Hinv)) as (flow & s' & -> & Hc' & Hk & Hs' & Hst).
    pose proof (child_update_inv st id c s' Hinv Ec Hc' Hk Hs' Hst) as Hinv'.
    destruct flow as [|out]; [eexists; split_and!; [done|done|simpl; lia|simpl; lia]|].
    match goal with |- context [end_session spec id c out ?x] => set (st1 := x) in * end.
    destruct (end_session_inv spec id c out st1 Hinv') as (st' & -> & Hi & Hal & _).
    + simpl. rewrite lookup_insert_eq. eauto.
    + by apply (proj1 Hk).
    + exists st'. split_and!; [done|done|rewrite Hal; simpl; lia|rewrite Hal; simpl; lia].
  - destruct (ts_children st !! id) as [c|] eqn:Ec; eexists; (split; [done|]); (split; [|simpl; lia]); [|done].
    by apply (push_inv id c).
Qed.

(** ** The [JoinSet]

    Every running session is in it, each once, and nothing runs outside the accept loop. *)
Record joins_inv st : Prop := {
  ji_running : forall id, is_Some (ts_children st !! id) -> id ∈ ts_handles st;
  ji_nodup : NoDup (ts_handles st);
  ji_bound : forall id, id ∈ ts_handles st -> id < ts_allocator st;
  ji_idle : ts_phase st = Binding \/ ts_phase st = TcpsReturned -> ts_children st = ∅;
}.

Lemma elem_of_unfinished st id : id ∈ unfinished st <-> id ∈ ts_handles st /\ is_Some (ts_children st !! id).
Proof. unfold unfinished. by rewrite list_elem_of_In, filter_In, <- list_elem_of_In, bool_decide_eq_true. Qed.

Lemma NoDup_unfinished st : NoDup (ts_handles st) -> NoDup (unfinished st).
Proof. rewrite !NoDup_ListNoDup. apply List.NoDup_filter. Qed.

(** Reaping keeps the handles of the running sessions and no other. *)
Lemma unfinished_exact st : joins_inv st -> unfinished st ≡ₚ elements (dom (ts_children st)).
Proof.
  intros [Hr Hn _ _]. apply NoDup_Permutation; [by apply NoDup_unfinished|apply NoDup_elements|].
  intros id. rewrite elem_of_unfinished, elem_of_elements, elem_of_dom. naive_solver.
Qed.

Lemma joins_reap st : joins_inv st -> joins_inv (tcps_reap_finished st).
Proof.
  intros [Hr Hn Hb Hi]. split; cbn; [|by apply NoDup_unfinished| |done].
  - intros id Hid. apply elem_of_unfinished. auto.
  - intros id [Hid _]%elem_of_unfinished. auto.
Qed.

(** A step that starts no session and stays in its phase. *)
Lemma joins_ext st st' :
  ts_handles st' = ts_handles st -> ts_allocator st' = ts_allocator st -> ts_phase st' = ts_phase st ->
  dom (ts_children st') ⊆ dom (ts_children st) -> joins_inv st -> joins_inv st'.
Proof.
  intros Hh Ha Hp Hd [Hr Hn Hb Hi]. split; rewrite ?Hh, ?Ha, ?Hp; [|done|done|].
  - intros id Hid. apply Hr. apply elem_of_dom, Hd. by apply elem_of_dom.
  - intros Hph. apply dom_empty_inv_L. rewrite (Hi Hph), dom_empty_L in Hd. set_solver.
Qed.

Lemma joins_accept spec peer st :
  0 <= ts_allocator st < 2 ^ 64 - 1 -> ts_phase st = Accepting -> joins_inv st -> joins_inv (accept_one_client spec peer st).
Proof.
  intros Ha Hp [Hr Hn Hb Hi]. unfold accept_one_client, alloc, stats_alloc, TxQueue_new.
  destruct (send _ _) as [ok tx]. rewrite wrap_small by (unfold in_width; lia).
  split; cbn; [| | |rewrite Hp; by intros [?|?]]; destruct ok.
  - intros id [x [[<- _]|[_ Hx]]%lookup_insert_Some]; apply elem_of_app; [right; by apply list_elem_of_singleton|left; eauto].
  - done.
  - apply NoDup_app. split_and!; [done| |apply NoDup_singleton]. intros id Hid ->%list_elem_of_singleton. apply Hb in Hid. lia.
  - done.
  - intros id [Hid| ->%list_elem_of_singleton]%elem_of_app; [apply Hb in Hid|]; lia.
  - intros id Hid. apply Hb in Hid. lia.
Qed.

Lemma joins_listen spec stats i st st' :
  0 <= ts_allocator st < 2 ^ 64 - 1 -> joins_inv st -> tcps_run_inner_turn spec stats i st = Done st' -> joins_inv st'.
Proof.
  intros Ha Hj. unfold tcps_run_inner_turn. destruct (ts_phase st) eqn:Hp, i as [rounds|i|]; try (intros [= <-]; done).
  - pose proof (ji_idle st Hj (or_introl Hp)) as Hc. destruct (bind_with_backoff _ _) as [[[[u|] b] sl]| |]; [| |done|done]; intros [= <-].
    + split; cbn; rewrite ?Hc; [by intros id [x Hx]|constructor|by intros id Hid%elem_of_nil|done].
    + destruct Hj as [Hr Hn Hb _]. split; cbn; done.
  - intros [= <-]. assert (Hgo : joins_inv (goto Joining st)).
    { destruct Hj as [Hr Hn Hb _]. split; cbn; [done|done|done|by intros [?|?]]. }
    destruct i as [|peer|[]]; cbn [accept_loop_turn negb]; [done|by apply joins_reap, joins_accept|by apply joins_reap|done].
  - intros [= <-]. destruct (decide _) as [He|]; [|by apply joins_reap].
    pose proof (unfinished_exact st Hj) as Hu. cbn in He. rewrite He in Hu. symmetry in Hu. apply Permutation_nil_r, elements_empty_inv, leibniz_equiv in Hu.
    apply dom_empty_inv_L in Hu. destruct (joins_reap st Hj) as [Hr Hn Hb _]. split; cbn; try done.
Qed.

Lemma joins_act spec stats a st st' :
  0 <= ts_allocator st < 2 ^ 64 - 1 -> joins_inv st -> tcps_act spec stats a st = Done st' -> joins_inv st'.
Proof.
  intros Ha Hj. destruct a as [i|id i|id frame]; cbn [tcps_act]; [by apply joins_listen| |].
  - unfold run_client_session_turn. destruct (ts_children st !! id) as [c|] eqn:Ec; [|by intros [= <-]].
    apply elem_of_dom_2 in Ec. destruct (session_turn _ _ _ _) as [[flow s]| |]; [|done|done].
    destruct flow as [|out]; [intros [= <-]; apply (joins_ext st); cbn; try done; set_solver|].
    unfold end_session. cbn. destruct (drain_and_discard _ _) as [[n w]| |]; [|done|done]. cbn. destruct (send _ _).
    intros [= <-]. apply (joins_ext st); cbn; try done. set_solver.
  - destruct (ts_children st !! id); intros [= <-]; [by apply (joins_ext st)|done].
Qed.

(** A run of the listener and its clients under one interleaving. *)
Fixpoint tcps_run spec stats (actions : list tcps_action) st : outcome (TcpsState Q CF CE) :=
  match actions with
  | [] => Done st
  | a :: rest => let! next := tcps_act spec stats a st in tcps_run spec stats rest next
  end.

(** C23. The router's view of a [tcps:] listener is exact under every interleaving of the
    listener (binding, accepting, joining its clients), the client sessions and router
    pushes (router alive, fewer than 2^64 clients, each bind brought to an end): no task
    panics; the clients live by the [PeerAdded]/[PeerRemoved] events are exactly the
    running sessions; every frame forwarded carries the id of a client announced before; a
    pass of [reap_finished] leaves the [JoinSet] with exactly the running sessions, each once,
    so it does not grow with the clients served; and the listener binds again or returns only
    when no session is left. *)
Theorem tcps_clients_match_router_view spec stats actions st :
  tcps_inv st -> joins_inv st -> forallb action_ends actions = true ->
  0 <= ts_allocator st -> ts_allocator st + Z.of_nat (length actions) < 2 ^ 64 ->
  exists st', tcps_run spec stats actions st = Done st' /\
    replay (sent (ts_event_tx st')) = dom (ts_children st') /\
    (forall rf, rf ∈ sent (ts_frame_tx st') -> announced (sent (ts_event_tx st')) (rf_endpoint_id rf)) /\
    ts_handles (tcps_reap_finished st') ≡ₚ elements (dom (ts_children st')) /\
    (ts_phase st' = Binding \/ ts_phase st' = TcpsReturned -> ts_children st' = ∅).
Proof.
  revert st; induction actions as [|a actions IH]; intros st Hinv Hj Hends H0' Hb; cbn [tcps_run].
  { exists st. split_and!; [done|apply Hinv|apply Hinv|by apply unfinished_exact|apply Hj]. }
  cbn [length] in Hb. cbn [forallb] in Hends. apply andb_true_iff in Hends as [He Hends].
  destruct (tcps_act_inv spec stats a st ltac:(lia) He Hinv) as (st1 & Hact & Hi & Hal).
  pose proof (joins_act spec stats a st st1 ltac:(lia) Hj Hact) as Hj1. rewrite Hact. apply IH; [done|done|done|lia|lia].
Qed.
End TcpServerProps.

(** ** Witness *)

Module TcpsSample.
Definition spec : TcpServerSpec := TcpServerSpec_from_endpoint
  {| ts_bind_addr := SocketAddr_new (V4 [0; 0; 0; 0]) 5760; ts_identity := IdentityFlags_default |} 0 "gcs".
Definition start : TcpsState ListQueue.t (LiveSender.t RouterFrame) (LiveSender.t EndpointEvent) :=
  {| ts_phase := Binding; ts_backoff := Backoff_new 250 30000 (Some 7); ts_allocator := 1; ts_frame_tx := {| LiveSender.log := [] |}; ts_event_tx := {| LiveSender.log := [] |};
     ts_world := sample_world (aq_new 1); ts_children := ∅; ts_handles := [] |}.
Definition actions : list tcps_action :=
  [ActListen (ListenBind [{| br_cancelled := false; br_bind := None; br_waited := true |};
                          {| br_cancelled := false; br_bind := Some tt; br_waited := true |}]);
   ActListen (ListenAccept (AccClient (SocketAddr_new (V4 [10; 0; 0; 1]) 40000))); ActListen (ListenAccept (AccError true));
   ActListen (ListenAccept (AccClient (SocketAddr_new (V4 [10; 0; 0; 2]) 40000)));
   ActPush 1 [7]; ActChild 2 (SelRead (ReadOk [1; 2]) 3); ActChild 1 (SelFrame true); ActChild 2 (SelRead ReadErr 4); ActListen (ListenAccept AccCancelled); ActChild 1 SelCancelled;
   ActListen ListenJoined; ActListen (ListenBind [{| br_cancelled := true; br_bind := None; br_waited := true |}])].
Lemma tcps_start_inv : tcps_inv start.
Proof.
  split; try done; [simpl; set_solver| |apply sample_world_ok].
  intros h q. unfold start, sample_world. simpl. intros [<- <-]%lookup_singleton_Some. split; simpl; lia.
Qed.
Lemma tcps_start_joins : joins_inv start.
Proof. split; cbn; [by intros id [x Hx]|constructor|by intros id Hid%elem_of_nil|done]. Qed.
End TcpsSample.

#[local] Existing Instance SampleTable.sample.

Lemma tcps_clients_match_router_view_witness :
  exists st', tcps_run TcpsSample.spec 0 TcpsSample.actions TcpsSample.start = Done st' /\
    replay (sent (ts_event_tx st')) = dom (ts_children st') /\ ts_children st' = ∅.
Proof.
  destruct (tcps_clients_match_router_view (LiveSender.alive EndpointEvent) TcpsSample.spec 0 TcpsSample.actions TcpsSample.start)
    as (st' & Hr & Hl & _ & _ & Hidle).
  - apply TcpsSample.tcps_start_inv.
  - apply TcpsSample.tcps_start_joins.
  - reflexivity.
  - simpl. lia.
  - simpl. lia.
  - exists st'. split; [exact Hr|]. split; [exact Hl|]. apply Hidle. right.
    vm_compute in Hr. injection Hr as <-. reflexivity.
Defined.
