(* ===== verification/Transport.v ===== *)
(** * What a link needs of its transport

    A routing endpoint is one of: a byte stream with a session ([serial:], [tcpc:], the
    clients of [tcps:]), a [udpc:] socket, or a peer of a [udps:] listener.  [Transport] is
    what the rest of the system relies on: what the transport delivers is framed, filtered
    and sent to the router, all of it and in order; what it transmits, or fails to, is the
    head of the link's queue; and nothing else of the shared store is touched but counters.
    The three kinds implement it, and so do networks that mix them (the sum instance). *)

From S2P Require Import Prelude RustStr RustNet Crc Frame MsgTable Framer FramerSpec FramerProps LruVec SeqTracker Filters EndpointStats TxQueue Identity FilterParse Spec Session SessionProps Backoff Endpoint UdpServer UdpClient.
#[local] Open Scope Z_scope.
#[local] Opaque parse try_next_frame crc16_update.

(** The [dropped_tx] counter of a stats object. *)
Definition dropped_at {Q} (k : nat) (w : World Q) : option Z := load DroppedTx <$> w_stats w !! k.

Lemma dropped_at_update {Q} i k (g : EndpointStats -> EndpointStats) (w : World Q) :
  (forall s, load DroppedTx (g s) = load DroppedTx s) -> dropped_at i (stats_update k g w) = dropped_at i w.
Proof.
  intros Hg. unfold dropped_at, stats_update. cbn [w_stats]. destruct (decide (k = i)) as [<-|]; [|by rewrite lookup_alter_ne].
  rewrite lookup_alter_eq. destruct (w_stats w !! k) as [s|]; [|done]. cbn. by rewrite Hg.
Qed.

(** The store but for counters other than [dropped_tx]. *)
Definition same_traffic {Q} (w w' : World Q) : Prop := w_queues w' = w_queues w /\ forall k, dropped_at k w' = dropped_at k w.
#[export] Instance same_traffic_preorder {Q} : PreOrder (@same_traffic Q).
Proof. split; [done|]. intros w1 w2 w3 [Hq Hd] [Hq' Hd']. split; [congruence|]. intros k. by rewrite Hd', Hd. Qed.

Lemma same_traffic_update {Q} k g (w w' : World Q) :
  (forall s, load DroppedTx (g s) = load DroppedTx s) -> same_traffic w w' -> same_traffic w (stats_update k g w').
Proof. intros Hg [Hq Hd]. split; [exact Hq|]. intros i. by rewrite dropped_at_update. Qed.

Lemma store_state_dropped st s : load DroppedTx (store_state st s) = load DroppedTx s.
Proof. done. Qed.
Lemma add_tx_frame_dropped n s : load DroppedTx (add_tx_frame n s) = load DroppedTx s.
Proof. unfold add_tx_frame. by rewrite !load_fetch_add. Qed.
Lemma sync_dropped c f s : load DroppedTx (sync c f s).2 = load DroppedTx s.
Proof. unfold sync. cbn zeta. destruct (0 <? _), (0 <? _); cbn [snd]; by rewrite ?load_fetch_add. Qed.

(** A channel whose receiver, the router, is running. *)
Class Alive (A C : Type) `{Sender A C} : Prop := alive_send : forall (c : C) (x : A), (send c x).1 = true.
#[export] Instance live_sender_alive A : Alive A (LiveSender.t A) := LiveSender.alive A.

(** ** The interface *)

(** What became of a frame that left the queue: the transport took it, or it was dropped and
    counted in [dropped_tx], or its write failed and nothing counts it. *)
Inductive verdict := Accepted | Counted | Lost.
#[export] Instance verdict_eq_dec : EqDecision verdict.
Proof. solve_decision. Defined.

Class Transport (Q C P : Type) := {
  tp_env : Type;                                     (** what the outside answers in a turn *)
  tp_framer : P -> Framer;
  tp_own : SessionCtx -> P -> Prop;                  (** the port is this endpoint's *)
  tp_ready : P -> Prop;                              (** it can transmit *)
  tp_read : SessionCtx -> TxQueue -> tp_env -> Bytes -> P -> C -> World Q -> option (P * C * World Q);
  tp_write : SessionCtx -> TxQueue -> tp_env -> P -> C -> World Q -> option (verdict * P * C * World Q);
  tp_turn : SessionCtx -> TxQueue -> tp_env -> P -> C -> World Q -> option (P * C * World Q);   (** any other turn of the loop *)
  tp_renew : P -> option P;                          (** a new session after one has ended *)
}.

#[export] Hint Mode Transport - - ! : typeclass_instances.

(** The bytes [d], appended to what a framer holds, have been framed, and the frames that
    pass the ingress filter sent. *)
Definition delivers `{MsgTable} {C} `{SenderLaws RouterFrame C} (ctx : SessionCtx) (d : Bytes) (f f' : Framer) (tx tx' : C) : Prop :=
  let sc := parse (buf f ++ d) in
  f' = advanced f (sc_resync sc) (sc_crc sc) (sc_rest sc) /\
  sent tx' = sent tx ++ (to_router ctx <$> List.filter (passes ctx) (sc_frames sc)).

(** The head of the queue has met this verdict. *)
Definition disposed {Q} `{ArrayQueue Q} (v : verdict) (k : nat) (tq : TxQueue) (w w' : World Q) : Prop :=
  let '(popped, w1) := TxQueue_pop tq w in
  same_traffic (match popped, v with Some _, Counted => stats_update k (fetch_add DroppedTx 1) w1 | _, _ => w1 end) w'.

Class TransportLaws (Q C P : Type) `{MsgTable} `{ArrayQueue Q} `{SenderLaws RouterFrame C} `{!Transport Q C P} : Prop := {
  tp_read_delivers ctx tq e d (p : P) (tx : C) (w : World Q) p' tx' w' :
    tp_own ctx p -> counters_ok (tp_framer p) -> tp_read ctx tq e d p tx w = Some (p', tx', w') ->
    tp_own ctx p' /\ delivers ctx d (tp_framer p) (tp_framer p') tx tx' /\ same_traffic w w';
  tp_write_disposes ctx tq e (p : P) (tx : C) (w : World Q) v p' tx' w' :
    tp_own ctx p -> tp_write ctx tq e p tx w = Some (v, p', tx', w') ->
    tp_own ctx p' /\ tp_framer p' = tp_framer p /\ tx' = tx /\ disposed v (ctx_stats ctx) tq w w';
  tp_turn_quiet ctx tq e (p : P) (tx : C) (w : World Q) p' tx' w' :
    tp_own ctx p -> tp_turn ctx tq e p tx w = Some (p', tx', w') ->
    tp_own ctx p' /\ tp_framer p' = tp_framer p /\ tx' = tx /\ same_traffic w w';
  tp_renew_fresh ctx (p p' : P) :
    tp_own ctx p -> tp_renew p = Some p' -> tp_own ctx p' /\ tp_framer p' = Framer_new /\ tp_ready p';
  tp_write_possible ctx tq (p : P) (tx : C) (w : World Q) :
    tp_ready p -> exists e p' tx' w', tp_write ctx tq e p tx w = Some (Accepted, p', tx', w') /\ tp_ready p';
}.

(** ** The common ingress pipeline *)

Section Ingress.
Context `{MsgTable} {Q : Type} `{ArrayQueue Q} {C : Type} `{SenderLaws RouterFrame C}.
Implicit Types (w : World Q) (tx : C).

Lemma account_frame_world ctx now h fr t w w2 :
  let '(p, t', w') := account_frame ctx now h fr t w in
  (account_frame ctx now h fr t w2).1 = (p, t') /\ same_traffic w w'.
Proof.
  unfold account_frame. destruct (observe t (source h) (seq h) now) as [lost t1].
  destruct (0 <? lost), (passes_in_filter _ _ _); cbn; (split; [done|]);
    repeat (apply same_traffic_update; [intros s; unfold add_rx_frame; by rewrite ?load_fetch_add|]); done.
Qed.

(** The reader's work does not depend on the store, and leaves queues and [dropped_tx] alone. *)
Lemma forward_loop_world fuel ctx now f t tx w w2 flow f' t' tx' w' :
  forward_loop fuel ctx now f t tx w = Done (flow, f', t', tx', w') ->
  (exists w2', forward_loop fuel ctx now f t tx w2 = Done (flow, f', t', tx', w2')) /\ same_traffic w w'.
Proof.
  revert f t tx w w2; induction fuel as [|fuel IH]; intros f t tx w w2; cbn [forward_loop]; [done|].
  destruct (try_next_frame f) as [[[[h fr]|] f1]| |]; [|intros [= <- <- <- <- <-]; split; [by eexists|done]|done..].
  pose proof (account_frame_world ctx now h fr t w w2) as Ha.
  destruct (account_frame ctx now h fr t w) as [[p t1] w1], (account_frame ctx now h fr t w2) as [[p2 t2] w21].
  destruct Ha as ([= -> ->] & Hw). destruct p; [destruct (send tx _) as [[] tx1]|].
  2: { intros [= <- <- <- <- <-]. split; [by eexists|done]. }
  all: intros Hrun; destruct (IH _ _ _ _ w21 Hrun) as (Hex & Hw'); split; [done|by etrans].
Qed.

Definition bare : World Q := {| w_stats := ∅; w_queues := ∅; w_notified := ∅ |}.

(** Forwarding that runs to its end delivers, whatever the counters are. *)
Lemma forward_delivers ctx now f d t tx w f' t' tx' w' :
  counters_ok f -> forward_inbound_frames ctx now (buffer_extend f d) t tx w = Done (Continue, f', t', tx', w') ->
  delivers ctx d f f' tx tx' /\ same_traffic w w'.
Proof.
  intros Hok E. destruct (forward_inbound_frames_spec ctx now (buffer_extend f d) t tx bare)
    as (flow & f2 & t2 & tx2 & w2 & E2 & Hpost); [done|by intros ? ?|].
  destruct (forward_loop_world _ _ _ _ _ _ _ bare _ _ _ _ _ E) as ((w2' & E3) & Hw).
  unfold forward_inbound_frames in E2. rewrite E2 in E3. simplify_eq.
  destruct Hpost as (Hf & Hs & _). split; [|exact Hw]. split; [by rewrite Hf|exact Hs].
Qed.

Lemma pop_traffic tq w k : dropped_at k (TxQueue_pop tq w).2 = dropped_at k w.
Proof. unfold TxQueue_pop, dropped_at. destruct (w_queues w !! tq_inner tq); [|done]. by destruct (aq_pop _). Qed.
End Ingress.

(** ** Byte streams *)

(** The port of a stream: its session's reader, and whether the session goes on. *)
Record StreamPort := { sp_reader : ReaderState; sp_open : bool }.
Definition stream_port_new : StreamPort := {| sp_reader := ReaderState_new; sp_open := true |}.

Section Stream.
Context `{MsgTable} {Q : Type} `{ArrayQueue Q} {C : Type} `{SenderLaws RouterFrame C}.

Definition stream_state (p : StreamPort) (tx : C) (w : World Q) : SessionState (Q := Q) (C := C) := {| ss_reader := sp_reader p; ss_tx := tx; ss_world := w |}.
Definition session_goes_on (o : outcome (ControlFlow SessionOutcome * SessionState (Q := Q) (C := C))) : option (StreamPort * C * World Q) :=
  match o with
  | Done (Continue, s) => Some ({| sp_reader := ss_reader s; sp_open := true |}, ss_tx s, ss_world s)
  | _ => None
  end.
Definition session_over (o : outcome (ControlFlow SessionOutcome * SessionState (Q := Q) (C := C))) : option (StreamPort * C * World Q) :=
  match o with
  | Done (Break _, s) => Some ({| sp_reader := ss_reader s; sp_open := false |}, ss_tx s, ss_world s)
  | _ => None
  end.


(** What a stream's session met: a read at a time, or the answer to a write. *)
Inductive stream_env := AtTime (now : Z) | WriteAnswer (ok : bool) | ReadFails | ReadEof.

#[export] Instance stream_transport : Transport Q C StreamPort := {
  tp_env := stream_env;
  tp_framer p := rd_framer (sp_reader p);
  tp_own _ _ := True;
  tp_ready p := sp_open p = true;
  tp_read ctx tq e d p tx w :=
    match sp_open p, e with
    | true, AtTime now => session_goes_on (session_turn ctx tq (SelRead (ReadOk d) now) (stream_state p tx w))
    | _, _ => None
    end;
  (** a failed write ends the session, its frame already taken from the queue *)
  tp_write ctx tq e p tx w :=
    match sp_open p, e with
    | true, WriteAnswer ok =>
        match session_turn ctx tq (SelFrame ok) (stream_state p tx w) with
        | Done (Continue, s) => Some (Accepted, {| sp_reader := ss_reader s; sp_open := true |}, ss_tx s, ss_world s)
        | Done (Break _, s) => Some (Lost, {| sp_reader := ss_reader s; sp_open := false |}, ss_tx s, ss_world s)
        | _ => None
        end
    | _, _ => None
    end;
  (** the end of the stream and a read error end the session *)
  tp_turn ctx tq e p tx w :=
    match sp_open p, e with
    | true, ReadFails => session_over (session_turn ctx tq (SelRead ReadErr 0) (stream_state p tx w))
    | true, ReadEof => session_over (session_turn ctx tq (SelRead (ReadOk []) 0) (stream_state p tx w))
    | _, _ => None
    end;
  tp_renew p := if sp_open p then None else Some stream_port_new;
}.

#[export] Instance stream_laws : TransportLaws Q C StreamPort.
Proof.
  split; cbn [tp_env tp_framer tp_own tp_ready tp_read tp_write tp_turn tp_renew stream_transport].
  - intros ctx tq [now| | |] d [rd []] tx w p' tx' w' _ Hok; try done. unfold session_goes_on, session_turn, handle_read_result. cbn [ss_reader ss_tx ss_world stream_state sp_open sp_reader].
    destruct d as [|b d]; [done|].
    destruct (forward_inbound_frames ctx now (buffer_extend (rd_framer rd) (b :: d)) (rd_tracker rd) tx w)
      as [[[[[flow f'] t'] tx1] w1]| |] eqn:E; [|done..].
    destruct flow; [|done]. intros [= <- <- <-]. destruct (forward_delivers _ _ _ _ _ _ _ _ _ _ _ Hok E) as [Hdel Hw].
    split_and!; [done|exact Hdel|]. apply same_traffic_update; [apply sync_dropped|exact Hw].
  - intros ctx tq [|ok| |] [rd []] tx w v p' tx' w' _; try done. unfold session_turn, disposed. cbn [ss_world ss_reader ss_tx stream_state sp_open sp_reader].
    destruct (TxQueue_pop tq w) as [[frame|] w1]; [destruct ok|]; cbn; intros [= <- <- <- <-]; split_and!; try done.
    apply same_traffic_update; [apply add_tx_frame_dropped|done].
  - intros ctx tq [| | |] [rd []] tx w p' tx' w' _; try done; cbn; by intros [= <- <- <-].
  - intros ctx [rd []] p' _; [done|]. by intros [= <-].
  - intros ctx tq [rd op] tx w Hop. cbn in Hop. subst op. exists (WriteAnswer true). unfold session_turn. cbn.
    destruct (TxQueue_pop tq w) as [[frame|] w1]; by eexists _, _, _.
Qed.
End Stream.

(** ** [udpc:] *)

(** The port of a [udpc:] endpoint: where it sends, and its reader. *)
Record UdpcPort := { up_spec : UdpClientSpec; up_dest : Destination; up_reader : ReaderState }.
(** What its loop met: a datagram of a source at a time; the answers of [send_to] and of a
    lookup; the latch timer; a receive error. *)
Inductive udpc_env :=
| Datagram (src : SocketAddr) (now : Z)
| SendAnswer (sent : option nat) (answer : lookup_answer)
| LatchTick (now : Z) (answer : lookup_answer)
| RecvFails.

Section Udpc.
Context `{MsgTable} {Q : Type} `{ArrayQueue Q} {C : Type} `{SenderLaws RouterFrame C}.

Definition udpc_state (p : UdpcPort) (tx : C) (w : World Q) : UdpcState Q C :=
  {| uc_dest := up_dest p; uc_reader := up_reader p; uc_tx := tx; uc_world := w |}.
(** A turn of [event_loop] that goes on. *)
Definition udpc_port_turn (ctx : SessionCtx) (tq : TxQueue) (i : udpc_input) (p : UdpcPort) (tx : C) (w : World Q)
    : option (UdpcPort * C * World Q) :=
  match udpc_turn (up_spec p) ctx tq i (udpc_state p tx w) with
  | Done (false, s) => Some ({| up_spec := up_spec p; up_dest := uc_dest s; up_reader := uc_reader s |}, uc_tx s, uc_world s)
  | _ => None
  end.

(** Datagrams of strangers are not deliveries; a frame with nowhere to go, or whose send
    fails, is lost. *)
#[export] Instance udpc_transport : Transport Q C UdpcPort := {
  tp_env := udpc_env;
  tp_framer p := rd_framer (up_reader p);
  tp_own _ _ := True;
  tp_ready p := is_Some (current_target (up_dest p));
  tp_read ctx tq e d p tx w :=
    match e with
    | Datagram src now =>
        match classify_inbound (up_dest p) (addr_ip src) with
        | Reject => None
        | _ => udpc_port_turn ctx tq (UdpcRecv d src now) p tx w
        end
    | _ => None
    end;
  tp_write ctx tq e p tx w :=
    match e with
    | SendAnswer sent answer =>
        (fun x => (if bool_decide (is_Some (current_target (up_dest p)) /\ is_Some sent) then Accepted else Lost, x.1.1, x.1.2, x.2))
          <$> udpc_port_turn ctx tq (UdpcSend sent answer) p tx w
    | _ => None
    end;
  tp_turn ctx tq e p tx w :=
    match e with
    | Datagram src now =>
        match classify_inbound (up_dest p) (addr_ip src) with
        | Reject => udpc_port_turn ctx tq (UdpcRecv [] src now) p tx w
        | _ => None
        end
    | LatchTick now answer => udpc_port_turn ctx tq (UdpcTick now answer) p tx w
    | RecvFails => udpc_port_turn ctx tq UdpcRecvError p tx w
    | SendAnswer _ _ => None
    end;
  tp_renew _ := None;
}.

Context `{!Alive RouterFrame C}.

Lemma accept_delivers ctx d now dest (s s' : UdpcState Q C) :
  counters_ok (rd_framer (uc_reader s)) -> accept_inbound ctx d now dest s = Done s' ->
  uc_dest s' = dest /\ delivers ctx d (rd_framer (uc_reader s)) (rd_framer (uc_reader s')) (uc_tx s) (uc_tx s') /\
  same_traffic (uc_world s) (uc_world s').
Proof.
  intros Hok. unfold accept_inbound. cbv zeta.
  destruct (forward_inbound_frames ctx now (buffer_extend (rd_framer (uc_reader s)) d) _ _ _)
    as [[[[[flow f'] t'] tx1] w1]| |] eqn:E; [|done..].
  pose proof (forward_never_breaks alive_send _ _ _ _ _ _ _ _ _ _ _ _ E) as ->. intros [= <-].
  destruct (forward_delivers _ _ _ _ _ _ _ _ _ _ _ Hok E) as [Hdel Hw]. split_and!; [done|exact Hdel|]. cbn [uc_world].
  apply same_traffic_update; [apply sync_dropped|]. etrans; [|exact Hw]. by apply same_traffic_update.
Qed.

#[export] Instance udpc_laws : TransportLaws Q C UdpcPort.
Proof.
  split; cbn [tp_env tp_framer tp_own tp_ready tp_read tp_write tp_turn tp_renew udpc_transport]; unfold udpc_port_turn, udpc_turn.
  - intros ctx tq [src now| | |] d p tx w p' tx' w' _ Hok; try done. unfold handle_inbound. cbn [uc_dest udpc_state].
    destruct (classify_inbound (up_dest p) (addr_ip src)) eqn:Ec; [| |done];
      (destruct (accept_inbound _ _ _ _ _) as [s'| |] eqn:E; [|done..]); intros [= <- <- <-];
      apply accept_delivers in E as (Hd & Hdel & Hw); [|done| |done]; by split_and!.
  - intros ctx tq [|sent answer| |] p tx w v p' tx' w' _; try done. unfold disposed. cbn [uc_world udpc_state uc_dest uc_reader uc_tx].
    destruct (TxQueue_pop tq w) as [[frame|] w1] eqn:Ep; [|by case_bool_decide; intros [= <- <- <- <-]].
    unfold send_frame. destruct (current_target (up_dest p)) as [t|] eqn:Ht; [destruct sent as [bytes_sent|]|].
    + rewrite bool_decide_eq_true_2 by by split; eexists. intros [= <- <- <- <-]. split_and!; [done..|].
      apply same_traffic_update; [done|]. by apply same_traffic_update; [apply add_tx_frame_dropped|].
    + rewrite bool_decide_eq_false_2 by by intros [_ [? ?]]. intros [= <- <- <- <-]. split_and!; [done..|]. by apply same_traffic_update.
    + rewrite bool_decide_eq_false_2 by by intros [[? ?] _]. intros [= <- <- <- <-]. split_and!; [done..|].
      destruct (current_target (refresh_ips _ _)); [done|]. by apply same_traffic_update.
  - intros ctx tq [src now| |now answer|] p tx w p' tx' w' _; try done; [|by intros [= <- <- <-]..]. unfold handle_inbound. cbn [uc_dest udpc_state].
    destruct (classify_inbound (up_dest p) (addr_ip src)) eqn:Ec; try done. intros [= <- <- <-]. split_and!; [done..|].
    by apply same_traffic_update; [intros; by rewrite load_fetch_add|].
  - done.
  - intros ctx tq p tx w [t Ht]. exists (SendAnswer (Some 0%nat) None).
    cbn [uc_world udpc_state uc_dest uc_reader uc_tx]. unfold send_frame. rewrite Ht, bool_decide_eq_true_2 by by split; eexists.
    destruct (TxQueue_pop tq w) as [[frame|] w1]; eexists _, _, _; (split; [done|]); by exists t.
Qed.
End Udpc.

(** ** Peers of [udps:] *)

(** The port of a peer: its listener's spec, its address and its entry of the table. *)
Record PeerPort := { pp_spec : UdpServerSpec; pp_src : SocketAddr; pp_peer : PeerEntry }.

Section Udps.
Context `{MsgTable} {Q : Type} `{ArrayQueue Q} {C : Type} `{SenderLaws RouterFrame C}.

(** The listener's state as far as a packet of a known peer is concerned. *)
Definition solo {CE} (p : PeerPort) (events : CE) (next : EndpointIdAllocator) (tx : C) (w : World Q) : Listener Q C CE :=
  {| ls_peers := {[pp_src p := pp_peer p]}; ls_allocator := next; ls_frame_tx := tx; ls_event_tx := events; ls_world := w;
     ls_cancelled := ∅; ls_writers := [] |}.

(** A packet of a known peer leaves the rest of the listener alone: its effect is that on
    [solo], put back into the table. *)
Lemma handle_packet_local {CE} `{Sender EndpointEvent CE} iter spec d src now (st : Listener Q C CE) peer :
  ls_peers st !! src = Some peer ->
  handle_packet iter spec d src now st =
  match handle_packet iter spec d src now
          (solo {| pp_spec := spec; pp_src := src; pp_peer := peer |} (ls_event_tx st) (ls_allocator st) (ls_frame_tx st) (ls_world st)) with
  | Done st1 => Done {| ls_peers := ls_peers st1 ∪ ls_peers st; ls_allocator := ls_allocator st; ls_frame_tx := ls_frame_tx st1;
                        ls_event_tx := ls_event_tx st; ls_world := ls_world st1; ls_cancelled := ls_cancelled st;
                        ls_writers := ls_writers st |}
  | Panicked => Panicked
  | OutOfFuel => OutOfFuel
  end.
Proof.
  intros Hp. unfold handle_packet, ingest_packet. cbn [ls_peers solo pp_src pp_peer]. rewrite Hp, lookup_singleton_eq.
  cbn [ls_frame_tx ls_world solo]. destruct (forward_inbound_frames _ _ _ _ _ _) as [[[[[flow f'] t'] tx1] w1]| |]; [|done..].
  assert (Hu : forall p', <[src := p']> {[src := peer]} ∪ ls_peers st = <[src := p']> (ls_peers st)).
  { intros p'. rewrite insert_singleton_eq. by rewrite insert_union_singleton_l. }
  destruct flow; cbn [ls_peers ls_frame_tx ls_world]; by rewrite Hu.
Qed.

Definition peer_ctx (p : PeerPort) : SessionCtx :=
  {| ctx_endpoint_id := pe_child_id (pp_peer p); ctx_stats := pe_stats (pp_peer p); ctx_filters := filters (usp_identity (pp_spec p)) |}.

(** A packet at a time; what [send_to] answers. *)
Inductive peer_env := Packet (now : Z) | PeerSend (sent : option nat).

(** A frame whose send fails is counted. *)
#[export] Instance udps_transport : Transport Q C PeerPort := {
  tp_env := peer_env;
  tp_framer p := pe_framer (pp_peer p);
  tp_own ctx p := ctx = peer_ctx p;
  tp_ready _ := True;
  tp_read ctx tq e d p tx w :=
    match e with
    | Packet now =>
        match handle_packet map_to_list (pp_spec p) d (pp_src p) now
                (solo p {| LiveSender.log := [] : list EndpointEvent |} EndpointIdAllocator_new tx w) with
        | Done st => (fun peer => ({| pp_spec := pp_spec p; pp_src := pp_src p; pp_peer := peer |}, ls_frame_tx st, ls_world st))
                       <$> ls_peers st !! pp_src p
        | _ => None
        end
    | PeerSend _ => None
    end;
  tp_write ctx tq e p tx w :=
    match e with
    | Packet _ => None
    | PeerSend sent =>
        match peer_writer_turn tq (pe_stats (pp_peer p)) (Some sent) w with
        | Done (Continue, w) => Some (match sent with Some _ => Accepted | None => Counted end, p, tx, w)
        | _ => None
        end
    end;
  tp_turn _ _ _ _ _ _ := None;
  tp_renew _ := None;
}.

Context `{!Alive RouterFrame C}.

#[export] Instance udps_laws : TransportLaws Q C PeerPort.
Proof.
  split; cbn [tp_env tp_framer tp_own tp_ready tp_read tp_write tp_turn tp_renew udps_transport]; try done.
  - intros ctx tq [now|] d [spec src peer] tx w p' tx' w' -> Hok; [|done]. unfold handle_packet, ingest_packet.
    cbn [pp_spec pp_src pp_peer ls_peers ls_frame_tx ls_world solo] in *. rewrite lookup_singleton_eq. fold (peer_ctx {| pp_spec := spec; pp_src := src; pp_peer := peer |}).
    destruct (forward_inbound_frames _ _ _ _ _ _) as [[[[[flow f'] t'] tx1] w1]| |] eqn:E; [|done..].
    pose proof (forward_never_breaks alive_send _ _ _ _ _ _ _ _ _ _ _ _ E) as ->.
    destruct (forward_delivers _ _ _ _ _ _ _ _ _ _ _ Hok E) as [Hdel Hw].
    cbn [ls_peers ls_frame_tx ls_world]. rewrite lookup_insert_eq. intros [= <- <- <-].
    split_and!; [done|exact Hdel|]. apply same_traffic_update; [apply sync_dropped|exact Hw].
  - intros ctx tq [|sent] p tx w v p' tx' w' ->; [done|]. unfold peer_writer_turn, disposed.
    destruct (TxQueue_pop tq w) as [[frame|] w1]; [|by destruct sent; intros [= <- <- <- <-]].
    destruct sent as [bytes_sent|]; intros [= <- <- <- <-]; split_and!; try done. apply same_traffic_update; [apply add_tx_frame_dropped|done].
  - intros ctx tq p tx w _. exists (PeerSend (Some 0%nat)). unfold peer_writer_turn.
    destruct (TxQueue_pop tq w) as [[frame|] w1]; by eexists _, _, _.
Qed.
End Udps.

(** ** Networks that mix transports *)

Section Sum.
Context {Q C P1 P2 : Type} `{MsgTable} `{ArrayQueue Q} `{SenderLaws RouterFrame C} `{!Transport Q C P1} `{!Transport Q C P2}.

Definition map_port {A B} (f : A -> B) (r : option (A * C * World Q)) : option (B * C * World Q) :=
  (fun x => (f x.1.1, x.1.2, x.2)) <$> r.
Definition map_write {A B} (f : A -> B) (r : option (verdict * A * C * World Q)) : option (verdict * B * C * World Q) :=
  (fun x => (x.1.1.1, f x.1.1.2, x.1.2, x.2)) <$> r.

#[export] Instance sum_transport : Transport Q C (P1 + P2) := {
  tp_env := tp_env (P := P1) + tp_env (P := P2);
  tp_framer p := match p with inl p => tp_framer p | inr p => tp_framer p end;
  tp_own ctx p := match p with inl p => tp_own ctx p | inr p => tp_own ctx p end;
  tp_ready p := match p with inl p => tp_ready p | inr p => tp_ready p end;
  tp_read ctx tq e d p tx w :=
    match p, e with
    | inl p, inl e => map_port inl (tp_read ctx tq e d p tx w)
    | inr p, inr e => map_port inr (tp_read ctx tq e d p tx w)
    | _, _ => None
    end;
  tp_write ctx tq e p tx w :=
    match p, e with
    | inl p, inl e => map_write inl (tp_write ctx tq e p tx w)
    | inr p, inr e => map_write inr (tp_write ctx tq e p tx w)
    | _, _ => None
    end;
  tp_turn ctx tq e p tx w :=
    match p, e with
    | inl p, inl e => map_port inl (tp_turn ctx tq e p tx w)
    | inr p, inr e => map_port inr (tp_turn ctx tq e p tx w)
    | _, _ => None
    end;
  tp_renew p := match p with inl p => inl <$> tp_renew p | inr p => inr <$> tp_renew p end;
}.

Context `{!TransportLaws Q C P1} `{!TransportLaws Q C P2}.

Lemma map_port_Some {A B} (f : A -> B) r p' tx' w' :
  map_port f r = Some (p', tx', w') -> exists p, p' = f p /\ r = Some (p, tx', w').
Proof. destruct r as [[[p tx] w]|]; [|done]. cbn. intros [= <- <- <-]. by exists p. Qed.
Lemma map_write_Some {A B} (f : A -> B) r v p' tx' w' :
  map_write f r = Some (v, p', tx', w') -> exists p, p' = f p /\ r = Some (v, p, tx', w').
Proof. destruct r as [[[[v0 p] tx] w]|]; [|done]. cbn. intros [= <- <- <- <-]. by exists p. Qed.

#[export] Instance sum_laws : TransportLaws Q C (P1 + P2).
Proof.
  split; cbn [tp_env tp_framer tp_own tp_ready tp_read tp_write tp_turn tp_renew sum_transport].
  - intros ctx tq [e|e] d [p|p] tx w p' tx' w' Hr Hok; try done; intros (p1 & -> & Hrun)%map_port_Some;
      by apply (tp_read_delivers ctx tq e d p).
  - intros ctx tq [e|e] [p|p] tx w v p' tx' w' Hr; try done; intros (p1 & -> & Hrun)%map_write_Some;
      by apply (tp_write_disposes ctx tq e p).
  - intros ctx tq [e|e] [p|p] tx w p' tx' w' Hr; try done; intros (p1 & -> & Hrun)%map_port_Some;
      by apply (tp_turn_quiet ctx tq e p).
  - intros ctx [p|p] p' Hr (p1 & Hn & ->)%fmap_Some; by apply (tp_renew_fresh ctx p).
  - intros ctx tq [p|p] tx w Hr; destruct (tp_write_possible ctx tq p tx w Hr) as (e & p' & tx' & w' & Hrun & Hr');
      [exists (inl e), (inl p')|exists (inr e), (inr p')]; exists tx', w'; by rewrite Hrun.
Qed.
End Sum.
