(* ===== verification/Spawn.v ===== *)
(** * Spawning the configured endpoints ([src/src/endpoint/spawn.rs])

    Every endpoint is announced to the router before its task starts.  The second half shows
    that whatever the endpoint tasks do, the handles they announce are wired the way the
    router's theorems assume. *)

From stdpp Require Import relations.
From S2P Require Import Prelude RustStr RustNet Crc Frame MsgTable Framer FramerSpec LruVec Learn SeqTracker Dedup Filters EndpointStats TxQueue Identity Group Decide Router RouterInv Dispatch RouterRun RouterExamples FilterParse Spec Session Endpoint UdpServer UdpClient Stream TcpServer.
#[local] Open Scope Z_scope.

(** A spawned task: the future it runs, with its spec and the handles of its wiring. *)
Inductive Task :=
| TaskSerial (spec : SerialSpec) (tx_queue : TxQueue) (stats : nat)
| TaskTcpClient (spec : TcpClientSpec) (tx_queue : TxQueue) (stats : nat)
| TaskUdpClient (spec : UdpClientSpec) (tx_queue : TxQueue) (stats : nat)
| TaskTcpServer (spec : TcpServerSpec) (stats : nat)
| TaskUdpServer (spec : UdpServerSpec) (stats : nat).

(** What the spawner and the endpoint tasks share: the allocator, the event channel and the
    store of stats and queues. *)
Record Shared (Q CE : Type) := { sh_allocator : EndpointIdAllocator; sh_event_tx : CE; sh_world : World Q }.
Arguments sh_allocator {Q CE}.
Arguments sh_event_tx {Q CE}.
Arguments sh_world {Q CE}.

Section Spawn.
Context {Q : Type} `{ArrayQueue Q} {CE : Type} `{Sender EndpointEvent CE}.
Abbreviation World := (World Q).

(** [async fn prepare_leaf(event_tx, id, name, stats, identity) -> Option<TxQueue>] *)
Definition prepare_leaf (event_tx : CE) (id : EndpointId) (name : string) (stats : nat) (identity : IdentityFlags) (w : World)
    : option TxQueue * CE * World :=
  let '(tx_queue, w) := TxQueue_new DEFAULT_TX_QUEUE_FRAMES stats w in
  let '(ok, event_tx) :=
    send event_tx (EndpointAdded id name stats
      (Some {| rt_tx_queue := tx_queue; rt_identity := identity; rt_endpoint_name := name |})) in
  if negb ok then (None, event_tx, w) else (Some tx_queue, event_tx, w).

(** [async fn prepare_parent_listener(event_tx, id, name, stats) -> bool] *)
Definition prepare_parent_listener (event_tx : CE) (id : EndpointId) (name : string) (stats : nat) : bool * CE :=
  send event_tx (EndpointAdded id name stats None).

(** The shared shape of the leaf arms of [spawn_endpoint]. *)
Definition spawn_leaf (id : EndpointId) (name : string) (stats : nat) (identity : IdentityFlags) (task : TxQueue -> Task)
    (tasks : list Task) (allocator : EndpointIdAllocator) (event_tx : CE) (w : World) : list Task * Shared Q CE :=
  let '(tq, event_tx, w) := prepare_leaf event_tx id name stats identity w in
  (match tq with Some tq => tasks ++ [task tq] | None => tasks end,
   {| sh_allocator := allocator; sh_event_tx := event_tx; sh_world := w |}).

Definition spawn_listener (id : EndpointId) (name : string) (stats : nat) (task : Task)
    (tasks : list Task) (allocator : EndpointIdAllocator) (event_tx : CE) (w : World) : list Task * Shared Q CE :=
  let '(ok, event_tx) := prepare_parent_listener event_tx id name stats in
  (if ok : bool then tasks ++ [task] else tasks,
   {| sh_allocator := allocator; sh_event_tx := event_tx; sh_world := w |}).

(** [async fn spawn_endpoint(tasks, allocator, event_tx, frame_tx, cancel, spec)]; it
    always returns [Ok(())]. *)
Definition spawn_endpoint (spec : EndpointSpec) (tasks : list Task) (sh : Shared Q CE) : list Task * Shared Q CE :=
  let name := spec_name spec in
  let '(id, allocator) := alloc (sh_allocator sh) in
  let '(stats, w) := stats_alloc Reconnecting (sh_world sh) in
  match spec_kind spec with
  | Kind_Serial ep =>
      let spec := SerialSpec_from_endpoint ep id name in
      spawn_leaf id name stats (ser_identity spec) (fun tq => TaskSerial spec tq stats) tasks allocator (sh_event_tx sh) w
  | Kind_TcpClient ep =>
      let spec := TcpClientSpec_from_endpoint ep id name in
      spawn_leaf id name stats (tcp_identity spec) (fun tq => TaskTcpClient spec tq stats) tasks allocator (sh_event_tx sh) w
  | Kind_UdpClient ep =>
      let spec := UdpClientSpec_from_endpoint ep id name in
      spawn_leaf id name stats (ucp_identity spec) (fun tq => TaskUdpClient spec tq stats) tasks allocator (sh_event_tx sh) w
  | Kind_TcpServer ep =>
      spawn_listener id name stats (TaskTcpServer (TcpServerSpec_from_endpoint ep id name) stats) tasks allocator (sh_event_tx sh) w
  | Kind_UdpServer ep =>
      spawn_listener id name stats (TaskUdpServer (UdpServerSpec_from_endpoint ep id name) stats) tasks allocator (sh_event_tx sh) w
  end.

(** The tasks spawned so far run while the loop goes on: before it comes to the next endpoint,
    [others] is what they, the router and a cancellation have done to what is shared; its
    first argument counts the endpoints that are left after this one. *)
Context (others : nat -> Shared Q CE -> Shared Q CE).

Fixpoint spawn_loop (specs : list EndpointSpec) (tasks : list Task) (sh : Shared Q CE) : list Task * Shared Q CE :=
  match specs with
  | [] => (tasks, sh)
  | spec :: rest =>
      let sh := others (length rest) sh in
      let '(tasks, sh) := spawn_endpoint spec tasks sh in spawn_loop rest tasks sh
  end.

(** [pub async fn spawn_endpoints(tasks, event_tx, frame_tx, cancel, specs)] *)
Definition spawn_endpoints (specs : list EndpointSpec) (tasks : list Task) (event_tx : CE) (w : World)
    : list Task * Shared Q CE :=
  spawn_loop specs tasks {| sh_allocator := 0; sh_event_tx := event_tx; sh_world := w |}.
End Spawn.

(** ** Announcements are wired *)

Definition event_stats (e : EndpointEvent) : option nat :=
  match e with EndpointAdded _ _ stats _ | PeerAdded _ _ _ stats _ => Some stats | PeerRemoved _ _ _ => None end.
Definition event_routable (e : EndpointEvent) : option Routable :=
  match e with EndpointAdded _ _ _ rt => rt | PeerAdded _ _ _ _ rt => Some rt | PeerRemoved _ _ _ => None end.
Definition event_queue (e : EndpointEvent) : option nat := (fun rt => tq_inner (rt_tx_queue rt)) <$> event_routable e.
Definition added_id (e : EndpointEvent) : option EndpointId := if adds e then Some (event_id e) else None.

(** An announcement uses ids and handles that exist, its queue bound to its own stats. *)
Definition event_wired {Q} (next : EndpointIdAllocator) (w : World Q) (e : EndpointEvent) : Prop :=
  (forall id, added_id e = Some id -> 0 <= id < next) /\
  (forall k, event_stats e = Some k -> k ∈ dom (w_stats w)) /\
  (forall h, event_queue e = Some h -> h ∈ dom (w_queues w)) /\
  (forall rt, event_routable e = Some rt -> Some (tq_stats (rt_tx_queue rt)) = event_stats e).

(** No id, stats object or queue is announced twice. *)
Record wired {Q CE} `{SenderLaws EndpointEvent CE} (sh : Shared Q CE) : Prop := {
  wr_each : Forall (event_wired (sh_allocator sh) (sh_world sh)) (sent (sh_event_tx sh));
  wr_ids : NoDup (omap added_id (sent (sh_event_tx sh)));
  wr_stats : NoDup (omap event_stats (sent (sh_event_tx sh)));
  wr_queues : NoDup (omap event_queue (sent (sh_event_tx sh)));
}.

Lemma omap_snoc {A B} (f : A -> option B) l x : omap f (l ++ [x]) = omap f l ++ option_list (f x).
Proof. rewrite omap_app. simpl. by destruct (f x). Qed.

Lemma NoDup_snoc_opt {A} (l : list A) o : NoDup l -> (forall x, o = Some x -> x ∉ l) -> NoDup (l ++ option_list o).
Proof.
  intros Hl Ho. destruct o as [x|]; simpl; [|by rewrite app_nil_r].
  apply NoDup_app. split_and!; [done| |apply NoDup_singleton]. intros y Hy ->%list_elem_of_singleton. by apply (Ho x).
Qed.

Section Wired.
Context {Q : Type} `{ArrayQueueLaws Q} {CE : Type} `{SenderLaws EndpointEvent CE}.
Implicit Types (sh : Shared Q CE) (w : World Q).

Lemma event_wired_mono next next' w w' e :
  next <= next' -> dom (w_stats w) ⊆ dom (w_stats w') -> dom (w_queues w) ⊆ dom (w_queues w') ->
  event_wired next w e -> event_wired next' w' e.
Proof.
  intros Hn Hs Hq (Hi & Hk & Hh & Hr). split_and!; [|set_solver|set_solver|done].
  intros id Hid. specialize (Hi id Hid). lia.
Qed.

(** Work that only adds handles and events that announce nothing. *)
Lemma wired_mono sh sh' extra :
  wired sh -> sh_allocator sh <= sh_allocator sh' ->
  dom (w_stats (sh_world sh)) ⊆ dom (w_stats (sh_world sh')) -> dom (w_queues (sh_world sh)) ⊆ dom (w_queues (sh_world sh')) ->
  sent (sh_event_tx sh') = sent (sh_event_tx sh) ++ extra -> Forall (fun e => adds e = false) extra ->
  wired sh'.
Proof.
  intros [He Hi Hs Hq] Ha Hds Hdq Hsent Hx.
  assert (Hn : forall {B} (f : EndpointEvent -> option B), (forall e, adds e = false -> f e = None) -> omap f (sent (sh_event_tx sh')) = omap f (sent (sh_event_tx sh))).
  { intros B f Hf. rewrite Hsent, omap_app. replace (omap f extra) with (@nil B); [apply app_nil_r|].
    clear Hsent. induction Hx as [|e extra Hadd _ IH]; [done|]. simpl. by rewrite Hf. }
  split.
  - rewrite Hsent. apply Forall_app. split; [eapply Forall_impl; [exact He|]; intros e; by apply event_wired_mono|].
    eapply Forall_impl; [exact Hx|]. intros e Hadd. by destruct e.
  - rewrite Hn; [done|]. intros e. unfold added_id. by intros ->.
  - rewrite Hn; [done|]. by intros [].
  - rewrite Hn; [done|]. by intros [].
Qed.

(** One more announcement, its handles fresh. *)
Lemma wired_announce sh sh' e :
  wired sh -> 0 <= sh_allocator sh -> sh_allocator sh' = sh_allocator sh + 1 ->
  dom (w_stats (sh_world sh)) ⊆ dom (w_stats (sh_world sh')) -> dom (w_queues (sh_world sh)) ⊆ dom (w_queues (sh_world sh')) ->
  sent (sh_event_tx sh') = sent (sh_event_tx sh) ++ [e] ->
  added_id e = Some (sh_allocator sh) ->
  (forall k, event_stats e = Some k -> (k ∉ dom (w_stats (sh_world sh))) /\ k ∈ dom (w_stats (sh_world sh'))) ->
  (forall h, event_queue e = Some h -> (h ∉ dom (w_queues (sh_world sh))) /\ h ∈ dom (w_queues (sh_world sh'))) ->
  (forall rt, event_routable e = Some rt -> Some (tq_stats (rt_tx_queue rt)) = event_stats e) ->
  wired sh'.
Proof.
  intros [He Hi Hs Hq] H0' Ha Hds Hdq Hsent Hid Hst Hqu Hrt. rewrite Forall_forall in He. split; rewrite Hsent.
  - apply Forall_app. split.
    + apply Forall_forall. intros x Hx. eapply event_wired_mono; [| | |by apply He]; [lia|done|done].
    + apply Forall_singleton. split_and!; [|by intros ? []%Hst|by intros ? []%Hqu|done].
      intros id Hid'. rewrite Hid in Hid'. injection Hid' as <-. lia.
  - rewrite omap_snoc. apply NoDup_snoc_opt; [done|]. intros x Hx. rewrite Hid in Hx. injection Hx as <-.
    intros (y & Hy & Hya)%list_elem_of_omap. destruct (He y Hy) as (Hb & _). specialize (Hb _ Hya). lia.
  - rewrite omap_snoc. apply NoDup_snoc_opt; [done|]. intros k [Hk _]%Hst. intros (y & Hy & Hya)%list_elem_of_omap.
    destruct (He y Hy) as (_ & Hb & _). by apply Hk, Hb.
  - rewrite omap_snoc. apply NoDup_snoc_opt; [done|]. intros k [Hk _]%Hqu. intros (y & Hy & Hya)%list_elem_of_omap.
    destruct (He y Hy) as (_ & _ & Hb & _). by apply Hk, Hb.
Qed.

(** Announcing over the channel, whether or not the router is still there. *)
Lemma wired_send sh sh' e :
  wired sh -> 0 <= sh_allocator sh -> sh_allocator sh' = sh_allocator sh + 1 ->
  dom (w_stats (sh_world sh)) ⊆ dom (w_stats (sh_world sh')) -> dom (w_queues (sh_world sh)) ⊆ dom (w_queues (sh_world sh')) ->
  sh_event_tx sh' = (send (sh_event_tx sh) e).2 ->
  added_id e = Some (sh_allocator sh) ->
  (forall k, event_stats e = Some k -> (k ∉ dom (w_stats (sh_world sh))) /\ k ∈ dom (w_stats (sh_world sh'))) ->
  (forall h, event_queue e = Some h -> (h ∉ dom (w_queues (sh_world sh))) /\ h ∈ dom (w_queues (sh_world sh'))) ->
  (forall rt, event_routable e = Some rt -> Some (tq_stats (rt_tx_queue rt)) = event_stats e) ->
  wired sh'.
Proof.
  intros Hw H0' Ha Hs Hq Htx Hid Hst Hqu Hrt. pose proof (send_sent (sh_event_tx sh) e) as Hse. rewrite <- Htx in Hse.
  destruct (send (sh_event_tx sh) e).1.
  - by eapply wired_announce.
  - eapply (wired_mono sh sh' []); [done|lia|done|done|by rewrite app_nil_r|by constructor].
Qed.

(** The handles of a new stats object and of a new queue. *)
Lemma new_handles w st :
  let '(k, w1) := stats_alloc st w in
  let '(tq, w2) := TxQueue_new DEFAULT_TX_QUEUE_FRAMES k w1 in
  (k ∉ dom (w_stats w)) /\ (tq_inner tq ∉ dom (w_queues w)) /\ tq_stats tq = k /\
  dom (w_stats w1) = {[k]} ∪ dom (w_stats w) /\ dom (w_queues w1) = dom (w_queues w) /\
  dom (w_stats w2) = {[k]} ∪ dom (w_stats w) /\ dom (w_queues w2) = {[tq_inner tq]} ∪ dom (w_queues w).
Proof. unfold stats_alloc, TxQueue_new. simpl. rewrite !dom_insert_L. split_and!; try done; apply is_fresh. Qed.

(** Announcing an endpoint with a queue, and one without. *)
Lemma announce_leaf sh st k w1 tq w2 e :
  wired sh -> 0 <= sh_allocator sh -> stats_alloc st (sh_world sh) = (k, w1) ->
  TxQueue_new DEFAULT_TX_QUEUE_FRAMES k w1 = (tq, w2) ->
  added_id e = Some (sh_allocator sh) -> event_stats e = Some k -> rt_tx_queue <$> event_routable e = Some tq ->
  wired {| sh_allocator := sh_allocator sh + 1; sh_event_tx := (send (sh_event_tx sh) e).2; sh_world := w2 |}.
Proof.
  intros Hw Ha Ek Eq Hid Hst Hrt. pose proof (new_handles (sh_world sh) st) as Hn. rewrite Ek, Eq in Hn.
  destruct Hn as (Hk & Hh & Htq & _ & _ & Hs2 & Hq2).
  assert (Hqe : event_queue e = Some (tq_inner tq)) by (unfold event_queue; destruct (event_routable e); naive_solver).
  apply (wired_send sh _ e); cbn [sh_allocator sh_event_tx sh_world]; try done; rewrite ?Hs2, ?Hq2.
  - apply union_subseteq_r.
  - apply union_subseteq_r.
  - rewrite Hst. intros ? [= <-]. split; [done|]. apply elem_of_union_l, elem_of_singleton. done.
  - rewrite Hqe. intros ? [= <-]. split; [done|]. apply elem_of_union_l, elem_of_singleton. done.
  - intros rt Er. rewrite Er in Hrt. simpl in Hrt. congruence.
Qed.

Lemma announce_listener sh st k w1 e :
  wired sh -> 0 <= sh_allocator sh -> stats_alloc st (sh_world sh) = (k, w1) ->
  added_id e = Some (sh_allocator sh) -> event_stats e = Some k -> event_routable e = None ->
  wired {| sh_allocator := sh_allocator sh + 1; sh_event_tx := (send (sh_event_tx sh) e).2; sh_world := w1 |}.
Proof.
  intros Hw Ha Ek Hid Hst Hrt. pose proof (new_handles (sh_world sh) st) as Hn. rewrite Ek in Hn.
  destruct (TxQueue_new DEFAULT_TX_QUEUE_FRAMES k w1) as [tq w2]. destruct Hn as (Hk & _ & _ & Hs1 & Hq1 & _).
  apply (wired_send sh _ e); cbn [sh_allocator sh_event_tx sh_world]; try done; rewrite ?Hs1, ?Hq1.
  - apply union_subseteq_r.
  - done.
  - rewrite Hst. intros ? [= <-]. split; [done|]. apply elem_of_union_l, elem_of_singleton. done.
  - unfold event_queue. by rewrite Hrt.
  - by rewrite Hrt.
Qed.

Lemma spawn_endpoint_wired spec tasks sh :
  wired sh -> 0 <= sh_allocator sh < 2 ^ 64 - 1 -> wired (spawn_endpoint spec tasks sh).2.
Proof.
  intros Hw Ha. unfold spawn_endpoint, alloc. rewrite wrap_small by (unfold in_width; lia).
  destruct (stats_alloc Reconnecting (sh_world sh)) as [k w1] eqn:Ek.
  assert (Hleaf : forall name identity task,
    wired (spawn_leaf (sh_allocator sh) name k identity task tasks (sh_allocator sh + 1) (sh_event_tx sh) w1).2).
  { intros name identity task. unfold spawn_leaf, prepare_leaf.
    destruct (TxQueue_new DEFAULT_TX_QUEUE_FRAMES k w1) as [tq w2] eqn:Etq.
    match goal with |- context [send ?c ?e] =>
      pose proof (announce_leaf sh Reconnecting k w1 tq w2 e Hw (proj1 Ha) Ek Etq eq_refl eq_refl eq_refl) as Hl;
      destruct (send c e) as [ok tx] end.
    by destruct ok. }
  assert (Hlist : forall name task,
    wired (spawn_listener (sh_allocator sh) name k task tasks (sh_allocator sh + 1) (sh_event_tx sh) w1).2).
  { intros name task. unfold spawn_listener, prepare_parent_listener.
    match goal with |- context [send ?c ?e] =>
      pose proof (announce_listener sh Reconnecting k w1 e Hw (proj1 Ha) Ek eq_refl eq_refl eq_refl) as Hl;
      destruct (send c e) as [ok tx] end.
    exact Hl. }
  destruct (spec_kind spec); apply Hleaf || apply Hlist.
Qed.

Definition tcps_shared {CF} (st : TcpsState Q CF CE) : Shared Q CE :=
  {| sh_allocator := ts_allocator st; sh_event_tx := ts_event_tx st; sh_world := ts_world st |}.
Definition udps_shared {CF} (st : Listener Q CF CE) : Shared Q CE :=
  {| sh_allocator := ls_allocator st; sh_event_tx := ls_event_tx st; sh_world := ls_world st |}.

Lemma accept_wired {CF} (spec : TcpServerSpec) peer (st : TcpsState Q CF CE) :
  wired (tcps_shared st) -> 0 <= ts_allocator st < 2 ^ 64 - 1 -> wired (tcps_shared (accept_one_client spec peer st)).
Proof.
  intros Hw Ha. unfold accept_one_client, alloc. rewrite wrap_small by (unfold in_width; lia).
  destruct (stats_alloc Connected (ts_world st)) as [k w1] eqn:Ek.
  destruct (TxQueue_new DEFAULT_TX_QUEUE_FRAMES k w1) as [tq w2] eqn:Etq.
  match goal with |- context [send ?c ?e] =>
    pose proof (announce_leaf (tcps_shared st) Connected k w1 tq w2 e Hw (proj1 Ha) Ek Etq eq_refl eq_refl eq_refl) as Hl;
    destruct (send c e) as [ok tx] eqn:Es end.
  unfold tcps_shared in *. cbn in *. rewrite Es in Hl. exact Hl.
Qed.

Lemma retire_wired {CF} (st : Listener Q CF CE) pid addr p reason :
  wired (udps_shared st) -> wired (udps_shared (retire_peer st pid addr p reason)).
Proof.
  intros Hw. unfold retire_peer. match goal with |- context [send ?c ?e] => pose proof (send_sent c e) as Hse; destruct (send c e) as [ok tx] end.
  destruct ok; simpl in Hse.
  - eapply (wired_mono _ _ [_]); [exact Hw|simpl; lia|done|done|exact Hse|by repeat constructor].
  - eapply (wired_mono _ _ []); [exact Hw|simpl; lia|done|done|by rewrite app_nil_r|by constructor].
Qed.

Lemma admit_wired {CF} iter (spec : UdpServerSpec) src now (st : Listener Q CF CE) :
  wired (udps_shared st) -> 0 <= ls_allocator st < 2 ^ 64 - 1 ->
  wired (udps_shared (admit_new_peer iter spec src now st).2).
Proof.
  intros Hw Ha. unfold admit_new_peer, alloc. rewrite wrap_small by (unfold in_width; lia).
  destruct (stats_alloc Connected (ls_world st)) as [k w1] eqn:Ek.
  destruct (TxQueue_new DEFAULT_TX_QUEUE_FRAMES k w1) as [tq w2] eqn:Etq.
  match goal with |- context [send ?c ?e] =>
    pose proof (announce_leaf (udps_shared st) Connected k w1 tq w2 e Hw (proj1 Ha) Ek Etq eq_refl eq_refl eq_refl) as Hl;
    destruct (send c e) as [ok tx] eqn:Es end.
  unfold udps_shared in Hl. cbn in Hl. rewrite Es in Hl. cbn [snd] in Hl. destruct ok; [|exact Hl]. cbn [negb snd].
  case_match; [|exact Hl]. unfold evict_lru_peer. repeat case_match; try exact Hl.
  match goal with |- context [retire_peer ?s ?p ?a ?e ?r] => exact (retire_wired s p a e r Hl) end.
Qed.
End Wired.

(** ** The whole system, as the router sees it *)

Section System.
Context {Q : Type} `{ArrayQueueLaws Q} {CF CE : Type} `{SenderLaws EndpointEvent CE}.
Context (udp_iter : peer_table -> list (SocketAddr * PeerEntry)).
Implicit Types sh : Shared Q CE.

(** What may happen to the shared state: an endpoint is spawned, a [tcps:] listener
    accepts, a [udps:] listener admits a peer, a sub-endpoint is announced gone, or tasks
    work on stats and queues without making new ones. *)
Inductive shared_step : Shared Q CE -> Shared Q CE -> Prop :=
| step_spawn spec tasks sh :
    sh_allocator sh < 2 ^ 64 - 1 -> shared_step sh (spawn_endpoint spec tasks sh).2
| step_accept spec peer (st : TcpsState Q CF CE) :
    ts_allocator st < 2 ^ 64 - 1 -> shared_step (tcps_shared st) (tcps_shared (accept_one_client spec peer st))
| step_admit spec src now (st : Listener Q CF CE) :
    ls_allocator st < 2 ^ 64 - 1 -> shared_step (udps_shared st) (udps_shared (admit_new_peer udp_iter spec src now st).2)
| step_removed parent id reason sh :
    shared_step sh {| sh_allocator := sh_allocator sh; sh_world := sh_world sh;
                      sh_event_tx := (send (sh_event_tx sh) (PeerRemoved parent id reason)).2 |}
| step_work (w : World Q) sh :
    dom (w_stats (sh_world sh)) ⊆ dom (w_stats w) -> dom (w_queues (sh_world sh)) ⊆ dom (w_queues w) ->
    shared_step sh {| sh_allocator := sh_allocator sh; sh_event_tx := sh_event_tx sh; sh_world := w |}.

Lemma retire_allocator (st : Listener Q CF CE) pid : ls_allocator (evict_lru_peer udp_iter st pid) = ls_allocator st.
Proof. unfold evict_lru_peer, retire_peer. repeat case_match; done. Qed.

Lemma shared_step_wired sh sh' :
  shared_step sh sh' -> 0 <= sh_allocator sh -> wired sh -> wired sh' /\ 0 <= sh_allocator sh'.
Proof.
  intros Hs Ha Hw. destruct Hs as [spec tasks sh Hb|spec peer st Hb|spec src now st Hb|parent id reason sh|w sh Hds Hdq].
  - split; [apply spawn_endpoint_wired; [done|lia]|]. unfold spawn_endpoint, alloc, spawn_leaf, spawn_listener, prepare_leaf.
    rewrite wrap_small by (unfold in_width; lia). destruct (stats_alloc _ _).
    repeat case_match; simpl; lia.
  - split; [apply accept_wired; [done|simpl in *; lia]|]. unfold accept_one_client, alloc.
    simpl in Ha. rewrite wrap_small by (unfold in_width; lia). repeat case_match; simpl; lia.
  - split; [apply admit_wired; [done|simpl in *; lia]|]. unfold admit_new_peer, alloc. simpl in Ha.
    rewrite wrap_small by (unfold in_width; lia). destruct (stats_alloc _ _), (TxQueue_new _ _ _), (send _ _) as [[] ?]; cbn [negb].
    + case_match; simpl; rewrite ?retire_allocator; simpl; lia.
    + simpl. lia.
  - split; [|done]. pose proof (send_sent (sh_event_tx sh) (PeerRemoved parent id reason)) as Hse.
    destruct (send (sh_event_tx sh) (PeerRemoved parent id reason)) as [[] tx]; simpl in Hse.
    + eapply (wired_mono _ _ [_]); [exact Hw|simpl; lia|done|done|exact Hse|by repeat constructor].
    + eapply (wired_mono _ _ []); [exact Hw|simpl; lia|done|done|by rewrite app_nil_r|by constructor].
  - split; [|done]. eapply (wired_mono _ _ []); [exact Hw|simpl; lia|done|done|by rewrite app_nil_r|by constructor].
Qed.

Lemma rtc_wired sh sh' :
  rtc shared_step sh sh' -> 0 <= sh_allocator sh -> wired sh -> wired sh'.
Proof.
  induction 1 as [|x y z Hs _ IH]; intros Ha Hw; [done|]. destruct (shared_step_wired _ _ Hs Ha Hw). by apply IH.
Qed.
End System.

Lemma omap_NoDup_inj {A B} (f : A -> option B) l x y v :
  NoDup (omap f l) -> x ∈ l -> y ∈ l -> f x = Some v -> f y = Some v -> x = y.
Proof.
  induction l as [|z l IH]; intros Hnd Hx Hy Hfx Hfy; [by apply not_elem_of_nil in Hx|].
  simpl in Hnd. apply elem_of_cons in Hx as [->|Hx], Hy as [->|Hy].
  - done.
  - rewrite Hfx in Hnd. apply NoDup_cons in Hnd as [Hn _]. destruct Hn. apply list_elem_of_omap. eauto.
  - rewrite Hfy in Hnd. apply NoDup_cons in Hnd as [Hn _]. destruct Hn. apply list_elem_of_omap. eauto.
  - apply IH; try done. destruct (f z); [by apply NoDup_cons in Hnd as [_ ?]|done].
Qed.

Section RouterView.
Context {Q : Type} `{ArrayQueueLaws Q} {C : Type} `{StatsSender C}.
Context (hash : Bytes -> Z) (iter : registry -> list (EndpointId * RegisteredEndpoint)) (debug_assertions : bool).
Implicit Types r : Router C.

(** The states a router can be in after taking these events, frames in between. *)
Inductive router_history (tx : C) (ms : Z) (cap : nat) : list EndpointEvent -> Router C -> Prop :=
| history_new : router_history tx ms cap [] (Router_new tx ms cap)
| history_event evs r e (w : World Q) :
    router_history tx ms cap evs r -> router_history tx ms cap (evs ++ [e]) (handle_event r e w).1
| history_frame evs r rf now (w : World Q) r' w' :
    router_history tx ms cap evs r -> handle_frame hash iter debug_assertions r rf now w = Done (r', w') ->
    router_history tx ms cap evs r'.

(** A registered endpoint comes from its announcement. *)
Definition registered_by (e : EndpointEvent) (id : EndpointId) (ep : RegisteredEndpoint) : Prop :=
  added_id e = Some id /\ event_stats e = Some (re_stats ep) /\
  rt_tx_queue <$> event_routable e = rs_tx_queue <$> re_routable ep.

Lemma handle_frame_routing r rf now (w : World Q) r' w' :
  handle_frame hash iter debug_assertions r rf now w = Done (r', w') ->
  forall id ep', routing r' !! id = Some ep' -> exists ep, routing r !! id = Some ep /\ re_stats ep' = re_stats ep /\
    rs_tx_queue <$> re_routable ep' = rs_tx_queue <$> re_routable ep.
Proof.
  intros ->%handle_frame_router id ep'. unfold ingest_source_frame.
  repeat case_match; simpl; try (intros Hid; by exists ep').
  rewrite lookup_alter_Some. intros [(<- & ep & Hep & ->)|[_ Hid]]; [|by exists ep'].
  exists ep. split; [done|]. split; [done|]. simpl. by destruct (re_routable ep).
Qed.

Lemma history_registered tx ms cap evs r :
  router_history tx ms cap evs r -> NoDup (omap added_id evs) ->
  (forall id ep, routing r !! id = Some ep -> exists e, e ∈ evs /\ registered_by e id ep) /\ router_inv r /\ members_exact r.
Proof.
  intros Hh. induction Hh as [|evs r e w Hh IH|evs r rf now w r' w' Hh IH Hf]; intros Hnd.
  - destruct (Router_new_inv tx ms cap) as [Hi He]. split_and!; [|done|done]. intros id ep. simpl. by rewrite lookup_empty.
  - rewrite omap_snoc in Hnd. pose proof Hnd as (Hnd1 & Hfresh & _)%NoDup_app. destruct (IH Hnd1) as (Hreg & Hi & He).
    destruct (handle_event_inv r e w Hi) as [Hi' He']. split_and!; [|done|].
    + assert (Hold : forall id ep, routing r !! id = Some ep -> exists e0, e0 ∈ evs ++ [e] /\ registered_by e0 id ep).
      { intros id ep Hid. destruct (Hreg id ep Hid) as (e0 & Hin & Hr). exists e0. split; [|done]. apply elem_of_app. by left. }
      assert (Hlast : e ∈ evs ++ [e]) by (apply elem_of_app; right; by apply list_elem_of_singleton).
      intros id ep. rewrite handle_event_routing. destruct e as [i name k rt|pid i name k rt|pid i reason].
      * rewrite lookup_insert_Some. intros [[<- <-]|[_ Hid]]; [|by apply Hold]. eexists. split; [exact Hlast|].
        split_and!; [done|done|]. by destruct rt.
      * rewrite lookup_insert_Some. intros [[<- <-]|[_ Hid]]; [|by apply Hold]. eexists. split; [exact Hlast|]. by split_and!.
      * intros [_ Hid]%lookup_delete_Some. by apply Hold.
    + apply He'; [|done]. assert (Hnone : forall id, added_id e = Some id -> routing r !! id = None).
      { intros id Hid. destruct (routing r !! id) as [ep|] eqn:E; [|done]. exfalso. destruct (Hreg id ep E) as (e0 & Hin & Hr & _).
        apply (Hfresh id); [apply list_elem_of_omap; eauto|]. rewrite Hid. by apply list_elem_of_singleton. }
      destruct e; simpl; try done; by apply Hnone.
  - destruct (IH Hnd) as (Hreg & Hi & He). destruct (handle_frame_inv _ _ _ _ _ _ _ _ _ Hi Hf) as [Hi' He'].
    split_and!; [|done|by apply He']. intros id ep' Hid.
    destruct (handle_frame_routing _ _ _ _ _ _ Hf id ep' Hid) as (ep & Hep & Hs & Hq).
    destruct (Hreg id ep Hep) as (e & Hin & Ha & Hst & Hrt). exists e. split; [done|]. split_and!; [done|by rewrite Hs|by rewrite Hrt].
Qed.

Lemma registered_owned {CE} `{SenderLaws EndpointEvent CE} (sh : Shared Q CE) evs r :
  wired sh -> evs `prefix_of` sent (sh_event_tx sh) ->
  (forall id ep, routing r !! id = Some ep -> exists e, e ∈ evs /\ registered_by e id ep) -> owned (routing r).
Proof.
  intros [He Hi Hs Hq] [rest Hpre] Hreg. rewrite Hpre in He, Hi, Hs, Hq. rewrite omap_app in Hi; rewrite omap_app in Hs; rewrite omap_app in Hq.
  apply NoDup_app in Hi as [Hi _], Hs as [Hs _], Hq as [Hq _]. apply Forall_app in He as [He _]. rewrite Forall_forall in He.
  assert (Hqueue : forall id ep rs e, registered_by e id ep -> re_routable ep = Some rs -> event_queue e = Some (tq_inner (rs_tx_queue rs))).
  { intros id ep rs e (_ & _ & Hrt) Hrs. unfold event_queue. rewrite Hrs in Hrt. destruct (event_routable e); simpl in *; congruence. }
  split.
  - intros id ep rs Hid Hrs. destruct (Hreg id ep Hid) as (e & Hin & _ & Hst & Hrt). destruct (He e Hin) as (_ & _ & _ & Hself).
    rewrite Hrs in Hrt. destruct (event_routable e) as [rt|]; [|done]. simpl in Hrt. injection Hrt as Hrt.
    specialize (Hself rt eq_refl). rewrite Hst, Hrt in Hself. by injection Hself.
  - intros id1 id2 ep1 ep2 H1' H2' Heq. destruct (Hreg _ _ H1') as (e1 & Hin1 & Ha1 & Hs1 & _), (Hreg _ _ H2') as (e2 & Hin2 & Ha2 & Hs2 & _).
    rewrite Heq in Hs1. assert (e1 = e2) as -> by (by eapply (omap_NoDup_inj event_stats)). congruence.
  - intros id1 id2 ep1 ep2 rs1 rs2 H1' H2' Hr1 Hr2 Heq. destruct (Hreg _ _ H1') as (e1 & Hin1 & Hb1), (Hreg _ _ H2') as (e2 & Hin2 & Hb2).
    pose proof (Hqueue _ _ _ _ Hb1 Hr1) as Hq1. pose proof (Hqueue _ _ _ _ Hb2 Hr2) as Hq2. rewrite Heq in Hq1.
    assert (e1 = e2) as -> by (by eapply (omap_NoDup_inj event_queue)). destruct Hb1, Hb2. congruence.
Qed.

(** C7. The running system gives the router what its correctness rests on.  Start from
    nothing and let endpoints be spawned, [tcps:] clients and [udps:] peers come and go and
    tasks work, in any order (fewer than 2^64 endpoints).  At any time the router has taken
    a prefix of the events, and frames in between: then no two registered endpoints share a
    stats object or a queue, every queue counts its drops on its own endpoint's stats, the
    router's invariant holds, and group reference counts are exact. *)
Theorem system_keeps_router_wired {CF CE} `{SenderLaws EndpointEvent CE} udp_iter (start sh : Shared Q CE) tx ms cap evs r :
  sh_allocator start = 0 -> sent (sh_event_tx start) = [] ->
  rtc (shared_step (CF := CF) udp_iter) start sh -> evs `prefix_of` sent (sh_event_tx sh) -> router_history tx ms cap evs r ->
  owned (routing r) /\ router_inv r /\ members_exact r.
Proof.
  intros Ha Hs Hrtc Hpre Hh. assert (Hw : wired start) by (split; rewrite Hs; constructor).
  apply (rtc_wired udp_iter) in Hrtc as Hw'; [|by rewrite Ha|done].
  destruct (history_registered tx ms cap evs r Hh) as (Hreg & Hi & He).
  { destruct Hpre as [rest Hpre]. pose proof (wr_ids _ Hw') as Hi. rewrite Hpre, omap_app in Hi. by apply NoDup_app in Hi as [? _]. }
  split_and!; [by eapply registered_owned|done|done].
Qed.
End RouterView.

(** ** What one startup announces *)

Definition task_id (t : Task) : EndpointId :=
  match t with
  | TaskSerial s _ _ => ser_endpoint_id s | TaskTcpClient s _ _ => tcp_endpoint_id s | TaskUdpClient s _ _ => ucp_endpoint_id s
  | TaskTcpServer s _ => tsp_parent_id s | TaskUdpServer s _ => usp_parent_id s
  end.
Definition task_stats (t : Task) : nat :=
  match t with
  | TaskSerial _ _ k | TaskTcpClient _ _ k | TaskUdpClient _ _ k => k | TaskTcpServer _ k | TaskUdpServer _ k => k
  end.
Definition task_queue (t : Task) : option TxQueue :=
  match t with TaskSerial _ q _ | TaskTcpClient _ q _ | TaskUdpClient _ q _ => Some q | _ => None end.
Definition is_listener (k : EndpointKind) : bool :=
  match k with Kind_TcpServer _ | Kind_UdpServer _ => true | _ => false end.

(** The task of a spec and its announcement agree on id, stats and queue; the announcement
    carries the configured name and identity, and no queue for a listener. *)
Definition linked (spec : EndpointSpec) (id : EndpointId) (t : Task) (e : EndpointEvent) : Prop :=
  task_id t = id /\ added_id e = Some id /\ event_stats e = Some (task_stats t) /\
  rt_tx_queue <$> event_routable e = task_queue t /\
  (forall name k rt, e = EndpointAdded id name k rt -> name = spec_name spec) /\
  (rt_identity <$> event_routable e = if is_listener (spec_kind spec) then None else Some (EndpointKind_identity (spec_kind spec))) /\
  (forall rt, event_routable e = Some rt -> rt_endpoint_name rt = spec_name spec).

(** The task and the announcement that a send has made. *)
Ltac exists_linked e :=
  eexists _, e; split; [reflexivity|]; split; [assumption|];
  split_and!; [done|done|done|done|by intros ? ? ? [= -> _ _]|done|by intros ? [= <-]].

(** The tasks and announcements of a start-up during which the router was there before the
    endpoint with [i] others after it when [up i]: each such endpoint has its task and, in the
    same order, its announcement; the others have neither. *)
Fixpoint spawned_in_order (up : nat -> bool) (specs : list EndpointSpec) (tasks : list Task) (events : list EndpointEvent) : Prop :=
  match specs with
  | [] => tasks = [] /\ events = []
  | s :: rest =>
      if up (length rest) then
        exists id t e ts es, tasks = t :: ts /\ events = e :: es /\ linked s id t e /\ spawned_in_order up rest ts es
      else spawned_in_order up rest tasks events
  end.

Lemma spawned_all up specs tasks events :
  (forall i, up i = true) -> spawned_in_order up specs tasks events -> length tasks = length specs.
Proof.
  intros Hup. revert tasks events; induction specs as [|s specs IH]; intros tasks events; cbn [spawned_in_order]; [by intros [-> _]|].
  rewrite Hup. intros (id & t & e & ts & es & -> & -> & _ & Hl). cbn. f_equal. by eapply IH.
Qed.

Section Startup.
Context {Q : Type} `{ArrayQueue Q} {CE : Type} `{SenderLaws EndpointEvent CE}.
Context (others : nat -> Shared Q CE -> Shared Q CE) (alive : CE -> bool) (up : nat -> bool).
(** A send succeeds exactly while the receiver is there; the other tasks send events too, and
    the router is there before an endpoint is spawned, or gone, as [up] says. *)
Hypothesis send_answers : forall (c : CE) (x : EndpointEvent), (send c x).1 = alive c.
Hypothesis others_send : forall i sh, sent (sh_event_tx sh) `prefix_of` sent (sh_event_tx (others i sh)).
Hypothesis others_up : forall i sh, alive (sh_event_tx (others i sh)) = up i.

Lemma spawn_endpoint_linked spec tasks (sh : Shared Q CE) :
  if alive (sh_event_tx sh) then
    exists t e, (spawn_endpoint spec tasks sh).1 = tasks ++ [t] /\
      sent (sh_event_tx (spawn_endpoint spec tasks sh).2) = sent (sh_event_tx sh) ++ [e] /\ linked spec (sh_allocator sh) t e
  else (spawn_endpoint spec tasks sh).1 = tasks /\ sent (sh_event_tx (spawn_endpoint spec tasks sh).2) = sent (sh_event_tx sh).
Proof.
  unfold spawn_endpoint, alloc, spawn_leaf, prepare_leaf, spawn_listener, prepare_parent_listener.
  destruct (stats_alloc Reconnecting (sh_world sh)) as [k w1].
  destruct (TxQueue_new DEFAULT_TX_QUEUE_FRAMES k w1) as [tq w2] eqn:Etq.
  destruct spec as [kind name]. destruct kind as [ep|ep|ep|ep|ep]; cbn [spec_kind spec_name]; rewrite ?Etq;
    match goal with |- context [send ?c ?e] => pose proof (send_answers c e) as Ha; pose proof (send_sent c e) as Hs;
      destruct (send c e) as [ok tx]; cbn [fst snd] in Ha, Hs; rewrite <- Ha; destruct ok; [exists_linked e|done] end.
Qed.

(** Announced before it runs, whatever else goes on.  Start-up spawns one task per configured
    endpoint, in configuration order, as long as the router is there to take the announcement
    that precedes it: an [EndpointAdded] with the task's own id, stats object and queue, the
    configured name and identity, and no queue for a listener.  An endpoint whose announcement
    is refused gets no task. *)
Theorem spawn_endpoints_announces specs (c : CE) (w : World Q) :
  let '(tasks, sh) := spawn_endpoints others specs [] c w in
  exists events, spawned_in_order up specs tasks events /\ events `sublist_of` sent (sh_event_tx sh).
Proof.
  unfold spawn_endpoints.
  assert (Hgo : forall specs tasks (sh : Shared Q CE),
    exists ts es, (spawn_loop others specs tasks sh).1 = tasks ++ ts /\ spawned_in_order up specs ts es /\
      sent (sh_event_tx sh) ++ es `sublist_of` sent (sh_event_tx (spawn_loop others specs tasks sh).2)).
  { clear specs. intros specs. induction specs as [|spec specs IH]; intros tasks sh; cbn [spawn_loop].
    { exists [], []. rewrite !app_nil_r. done. }
    pose proof (spawn_endpoint_linked spec tasks (others (length specs) sh)) as Hl. rewrite others_up in Hl.
    assert (Hpre : sent (sh_event_tx sh) `sublist_of` sent (sh_event_tx (others (length specs) sh)))
      by (destruct (others_send (length specs) sh) as [r ->]; by apply sublist_inserts_r).
    destruct (spawn_endpoint spec tasks (others (length specs) sh)) as [tasks1 sh1]. cbn [fst snd] in Hl. cbn [spawned_in_order].
    destruct (IH tasks1 sh1) as (ts & es & -> & Hrest & Hsub). destruct (up (length specs)).
    - destruct Hl as (t & e & -> & Hs & Hl). exists (t :: ts), (e :: es). rewrite <- app_assoc. split_and!; [done|by eauto 10|].
      rewrite cons_middle, app_assoc. etrans; [|exact Hsub]. rewrite Hs. by repeat apply sublist_app.
    - destruct Hl as [-> Hs]. exists ts, es. split_and!; [done|done|]. etrans; [|exact Hsub]. rewrite Hs. by apply sublist_app. }
  destruct (Hgo specs [] {| sh_allocator := 0; sh_event_tx := c; sh_world := w |}) as (ts & es & Ht & Hl & Hs).
  destruct (spawn_loop others specs [] _) as [tasks sh]. cbn [fst snd] in *. subst tasks. exists es. split; [done|].
  etrans; [|exact Hs]. by apply sublist_inserts_l.
Qed.
End Startup.

(** ** Witnesses *)

Module SpawnSample.
Definition specs : list EndpointSpec :=
  [{| spec_kind := Kind_TcpServer {| ts_bind_addr := SocketAddr_new (V4 [0; 0; 0; 0]) 5760; ts_identity := IdentityFlags_default |};
      spec_name := "gcs" |};
   {| spec_kind := Kind_Serial {| se_path := "/dev/ttyACM0"; se_baud := 57600; se_flow_control := FlowControl_None; se_identity := IdentityFlags_default |};
      spec_name := "fc" |}].
Definition tx : LiveSender.t EndpointEvent := {| LiveSender.log := [] |}.
Definition start : Shared ListQueue.t (LiveSender.t EndpointEvent) :=
  {| sh_allocator := 0; sh_event_tx := tx; sh_world := sample_world (aq_new 1) |}.
Definition spec (n : nat) : EndpointSpec := nth n specs {| spec_kind := Kind_Serial {| se_path := ""; se_baud := 0; se_flow_control := FlowControl_None; se_identity := IdentityFlags_default |}; spec_name := "" |}.
Definition after : Shared ListQueue.t (LiveSender.t EndpointEvent) := (spawn_endpoint (spec 1) [] (spawn_endpoint (spec 0) [] start).2).2.
End SpawnSample.

(** The router goes after the first endpoint is up. *)
Module RouterGoes.
Definition tx : ListSender.t EndpointEvent := {| ListSender.items := []; ListSender.open := true |}.
Definition up (i : nat) : bool := (0 <? i)%nat.
Definition others (i : nat) (sh : Shared ListQueue.t (ListSender.t EndpointEvent)) : Shared ListQueue.t (ListSender.t EndpointEvent) :=
  {| sh_allocator := sh_allocator sh; sh_world := sh_world sh;
     sh_event_tx := {| ListSender.items := ListSender.items (sh_event_tx sh); ListSender.open := up i |} |}.
Lemma router_goes_answers (c : ListSender.t EndpointEvent) x : (send c x).1 = ListSender.open c.
Proof. unfold send. cbn. by destruct (ListSender.open c) eqn:E. Qed.
Lemma router_goes_keeps i sh : sent (sh_event_tx sh) `prefix_of` sent (sh_event_tx (others i sh)).
Proof. done. Qed.
End RouterGoes.

Lemma spawn_endpoints_announces_witness :
  let '(tasks, sh) := spawn_endpoints RouterGoes.others SpawnSample.specs [] RouterGoes.tx (sample_world (aq_new 1)) in
  exists events, spawned_in_order RouterGoes.up SpawnSample.specs tasks events /\ events `sublist_of` sent (sh_event_tx sh) /\ length tasks = 1%nat.
Proof.
  pose proof (spawn_endpoints_announces RouterGoes.others ListSender.open RouterGoes.up RouterGoes.router_goes_answers
    RouterGoes.router_goes_keeps (fun _ _ => eq_refl) SpawnSample.specs RouterGoes.tx (sample_world (aq_new 1))) as Hs.
  destruct (spawn_endpoints RouterGoes.others SpawnSample.specs [] RouterGoes.tx (sample_world (aq_new 1))) as [tasks sh] eqn:E.
  destruct Hs as (events & Hl & Hsub). exists events. split; [exact Hl|]. split; [exact Hsub|].
  vm_compute in E. injection E as <- _. reflexivity.
Defined.

Lemma system_keeps_router_wired_witness :
  let evs := sent (sh_event_tx SpawnSample.after) in
  let r := foldl (fun r e => (handle_event r e (sample_world (aq_new 1))).1)
             (Router_new {| ListChan.log := []; ListChan.room := 4 |} 500 16) evs in
  length evs = 2%nat /\ owned (routing r) /\ router_inv r /\ members_exact r.
Proof.
  split; [vm_compute; reflexivity|].
  apply (system_keeps_router_wired (C := ListChan.t) (fun _ => 0) map_to_list false (CF := LiveSender.t RouterFrame) map_to_list
    SpawnSample.start SpawnSample.after {| ListChan.log := []; ListChan.room := 4 |} 500 16 (sent (sh_event_tx SpawnSample.after))).
  - reflexivity.
  - reflexivity.
  - apply (rtc_l _ _ (spawn_endpoint (SpawnSample.spec 0) [] SpawnSample.start).2).
    + apply (step_spawn _ (SpawnSample.spec 0) [] SpawnSample.start). vm_compute. reflexivity.
    + apply rtc_once. apply (step_spawn _ (SpawnSample.spec 1) [] (spawn_endpoint (SpawnSample.spec 0) [] SpawnSample.start).2).
      vm_compute. reflexivity.
  - exists []. symmetry. apply app_nil_r.
  - exact (history_event _ _ _ _ _ _ [_] _ _ _ (history_event _ _ _ _ _ _ [] _ _ _ (history_new _ _ _ _ _ _))).
Defined.
