(* ===== verification/Net.v ===== *)
(** * The running network

    Links over any [Transport], the shared allocator, channels and store, and the router,
    from start-up on: endpoints are spawned, clients and peers come and go, links read, write,
    fail and reconnect, the router takes events and frames, all in any interleaving.  The invariant of
    every reachable state, and the router's history refining its [Policy]. *)

From stdpp Require Import relations.
From S2P Require Import Prelude Crc Frame MsgTable Framer FramerSpec FramerProps LruVec Learn Dedup Filters EndpointStats TxQueue Identity Group Decide Router RouterInv Dispatch RouterProps RouterRun Policy SeqTracker RustNet Spec Session SessionProps Endpoint UdpServer TcpServer Transport Spawn.
#[local] Open Scope Z_scope.
#[local] Opaque parse try_next_frame crc16_update.

Lemma fmap_eq_lookup {K A B} `{Countable K} (f : A -> B) (m m' : gmap K A) k x :
  f <$> m = f <$> m' -> m !! k = Some x -> exists x', m' !! k = Some x' /\ f x = f x'.
Proof.
  intros He%(f_equal (fun y => y !! k)) Hk. cbn beta in He. rewrite !lookup_fmap, Hk in He.
  destruct (m' !! k) as [x'|]; [|done]. exists x'. split; [done|]. by apply (inj Some) in He.
Qed.

Lemma prefix_snoc_lookup {A} (l k : list A) x : l `prefix_of` k -> k !! length l = Some x -> l ++ [x] `prefix_of` k.
Proof.
  intros [rest ->] Hx. rewrite lookup_app_r, Nat.sub_diag in Hx by done. destruct rest as [|y rest]; [done|].
  injection Hx as ->. exists rest. by rewrite <- app_assoc.
Qed.

(** ** The network *)

(** A link: what its task works with, its port, the bytes its transport has delivered, in
    earlier sessions and in this one, the frames it has accepted, and how many writes have
    failed or sessions were renewed. *)
Record Link (P : Type) := {
  lk_ctx : SessionCtx;
  lk_queue : TxQueue;
  lk_identity : IdentityFlags;
  lk_name : string;
  lk_port : P;
  lk_past : list Bytes;
  lk_in : Bytes;
  lk_out : list Bytes;
  lk_faults : nat;
}.
Arguments lk_ctx {P}.
Arguments lk_queue {P}.
Arguments lk_identity {P}.
Arguments lk_name {P}.
Arguments lk_port {P}.
Arguments lk_past {P}.
Arguments lk_in {P}.
Arguments lk_out {P}.
Arguments lk_faults {P}.

Definition link_with {P} (l : Link P) (p : P) (past : list Bytes) (input : Bytes) (output : list Bytes) (faults : nat) : Link P :=
  {| lk_ctx := lk_ctx l; lk_queue := lk_queue l; lk_identity := lk_identity l; lk_name := lk_name l;
     lk_port := p; lk_past := past; lk_in := input; lk_out := output; lk_faults := faults |}.
Definition link_read {P} (l : Link P) (p : P) (d : Bytes) : Link P :=
  link_with l p (lk_past l) (lk_in l ++ d) (lk_out l) (lk_faults l).
Definition link_wrote {P} (l : Link P) (p : P) (v : verdict) (frame : option Bytes) : Link P :=
  match v with
  | Accepted => link_with l p (lk_past l) (lk_in l) (lk_out l ++ option_list frame) (lk_faults l)
  | Counted | Lost => link_with l p (lk_past l) (lk_in l) (lk_out l) (S (lk_faults l))
  end.
Definition link_turned {P} (l : Link P) (p : P) : Link P := link_with l p (lk_past l) (lk_in l) (lk_out l) (lk_faults l).
Definition link_renewed {P} (l : Link P) (p : P) : Link P :=
  link_with l p (lk_past l ++ [lk_in l]) [] (lk_out l) (S (lk_faults l)).
(** The bytes of each session. *)
Definition lk_sessions {P} (l : Link P) : list Bytes := lk_past l ++ [lk_in l].
Definition link_routable {P} (l : Link P) : Routable :=
  {| rt_tx_queue := lk_queue l; rt_identity := lk_identity l; rt_endpoint_name := lk_name l |}.
Definition link_member {P} (l : Link P) : Member := {| mb_identity := lk_identity l; mb_name := lk_name l |}.

(** The links; what the tasks share; the frame channel; what the router has taken so far, the
    time it took the last frame, whether its select has found the event channel empty and is
    about to poll the frame channel, and the router. *)
Record Net (Q C CE CS P : Type) := {
  net_links : gmap EndpointId (Link P);
  net_shared : Shared Q CE;
  net_tx : C;
  net_history : list router_input;
  net_clock : Z;
  net_polled : bool;
  net_router : Router CS;
}.
Arguments net_links {Q C CE CS P}.
Arguments net_shared {Q C CE CS P}.
Arguments net_tx {Q C CE CS P}.
Arguments net_history {Q C CE CS P}.
Arguments net_clock {Q C CE CS P}.
Arguments net_polled {Q C CE CS P}.
Arguments net_router {Q C CE CS P}.

Definition events_in (h : list router_input) : list EndpointEvent := omap (fun i => match i with InEvent e => Some e | InFrame _ _ => None end) h.
Definition frames_in (h : list router_input) : list RouterFrame := omap (fun i => match i with InEvent _ => None | InFrame rf _ => Some rf end) h.

Lemma events_in_snoc h i : events_in (h ++ [i]) = events_in h ++ match i with InEvent e => [e] | InFrame _ _ => [] end.
Proof. unfold events_in. rewrite omap_snoc. by destruct i. Qed.
Lemma frames_in_snoc h i : frames_in (h ++ [i]) = frames_in h ++ match i with InEvent _ => [] | InFrame rf _ => [rf] end.
Proof. unfold frames_in. rewrite omap_snoc. by destruct i. Qed.
Lemma elem_of_events_in h e : e ∈ events_in h <-> InEvent e ∈ h.
Proof. unfold events_in. rewrite list_elem_of_omap. split; [intros ([e'|] & Hin & [= ->]); done|intros Hin; by exists (InEvent e)]. Qed.

(** An announcement of an endpoint that takes part in routing: a leaf's or a peer's. *)
Definition announces (e : EndpointEvent) (id : EndpointId) (stats : nat) (rt : Routable) : Prop :=
  match e with
  | EndpointAdded i _ k (Some r) | PeerAdded _ i _ k r => i = id /\ k = stats /\ r = rt
  | _ => False
  end.

Lemma announces_event e id k rt :
  announces e id k rt -> added_id e = Some id /\ event_stats e = Some k /\ event_routable e = Some rt.
Proof. destruct e as [i nm k' [r|]|pid i nm k' r|]; try done; intros (-> & -> & ->); done. Qed.

(** What frames do not change of an endpoint. *)
Definition static (ep : RegisteredEndpoint) : nat * option (TxQueue * IdentityFlags * string) :=
  (re_stats ep, (fun rs => (rs_tx_queue rs, rs_identity rs, rs_endpoint_name rs)) <$> re_routable ep).

Section Net.
Context `{MsgTable} {Q : Type} `{ArrayQueueLaws Q} {C : Type} `{SenderLaws RouterFrame C} {CE : Type} `{SenderLaws EndpointEvent CE}.
Context {CS : Type} `{StatsSender CS} {P : Type} `{!Transport Q C P} `{!TransportLaws Q C P}.
Context (hash : Bytes -> Z) (iter : registry -> list (EndpointId * RegisteredEndpoint)) (debug_assertions : bool).
Hypothesis iter_perm : forall m, iter m ≡ₚ map_to_list m.
Context (stats_tx : CS) (dedup_ms : Z) (window : nat).   (** what the router is made with *)
Hypothesis dedup_ms_ok : 0 <= dedup_ms.
Implicit Types (w : World Q) (tx : C) (sh : Shared Q CE) (n : Net Q C CE CS P) (l : Link P) (r : Router CS).

Definition net_world n : World Q := sh_world (net_shared n).
Definition net_events n : list EndpointEvent := sent (sh_event_tx (net_shared n)).

Definition dedup_ttl : Z := from_millis dedup_ms.
Definition dedup_cap : nat := Nat.max window 1.
Lemma dedup_ttl_ok : 0 <= dedup_ttl.
Proof. unfold dedup_ttl, from_millis. lia. Qed.
Lemma dedup_cap_ok : (1 <= dedup_cap)%nat.
Proof. unfold dedup_cap. lia. Qed.
(** The policy after a history. *)
Definition policy (h : list router_input) : Policy := policy_run hash dedup_ttl dedup_cap policy_init h.

(** A new endpoint, as spawning a leaf, accepting a client and admitting a peer make it: id,
    stats and queue allocated, then announced. *)
Definition joins sh l sh' : Prop :=
  exists st k w1 w2 e,
    sh_allocator sh < 2 ^ 64 - 1 /\ stats_alloc st (sh_world sh) = (k, w1) /\
    TxQueue_new DEFAULT_TX_QUEUE_FRAMES k w1 = (lk_queue l, w2) /\
    announces e (sh_allocator sh) k (link_routable l) /\ (send (sh_event_tx sh) e).1 = true /\
    lk_ctx l = {| ctx_endpoint_id := sh_allocator sh; ctx_stats := k; ctx_filters := filters (lk_identity l) |} /\
    sh' = {| sh_allocator := sh_allocator sh + 1; sh_event_tx := (send (sh_event_tx sh) e).2; sh_world := w2 |}.

(** Its port is its own, nothing read or written. *)
Definition link_new l : Prop :=
  tp_own (lk_ctx l) (lk_port l) /\ tp_framer (lk_port l) = Framer_new /\ lk_sessions l = [[]] /\ lk_out l = [] /\ lk_faults l = 0%nat.

(** The code that makes endpoints makes them this way. *)
Definition new_link (id : EndpointId) (stats : nat) (tq : TxQueue) (identity : IdentityFlags) (name : string) (port : P) : Link P :=
  {| lk_ctx := {| ctx_endpoint_id := id; ctx_stats := stats; ctx_filters := filters identity |};
     lk_queue := tq; lk_identity := identity; lk_name := name; lk_port := port; lk_past := []; lk_in := []; lk_out := []; lk_faults := 0 |}.

Lemma spawn_leaf_joins sh name identity task tasks st k w port :
  0 <= sh_allocator sh < 2 ^ 64 - 1 -> (forall e, (send (sh_event_tx sh) e).1 = true) -> stats_alloc st (sh_world sh) = (k, w) ->
  exists tq, joins sh (new_link (sh_allocator sh) k tq identity name port)
    (spawn_leaf (sh_allocator sh) name k identity task tasks (alloc (sh_allocator sh)).2 (sh_event_tx sh) w).2.
Proof.
  intros Ha Hup Ek. unfold alloc. rewrite wrap_small by (unfold in_width; lia). cbn [snd].
  unfold spawn_leaf, prepare_leaf. destruct (TxQueue_new DEFAULT_TX_QUEUE_FRAMES k w) as [tq w2] eqn:Eq. exists tq.
  match goal with |- context [send ?c ?e] => pose proof (Hup e) as Hok; exists st, k, w, w2, e; destruct (send c e) as [ok tx] end.
  cbn in Hok. subst ok. by split_and!; try done; try lia.
Qed.

Lemma accept_joins (spec : TcpServerSpec) peer (st : TcpsState Q C CE) port :
  0 <= ts_allocator st < 2 ^ 64 - 1 -> (forall e, (send (ts_event_tx st) e).1 = true) ->
  exists k tq, joins (tcps_shared st) (new_link (ts_allocator st) k tq (tsp_identity spec) (tsp_parent_name spec) port)
    (tcps_shared (accept_one_client spec peer st)).
Proof.
  intros Ha Hup. unfold accept_one_client, alloc. rewrite wrap_small by (unfold in_width; lia).
  destruct (stats_alloc Connected (ts_world st)) as [k w1] eqn:Ek.
  destruct (TxQueue_new DEFAULT_TX_QUEUE_FRAMES k w1) as [tq w2] eqn:Eq. exists k, tq.
  match goal with |- context [send ?c ?e] => pose proof (Hup e) as Hok; exists Connected, k, w1, w2, e; unfold tcps_shared; cbn [sh_event_tx];
    destruct (send c e) as [ok tx] end.
  cbn in Hok. subst ok. cbn. by split_and!; try done; try lia.
Qed.

Lemma admit_joins udp_iter (spec : UdpServerSpec) src now (st : Listener Q C CE) port :
  0 <= ls_allocator st < 2 ^ 64 - 1 -> (forall e, (send (ls_event_tx st) e).1 = true) -> (size (ls_peers st) < usp_peer_capacity spec)%nat ->
  exists k tq, joins (udps_shared st) (new_link (ls_allocator st) k tq (usp_identity spec) (usp_parent_name spec) port)
    (udps_shared (admit_new_peer udp_iter spec src now st).2).
Proof.
  intros Ha Hup Hroom. unfold admit_new_peer, alloc. rewrite wrap_small by (unfold in_width; lia).
  destruct (stats_alloc Connected (ls_world st)) as [k w1] eqn:Ek.
  destruct (TxQueue_new DEFAULT_TX_QUEUE_FRAMES k w1) as [tq w2] eqn:Eq. exists k, tq.
  match goal with |- context [send ?c ?e] => pose proof (Hup e) as Hok; exists Connected, k, w1, w2, e; unfold udps_shared; cbn [sh_event_tx];
    destruct (send c e) as [ok tx] end.
  cbn in Hok. subst ok. cbn. rewrite (proj2 (Nat.leb_gt _ _)) by done. by split_and!; try done; try lia.
Qed.

(** A queue left behind or drained. *)
Definition abandoned (tq : TxQueue) w w' : Prop := w' = w \/ exists k, drain_and_discard tq w = Done (k, w').

Definition with_world sh w : Shared Q CE := {| sh_allocator := sh_allocator sh; sh_event_tx := sh_event_tx sh; sh_world := w |}.
Definition worked n (links : gmap EndpointId (Link P)) tx w : Net Q C CE CS P :=
  {| net_links := links; net_shared := with_world (net_shared n) w; net_tx := tx; net_history := net_history n;
     net_clock := net_clock n; net_polled := net_polled n; net_router := net_router n |}.
Definition took n (i : router_input) (now : Z) r w : Net Q C CE CS P :=
  {| net_links := net_links n; net_shared := with_world (net_shared n) w; net_tx := net_tx n; net_history := net_history n ++ [i];
     net_clock := now; net_polled := false; net_router := r |}.
Definition with_polled n (polled : bool) : Net Q C CE CS P :=
  {| net_links := net_links n; net_shared := net_shared n; net_tx := net_tx n; net_history := net_history n;
     net_clock := net_clock n; net_polled := polled; net_router := net_router n |}.
Definition changed n (links : gmap EndpointId (Link P)) sh : Net Q C CE CS P :=
  {| net_links := links; net_shared := sh; net_tx := net_tx n; net_history := net_history n;
     net_clock := net_clock n; net_polled := net_polled n; net_router := net_router n |}.

Inductive net_step : Net Q C CE CS P -> Net Q C CE CS P -> Prop :=
(** a link reads, writes a queued frame out or fails to, makes another turn *)
| net_read n id l env d p tx w :
    net_links n !! id = Some l ->
    tp_read (lk_ctx l) (lk_queue l) env d (lk_port l) (net_tx n) (net_world n) = Some (p, tx, w) ->
    net_step n (worked n (<[id := link_read l p d]> (net_links n)) tx w)
| net_write n id l env v p tx w :
    net_links n !! id = Some l ->
    tp_write (lk_ctx l) (lk_queue l) env (lk_port l) (net_tx n) (net_world n) = Some (v, p, tx, w) ->
    net_step n (worked n (<[id := link_wrote l p v (TxQueue_pop (lk_queue l) (net_world n)).1]> (net_links n)) tx w)
| net_turn n id l env p tx w :
    net_links n !! id = Some l ->
    tp_turn (lk_ctx l) (lk_queue l) env (lk_port l) (net_tx n) (net_world n) = Some (p, tx, w) ->
    net_step n (worked n (<[id := link_turned l p]> (net_links n)) tx w)
(** a link is connected anew, as [tcpc_run_inner] and [serial_run_inner] do: its queue is
    drained, its reader starts over *)
| net_renew n id l p k w :
    net_links n !! id = Some l -> tp_renew (lk_port l) = Some p -> drain_and_discard (lk_queue l) (net_world n) = Done (k, w) ->
    net_step n (worked n (<[id := link_renewed l p]> (net_links n)) (net_tx n) (stats_update (ctx_stats (lk_ctx l)) (store_state Connected) w))
(** an endpoint comes up, a listener is announced, an endpoint is announced gone *)
| net_join n l sh :
    joins (net_shared n) l sh -> link_new l ->
    net_step n (changed n (<[ctx_endpoint_id (lk_ctx l) := l]> (net_links n)) sh)
| net_listen n name st k w :
    sh_allocator (net_shared n) < 2 ^ 64 - 1 -> stats_alloc st (net_world n) = (k, w) ->
    net_step n (changed n (net_links n)
      {| sh_allocator := sh_allocator (net_shared n) + 1; sh_world := w;
         sh_event_tx := (send (sh_event_tx (net_shared n)) (EndpointAdded (sh_allocator (net_shared n)) name k None)).2 |})
| net_leave n id l parent reason w :
    net_links n !! id = Some l -> abandoned (lk_queue l) (net_world n) w ->
    net_step n (changed n (delete id (net_links n))
      {| sh_allocator := sh_allocator (net_shared n); sh_world := w;
         sh_event_tx := (send (sh_event_tx (net_shared n)) (PeerRemoved parent id reason)).2 |})
(** the router polls the event channel: it takes the next event, or finds none; *)
| net_event n e r w :
    net_polled n = false ->
    net_events n !! length (events_in (net_history n)) = Some e -> handle_event (net_router n) e (net_world n) = (r, w) ->
    net_step n (took n (InEvent e) (net_clock n) r w)
| net_poll n :
    net_polled n = false -> length (events_in (net_history n)) = length (net_events n) -> net_step n (with_polled n true)
(** then, whatever was announced meanwhile, it polls the frame channel *)
| net_route n rf now r w :
    net_polled n = true ->
    sent (net_tx n) !! length (frames_in (net_history n)) = Some rf -> net_clock n <= now ->
    handle_frame hash iter debug_assertions (net_router n) rf now (net_world n) = Done (r, w) ->
    net_step n (took n (InFrame rf now) now r w)
| net_idle n :
    net_polled n = true -> length (frames_in (net_history n)) = length (sent (net_tx n)) -> net_step n (with_polled n false).

(** Start-up: a new router, nothing announced, no frame read. *)
Definition net_init (n : Net Q C CE CS P) : Prop :=
  net_links n = ∅ /\ sh_allocator (net_shared n) = EndpointIdAllocator_new /\ net_events n = [] /\ sent (net_tx n) = [] /\
  net_history n = [] /\ net_polled n = false /\ net_router n = Router_new stats_tx dedup_ms window.

(** ** The invariant *)

(** A link's registration with the router. *)
Definition link_wired r (id : EndpointId) l : Prop :=
  static <$> routing r !! id = Some (ctx_stats (lk_ctx l), Some (lk_queue l, lk_identity l, lk_name l)).

Definition from (id : EndpointId) (rf : RouterFrame) : bool := rf_endpoint_id rf =? id.

(** The frames that the bytes of successive sessions contain. *)
Definition session_frames (sessions : list Bytes) : list (ParsedHeader * Bytes) := concat (map (fun d => sc_frames (parse d)) sessions).

(** A link is announced under its id, and registered once the router has taken that; its port
    is in order, and it has sent the router what its input contains and its filter admits. *)
Record link_ok n (id : EndpointId) l : Prop := {
  lo_id : ctx_endpoint_id (lk_ctx l) = id;
  lo_announced : exists e, e ∈ net_events n /\ announces e id (ctx_stats (lk_ctx l)) (link_routable l);
  lo_wired e : e ∈ events_in (net_history n) -> added_id e = Some id -> link_wired (net_router n) id l;
  lo_own : tp_own (lk_ctx l) (lk_port l) /\ counters_ok (tp_framer (lk_port l));
  lo_buffer : buf (tp_framer (lk_port l)) = sc_rest (parse (lk_in l));
  lo_sent : List.filter (from id) (sent (net_tx n)) = to_router (lk_ctx l) <$> List.filter (passes (lk_ctx l)) (session_frames (lk_sessions l));
}.

Record net_inv n : Prop := {
  ni_shared : wired (net_shared n);
  ni_alloc : 0 <= sh_allocator (net_shared n);
  ni_router : router_history (Q := Q) hash iter debug_assertions stats_tx dedup_ms window (events_in (net_history n)) (net_router n);
  ni_events : events_in (net_history n) `prefix_of` net_events n;
  ni_frames : frames_in (net_history n) `prefix_of` sent (net_tx n);
  ni_policy : implements dedup_ttl dedup_cap (net_clock n) (net_router n) (policy (net_history n));
  ni_gone pid id reason : PeerRemoved pid id reason ∈ net_events n -> net_links n !! id = None /\ id < sh_allocator (net_shared n);
  ni_links id l : net_links n !! id = Some l -> link_ok n id l;
  ni_senders rf : rf ∈ sent (net_tx n) -> exists e, e ∈ net_events n /\ added_id e = Some (rf_endpoint_id rf);
}.

Lemma net_inv_init n : net_init n -> net_inv n.
Proof.
  intros (Hl & Ha & He & Ht & Hh & _ & Hr). split.
  - split; change (sent (sh_event_tx (net_shared n))) with (net_events n); rewrite He; constructor.
  - by rewrite Ha.
  - rewrite Hh, Hr. constructor.
  - rewrite Hh. apply prefix_nil.
  - rewrite Hh. apply prefix_nil.
  - rewrite Hh, Hr. by apply implements_new; [apply dedup_ttl_ok|apply dedup_cap_ok|..].
  - intros pid id reason. rewrite He. by intros ?%elem_of_nil.
  - intros id l. by rewrite Hl, lookup_empty.
  - intros rf. rewrite Ht. by intros ?%elem_of_nil.
Qed.

(** Announced ids are not announced again. *)
Lemma announced_once n e e' id :
  net_inv n -> e ∈ net_events n -> e' ∈ net_events n -> added_id e = Some id -> added_id e' = Some id -> e = e'.
Proof. intros Hn. apply omap_NoDup_inj, (wr_ids _ (ni_shared _ Hn)). Qed.

Lemma announced_below n e id : net_inv n -> e ∈ net_events n -> added_id e = Some id -> 0 <= id < sh_allocator (net_shared n).
Proof. intros Hn He. pose proof (wr_each _ (ni_shared _ Hn)) as HF. rewrite Forall_forall in HF. apply (HF e He). Qed.

Lemma taken_sent n e : net_inv n -> e ∈ events_in (net_history n) -> e ∈ net_events n.
Proof. intros Hn He. eapply elem_of_prefix; [exact He|apply (ni_events _ Hn)]. Qed.

(** What the router's theorems assume of it holds. *)
Lemma router_facts n :
  net_inv n -> router_inv (net_router n) /\ members_exact (net_router n) /\ owned (routing (net_router n)) /\
  forall id ep, routing (net_router n) !! id = Some ep -> exists e, e ∈ events_in (net_history n) /\ registered_by e id ep.
Proof.
  intros Hn. pose proof (ni_events _ Hn) as Hpre. pose proof (ni_shared _ Hn) as Hw.
  destruct (history_registered hash iter debug_assertions stats_tx dedup_ms window _ _ (ni_router _ Hn)) as (Hreg & Hi & He).
  { destruct Hpre as [rest Hrest]. pose proof (wr_ids _ Hw) as Hi. change (sent (sh_event_tx (net_shared n))) with (net_events n) in Hi.
    rewrite Hrest, omap_app in Hi. by apply NoDup_app in Hi as [? _]. }
  split_and!; [done|done|by eapply registered_owned|done].
Qed.

(** A link's entry, once its announcement is taken. *)
Lemma link_entry n id l e :
  net_inv n -> net_links n !! id = Some l -> e ∈ events_in (net_history n) -> added_id e = Some id ->
  exists ep rs, routing (net_router n) !! id = Some ep /\ re_routable ep = Some rs /\ re_stats ep = ctx_stats (lk_ctx l) /\
    rs_tx_queue rs = lk_queue l /\ member_of rs = link_member l.
Proof.
  intros Hn Hl He Hid. pose proof (lo_wired _ _ _ (ni_links _ Hn id l Hl) e He Hid) as Hw. unfold link_wired in Hw.
  destruct (routing (net_router n) !! id) as [ep|]; [|done]. cbn in Hw. unfold static in Hw. destruct (re_routable ep) as [rs|] eqn:Hrs; [|done].
  exists ep, rs. cbn in Hw. injection Hw as Hs Hq Hi Hm. unfold member_of, link_member. rewrite Hi, Hm. by split_and!.
Qed.

(** A registered link: its announcement has been taken. *)
Lemma registered_taken n id ep :
  net_inv n -> routing (net_router n) !! id = Some ep -> exists e, e ∈ events_in (net_history n) /\ added_id e = Some id.
Proof. intros Hn Hid. destruct (router_facts n Hn) as (_ & _ & _ & Hreg). destruct (Hreg id ep Hid) as (e & He & Ha & _). by exists e. Qed.

(** ** The store's handles *)

Definition world_dom w w' : Prop := dom (w_stats w) ⊆ dom (w_stats w') /\ dom (w_queues w) ⊆ dom (w_queues w').
#[local] Instance world_dom_preorder : PreOrder world_dom.
Proof. split; [done|]. intros w1 w2 w3 [? ?] [? ?]. split; by etrans. Qed.

Lemma world_dom_update k (g : EndpointStats -> EndpointStats) w : world_dom w (stats_update k g w).
Proof. split; [|done]. simpl. by rewrite dom_alter_L. Qed.
Lemma world_dom_queue h q w : world_dom w (set_queue h q w).
Proof. split; [done|]. simpl. rewrite dom_insert_L. set_solver. Qed.
Lemma world_dom_push tq frame w : world_dom w (TxQueue_push tq frame w).
Proof.
  unfold TxQueue_push. destruct (w_queues w !! tq_inner tq) as [q|]; [|done]. destruct (aq_force_push q frame) as [[y|] q'].
  - split; simpl; [by rewrite dom_alter_L|]. rewrite dom_insert_L. set_solver.
  - split; simpl; [done|]. rewrite dom_insert_L. set_solver.
Qed.
Lemma world_dom_pop tq w : world_dom w (TxQueue_pop tq w).2.
Proof.
  unfold TxQueue_pop. destruct (w_queues w !! tq_inner tq) as [q|]; [|done]. destruct (aq_pop q). apply world_dom_queue.
Qed.
Lemma world_dom_traffic w w' : same_traffic w w' -> world_dom w w'.
Proof.
  intros [Hq Hd]. split; [|by rewrite Hq]. intros k. rewrite !elem_of_dom. specialize (Hd k). unfold dropped_at in Hd.
  intros [x Hx]. rewrite Hx in Hd. destruct (w_stats w' !! k); [by eexists|done].
Qed.
Lemma world_dom_abandoned tq w w' : abandoned tq w w' -> is_Some (w_queues w !! tq_inner tq) -> world_dom w w'.
Proof.
  intros [->|(k & Hk)] [q Hq]; [done|]. destruct (drain_and_discard_Done tq w q Hq) as (q' & _ & _ & Hd). rewrite Hk in Hd. injection Hd as _ ->.
  destruct (0 <? _)%nat; [etrans; [|apply world_dom_update]|]; apply world_dom_queue.
Qed.
Lemma world_dom_event r e w : world_dom w (handle_event r e w).2.
Proof.
  destruct e as [id nm k [rt|]|pid id nm k rt|pid id reason]; cbn [handle_event]; try (destruct (build_routable_state r rt); done); [done|].
  destruct (routing r !! id); [|done]. cbn. apply world_dom_update.
Qed.

Lemma world_dom_dispatch g src frame header name dests w w' :
  dispatch_loop debug_assertions g src frame header name dests w = Done w' -> world_dom w w'.
Proof.
  revert w; induction dests as [|[id ep] dests IH]; intros w; cbn [dispatch_loop]; [by intros [= <-]|].
  destruct (dispatch_one debug_assertions g src frame header name id ep w) as [w1| |] eqn:E; [|done..]. intros Hrun.
  etrans; [|by apply IH]. unfold dispatch_one in E. repeat case_match; simplify_eq; try done; first [apply world_dom_push|apply world_dom_update].
Qed.

Lemma world_dom_frame r rf now w r' w' :
  handle_frame hash iter debug_assertions r rf now w = Done (r', w') -> world_dom w w'.
Proof.
  unfold handle_frame. destruct (ingest_source_frame hash r _ _ _ now w) as [[adm r1] w1] eqn:E.
  assert (Hi : world_dom w w1).
  { unfold ingest_source_frame in E. repeat case_match; simplify_eq; try done; apply world_dom_update. }
  destruct adm; [|by intros [= _ <-]]. unfold dispatch_to_destinations.
  destruct (dispatch_loop _ _ _ _ _ _ _ _) as [w2| |] eqn:E2; [|done..]. intros [= _ <-]. etrans; [exact Hi|by eapply world_dom_dispatch].
Qed.

Lemma with_world_wired sh w : wired sh -> world_dom (sh_world sh) w -> wired (with_world sh w).
Proof. intros Hw [Hs Hq]. eapply (wired_mono sh _ []); [exact Hw|done|done|done|by rewrite app_nil_r|constructor]. Qed.

(** ** Steps keep the invariant *)

Lemma send_grows (c : CE) e : sent c `prefix_of` sent (send c e).2.
Proof. rewrite send_sent. destruct (send c e).1; [by eexists|done]. Qed.

Lemma send_elem (c : CE) e x : x ∈ sent (send c e).2 -> x ∈ sent c \/ x = e.
Proof. rewrite send_sent. destruct (send c e).1; [|by left]. rewrite elem_of_app, list_elem_of_singleton. tauto. Qed.

Lemma link_ok_mono n n' id l :
  link_ok n id l -> net_events n `prefix_of` net_events n' ->
  (forall e, e ∈ events_in (net_history n') -> added_id e = Some id -> link_wired (net_router n') id l) ->
  List.filter (from id) (sent (net_tx n')) = List.filter (from id) (sent (net_tx n)) -> link_ok n' id l.
Proof.
  intros [Hid (e & He & Ha) Hw Hr Hb Hs] Hev Hw' Hf. split; try done; [|by rewrite Hf].
  exists e. split; [by eapply elem_of_prefix|done].
Qed.

Lemma filter_from ctx id (frames : list (ParsedHeader * Bytes)) :
  List.filter (from id) (to_router ctx <$> frames) = if ctx_endpoint_id ctx =? id then to_router ctx <$> frames else [].
Proof.
  induction frames as [|e frames IH]; [by destruct (_ =? _)|]. cbn. rewrite IH. unfold from at 1. cbn.
  by destruct (ctx_endpoint_id ctx =? id).
Qed.

Lemma session_frames_last past input : session_frames (past ++ [input]) = session_frames past ++ sc_frames (parse input).
Proof. unfold session_frames. rewrite map_app, concat_app. cbn. by rewrite app_nil_r. Qed.

(** A link moved on, the others as they are. *)
Lemma worked_inv n id l l' tx w :
  net_inv n -> net_links n !! id = Some l -> world_dom (net_world n) w -> lk_ctx l' = lk_ctx l -> link_routable l' = link_routable l ->
  sent (net_tx n) `prefix_of` sent tx -> (forall rf, rf ∈ sent tx -> rf ∈ sent (net_tx n) \/ rf_endpoint_id rf = id) ->
  (forall i, i <> id -> List.filter (from i) (sent tx) = List.filter (from i) (sent (net_tx n))) ->
  tp_own (lk_ctx l) (lk_port l') /\ counters_ok (tp_framer (lk_port l')) -> buf (tp_framer (lk_port l')) = sc_rest (parse (lk_in l')) ->
  List.filter (from id) (sent tx) = to_router (lk_ctx l) <$> List.filter (passes (lk_ctx l)) (session_frames (lk_sessions l')) ->
  net_inv (worked n (<[id := l']> (net_links n)) tx w).
Proof.
  intros Hn Hl Hdom Hctx Hrt Hpre Hsrc Hoth Hown Hbuf Hsent. pose proof (ni_links _ Hn id l Hl) as [Hid Han Hwd _ _ _].
  pose proof (with_world_wired _ w (ni_shared _ Hn) Hdom) as Hsh. destruct Hn as [_ Ha Hh He Hfr Hpo Hg Hls Hsn]. split; cbn; try done.
  - by etrans.
  - intros pid i reason Hi. destruct (Hg pid i reason Hi) as [Hno Hlt]. split; [|done]. rewrite lookup_insert_ne; [done|]. intros ->. congruence.
  - intros i l0. destruct (decide (id = i)) as [<-|Hne].
    + rewrite lookup_insert_eq. intros [= <-]. unfold link_routable in Hrt. injection Hrt as Eq Ei En.
      split; cbn; unfold link_wired, link_routable in *; rewrite ?Hctx, ?Eq, ?Ei, ?En; try done.
    + rewrite lookup_insert_ne by done. intros Hl0. pose proof (Hls i l0 Hl0) as Hlo. apply (link_ok_mono n); [done|done|apply Hlo|by apply Hoth].
  - intros rf Hin. destruct (Hsrc rf Hin) as [| ->]; [by apply Hsn|].
    destruct Han as (e & He' & Hann). exists e. split; [done|]. by apply announces_event in Hann as [? _].
Qed.

Lemma read_inv n id l env d p tx w :
  net_inv n -> net_links n !! id = Some l ->
  tp_read (lk_ctx l) (lk_queue l) env d (lk_port l) (net_tx n) (net_world n) = Some (p, tx, w) ->
  net_inv (worked n (<[id := link_read l p d]> (net_links n)) tx w).
Proof.
  intros Hn Hl Hrun. pose proof (ni_links _ Hn id l Hl) as [Hid _ _ [Hown Hok] Hbuf Hsent].
  destruct (tp_read_delivers _ _ _ _ _ _ _ _ _ _ Hown Hok Hrun) as (Hown' & [Hf Hs] & Hw).
  assert (Hp : parse (lk_in l ++ d) = scan_cons (sc_resync (parse (lk_in l))) (sc_crc (parse (lk_in l))) (sc_frames (parse (lk_in l)))
                 (parse (buf (tp_framer (lk_port l)) ++ d))) by (rewrite Hbuf; apply parse_app).
  pose proof (scan_nonneg (buf (tp_framer (lk_port l)) ++ d)) as [Hr1 Hr2].
  apply (worked_inv n id l); try done; cbn [link_read link_with lk_port lk_in]; unfold lk_sessions in *; cbn [link_read link_with lk_past lk_in].
  - by apply world_dom_traffic.
  - rewrite Hs. by eexists.
  - intros rf. rewrite Hs, elem_of_app. intros [|Hin]; [by left|right]. apply list_elem_of_fmap in Hin as (e0 & -> & _). exact Hid.
  - intros i Hne. rewrite Hs, List.filter_app, filter_from, Hid, (proj2 (Z.eqb_neq _ _)) by done. apply app_nil_r.
  - rewrite Hf. by split; [|apply advanced_ok].
  - by rewrite Hf, Hp.
  - rewrite session_frames_last, Hs, Hp. cbn [sc_frames scan_cons]. rewrite app_assoc, <- session_frames_last, !List.filter_app, fmap_app, <- Hsent.
    by rewrite filter_from, Hid, Z.eqb_refl.
Qed.

(** A link moved on without reading. *)
Lemma unread_inv n id l l' w :
  net_inv n -> net_links n !! id = Some l -> world_dom (net_world n) w -> lk_ctx l' = lk_ctx l -> link_routable l' = link_routable l ->
  lk_sessions l' = lk_sessions l -> tp_own (lk_ctx l) (lk_port l') -> tp_framer (lk_port l') = tp_framer (lk_port l) ->
  net_inv (worked n (<[id := l']> (net_links n)) (net_tx n) w).
Proof.
  intros Hn Hl Hdom Hctx Hrt Hses Hown Hf. pose proof (ni_links _ Hn id l Hl) as [_ _ _ [_ Hok] Hbuf Hsent].
  assert (Hin : lk_in l' = lk_in l) by (apply app_inj_tail in Hses as [_ ?]; done).
  apply (worked_inv n id l); try done; [by left|by rewrite Hf|by rewrite Hf, Hin|by rewrite Hses].
Qed.

Lemma write_inv n id l env v p tx w :
  net_inv n -> net_links n !! id = Some l ->
  tp_write (lk_ctx l) (lk_queue l) env (lk_port l) (net_tx n) (net_world n) = Some (v, p, tx, w) ->
  net_inv (worked n (<[id := link_wrote l p v (TxQueue_pop (lk_queue l) (net_world n)).1]> (net_links n)) tx w).
Proof.
  intros Hn Hl Hrun. pose proof (ni_links _ Hn id l Hl) as [_ _ _ [Hown _] _ _].
  destruct (tp_write_disposes _ _ _ _ _ _ _ _ _ _ Hown Hrun) as (Hown' & Hf & -> & Hw).
  apply (unread_inv n id l); try done; [|by destruct v..]. unfold disposed in Hw. pose proof (world_dom_pop (lk_queue l) (net_world n)) as Hpop.
  destruct (TxQueue_pop (lk_queue l) (net_world n)) as [popped w1]. etrans; [exact Hpop|]. etrans; [|by apply world_dom_traffic].
  destruct popped, v; try done. apply world_dom_update.
Qed.

Lemma other_turn_inv n id l env p tx w :
  net_inv n -> net_links n !! id = Some l ->
  tp_turn (lk_ctx l) (lk_queue l) env (lk_port l) (net_tx n) (net_world n) = Some (p, tx, w) ->
  net_inv (worked n (<[id := link_turned l p]> (net_links n)) tx w).
Proof.
  intros Hn Hl Hrun. pose proof (ni_links _ Hn id l Hl) as [_ _ _ [Hown _] _ _].
  destruct (tp_turn_quiet _ _ _ _ _ _ _ _ _ Hown Hrun) as (Hown' & Hf & -> & Hw). apply (unread_inv n id l); try done. by apply world_dom_traffic.
Qed.

Lemma taken_below n e id : net_inv n -> e ∈ events_in (net_history n) -> added_id e = Some id -> id < sh_allocator (net_shared n).
Proof. intros Hn He Ha. eapply (announced_below n e); [done|by apply taken_sent|done]. Qed.

Lemma join_inv n l sh :
  net_inv n -> joins (net_shared n) l sh -> link_new l ->
  net_inv (changed n (<[ctx_endpoint_id (lk_ctx l) := l]> (net_links n)) sh).
Proof.
  intros Hn (st & k & w1 & w2 & e & Hb & Ek & Eq & Hann & Hok & Hctx & ->) (Hown & Hnew & Hses & Hout & _).
  assert (Hin : lk_in l = []) by (apply (app_inj_tail _ []) in Hses as [_ ?]; done).
  pose proof (announces_event _ _ _ _ Hann) as (Hid & Hst & Hrt).
  pose proof (announce_leaf (net_shared n) st k w1 (lk_queue l) w2 e (ni_shared _ Hn) (ni_alloc _ Hn) Ek Eq Hid Hst) as Hsh.
  rewrite Hrt in Hsh. specialize (Hsh eq_refl). set (next := sh_allocator (net_shared n)) in *.
  pose proof (send_grows (sh_event_tx (net_shared n)) e) as Hgrow.
  assert (Hsent : sent (send (sh_event_tx (net_shared n)) e).2 = net_events n ++ [e]) by (rewrite send_sent, Hok; done).
  pose proof (fun e0 => taken_below n e0 next Hn) as Htaken. pose proof (fun e0 => announced_below n e0 next Hn) as Hbelow.
  rewrite Hctx. cbn [ctx_endpoint_id].
  destruct Hn as [_ Ha Hh He Hfr Hpo Hg Hls Hsn]. split; cbn; try done.
  - lia.
  - by etrans.
  - intros pid i reason Hi. apply send_elem in Hi as [Hi|Hi]; [|by rewrite <- Hi in Hann]. destruct (Hg pid i reason Hi) as [Hno Hlt].
    split; [|lia]. rewrite lookup_insert_ne by lia. done.
  - intros i l'. destruct (decide (next = i)) as [<-|Hne].
    + rewrite lookup_insert_eq. intros [= <-]. split; cbn; try done.
      * by rewrite Hctx.
      * exists e. unfold net_events. cbn. rewrite Hsent, elem_of_app, list_elem_of_singleton. split; [by right|]. by rewrite Hctx.
      * intros e0 He0 Hid0. specialize (Htaken e0 He0 Hid0). lia.
      * rewrite Hnew. split; [done|apply Framer_new_ok].
      * by rewrite Hnew, Hin.
      * rewrite Hses. destruct (List.filter (from next) (sent (net_tx n))) as [|rf rest] eqn:E; [done|exfalso].
        assert (Hrf : rf ∈ List.filter (from next) (sent (net_tx n))) by (rewrite E; apply list_elem_of_here).
        apply list_elem_of_In, List.filter_In in Hrf as [Hrf Hfrom]. unfold from in Hfrom. bool_hyps.
        destruct (Hsn rf) as (e0 & He0 & Hid0); [by apply list_elem_of_In|]. rewrite Hfrom in Hid0. specialize (Hbelow e0 He0 Hid0). lia.
    + rewrite lookup_insert_ne by done. intros Hl'. pose proof (Hls i l' Hl') as Hlo. apply (link_ok_mono n); [done|done|apply Hlo|done].
  - intros rf (e0 & He0 & Hid0)%Hsn. exists e0. split; [by eapply elem_of_prefix|done].
Qed.

Lemma listen_inv n name st k w :
  net_inv n -> sh_allocator (net_shared n) < 2 ^ 64 - 1 -> stats_alloc st (net_world n) = (k, w) ->
  net_inv (changed n (net_links n)
    {| sh_allocator := sh_allocator (net_shared n) + 1; sh_world := w;
       sh_event_tx := (send (sh_event_tx (net_shared n)) (EndpointAdded (sh_allocator (net_shared n)) name k None)).2 |}).
Proof.
  intros Hn Hb Ek. set (e := EndpointAdded _ name k None).
  pose proof (announce_listener (net_shared n) st k w e (ni_shared _ Hn) (ni_alloc _ Hn) Ek eq_refl eq_refl eq_refl) as Hsh.
  pose proof (send_grows (sh_event_tx (net_shared n)) e) as Hgrow.
  destruct Hn as [_ Ha Hh He Hfr Hpo Hg Hls Hsn]. split; cbn; try done.
  - lia.
  - by etrans.
  - intros pid i reason Hi. apply send_elem in Hi as [Hi|Hi]; [|done]. destruct (Hg pid i reason Hi) as [Hno Hlt]. split; [done|lia].
  - intros i l' Hl'. pose proof (Hls i l' Hl') as Hlo. apply (link_ok_mono n); [done|done|apply Hlo|done].
  - intros rf (e0 & He0 & Hid0)%Hsn. exists e0. split; [by eapply elem_of_prefix|done].
Qed.

Lemma link_handles n id l :
  net_inv n -> net_links n !! id = Some l ->
  0 <= id < sh_allocator (net_shared n) /\ ctx_stats (lk_ctx l) ∈ dom (w_stats (net_world n)) /\
  is_Some (w_queues (net_world n) !! tq_inner (lk_queue l)) /\ tq_stats (lk_queue l) = ctx_stats (lk_ctx l).
Proof.
  intros Hn Hl. destruct (lo_announced _ _ _ (ni_links _ Hn id l Hl)) as (e & He & Hann). apply announces_event in Hann as (Hid & Hst & Hrt).
  pose proof (wr_each _ (ni_shared _ Hn)) as HF. rewrite Forall_forall in HF. destruct (HF e He) as (H1' & H2' & H3' & H4').
  split_and!; [by apply H1'|by apply H1'|by apply H2'| |].
  - apply elem_of_dom, H3'. unfold event_queue. by rewrite Hrt.
  - specialize (H4' _ Hrt). rewrite Hst in H4'. by injection H4'.
Qed.

Lemma renew_inv n id l p k w :
  net_inv n -> net_links n !! id = Some l -> tp_renew (lk_port l) = Some p -> drain_and_discard (lk_queue l) (net_world n) = Done (k, w) ->
  net_inv (worked n (<[id := link_renewed l p]> (net_links n)) (net_tx n) (stats_update (ctx_stats (lk_ctx l)) (store_state Connected) w)).
Proof.
  intros Hn Hl Hnew Hd. destruct (link_handles n id l Hn Hl) as (_ & _ & Hq & _). pose proof (ni_links _ Hn id l Hl) as [_ _ _ [Hown _] _ Hsent].
  destruct (tp_renew_fresh _ _ _ Hown Hnew) as (Hown' & Hf & _). apply (worked_inv n id l); try done; cbn [link_renewed link_with lk_port lk_in].
  - etrans; [|apply world_dom_update]. apply (world_dom_abandoned (lk_queue l)); [right; by exists k|done].
  - by left.
  - rewrite Hf. split; [done|apply Framer_new_ok].
  - by rewrite Hf.
  - unfold lk_sessions in *. cbn [link_renewed link_with lk_past lk_in]. rewrite session_frames_last, app_nil_r. exact Hsent.
Qed.

Lemma leave_inv n id l parent reason w :
  net_inv n -> net_links n !! id = Some l -> abandoned (lk_queue l) (net_world n) w ->
  net_inv (changed n (delete id (net_links n))
    {| sh_allocator := sh_allocator (net_shared n); sh_world := w;
       sh_event_tx := (send (sh_event_tx (net_shared n)) (PeerRemoved parent id reason)).2 |}).
Proof.
  intros Hn Hl Hab. destruct (link_handles n id l Hn Hl) as (Hid & _ & Hq & _).
  pose proof (world_dom_abandoned _ _ _ Hab Hq) as [Hds Hdq]. set (e := PeerRemoved parent id reason).
  pose proof (send_grows (sh_event_tx (net_shared n)) e) as Hgrow. pose proof (ni_shared _ Hn) as Hwd.
  destruct Hn as [_ Ha Hh He Hfr Hpo Hg Hls Hsn]. split; cbn; try done.
  - pose proof (send_sent (sh_event_tx (net_shared n)) e) as Hs. destruct (send (sh_event_tx (net_shared n)) e).1.
    + eapply (wired_mono (net_shared n) _ [e]); [done|done|done|done|done|]. by apply Forall_singleton.
    + eapply (wired_mono (net_shared n) _ []); [done|done|done|done|by rewrite app_nil_r|constructor].
  - by etrans.
  - intros pid i rs Hi. apply send_elem in Hi as [Hi|Hi].
    + destruct (Hg pid i rs Hi) as [Hno Hlt]. split; [|done]. apply lookup_delete_None. by right.
    + injection Hi as -> -> ->. split; [apply lookup_delete_eq|lia].
  - intros i l' [_ Hl']%lookup_delete_Some. pose proof (Hls i l' Hl') as Hlo. apply (link_ok_mono n); [done|done|apply Hlo|done].
  - intros rf (e0 & He0 & Hid0)%Hsn. exists e0. split; [by eapply elem_of_prefix|done].
Qed.

Lemma ingest_static r src frame header now w :
  static <$> routing (ingest_source_frame hash r src frame header now w).1.2 = static <$> routing r.
Proof.
  unfold ingest_source_frame. destruct (routing r !! src) as [sep|]; [|done]. destruct (re_routable sep) as [srs|]; [|done].
  destruct (check_and_insert _ _ _ _) as [[] d]; [done|]. destruct (group (rs_identity srs)) as [name|].
  - cbn [with_dedup groups]. destruct (groups r !! name); reflexivity.
  - cbn [fst snd routing with_routing with_dedup]. apply map_eq. intros id. rewrite !lookup_fmap.
    destruct (decide (src = id)) as [<-|]; [|by rewrite lookup_alter_ne]. rewrite lookup_alter_eq.
    destruct (routing r !! src) as [ep|]; [|done]. cbn. f_equal. unfold static, touch_own. cbn. by destruct (re_routable ep).
Qed.

(** The next event announces nobody who is registered. *)
Lemma next_event_fresh n e :
  net_inv n -> net_events n !! length (events_in (net_history n)) = Some e -> event_fresh (net_router n) e.
Proof.
  intros Hn Hnext. pose proof (prefix_snoc_lookup _ _ _ (ni_events _ Hn) Hnext) as [rest Hrest].
  assert (Hnone : forall id, added_id e = Some id -> routing (net_router n) !! id = None).
  { intros id Hid. destruct (routing (net_router n) !! id) as [ep|] eqn:E; [exfalso|done].
    destruct (registered_taken n id ep Hn E) as (e0 & He0 & Hid0). pose proof (wr_ids _ (ni_shared _ Hn)) as Hnd.
    change (sent (sh_event_tx (net_shared n))) with (net_events n) in Hnd. rewrite Hrest, !omap_app in Hnd.
    apply NoDup_app in Hnd as [(_ & Hd & _)%NoDup_app _]. apply (Hd id); [apply list_elem_of_omap; by exists e0|].
    simpl. rewrite Hid. apply list_elem_of_here. }
  destruct e; simpl; try done; by apply Hnone.
Qed.

(** A link's entry after the router has taken an event. *)
Lemma event_link_wired n e w id l :
  net_inv n -> net_events n !! length (events_in (net_history n)) = Some e -> net_links n !! id = Some l ->
  (added_id e = Some id \/ link_wired (net_router n) id l) -> link_wired (handle_event (net_router n) e w).1 id l.
Proof.
  intros Hn Hnext Hl Hor. pose proof (list_elem_of_lookup_2 _ _ _ Hnext) as Hin. unfold link_wired. rewrite handle_event_routing.
  destruct (decide (event_id e = id)) as [Heq|Hne].
  - destruct (adds e) eqn:Ha.
    + assert (Hid : added_id e = Some id) by (unfold added_id; rewrite Ha, Heq; done).
      destruct (lo_announced _ _ _ (ni_links _ Hn id l Hl)) as (e' & Hin' & Hann). pose proof (announces_event _ _ _ _ Hann) as (Hid' & _).
      rewrite <- (announced_once n e e' id) in Hann by done.
      pose proof (build_routable_state_spec (net_router n) (link_routable l)) as Hbs.
      destruct (build_routable_state (net_router n) (link_routable l)) as [rs r1] eqn:Eb. destruct Hbs as (Hq & Hi & Hm & _).
      destruct e as [i nm k [rt|]|pid i nm k rt|]; try done; destruct Hann as (-> & -> & ->); rewrite lookup_insert_eq;
        cbn [fmap option_fmap option_map]; rewrite Eb; unfold static; cbn; by rewrite Hq, Hi, Hm.
    + destruct e as [| |pid i reason]; try done. simpl in Heq. subst i. destruct (ni_gone _ Hn pid id reason Hin) as [Hno _]. congruence.
  - destruct Hor as [Hid|Hw]; [unfold added_id in Hid; destruct (adds e); congruence|].
    destruct e as [i nm k rt|pid i nm k rt|pid i reason]; simpl in Hne; rewrite ?lookup_insert_ne, ?lookup_delete_ne by done; exact Hw.
Qed.

Lemma event_inv n e r w :
  net_inv n -> net_events n !! length (events_in (net_history n)) = Some e -> handle_event (net_router n) e (net_world n) = (r, w) ->
  net_inv (took n (InEvent e) (net_clock n) r w).
Proof.
  intros Hn Hnext Hrun. pose proof (router_facts n Hn) as (Hri & Hex & _ & _). pose proof (next_event_fresh n e Hn Hnext) as Hf.
  assert (Hr : r = (handle_event (net_router n) e (net_world n)).1) by by rewrite Hrun.
  pose proof (world_dom_event (net_router n) e (net_world n)) as Hw. rewrite Hrun in Hw. cbn [snd] in Hw.
  pose proof (with_world_wired _ w (ni_shared _ Hn) Hw) as Hsh.
  pose proof (event_refines dedup_ttl dedup_cap dedup_cap_ok (net_clock n) (net_router n) (policy (net_history n)) e (net_world n) Hex Hf (ni_policy _ Hn)) as Hpol.
  pose proof (fun id l => event_link_wired n e (net_world n) id l Hn Hnext) as Hlw. pose proof (ni_links _ Hn) as Hlinks.
  pose proof (prefix_snoc_lookup _ _ _ (ni_events _ Hn) Hnext) as Hpre. rewrite <- Hr in Hlw, Hpol.
  destruct Hn as [_ Ha Hh He Hfr Hpo Hg Hls Hsn]. split; cbn; rewrite ?events_in_snoc, ?frames_in_snoc, ?app_nil_r; try done.
  - rewrite Hr. by apply history_event.
  - rewrite foldl_app. exact Hpol.
  - intros id l Hl. pose proof (Hlinks id l Hl) as Hlo. apply (link_ok_mono n); [done|done| |done].
    intros e0. cbn. rewrite events_in_snoc, elem_of_app, list_elem_of_singleton. intros He0 Hid. apply Hlw; [done|].
    destruct He0 as [He0| ->]; [right; by eapply lo_wired|by left].
Qed.

Lemma route_inv n rf now r w :
  net_inv n -> sent (net_tx n) !! length (frames_in (net_history n)) = Some rf -> net_clock n <= now ->
  handle_frame hash iter debug_assertions (net_router n) rf now (net_world n) = Done (r, w) ->
  net_inv (took n (InFrame rf now) now r w).
Proof.
  intros Hn Hnext Hle Hrun. pose proof (router_facts n Hn) as (Hri & Hex & Hown & _).
  pose proof (with_world_wired _ w (ni_shared _ Hn) (world_dom_frame _ _ _ _ _ _ Hrun)) as Hsh.
  destruct (frame_refines hash iter debug_assertions iter_perm dedup_ttl dedup_cap dedup_cap_ok (net_clock n) (net_router n) (policy (net_history n)) rf now (net_world n)
    Hri Hown (ni_policy _ Hn) Hle) as (r1 & w1 & Hrun' & Hpol & _). rewrite Hrun in Hrun'. injection Hrun' as <- <-.
  pose proof (prefix_snoc_lookup _ _ _ (ni_frames _ Hn) Hnext) as Hpre.
  assert (Hst : static <$> routing r = static <$> routing (net_router n)).
  { rewrite (handle_frame_router _ _ _ _ _ _ _ _ _ Hrun). apply ingest_static. }
  destruct Hn as [_ Ha Hh He Hfr Hpo Hg Hls Hsn]. split; cbn; rewrite ?events_in_snoc, ?frames_in_snoc, ?app_nil_r; try done.
  - by eapply history_frame.
  - rewrite foldl_app. exact Hpol.
  - intros id l Hl. pose proof (Hls id l Hl) as Hlo. apply (link_ok_mono n); [done|done| |done].
    intros e0. cbn. rewrite events_in_snoc, app_nil_r. intros He0 Hid. unfold link_wired. rewrite <- lookup_fmap, Hst, lookup_fmap. by eapply lo_wired.
Qed.

Lemma polled_inv n polled : net_inv n -> net_inv (with_polled n polled).
Proof.
  intros [Hsh Ha Hh He Hfr Hpo Hg Hls Hsn]. split; cbn; try done.
  intros id l Hl. pose proof (Hls id l Hl) as Hlo. apply (link_ok_mono n); [done|done|apply Hlo|done].
Qed.

Lemma net_inv_step n n' : net_inv n -> net_step n n' -> net_inv n'.
Proof.
  intros Hn Hstep. destruct Hstep; [by eapply read_inv|by eapply write_inv|by eapply other_turn_inv|by eapply renew_inv|by apply join_inv|by eapply listen_inv|by eapply leave_inv|
    by eapply event_inv|by apply polled_inv|by eapply route_inv|by apply polled_inv].
Qed.

Lemma net_inv_rtc n n' : net_inv n -> rtc net_step n n' -> net_inv n'.
Proof. intros Hn. apply (rtc_ind_r net_inv); [done|]. intros y z _ Hstep Hy. by eapply net_inv_step. Qed.
Lemma net_reachable n0 n : net_init n0 -> rtc net_step n0 n -> net_inv n.
Proof. intros Hi. by apply net_inv_rtc, net_inv_init. Qed.
End Net.
