(* ===== verification/Relay.v ===== *)
(** * From one link to another

    What comes out of a link is what came in through the others, as the router's policy has
    it, over the whole life of the network of [Net]. *)

From stdpp Require Import relations.
From S2P Require Import Prelude Crc Frame MsgTable Framer FramerSpec FramerProps FramerWire LruVec Learn Dedup Filters EndpointStats TxQueue Identity Group Decide Router RouterInv Dispatch RouterProps RouterRun RouterExamples Policy SeqTracker RustNet Spec Session SessionProps Endpoint UdpServer UdpClient TcpServer Transport Spawn Net.
#[local] Open Scope Z_scope.
#[local] Opaque parse try_next_frame crc16_update.

(** ** The fate of queued frames *)

Definition accepted (fate : list (Bytes * verdict)) : list Bytes := omap (fun e => match e.2 with Accepted => Some e.1 | _ => None end) fate.
Definition met_with (v : verdict) (fate : list (Bytes * verdict)) : nat := length (filter (fun e => e.2 = v) fate).
Definition all_met (v : verdict) (frames : list Bytes) : list (Bytes * verdict) := (fun x => (x, v)) <$> frames.

Lemma accepted_app f g : accepted (f ++ g) = accepted f ++ accepted g.
Proof. apply omap_app. Qed.
Lemma met_with_app v f g : met_with v (f ++ g) = (met_with v f + met_with v g)%nat.
Proof. unfold met_with. by rewrite filter_app, length_app. Qed.
Lemma fst_all_met v frames : (all_met v frames).*1 = frames.
Proof. unfold all_met. rewrite <- list_fmap_compose. apply list_fmap_id. Qed.
Lemma accepted_all v frames : accepted (all_met v frames) = if decide (v = Accepted) then frames else [].
Proof. induction frames as [|x frames IH]; [by case_decide|]. cbn. unfold accepted, all_met in IH. rewrite IH. by destruct v. Qed.
Lemma met_with_all v v' frames : met_with v (all_met v' frames) = if decide (v' = v) then length frames else 0%nat.
Proof.
  induction frames as [|x frames IH]; [by case_decide|]. unfold met_with, all_met in *. rewrite fmap_cons, filter_cons. cbn [snd].
  case_decide; [|done]. cbn [length]. by rewrite IH.
Qed.
Lemma met_with_same v frames : met_with v (all_met v frames) = length frames.
Proof. by rewrite met_with_all, decide_True. Qed.

Section Relay.
Context `{MsgTable} {Q : Type} `{ArrayQueueLaws Q} {C : Type} `{SenderLaws RouterFrame C} {CE : Type} `{SenderLaws EndpointEvent CE}.
Context {CS : Type} `{StatsSender CS} {P : Type} `{!Transport Q C P} `{!TransportLaws Q C P}.
Context (hash : Bytes -> Z) (iter : registry -> list (EndpointId * RegisteredEndpoint)) (debug_assertions : bool).
Hypothesis iter_perm : forall m, iter m ≡ₚ map_to_list m.
Context (stats_tx : CS) (dedup_ms : Z) (window : nat).
Hypothesis dedup_ms_ok : 0 <= dedup_ms.
Implicit Types (w : World Q) (tx : C) (sh : Shared Q CE) (n : Net Q C CE CS P) (l la lb : Link P) (r : Router CS).
Abbreviation net_step := (net_step hash iter debug_assertions).
Abbreviation net_inv := (net_inv hash iter debug_assertions stats_tx dedup_ms window).
Abbreviation net_init := (net_init stats_tx dedup_ms window).
Abbreviation policy := (policy hash dedup_ms window).
Abbreviation push_frame frame := (fun q => (aq_force_push q frame).2).

(** ** What a destination gets *)

(** What [b] is to get of what the router has taken. *)
Definition due n (b : EndpointId) : list Bytes := deliveries hash (dedup_ttl dedup_ms) (dedup_cap window) b policy_init (net_history n).

(** No more senders heard on [b]'s side than a learn table holds. *)
Definition in_bounds n (b : EndpointId) : Prop :=
  forall mb, po_members (policy (net_history n)) !! b = Some mb -> exact_for (policy (net_history n)) b mb.

(** A queue's books: what went in has left, each frame with its verdict, or is still there.
    No more frames are lost than there were faults, and without faults none is lost or
    dropped while all of them fit. *)
Definition ledger (q : Q) (cap : nat) (ins : list Bytes) (fate : list (Bytes * verdict)) (faults : nat) : Prop :=
  queue_ok q /\ aq_cap q = cap /\ ins = fate.*1 ++ aq_elems q /\ (met_with Lost fate <= faults)%nat /\
  (faults = 0%nat -> (length ins <= cap)%nat -> accepted fate = fate.*1).

(** What was due to [b] is on the books of its queue; its transport has accepted what was
    written, and [dropped_tx] counts what was dropped. *)
Definition served n (b : EndpointId) l : Prop :=
  exists q fate, w_queues (net_world n) !! tq_inner (lk_queue l) = Some q /\
    ledger q DEFAULT_TX_QUEUE_FRAMES (due n b) fate (lk_faults l) /\ lk_out l = accepted fate /\
    dropped_at (ctx_stats (lk_ctx l)) (net_world n) = Some (wrap 64 (Z.of_nat (met_with Counted fate))).

(** Work that does not concern [b]. *)
Lemma served_same n n' b l l' :
  net_history n' = net_history n -> lk_queue l' = lk_queue l -> lk_ctx l' = lk_ctx l -> lk_out l' = lk_out l -> lk_faults l' = lk_faults l ->
  w_queues (net_world n') !! tq_inner (lk_queue l) = w_queues (net_world n) !! tq_inner (lk_queue l) ->
  dropped_at (ctx_stats (lk_ctx l)) (net_world n') = dropped_at (ctx_stats (lk_ctx l)) (net_world n) ->
  served n b l -> served n' b l'.
Proof.
  intros Hh Hq Hc Ho Hf Hqs Hds (q & fate & Hq' & Hled & Hout & Hdrop). exists q, fate. unfold due. rewrite Hh, Hq, Hc, Ho, Hf, Hqs, Hds. done.
Qed.

(** Two links share neither queue nor stats. *)
Lemma other_handles n id l b lb :
  net_inv n -> net_links n !! id = Some l -> net_links n !! b = Some lb -> id <> b ->
  tq_inner (lk_queue l) <> tq_inner (lk_queue lb) /\ ctx_stats (lk_ctx l) <> ctx_stats (lk_ctx lb).
Proof.
  intros Hn Hl Hlb Hne. pose proof (ni_shared _ _ _ _ _ _ _ Hn) as Hw.
  destruct (lo_announced _ _ _ (ni_links _ _ _ _ _ _ _ Hn id l Hl)) as (e & He & (Hid & Hst & Hrt)%announces_event).
  destruct (lo_announced _ _ _ (ni_links _ _ _ _ _ _ _ Hn b lb Hlb)) as (e' & He' & (Hid' & Hst' & Hrt')%announces_event).
  split; intros Heq; apply Hne.
  - assert (e = e') as -> by (eapply (omap_NoDup_inj event_queue); [apply (wr_queues _ Hw)|done|done|unfold event_queue; by rewrite Hrt|
      unfold event_queue; rewrite Hrt'; cbn; by rewrite Heq]). congruence.
  - assert (e = e') as -> by (eapply (omap_NoDup_inj event_stats); [apply (wr_stats _ Hw)|done|done|done|by rewrite Heq]). congruence.
Qed.

(** An endpoint that is not registered yet has its handles to itself. *)
Lemma unregistered_handles n b lb :
  net_inv n -> net_links n !! b = Some lb -> routing (net_router n) !! b = None ->
  (forall id ep rs, routing (net_router n) !! id = Some ep -> re_routable ep = Some rs -> tq_inner (rs_tx_queue rs) <> tq_inner (lk_queue lb)) /\
  (forall id ep, routing (net_router n) !! id = Some ep -> re_stats ep <> ctx_stats (lk_ctx lb)).
Proof.
  intros Hn Hlb Hnone. pose proof (ni_shared _ _ _ _ _ _ _ Hn) as Hw.
  destruct (lo_announced _ _ _ (ni_links _ _ _ _ _ _ _ Hn b lb Hlb)) as (e & He & (Hid & Hst & Hrt)%announces_event).
  destruct (router_facts _ _ _ _ _ _ _ Hn) as (_ & _ & _ & Hreg).
  assert (Hclash : forall id ep e', routing (net_router n) !! id = Some ep -> registered_by e' id ep -> e' <> e).
  { intros id ep e' Hid' (Ha & _) ->. rewrite Hid in Ha. injection Ha as ->. congruence. }
  split; intros id ep; [intros rs|]; intros Hep; [intros Hrs|]; intros Heq; destruct (Hreg id ep Hep) as (e' & He' & Hby);
    apply (Hclash id ep e' Hep Hby); pose proof (taken_sent _ _ _ _ _ _ _ _ Hn He') as Hin; destruct Hby as (_ & Hs & Hr).
  - eapply (omap_NoDup_inj event_queue); [apply (wr_queues _ Hw)|done|done|unfold event_queue; rewrite Hrs in Hr; destruct (event_routable e') as [rt|]; [|done]|
      unfold event_queue; by rewrite Hrt]. cbn in Hr |- *. injection Hr as ->. by rewrite Heq.
  - eapply (omap_NoDup_inj event_stats); [apply (wr_stats _ Hw)|done|done|by rewrite Hs, Heq|done].
Qed.

(** The policy's member and the router's entry of a link. *)
Lemma link_policy n b lb :
  net_inv n -> net_links n !! b = Some lb ->
  (routing (net_router n) !! b = None /\ po_members (policy (net_history n)) !! b = None) \/
  exists ep rs, routing (net_router n) !! b = Some ep /\ re_routable ep = Some rs /\ re_stats ep = ctx_stats (lk_ctx lb) /\
    rs_tx_queue rs = lk_queue lb /\ member_of rs = link_member lb /\ po_members (policy (net_history n)) !! b = Some (link_member lb).
Proof.
  intros Hn Hlb. pose proof (ni_policy _ _ _ _ _ _ _ Hn) as Him. destruct (routing (net_router n) !! b) as [ep0|] eqn:E.
  - right. destruct (registered_taken _ _ _ _ _ _ _ _ _ Hn E) as (e & He & Hid).
    destruct (link_entry _ _ _ _ _ _ n b lb e Hn Hlb He Hid) as (ep & rs & Hep & Hrs & Hs & Hq & Hm). exists ep, rs.
    split_and!; [congruence|done..|]. rewrite <- Hm. by eapply implements_member.
  - left. split; [done|]. by rewrite (im_members _ _ _ _ _ Him), E.
Qed.

Lemma ledger_push q cap ins fate faults x :
  ledger q cap ins fate faults ->
  ledger (aq_force_push q x).2 cap (ins ++ [x]) (fate ++ all_met Counted (option_list (aq_force_push q x).1)) faults /\
  evicts x (Some q) = bool_decide (is_Some (aq_force_push q x).1).
Proof.
  intros (Hok & Hcap & Hins & Hlost & Hno). destruct (aq_force_push_split q x Hok) as [Hsp Hev]. split; [split_and!|].
  - by apply aq_force_push_ok.
  - by rewrite aq_force_push_cap.
  - by rewrite fmap_app, fst_all_met, Hins, <- !app_assoc, Hsp.
  - rewrite met_with_app, met_with_all, decide_False by done. lia.
  - rewrite length_app. cbn. intros Hf Hle. rewrite (proj2 Hev), app_nil_r; [apply Hno; [done|lia]|]. rewrite Hins, length_app in Hle. lia.
  - unfold evicts. by destruct (aq_force_push q x).1.
Qed.

Lemma ledger_pop q cap ins fate faults v :
  ledger q cap ins fate faults ->
  ledger (aq_pop q).2 cap ins (fate ++ all_met v (option_list (head (aq_elems q)))) (match v with Accepted => faults | _ => S faults end).
Proof.
  intros (Hok & Hcap & Hins & Hlost & Hno). destruct (aq_pop_elems q) as [_ Ht]. split_and!.
  - by apply aq_pop_ok.
  - by rewrite aq_pop_cap.
  - rewrite Ht, Hins, fmap_app, fst_all_met, <- app_assoc. f_equal. by destruct (aq_elems q).
  - rewrite met_with_app, met_with_all. destruct v; case_decide; try done; destruct (head (aq_elems q)); cbn; lia.
  - destruct v; [|done..]. intros Hf Hle. by rewrite accepted_app, accepted_all, fmap_app, fst_all_met, decide_True, Hno.
Qed.

Lemma ledger_drain q q' cap ins fate faults :
  ledger q cap ins fate faults -> aq_elems q' = [] -> aq_cap q' = aq_cap q ->
  ledger q' cap ins (fate ++ all_met Counted (aq_elems q)) (S faults).
Proof.
  intros ([Hc Hl] & Hcap & Hins & Hlost & Hno) He Hc'. split_and!; [|congruence| | |done].
  - split; [by rewrite Hc'|]. rewrite He. cbn. lia.
  - by rewrite fmap_app, fst_all_met, He, app_nil_r.
  - rewrite met_with_app, met_with_all, decide_False by done. lia.
Qed.

(** ** Serving over time *)

(** What the router takes leaves a connected link connected, and only adds to what is heard on
    its side. *)
Lemma in_bounds_took n i now r w b lb :
  net_inv n -> net_links n !! b = Some lb ->
  (forall e, i = InEvent e -> net_events n !! length (events_in (net_history n)) = Some e) ->
  in_bounds (took n i now r w) b -> in_bounds n b.
Proof.
  intros Hn Hlb Hev Hb mb Hmb.
  assert (Hstep : policy (net_history n ++ [i]) = policy_step hash (dedup_ttl dedup_ms) (dedup_cap window) (policy (net_history n)) i) by apply policy_run_snoc.
  destruct (heard_grows hash (dedup_ttl dedup_ms) (dedup_cap window) b mb (policy (net_history n)) i Hmb) as [Hmb' Hgrow].
  - intros parent reason ->. destruct (ni_gone _ _ _ _ _ _ _ Hn parent b reason); [|congruence].
    by eapply list_elem_of_lookup_2, Hev.
  - intros e -> Hadd <-. pose proof (next_event_fresh _ _ _ _ _ _ n e Hn (Hev e eq_refl)) as Hf.
    destruct (link_policy n (event_id e) lb Hn Hlb) as [[_ Hnone]|(ep & rs & Hep & _)]; [congruence|]. destruct e; simpl in *; try done; congruence.
  - rewrite <- Hstep in Hmb', Hgrow. destruct (Hb mb) as [|Hsz]; [exact Hmb'|by left|right]. etrans; [|exact Hsz]. by apply subseteq_size.
Qed.

(** A link moved on: it is served as before if its books are as before, and the others are. *)
Lemma served_worked n id l l' tx w b lb :
  net_inv n -> net_links n !! id = Some l -> (forall l0, net_links n !! b = Some l0 -> served n b l0) ->
  (served n id l -> served (worked n (<[id := l']> (net_links n)) tx w) id l') ->
  (forall h, h <> tq_inner (lk_queue l) -> w_queues w !! h = w_queues (net_world n) !! h) ->
  (forall k, k <> ctx_stats (lk_ctx l) -> dropped_at k w = dropped_at k (net_world n)) ->
  <[id := l']> (net_links n) !! b = Some lb -> served (worked n (<[id := l']> (net_links n)) tx w) b lb.
Proof.
  intros Hn Hl Hs Hown Hqs Hds Hlb. apply lookup_insert_Some in Hlb as [[<- <-]|[Hne Hlb]]; [by apply Hown, Hs|].
  destruct (other_handles n id l b lb Hn Hl Hlb Hne) as [Hq Hk]. apply (served_same n _ b lb); try done; [by apply Hqs|by apply Hds|by apply Hs].
Qed.

Lemma served_quiet n id l l' tx w b lb :
  net_inv n -> net_links n !! id = Some l -> (forall l0, net_links n !! b = Some l0 -> served n b l0) ->
  lk_queue l' = lk_queue l -> lk_ctx l' = lk_ctx l -> lk_out l' = lk_out l -> lk_faults l' = lk_faults l -> same_traffic (net_world n) w ->
  <[id := l']> (net_links n) !! b = Some lb -> served (worked n (<[id := l']> (net_links n)) tx w) b lb.
Proof.
  intros Hn Hl Hs Hq Hc Ho Hf [Hqs Hds] Hlb. apply (served_worked n id l); try done; [|intros h _; by rewrite Hqs].
  apply (served_same n _ id l); try done. cbn. by rewrite Hqs.
Qed.

Lemma served_read n id l env d p tx w b lb :
  net_inv n -> net_links n !! id = Some l ->
  tp_read (lk_ctx l) (lk_queue l) env d (lk_port l) (net_tx n) (net_world n) = Some (p, tx, w) ->
  (forall l0, net_links n !! b = Some l0 -> served n b l0) ->
  <[id := link_read l p d]> (net_links n) !! b = Some lb ->
  served (worked n (<[id := link_read l p d]> (net_links n)) tx w) b lb.
Proof.
  intros Hn Hl Hrun Hs Hlb. destruct (lo_own _ _ _ (ni_links _ _ _ _ _ _ _ Hn id l Hl)) as [Hown Hok].
  destruct (tp_read_delivers _ _ _ _ _ _ _ _ _ _ Hown Hok Hrun) as (_ & _ & Hw). by apply (served_quiet n id l).
Qed.

Lemma served_turn n id l env p tx w b lb :
  net_inv n -> net_links n !! id = Some l ->
  tp_turn (lk_ctx l) (lk_queue l) env (lk_port l) (net_tx n) (net_world n) = Some (p, tx, w) ->
  (forall l0, net_links n !! b = Some l0 -> served n b l0) ->
  <[id := link_turned l p]> (net_links n) !! b = Some lb ->
  served (worked n (<[id := link_turned l p]> (net_links n)) tx w) b lb.
Proof.
  intros Hn Hl Hrun Hs Hlb. destruct (lo_own _ _ _ (ni_links _ _ _ _ _ _ _ Hn id l Hl)) as [Hown _].
  destruct (tp_turn_quiet _ _ _ _ _ _ _ _ _ Hown Hrun) as (_ & _ & _ & Hw). by apply (served_quiet n id l).
Qed.

(** What a verdict does to the store. *)
Lemma disposed_effect v k tq w w' q :
  disposed v k tq w w' -> w_queues w !! tq_inner tq = Some q ->
  w_queues w' = <[tq_inner tq := (aq_pop q).2]> (w_queues w) /\
  forall i, dropped_at i w' = (match v, head (aq_elems q) with Counted, Some _ => if decide (i = k) then fun x => wrap 64 (x + 1) else id | _, _ => id end) <$> dropped_at i w.
Proof.
  intros Hd Hq. unfold disposed in Hd. rewrite (pop_cases _ _ q Hq) in Hd. destruct (head (aq_elems q)) as [x|], v; destruct Hd as [Hqs Hds];
    (split; [by rewrite Hqs|]); intros i; rewrite Hds; try (unfold dropped_at; cbn; by rewrite option_fmap_id).
  unfold dropped_at. cbn [w_stats stats_update set_queue]. destruct (decide (i = k)) as [->|Hi].
  - rewrite lookup_alter_eq. destruct (w_stats w !! k); [|done]. cbn [fmap option_fmap option_map]. by rewrite load_fetch_add.
  - rewrite lookup_alter_ne by done. by rewrite option_fmap_id.
Qed.

Lemma served_write n id l env v p tx w b lb :
  net_inv n -> net_links n !! id = Some l ->
  tp_write (lk_ctx l) (lk_queue l) env (lk_port l) (net_tx n) (net_world n) = Some (v, p, tx, w) ->
  (forall l0, net_links n !! b = Some l0 -> served n b l0) ->
  <[id := link_wrote l p v (TxQueue_pop (lk_queue l) (net_world n)).1]> (net_links n) !! b = Some lb ->
  served (worked n (<[id := link_wrote l p v (TxQueue_pop (lk_queue l) (net_world n)).1]> (net_links n)) tx w) b lb.
Proof.
  intros Hn Hl Hrun Hs Hlb. destruct (lo_own _ _ _ (ni_links _ _ _ _ _ _ _ Hn id l Hl)) as [Hown _].
  destruct (tp_write_disposes _ _ _ _ _ _ _ _ _ _ Hown Hrun) as (_ & _ & _ & Hdis).
  destruct (link_handles _ _ _ _ _ _ n id l Hn Hl) as (_ & _ & [q0 Hq0] & _). destruct (disposed_effect _ _ _ _ _ _ Hdis Hq0) as [Hqs Hds].
  apply (served_worked n id l); try done.
  - intros (q & fate & Hq & Hled & Hout & Hdrop). rewrite Hq0 in Hq. injection Hq as <-. unfold served, due.
    replace (net_world (worked n _ tx w)) with w by done. cbn [worked net_history]. fold (due n id).
    rewrite (pop_cases _ _ q0 Hq0). cbn [fst].
    assert (Hst : lk_queue (link_wrote l p v (head (aq_elems q0))) = lk_queue l /\ lk_ctx (link_wrote l p v (head (aq_elems q0))) = lk_ctx l) by by destruct v.
    destruct Hst as [-> ->]. rewrite Hqs, Hds, Hdrop, lookup_insert_eq. eexists _, _. split_and!; [done| | |].
    + pose proof (ledger_pop _ _ _ _ _ v Hled) as Hled'. by destruct v.
    + rewrite accepted_app, accepted_all. destruct v; cbn; by rewrite ?app_nil_r, Hout.
    + rewrite met_with_app, met_with_all.
      destruct v, (head (aq_elems q0)); repeat case_decide; try done; cbn; rewrite ?wrap_wrap_add; do 2 f_equal; lia.
  - intros h Hh. by rewrite Hqs, lookup_insert_ne.
  - intros k Hk. rewrite Hds. destruct v, (head (aq_elems q0)); rewrite ?decide_False by done; by rewrite option_fmap_id.
Qed.

Lemma served_renew n id l p k w b lb :
  net_inv n -> net_links n !! id = Some l -> drain_and_discard (lk_queue l) (net_world n) = Done (k, w) ->
  (forall l0, net_links n !! b = Some l0 -> served n b l0) ->
  let w' := stats_update (ctx_stats (lk_ctx l)) (store_state Connected) w in
  <[id := link_renewed l p]> (net_links n) !! b = Some lb ->
  served (worked n (<[id := link_renewed l p]> (net_links n)) (net_tx n) w') b lb.
Proof.
  intros Hn Hl Hd Hs w' Hlb. destruct (link_handles _ _ _ _ _ _ n id l Hn Hl) as (_ & _ & [q0 Hq0] & Htq).
  destruct (drain_and_discard_Done _ _ q0 Hq0) as (q' & He & Hc & Hd'). rewrite Hd in Hd'. injection Hd' as -> Hw.
  assert (Hqs : w_queues w' = <[tq_inner (lk_queue l) := q']> (w_queues (net_world n))) by (unfold w'; rewrite Hw; by destruct (0 <? _)%nat).
  assert (Hds : forall i, dropped_at i w' =
    (if decide (i = ctx_stats (lk_ctx l) /\ (0 < length (aq_elems q0))%nat) then (fun x => wrap 64 (x + Z.of_nat (length (aq_elems q0)))) else Datatypes.id) <$> dropped_at i (net_world n)).
  { intros i. unfold w'. rewrite dropped_at_update, Hw by done. destruct (Nat.ltb_spec 0 (length (aq_elems q0))) as [Hlt|Hge].
    - rewrite Htq. unfold dropped_at. cbn [w_stats stats_update set_queue]. destruct (decide (i = ctx_stats (lk_ctx l))) as [->|Hi].
      + rewrite lookup_alter_eq, decide_True by done. destruct (w_stats (net_world n) !! ctx_stats (lk_ctx l)); [|done]. cbn [fmap option_fmap option_map]. by rewrite load_fetch_add.
      + rewrite lookup_alter_ne, decide_False by naive_solver. by rewrite option_fmap_id.
    - rewrite decide_False by lia. by rewrite option_fmap_id. }
  apply (served_worked n id l); try done.
  - intros (q & fate & Hq & Hled & Hout & Hdrop). rewrite Hq0 in Hq. injection Hq as <-. unfold served, due.
    replace (net_world (worked n _ _ w')) with w' by done. cbn [worked net_history link_renewed link_with lk_queue lk_ctx lk_out lk_faults]. fold (due n id).
    rewrite Hqs, Hds, Hdrop, lookup_insert_eq. eexists _, _. split_and!; [done|by eapply ledger_drain| |].
    + by rewrite accepted_app, accepted_all, app_nil_r.
    + rewrite met_with_app, met_with_same. destruct (decide (ctx_stats (lk_ctx l) = _ /\ _)) as [Hpos|Hpos]; cbn; rewrite ?wrap_wrap_add; do 2 f_equal; lia.
  - intros h Hh. by rewrite Hqs, lookup_insert_ne.
  - intros i Hi. rewrite Hds, decide_False by naive_solver. by rewrite option_fmap_id.
Qed.

(** New handles are not those of a link. *)
Lemma fresh_handles n b lb st k w1 :
  net_inv n -> net_links n !! b = Some lb -> stats_alloc st (net_world n) = (k, w1) ->
  k <> ctx_stats (lk_ctx lb) /\ w_queues w1 = w_queues (net_world n) /\
  dropped_at (ctx_stats (lk_ctx lb)) w1 = dropped_at (ctx_stats (lk_ctx lb)) (net_world n) /\ dropped_at k w1 = Some 0.
Proof.
  intros Hn Hlb Ek. destruct (link_handles _ _ _ _ _ _ n b lb Hn Hlb) as (_ & Hst & _). pose proof (new_handles (net_world n) st) as Hnew.
  rewrite Ek in Hnew. destruct (TxQueue_new _ _ _). destruct Hnew as (Hk & _). unfold stats_alloc in Ek. injection Ek as <- <-.
  assert (Hne : fresh (dom (w_stats (net_world n))) <> ctx_stats (lk_ctx lb)) by (intros Heq; apply Hk; by rewrite Heq).
  split_and!; [done|done| |]; unfold dropped_at; cbn; [by rewrite lookup_insert_ne|]. by rewrite lookup_insert_eq.
Qed.

Lemma new_counter (st : EndpointState) w k w1 : stats_alloc st w = (k, w1) -> dropped_at k w1 = Some 0.
Proof. unfold stats_alloc. intros [= <- <-]. unfold dropped_at. cbn. by rewrite lookup_insert_eq. Qed.

Lemma queue_new_at cap0 k w tq w2 :
  TxQueue_new cap0 k w = (tq, w2) -> w_stats w2 = w_stats w /\ w_queues w2 !! tq_inner tq = Some (aq_new (Nat.max cap0 1)) /\
  forall h, is_Some (w_queues w !! h) -> h <> tq_inner tq /\ w_queues w2 !! h = w_queues w !! h.
Proof.
  unfold TxQueue_new. intros [= <- <-]. cbn. split_and!; [done|by rewrite lookup_insert_eq|]. intros h Hh.
  assert (Hne : h <> fresh (dom (w_queues w))) by (intros ->; apply (is_fresh (dom (w_queues w))); by apply elem_of_dom). split; [done|]. by rewrite lookup_insert_ne.
Qed.

(** Nothing is due to an endpoint that was never announced. *)
Lemma due_new n : net_inv n -> due n (sh_allocator (net_shared n)) = [].
Proof.
  intros Hn. unfold due. apply deliveries_stranger; [done|]. intros e He%elem_of_events_in Ha Hid.
  assert (Hadd : added_id e = Some (sh_allocator (net_shared n))) by (unfold added_id; by rewrite Ha, Hid).
  pose proof (taken_below _ _ _ _ _ _ n e _ Hn He Hadd). lia.
Qed.

Lemma served_join n l sh b lb :
  net_inv n -> joins (net_shared n) l sh -> link_new (Q := Q) (C := C) l ->
  (forall l0, net_links n !! b = Some l0 -> served n b l0) ->
  <[ctx_endpoint_id (lk_ctx l) := l]> (net_links n) !! b = Some lb ->
  served (changed n (<[ctx_endpoint_id (lk_ctx l) := l]> (net_links n)) sh) b lb.
Proof.
  intros Hn (st & k & w1 & w2 & e & Hb & Ek & Eq & Hann & Hok & Hctx & ->) (Hown & Hnew & Hin & Hout & Hfl) Hs Hlb.
  destruct (queue_new_at _ _ _ _ _ Eq) as (Hst2 & Hq2 & Hold). rewrite Hctx in Hlb. cbn in Hlb.
  apply lookup_insert_Some in Hlb as [[<- <-]|[Hne Hlb]].
  - exists (aq_new DEFAULT_TX_QUEUE_FRAMES), []. unfold due. cbn [changed net_history]. fold (due n (sh_allocator (net_shared n))). rewrite (due_new n Hn), Hctx.
    cbn. unfold net_world. cbn. split_and!; [exact Hq2|split_and!; [apply (aq_new_ok DEFAULT_TX_QUEUE_FRAMES)|apply aq_new_cap|by rewrite aq_new_elems|cbn; lia|done]|done|].
    unfold dropped_at. rewrite Hst2. exact (new_counter _ _ _ _ Ek).
  - destruct (fresh_handles n b lb st k w1 Hn Hlb Ek) as (_ & Hqs & Hds & _). destruct (link_handles _ _ _ _ _ _ n b lb Hn Hlb) as (_ & _ & Hq & _).
    apply (served_same n _ b lb); try done; [| |by apply Hs]; cbn; unfold net_world; cbn.
    + rewrite (proj2 (Hold _ ltac:(by rewrite Hqs))). by rewrite Hqs.
    + unfold dropped_at. rewrite Hst2. exact Hds.
Qed.

Lemma served_leave n id l parent reason w b lb :
  net_inv n -> net_links n !! id = Some l -> abandoned (lk_queue l) (net_world n) w ->
  (forall l0, net_links n !! b = Some l0 -> served n b l0) -> delete id (net_links n) !! b = Some lb ->
  served (changed n (delete id (net_links n))
    {| sh_allocator := sh_allocator (net_shared n); sh_world := w;
       sh_event_tx := (send (sh_event_tx (net_shared n)) (PeerRemoved parent id reason)).2 |}) b lb.
Proof.
  intros Hn Hl Hab Hs [Hne Hlb]%lookup_delete_Some. destruct (other_handles n id l b lb Hn Hl Hlb Hne) as [Hq Hst].
  destruct (link_handles _ _ _ _ _ _ n id l Hn Hl) as (_ & _ & [q Hlq] & Htq).
  apply (served_same n _ b lb); try done; [| |by apply Hs]; cbn; unfold net_world at 1; cbn; (destruct Hab as [->|(k & Hk)]; [done|]);
    destruct (drain_and_discard_Done _ _ q Hlq) as (q' & _ & _ & Hd); rewrite Hk in Hd; injection Hd as _ ->.
  - destruct (0 <? _)%nat; cbn; by rewrite lookup_insert_ne.
  - unfold dropped_at. destruct (0 <? _)%nat; cbn; [|done]. rewrite lookup_alter_ne; [done|]. by rewrite Htq.
Qed.

Lemma event_traffic r e w : w_queues (handle_event r e w).2 = w_queues w /\ forall k, dropped_at k (handle_event r e w).2 = dropped_at k w.
Proof.
  destruct e as [id nm k [rt|]|pid id nm k rt|pid id reason]; cbn [handle_event]; try (destruct (build_routable_state r rt); done); [done|].
  destruct (routing r !! id); [|done]. cbn. split; [done|]. intros k. by apply dropped_at_update.
Qed.

Lemma due_took n i now r w b : due (took n i now r w) b = due n b ++ delivery hash (dedup_ttl dedup_ms) (dedup_cap window) b (policy (net_history n)) i.
Proof. unfold due. cbn. apply deliveries_snoc. Qed.

Lemma served_event n e r w b lb :
  handle_event (net_router n) e (net_world n) = (r, w) -> served n b lb -> served (took n (InEvent e) (net_clock n) r w) b lb.
Proof.
  intros Hrun (q & fate & Hq & Hled & Hout & Hdrop). destruct (event_traffic (net_router n) e (net_world n)) as [Hqs Hds]. rewrite Hrun in Hqs, Hds. cbn in Hqs, Hds.
  exists q, fate. rewrite due_took. cbn [delivery]. rewrite app_nil_r. change (net_world (took n (InEvent e) (net_clock n) r w)) with w.
  by rewrite Hqs, Hds.
Qed.

(** The policy's decision on a frame, on the books. *)
Lemma served_routed n rf now r w b lb (got : bool) :
  delivery hash (dedup_ttl dedup_ms) (dedup_cap window) b (policy (net_history n)) (InFrame rf now) = (if got then [rf_frame rf] else []) ->
  (let q := w_queues (net_world n) !! tq_inner (lk_queue lb) in
   w_queues w !! tq_inner (lk_queue lb) = (if got then push_frame (rf_frame rf) <$> q else q) /\
   dropped_at (ctx_stats (lk_ctx lb)) w =
     (if got && evicts (rf_frame rf) q then (fun v => wrap 64 (v + 1)) else id) <$> dropped_at (ctx_stats (lk_ctx lb)) (net_world n)) ->
  served n b lb -> served (took n (InFrame rf now) now r w) b lb.
Proof.
  intros Hdel [Hq' Hd'] (q & fate & Hq & Hled & Hout & Hdrop). unfold served. rewrite due_took, Hdel.
  change (net_world (took n (InFrame rf now) now r w)) with w. rewrite Hq', Hd', Hq, Hdrop. destruct got; cbn [andb fmap option_fmap option_map].
  - destruct (ledger_push q _ _ fate _ (rf_frame rf) Hled) as [Hled' Hev]. eexists _, _. split_and!; [done|exact Hled'| |].
    + by rewrite accepted_app, accepted_all, app_nil_r.
    + rewrite Hev, met_with_app, met_with_same. destruct (aq_force_push q (rf_frame rf)).1; cbn; f_equal.
      * rewrite wrap_wrap_add. f_equal. lia.
      * f_equal. lia.
  - rewrite app_nil_r. by exists q, fate.
Qed.

Lemma served_route n rf now r w b lb :
  net_inv n -> net_clock n <= now ->
  handle_frame hash iter debug_assertions (net_router n) rf now (net_world n) = Done (r, w) ->
  net_links n !! b = Some lb -> in_bounds (took n (InFrame rf now) now r w) b ->
  served n b lb -> served (took n (InFrame rf now) now r w) b lb.
Proof.
  intros Hn Hle Hrun Hlb Hex. destruct (router_facts _ _ _ _ _ _ n Hn) as (Hri & _ & Hown & _).
  destruct (frame_refines hash iter debug_assertions iter_perm (dedup_ttl dedup_ms) (dedup_cap window) (dedup_cap_ok window) (net_clock n) (net_router n)
    (policy (net_history n)) rf now (net_world n) Hri Hown (ni_policy _ _ _ _ _ _ _ Hn) Hle) as (r1 & w1 & Hrun' & _ & Hreg & Hfq & Hfs).
  rewrite Hrun in Hrun'. injection Hrun' as <- <-.
  destruct (link_policy n b lb Hn Hlb) as [[Hnone Hpn]|(ep & rs & Hep & Hrs & Hst & Hq & Hm & Hmb)].
  - destruct (unregistered_handles n b lb Hn Hlb Hnone) as [Huq Hus]. apply (served_routed n rf now r w b lb false); [by apply delivery_member|].
    cbn. split; [by apply Hfq|]. unfold dropped_at. rewrite (Hfs _ Hus). by rewrite option_fmap_id.
  - apply (served_routed n rf now r w b lb (gets hash (dedup_ttl dedup_ms) (dedup_cap window) b (policy (net_history n)) rf now)); [done|].
    rewrite <- Hq, <- Hst. apply (Hreg b ep rs Hep Hrs). rewrite Hm.
    assert (Hp : policy (net_history (took n (InFrame rf now) now r w)) =
      policy_step hash (dedup_ttl dedup_ms) (dedup_cap window) (policy (net_history n)) (InFrame rf now)) by apply policy_run_snoc.
    rewrite <- Hp. apply Hex. rewrite Hp. cbn [policy_step]. destruct (policy_frame _ _ _ _ _ _) as [[src p']|] eqn:E; [|done].
    by rewrite (policy_frame_members _ _ _ _ _ _ _ _ E).
Qed.

Lemma served_listen n st k w sh b lb :
  net_inv n -> stats_alloc st (net_world n) = (k, w) -> sh_world sh = w -> net_links n !! b = Some lb ->
  served n b lb -> served (changed n (net_links n) sh) b lb.
Proof.
  intros Hn Ek Hw Hlb. destruct (fresh_handles n b lb st k w Hn Hlb Ek) as (_ & Hqs & Hds & _).
  apply (served_same n _ b lb); try done; unfold net_world at 1; cbn; rewrite Hw; [by rewrite Hqs|done].
Qed.

Lemma served_step n n' b :
  net_inv n -> net_step n n' -> in_bounds n' b ->
  (in_bounds n b -> forall lb, net_links n !! b = Some lb -> served n b lb) ->
  forall lb, net_links n' !! b = Some lb -> served n' b lb.
Proof.
  intros Hn Hstep. destruct Hstep as [n id l env d p tx w Hl Hrun|n id l env v p tx w Hl Hrun|n id l env p tx w Hl Hrun|n id l p k w Hl Hp Hd|n l sh Hj Hnew|n name st k w Hb Ek|n id l parent reason w Hl Hab|
    n e r w Hp Hnext Hrun|n Hp Hall|n rf now r w Hp Hnext Hle Hrun|n Hp Hall]; intros Hib Hs lb Hlb.
  - eapply served_read; eauto.
  - eapply served_write; eauto.
  - eapply served_turn; eauto.
  - eapply served_renew; eauto.
  - eapply served_join; eauto.
  - eapply served_listen; eauto.
  - eapply served_leave; eauto.
  - eapply served_event; [done|]. apply Hs; [|done]. eapply (in_bounds_took n (InEvent e)); [done..| |exact Hib]. by intros ? [= <-].
  - by apply Hs.
  - eapply served_route; [done..|]. apply Hs; [|done]. by eapply (in_bounds_took n (InFrame rf now)).
  - by apply Hs.
Qed.

(** What is due to a link is on the books, at any time. *)
Lemma served_reachable n0 n b :
  net_init n0 -> rtc net_step n0 n -> in_bounds n b -> forall lb, net_links n !! b = Some lb -> served n b lb.
Proof.
  intros Hi. apply (rtc_ind_r (fun n => in_bounds n b -> forall lb, net_links n !! b = Some lb -> served n b lb)).
  - intros _ lb. destruct Hi as (-> & _). by rewrite lookup_empty.
  - intros y z Hy Hstep IH Hib. eapply served_step; [|exact Hstep|exact Hib|exact IH]. by eapply net_reachable.
Qed.

(** ** Everything gets through *)

(** The same links at the same inputs, the same channels. *)
Record onward n n' : Prop := {
  on_run : rtc net_step n n';
  on_tx : net_tx n' = net_tx n;
  on_events : net_events n' = net_events n;
  on_links : lk_sessions <$> net_links n' = lk_sessions <$> net_links n;
}.
#[local] Instance onward_preorder : PreOrder onward.
Proof.
  split; [done|]. intros n1 n2 n3 [R1 T1 E1 L1] [R2 T2 E2 L2]. split; [by etrans|by rewrite T2|by rewrite E2|by rewrite L2].
Qed.

(** The router can finish the turn it is in, *)
Lemma route_next n :
  net_inv n -> net_polled n = true -> (length (frames_in (net_history n)) < length (sent (net_tx n)))%nat ->
  exists n', onward n n' /\ net_inv n' /\ net_links n' = net_links n /\ net_polled n' = false /\
    events_in (net_history n') = events_in (net_history n) /\ length (frames_in (net_history n')) = S (length (frames_in (net_history n))).
Proof.
  intros Hn Hp Hlt. destruct (lookup_lt_is_Some_2 (sent (net_tx n)) (length (frames_in (net_history n)))) as [rf Hrf]; [done|].
  destruct (router_facts _ _ _ _ _ _ n Hn) as (Hri & _).
  destruct (handle_frame_Done hash iter debug_assertions iter_perm (net_router n) rf (net_clock n) (net_world n) Hri) as (r & w & Hrun).
  pose proof (net_route hash iter debug_assertions n rf (net_clock n) r w Hp Hrf (Z.le_refl _) Hrun) as Hstep.
  exists (took n (InFrame rf (net_clock n)) (net_clock n) r w). split_and!; try done.
  - split; [by apply rtc_once|done..].
  - by eapply (net_inv_step _ _ _ iter_perm _ _ _ dedup_ms_ok n).
  - cbn. by rewrite events_in_snoc, app_nil_r.
  - cbn. rewrite frames_in_snoc, length_app. cbn. lia.
Qed.

Lemma end_turn n :
  net_inv n -> exists n', onward n n' /\ net_inv n' /\ net_links n' = net_links n /\ net_polled n' = false.
Proof.
  intros Hn. destruct (net_polled n) eqn:Hp; [|by exists n].
  pose proof (prefix_length _ _ (ni_frames _ _ _ _ _ _ _ Hn)) as Hle.
  destruct (decide (length (frames_in (net_history n)) = length (sent (net_tx n)))) as [Heq|Hne].
  - pose proof (net_idle hash iter debug_assertions n Hp Heq) as Hstep. exists (with_polled n false).
    split_and!; [split; [by apply rtc_once|done..]|by apply polled_inv|done..].
  - destruct (route_next n Hn Hp) as (n' & ? & ? & ? & ? & _); [lia|by exists n'].
Qed.

(** take all that is announced, *)
Lemma take_events n :
  net_inv n -> net_polled n = false ->
  exists n', onward n n' /\ net_inv n' /\ net_links n' = net_links n /\ net_polled n' = false /\
    length (events_in (net_history n')) = length (net_events n').
Proof.
  remember (length (net_events n) - length (events_in (net_history n)))%nat as k eqn:Hk. revert n Hk.
  induction k as [|k IH]; intros n Hk Hn Hp; pose proof (prefix_length _ _ (ni_events _ _ _ _ _ _ _ Hn)) as Hle.
  { exists n. split_and!; [done..|lia]. }
  destruct (lookup_lt_is_Some_2 (net_events n) (length (events_in (net_history n)))) as [e He]; [lia|].
  destruct (handle_event (net_router n) e (net_world n)) as [r w] eqn:Hrun.
  pose proof (net_event hash iter debug_assertions n e r w Hp He Hrun) as Hstep. pose proof (net_inv_step _ _ _ iter_perm _ _ _ dedup_ms_ok _ _ Hn Hstep) as Hn1.
  destruct (IH (took n (InEvent e) (net_clock n) r w)) as (n' & [R T E L] & Hn' & Hl & Hd); [|done|done|].
  { cbn. rewrite events_in_snoc, length_app. cbn. unfold net_events in *. cbn. lia. }
  exists n'. split_and!; [|done|done|apply Hd..]. split; [by eapply rtc_l|done..].
Qed.

(** and then all that is in the channel. *)
Lemma take_frames n :
  net_inv n -> net_polled n = false -> length (events_in (net_history n)) = length (net_events n) ->
  exists n', onward n n' /\ net_inv n' /\ net_links n' = net_links n /\
    length (events_in (net_history n')) = length (net_events n') /\ length (frames_in (net_history n')) = length (sent (net_tx n')).
Proof.
  remember (length (sent (net_tx n)) - length (frames_in (net_history n)))%nat as k eqn:Hk. revert n Hk.
  induction k as [|k IH]; intros n Hk Hn Hp Hall; pose proof (prefix_length _ _ (ni_frames _ _ _ _ _ _ _ Hn)) as Hle.
  { exists n. split_and!; [done..|lia]. }
  pose proof (net_poll hash iter debug_assertions n Hp Hall) as Hstep.
  destruct (route_next (with_polled n true)) as (n1 & [R1 T1 E1 L1] & Hn1 & Hl1 & Hp1 & He1 & Hf1); [by apply polled_inv|done|cbn [with_polled net_history net_tx]; lia|].
  cbn [with_polled net_history net_tx net_links] in *. destruct (IH n1) as (n' & [R T E L] & Hn' & Hl & Hd & Hf); [rewrite T1, Hf1; lia|done|done|by rewrite He1, E1|].
  exists n'. split_and!; [|done|congruence|done|done]. split; [eapply rtc_l; [exact Hstep|by etrans]|by rewrite T, T1|by rewrite E, E1|by rewrite L, L1].
Qed.

(** A link that can transmit can write all that is in its queue. *)
Lemma drain_link n b lb :
  net_inv n -> net_links n !! b = Some lb -> tp_ready (lk_port lb) ->
  exists n' lb', onward n n' /\ net_history n' = net_history n /\ net_links n' !! b = Some lb' /\ lk_queue lb' = lk_queue lb /\
    lk_faults lb' = lk_faults lb /\ forall q, w_queues (net_world n') !! tq_inner (lk_queue lb) = Some q -> aq_elems q = [].
Proof.
  remember (match w_queues (net_world n) !! tq_inner (lk_queue lb) with Some q => length (aq_elems q) | None => 0%nat end) as k eqn:Hk.
  revert n lb Hk. induction k as [|k IH]; intros n lb Hk Hn Hlb Hrdy.
  { exists n, lb. split_and!; try done. intros q Hq. rewrite Hq in Hk. by destruct (aq_elems q). }
  destruct (lo_own _ _ _ (ni_links _ _ _ _ _ _ _ Hn b lb Hlb)) as [Hown _].
  destruct (tp_write_possible (lk_ctx lb) (lk_queue lb) (lk_port lb) (net_tx n) (net_world n) Hrdy) as (e & p & tx & w & Hrun & Hrdy').
  pose proof (net_write hash iter debug_assertions n b lb e Accepted p tx w Hlb Hrun) as Hstep.
  pose proof (net_inv_step _ _ _ iter_perm _ _ _ dedup_ms_ok _ _ Hn Hstep) as Hn1.
  destruct (tp_write_disposes _ _ _ _ _ _ _ _ _ _ Hown Hrun) as (_ & _ & Htx & Hdis).
  destruct (w_queues (net_world n) !! tq_inner (lk_queue lb)) as [q|] eqn:Eq; [|done]. destruct (disposed_effect _ _ _ _ _ _ Hdis Eq) as [Hq _].
  match type of Hstep with net_step _ ?y => destruct (IH y (link_wrote lb p Accepted (TxQueue_pop (lk_queue lb) (net_world n)).1))
    as (n' & lb' & [R T E L] & Hh & Hlb' & Hql & Hf & He) end; [|exact Hn1|by apply lookup_insert_eq|exact Hrdy'|].
  { cbn [worked net_shared with_world net_world sh_world lk_queue link_wrote link_with]. rewrite Hq, lookup_insert_eq, (proj2 (aq_pop_elems q)).
    destruct (aq_elems q); cbn in *; lia. }
  exists n', lb'. cbn in *. split_and!; [|done..]. split; [by eapply rtc_l|congruence|done|].
  rewrite L, fmap_insert. apply insert_id. by rewrite lookup_fmap, Hlb.
Qed.

(** The router has taken everything, and [b]'s queue is empty. *)
Definition flushed n l : Prop :=
  events_in (net_history n) = net_events n /\ frames_in (net_history n) = sent (net_tx n) /\
  forall q, w_queues (net_world n) !! tq_inner (lk_queue l) = Some q -> aq_elems q = [].

Lemma net_flush n b lb :
  net_inv n -> net_links n !! b = Some lb -> tp_ready (lk_port lb) ->
  exists n' lb', onward n n' /\ net_links n' !! b = Some lb' /\ lk_faults lb' = lk_faults lb /\ flushed n' lb'.
Proof.
  intros Hn Hlb Hrdy. destruct (end_turn n Hn) as (n0 & O0 & Hn0 & Hl0 & Hp0). destruct (take_events n0 Hn0 Hp0) as (n1 & O1 & Hn1 & Hl1 & Hp1 & He1).
  destruct (take_frames n1 Hn1 Hp1 He1) as (n2 & O2 & Hn2 & Hl2 & He2 & Hf2).
  rewrite <- Hl0, <- Hl1, <- Hl2 in Hlb. destruct (drain_link n2 b lb Hn2 Hlb Hrdy) as (n3 & lb' & O3 & Hh & Hlb' & Hq & Hf & Hempty).
  exists n3, lb'. split_and!; [by do 3 (etrans; [eassumption|])|done|done|]. pose proof (on_events _ _ O3) as Hev. pose proof (on_tx _ _ O3) as Htx.
  unfold flushed. rewrite Hh, Hev, Htx, Hq. split_and!; [| |done].
  - eapply prefix_length_eq; [by eapply ni_events|lia].
  - eapply prefix_length_eq; [by eapply ni_frames|lia].
Qed.

(** ** Claims *)

(** C2. What comes out of a link is what came in through the others.  From start-up on, let
    endpoints of any transports be spawned, clients and peers come and go, links read (in any
    pieces), write, fail to write, lose their sessions and be connected anew, and the router
    take events and frames, in any interleaving.  The router is sent, of each link, exactly
    the frames that the input of its sessions contains and its ingress filter admits, in
    order, and takes what it is sent in order.  Let [b] be a connected link; the senders heard
    on its side fit its learn table, or it is a sniffer.  Then the frames that the routing
    policy gives [b], of what the router has taken since start-up, are, in order, those that
    left [b]'s queue followed by those still queued; those that left were accepted by its
    transport, in order, or are counted in [dropped_tx], or were lost to a failed write or at
    the end of a session, never more than there were such faults.  And nothing is stuck: if
    [b]'s transport can transmit, router and writer can bring everything to it without
    further input. *)
Theorem links_exchange_traffic n0 n b lb :
  net_init n0 -> rtc net_step n0 n -> net_links n !! b = Some lb -> in_bounds n b ->
  (forall id l, net_links n !! id = Some l -> exists framess,
     Forall2 (fun d frames => exists f1, drain_frames (buffer_extend Framer_new d) = Done (frames, f1)) (lk_sessions l) framess /\
     List.filter (from id) (sent (net_tx n)) = to_router (lk_ctx l) <$> List.filter (passes (lk_ctx l)) (concat framess)) /\
  events_in (net_history n) `prefix_of` net_events n /\ frames_in (net_history n) `prefix_of` sent (net_tx n) /\
  (exists q fate, w_queues (net_world n) !! tq_inner (lk_queue lb) = Some q /\
     deliveries hash (dedup_ttl dedup_ms) (dedup_cap window) b policy_init (net_history n) = fate.*1 ++ aq_elems q /\
     lk_out lb = accepted fate /\ (met_with Lost fate <= lk_faults lb)%nat /\
     dropped_at (ctx_stats (lk_ctx lb)) (net_world n) = Some (wrap 64 (Z.of_nat (met_with Counted fate)))) /\
  (tp_ready (lk_port lb) -> exists n' lb', onward n n' /\ net_links n' !! b = Some lb' /\ lk_faults lb' = lk_faults lb /\ flushed n' lb').
Proof.
  intros Hi Hrun Hlb Hib. pose proof (net_reachable _ _ _ iter_perm _ _ _ dedup_ms_ok n0 n Hi Hrun) as Hn.
  destruct (served_reachable n0 n b Hi Hrun Hib lb Hlb) as (q & fate & Hq & (_ & _ & Hins & Hlost & _) & Hout & Hd). split_and!.
  - intros id l Hl. exists (map (fun d => sc_frames (parse d)) (lk_sessions l)). split; [|exact (lo_sent _ _ _ (ni_links _ _ _ _ _ _ _ Hn id l Hl))].
    apply Forall2_fmap_r, Forall2_same_length_lookup_2; [done|]. intros i d d' Hd1 Hd2. assert (d' = d) as -> by congruence.
    rewrite drain_frames_spec by (apply buffer_extend_ok; done). by eexists.
  - by eapply ni_events.
  - by eapply ni_frames.
  - by exists q, fate.
  - intros Hrdy. by eapply net_flush.
Qed.

(** *** One talking link *)

Definition seed (f : Wire) : Z := match lookup_msg (w_msgid f) with Some e => crc_extra e | None => 0 end.
Definition on_wire (f : Wire) : Bytes := wire_bytes f (seed f).
Definition header_on (f : Wire) : ParsedHeader := wire_header f (lookup_msg (w_msgid f)).
Definition sendable (f : Wire) : Prop := wire_ok f /\ is_u8 (seed f).

(** The framer recovers a stream of frames. *)
Lemma parse_wires fs :
  Forall sendable fs -> sc_frames (parse (concat (map on_wire fs))) = map (fun f => (header_on f, on_wire f)) fs.
Proof.
  intros HF. induction HF as [|f fs [Hok Hu] HF IH]; [done|]. cbn [map concat]. rewrite parse_eq.
  assert (Hfind : find_stx (on_wire f ++ concat (map on_wire fs)) = Some (0%nat, w_stx f)).
  { exact (wire_find_stx [] f (seed f) (concat (map on_wire fs)) (List.Forall_nil _)). }
  assert (Hv : head_verdict (w_stx f) (on_wire f ++ concat (map on_wire fs)) = Emit (header_on f) (on_wire f)).
  { apply wire_verdict; [done|]. intros e He. unfold seed in *. by rewrite He in *. }
  rewrite Hfind. rewrite drop_0, Hv. cbn [sc_frames scan_cons]. rewrite drop_app_length, IH. done.
Qed.

(** Whether the destination takes the frames of a source of this name, nothing else said. *)
Definition takes (identity : IdentityFlags) (header : ParsedHeader) (src_name : string) : bool :=
  sniffer identity || passes_out_filter (filters identity) (msgid header) (source header) src_name.
Definition broadcast (header : ParsedHeader) : Prop := target_system header = None \/ target_system header = Some 0.

(** The frames that [a]'s ingress filter and [b]'s egress filter let through. *)
Definition let_through (la lb : Link P) (f : Wire) : bool :=
  passes (lk_ctx la) (header_on f, on_wire f) && takes (lk_identity lb) (header_on f) (lk_name la).

Lemma wants_takes mb known header name :
  sniffer (mb_identity mb) = true \/ (known = ∅ /\ broadcast header) -> Policy.wants mb known header name = takes (mb_identity mb) header name.
Proof.
  unfold Policy.wants, takes. intros [->|[-> Hb]]; [done|]. rewrite bool_decide_eq_true_2 by set_solver. cbn [andb].
  assert (Hr : reaches header ∅ = true) by (unfold reaches; by destruct Hb as [-> | ->]). by rewrite Hr, andb_true_r.
Qed.

Lemma heard_event p e s : heard (policy_event p e) s ⊆ heard p s.
Proof.
  assert (Hann : forall id rt, heard (announce p id rt) s ⊆ heard p s).
  { intros id rt. unfold heard at 1. cbn. destruct (decide (side_of id (rt_identity rt) = s)) as [<-|]; [by rewrite lookup_insert_eq|by rewrite lookup_insert_ne]. }
  destruct e as [id nm k [rt|]|pid id nm k rt|pid id reason]; cbn [policy_event]; try done. unfold depart.
  destruct (po_members p !! id) as [mb|]; [|done]. unfold heard at 1. cbn. case_decide; [done|].
  destruct (decide (side_of id (mb_identity mb) = s)) as [<-|]; [by rewrite lookup_delete_eq|by rewrite lookup_delete_ne].
Qed.

(** No frame taken: nothing heard, nothing due. *)
Lemma silent_policy b h : frames_in h = [] ->
  deliveries hash (dedup_ttl dedup_ms) (dedup_cap window) b policy_init h = [] /\ forall s, heard (policy h) s = ∅.
Proof.
  induction h as [|i h IH] using rev_ind; [intros _; split; [done|intros s; unfold heard; cbn; by rewrite lookup_empty]|].
  rewrite frames_in_snoc. intros [Hf Hi]%app_nil. destruct i as [e|]; [|done]. destruct (IH Hf) as [Hd Hh]. split.
  - by rewrite deliveries_snoc, Hd.
  - intros s. unfold Net.policy in *. rewrite policy_run_snoc. cbn [policy_step]. pose proof (heard_event (policy h) e s) as Hsub.
    unfold Net.policy in Hsub. rewrite Hh in Hsub. set_solver.
Qed.

(** A link that is there now was there before, unless it is new. *)
Definition lk_static (l : Link P) : SessionCtx * TxQueue * IdentityFlags * string := (lk_ctx l, lk_queue l, lk_identity l, lk_name l).

Lemma link_before n n' id l' :
  net_step n n' -> net_links n' !! id = Some l' -> id < sh_allocator (net_shared n) -> exists l, net_links n !! id = Some l /\ lk_static l' = lk_static l.
Proof.
  intros Hstep Hl' Hlt. destruct Hstep as [n i l env d p tx w Hl _|n i l env v p tx w Hl _|n i l env p tx w Hl _|n i l p k w Hl _ _|n l sh (st & k & w1 & w2 & e & _ & _ & _ & _ & _ & Hctx & _) _|
    n name st k w _ _|n i l parent reason w Hl _|n e r w _ _ _|n _ _|n rf now r w _ _ _ _|n _ _]; cbn in Hl'; try by exists l'.
  1,3,4: apply lookup_insert_Some in Hl' as [[<- <-]|[_ ?]]; [by exists l|by exists l'].
  - apply lookup_insert_Some in Hl' as [[<- <-]|[_ ?]]; [exists l; by destruct v|by exists l'].
  - apply lookup_insert_Some in Hl' as [[<- <-]|[_ ?]]; [|by exists l']. rewrite Hctx in Hlt. cbn in Hlt. lia.
  - apply lookup_delete_Some in Hl' as [_ ?]. by exists l'.
Qed.

Lemma allocator_grows n n' : net_step n n' -> sh_allocator (net_shared n) <= sh_allocator (net_shared n').
Proof. destruct 1 as [| | | |n l sh (st & k & w1 & w2 & e & _ & _ & _ & _ & _ & _ & ->) _| | | | | |]; cbn; lia. Qed.
Lemma allocator_rtc n n' : rtc net_step n n' -> sh_allocator (net_shared n) <= sh_allocator (net_shared n').
Proof. induction 1 as [|n n1 n' Hstep _ IH]; [lia|]. apply allocator_grows in Hstep. lia. Qed.

Lemma link_before_rtc n n' id l' :
  rtc net_step n n' -> net_links n' !! id = Some l' -> id < sh_allocator (net_shared n) -> exists l, net_links n !! id = Some l /\ lk_static l' = lk_static l.
Proof.
  intros Hrun. revert l'. induction Hrun as [n|n n1 n' Hstep Hrun IH]; intros l' Hl' Hlt; [by exists l'|].
  pose proof (allocator_grows _ _ Hstep). destruct (IH l' Hl') as (l1 & Hl1 & ->); [lia|]. by eapply link_before.
Qed.

Lemma sent_grows n n' : net_inv n -> net_step n n' -> sent (net_tx n) `prefix_of` sent (net_tx n').
Proof.
  intros Hn Hstep. destruct Hstep as [n id l env d p tx w Hl Hrun|n id l env v p tx w Hl Hrun|n id l env p tx w Hl Hrun|n id l p k w _ _ _|n l sh _ _|n name st k w _ _|
    n id l parent reason w _ _|n e r w _ _ _|n _ _|n rf now r w _ _ _ _|n _ _]; cbn; try done; destruct (lo_own _ _ _ (ni_links _ _ _ _ _ _ _ Hn id l Hl)) as [Hown Hok].
  - destruct (tp_read_delivers _ _ _ _ _ _ _ _ _ _ Hown Hok Hrun) as (_ & [_ ->] & _). by eexists.
  - by destruct (tp_write_disposes _ _ _ _ _ _ _ _ _ _ Hown Hrun) as (_ & _ & -> & _).
  - by destruct (tp_turn_quiet _ _ _ _ _ _ _ _ _ Hown Hrun) as (_ & _ & -> & _).
Qed.

Section Talker.
Context (a b : EndpointId).
Hypothesis Hab : a <> b.
Hypothesis dedup_off : dedup_ms = 0.

(** Only [a] talks, and nothing stands between it and [b] but their filters: [b] is a
    sniffer, or on another side than [a], whose frames are broadcasts. *)
Definition open_path la lb (rf : RouterFrame) : Prop :=
  rf_endpoint_id rf = a /\
  (sniffer (lk_identity lb) = true \/ (side_of a (lk_identity la) <> side_of b (lk_identity lb) /\ broadcast (rf_header rf))).

(** What [b] is due, and that nobody is heard on its side. *)
Definition talker_due n la lb : Prop :=
  due n b = rf_frame <$> List.filter (fun rf => takes (lk_identity lb) (rf_header rf) (lk_name la)) (frames_in (net_history n)) /\
  (sniffer (lk_identity lb) = true \/ heard (policy (net_history n)) (side_of b (lk_identity lb)) = ∅).

Lemma talker_silent n la lb : frames_in (net_history n) = [] -> talker_due n la lb.
Proof. intros Hf. destruct (silent_policy b (net_history n) Hf) as [Hd Hh]. unfold talker_due, due. rewrite Hf, Hd. split; [done|right; apply Hh]. Qed.

(** The router has taken the announcement of [id]. *)
Definition taken n (id : EndpointId) : Prop := exists e, e ∈ events_in (net_history n) /\ added_id e = Some id.

Lemma taken_grows n n' id : net_step n n' -> taken n id -> taken n' id.
Proof.
  intros Hstep (e & He & Hid). exists e. split; [|done].
  destruct Hstep; cbn; rewrite ?events_in_snoc, ?elem_of_app; auto.
Qed.
Lemma taken_known n id : net_inv n -> taken n id -> id < sh_allocator (net_shared n).
Proof. intros Hn (e & He & Hid). by eapply taken_below. Qed.

(** Its link is a member. *)
Lemma taken_member n id l :
  net_inv n -> taken n id -> net_links n !! id = Some l -> po_members (policy (net_history n)) !! id = Some (link_member l).
Proof.
  intros Hn (e & He & Hid) Hl. destruct (link_policy n id l Hn Hl) as [[Hnone _]|(ep & rs & _ & _ & _ & _ & _ & Hm)]; [exfalso|done].
  destruct (link_entry _ _ _ _ _ _ n id l e Hn Hl He Hid) as (ep & rs & Hep & _). congruence.
Qed.

Lemma talker_route n rf now r w la lb :
  net_inv n -> taken n a -> taken n b -> net_links n !! a = Some la -> net_links n !! b = Some lb ->
  open_path la lb rf -> talker_due n la lb -> talker_due (took n (InFrame rf now) now r w) la lb.
Proof.
  intros Hn Hta Htb Ha Hb [Hrf Hopen] [Hdue Hheard]. pose proof (taken_member n a la Hn Hta Ha) as Hma. pose proof (taken_member n b lb Hn Htb Hb) as Hmb.
  assert (Hnew : forall p frame, repeated hash (dedup_ttl dedup_ms) (dedup_cap window) p frame now = false)
    by (intros; unfold repeated, dedup_ttl; by rewrite dedup_off).
  unfold talker_due. rewrite due_took, Hdue. cbn [took net_history]. rewrite frames_in_snoc, List.filter_app, fmap_app. cbn [delivery].
  unfold Net.policy in *. rewrite policy_run_snoc. cbn [policy_step]. unfold gets, policy_frame. rewrite Hrf, Hma, Hnew.
  cbn [po_heard]. rewrite Hmb, (proj2 (Z.eqb_neq b a)) by done. cbn [negb andb link_member mb_identity mb_name].
  assert (Hp : sniffer (lk_identity lb) = true \/ side_of a (lk_identity la) <> side_of b (lk_identity lb) /\ broadcast (rf_header rf) /\
    heard (policy_run hash (dedup_ttl dedup_ms) (dedup_cap window) policy_init (net_history n)) (side_of b (lk_identity lb)) = ∅) by tauto.
  unfold heard at 1 3. cbn [po_heard]. split.
  - f_equal. rewrite (wants_takes (link_member lb)); [cbn; by destruct (takes _ _ _)|]. destruct Hp as [|(Hside & Hbc & Hh)]; [by left|right].
    by rewrite lookup_insert_ne.
  - destruct Hp as [|(Hside & Hbc & Hh)]; [by left|right]. by rewrite lookup_insert_ne.
Qed.

Lemma talker_step n n' la lb :
  net_inv n -> net_step n n' -> taken n a -> taken n b ->
  (forall la lb, net_links n !! a = Some la -> net_links n !! b = Some lb -> (forall rf, rf ∈ sent (net_tx n) -> open_path la lb rf) -> talker_due n la lb) ->
  net_links n' !! a = Some la -> net_links n' !! b = Some lb -> (forall rf, rf ∈ sent (net_tx n') -> open_path la lb rf) -> talker_due n' la lb.
Proof.
  intros Hn Hstep Hta Htb IH Ha Hb Hopen. pose proof (sent_grows n n' Hn Hstep) as Hgrow.
  destruct (link_before n n' a la Hstep Ha (taken_known n a Hn Hta)) as (la0 & Ha0 & [= _ _ Ei En]).
  destruct (link_before n n' b lb Hstep Hb (taken_known n b Hn Htb)) as (lb0 & Hb0 & [= _ _ Ei' En']).
  assert (Heq : forall m rf0, (open_path la lb rf0 <-> open_path la0 lb0 rf0) /\ (talker_due m la lb <-> talker_due m la0 lb0)).
  { intros m rf0. unfold open_path, talker_due. by rewrite Ei, Ei', En. }
  assert (Hbefore : talker_due n la0 lb0).
  { apply IH; [done..|]. intros rf0 Hrf0. apply (Heq n rf0), Hopen. by eapply elem_of_prefix. }
  assert (Hdue : talker_due n' la0 lb0); [|unfold talker_due in *; by rewrite Ei', En].
  destruct Hstep as [| | | | | | |n e r w _ Hnext Hrun|n _ _|n rf0 now r w _ Hnext Hle Hrun|n _ _]; try exact Hbefore.
  - destruct Hbefore as [Hd Hh]. unfold talker_due. rewrite due_took. cbn [took net_history delivery]. rewrite frames_in_snoc, !app_nil_r. split; [done|].
    destruct Hh as [|Hh]; [by left|right]. unfold Net.policy in *. rewrite policy_run_snoc. cbn [policy_step].
    match goal with |- heard (policy_event ?p _) ?s = _ => pose proof (heard_event p e s) as Hsub end. set_solver.
  - apply talker_route; try done. apply (Heq n rf0), Hopen. by eapply list_elem_of_lookup_2.
Qed.

Lemma talker_reachable n1 n :
  net_inv n1 -> taken n1 a -> taken n1 b -> sent (net_tx n1) = [] -> rtc net_step n1 n ->
  forall la lb, net_links n !! a = Some la -> net_links n !! b = Some lb -> (forall rf, rf ∈ sent (net_tx n) -> open_path la lb rf) -> talker_due n la lb.
Proof.
  intros Hn1 Hta Htb Hsil Hrun.
  assert (Hboth : (taken n a /\ taken n b) /\
    forall la lb, net_links n !! a = Some la -> net_links n !! b = Some lb -> (forall rf, rf ∈ sent (net_tx n) -> open_path la lb rf) -> talker_due n la lb); [|apply Hboth].
  revert Hrun. apply (rtc_ind_r (fun n => (taken n a /\ taken n b) /\
    forall la lb, net_links n !! a = Some la -> net_links n !! b = Some lb -> (forall rf, rf ∈ sent (net_tx n) -> open_path la lb rf) -> talker_due n la lb)).
  - split; [done|]. intros la lb _ _ _. apply talker_silent. pose proof (ni_frames _ _ _ _ _ _ _ Hn1) as Hf. rewrite Hsil in Hf. by apply prefix_nil_inv.
  - intros y z Hy Hstep [[Hya Hyb] IH]. split; [split; by eapply taken_grows|]. intros la lb.
    pose proof (net_inv_rtc _ _ _ iter_perm _ _ _ dedup_ms_ok n1 y Hn1 Hy) as Hny. by apply (talker_step y z).
Qed.

Lemma talker_in_bounds n la lb : net_inv n -> net_links n !! b = Some lb -> talker_due n la lb -> in_bounds n b.
Proof.
  intros Hn Hb [_ Hh] mb Hmb. destruct (link_policy n b lb Hn Hb) as [[_ Hnone]|(_ & _ & _ & _ & _ & _ & _ & Hm)]; [congruence|].
  rewrite Hm in Hmb. injection Hmb as <-. unfold exact_for. cbn. destruct Hh as [Hs|Hh]; [by left|right]. rewrite Hh, size_empty. lia.
Qed.

(** The frames of the stream, as the router is sent them and as [b] is to get them. *)
Lemma filter_stream la lb fs :
  rf_frame <$> List.filter (fun rf => takes (lk_identity lb) (rf_header rf) (lk_name la))
    (to_router (lk_ctx la) <$> List.filter (passes (lk_ctx la)) (map (fun f => (header_on f, on_wire f)) fs)) =
  map on_wire (List.filter (let_through la lb) fs).
Proof.
  induction fs as [|f fs IH]; [done|]. cbn [map List.filter].
  change (let_through la lb f) with (passes (lk_ctx la) (header_on f, on_wire f) && takes (lk_identity lb) (header_on f) (lk_name la)).
  destruct (passes (lk_ctx la) (header_on f, on_wire f)); cbn [andb]; [|exact IH]. rewrite fmap_cons. cbn [List.filter to_router rf_header fst].
  destruct (takes _ _ _); [|exact IH]. rewrite fmap_cons. cbn [map to_router rf_frame snd]. f_equal. exact IH.
Qed.

(** Only [a] talks, its transport delivering, in whatever pieces, the encodings of [fs], all
    in its first session. *)
Definition talks n la (fs : list Wire) : Prop :=
  lk_sessions la = [concat (map on_wire fs)] /\ forall rf, rf ∈ sent (net_tx n) -> rf_endpoint_id rf = a.
Definition path la lb (fs : list Wire) : Prop :=
  sniffer (lk_identity lb) = true \/
  (side_of a (lk_identity la) <> side_of b (lk_identity lb) /\ Forall (fun f => broadcast (header_on f)) fs).

Lemma talks_sent n la fs :
  net_inv n -> net_links n !! a = Some la -> talks n la fs -> Forall sendable fs ->
  sent (net_tx n) = to_router (lk_ctx la) <$> List.filter (passes (lk_ctx la)) (map (fun f => (header_on f, on_wire f)) fs).
Proof.
  intros Hn Ha [Hin Honly] HF. pose proof (lo_sent _ _ _ (ni_links _ _ _ _ _ _ _ Hn a la Ha)) as Hs. unfold session_frames in Hs. rewrite Hin in Hs. cbn [map concat] in Hs.
  rewrite app_nil_r, parse_wires in Hs by done. rewrite <- Hs.
  symmetry. apply forallb_filter_id, forallb_forall. intros rf Hrf%list_elem_of_In. unfold from. by apply Z.eqb_eq, Honly.
Qed.

Lemma talks_open n la lb fs :
  net_inv n -> net_links n !! a = Some la -> talks n la fs -> Forall sendable fs -> path la lb fs -> forall rf, rf ∈ sent (net_tx n) -> open_path la lb rf.
Proof.
  intros Hn Ha Ht HF Hpath rf Hrf. split; [by apply Ht|]. destruct Hpath as [|[Hside HB]]; [by left|right]. split; [done|].
  rewrite (talks_sent n la fs) in Hrf by done. apply list_elem_of_fmap in Hrf as (e & -> & He).
  apply list_elem_of_In, List.filter_In in He as [(f & <- & Hf)%in_map_iff _]. rewrite Forall_forall in HB. apply HB. by apply list_elem_of_In.
Qed.

(** Where the stream is: accepted, queued, or still in the channel. *)
Lemma stream_placed n0 n1 n la lb fs :
  net_init n0 -> rtc net_step n0 n1 -> taken n1 a -> taken n1 b -> sent (net_tx n1) = [] -> rtc net_step n1 n ->
  net_links n !! a = Some la -> net_links n !! b = Some lb -> talks n la fs -> Forall sendable fs -> path la lb fs -> lk_faults lb = 0%nat ->
  (length (List.filter (let_through la lb) fs) <= DEFAULT_TX_QUEUE_FRAMES)%nat ->
  exists q, w_queues (net_world n) !! tq_inner (lk_queue lb) = Some q /\ lk_out lb ++ aq_elems q `prefix_of` map on_wire (List.filter (let_through la lb) fs) /\
    (frames_in (net_history n) = sent (net_tx n) -> lk_out lb ++ aq_elems q = map on_wire (List.filter (let_through la lb) fs)).
Proof.
  intros Hi Hrun1 Hta Htb Hsil Hrun Ha Hb Ht HF Hpath Hok Hfit. assert (Hrun0 : rtc net_step n0 n) by by etrans.
  pose proof (net_reachable _ _ _ iter_perm _ _ _ dedup_ms_ok n0 n1 Hi Hrun1) as Hn1.
  pose proof (net_reachable _ _ _ iter_perm _ _ _ dedup_ms_ok n0 n Hi Hrun0) as Hn.
  pose proof (talker_reachable n1 n Hn1 Hta Htb Hsil Hrun la lb Ha Hb (talks_open n la lb fs Hn Ha Ht HF Hpath)) as Htd.
  pose proof (talker_in_bounds n la lb Hn Hb Htd) as Hib. destruct Htd as [Hdue _].
  destruct (served_reachable n0 n b Hi Hrun0 Hib lb Hb) as (q & fate & Hq & (_ & _ & Hins & _ & Hno) & Hout & _). exists q. split; [done|].
  assert (Hpre : due n b `prefix_of` map on_wire (List.filter (let_through la lb) fs)).
  { rewrite Hdue, <- filter_stream, <- (talks_sent n la fs) by done. destruct (ni_frames _ _ _ _ _ _ _ Hn) as [rest ->].
    rewrite List.filter_app, fmap_app. by eexists. }
  assert (Hdel : lk_out lb ++ aq_elems q = due n b).
  { rewrite Hins, Hout, Hno; [done|done|]. etrans; [apply (prefix_length _ _ Hpre)|]. by rewrite length_map. }
  rewrite Hdel. split; [done|]. intros Hall. rewrite Hdue, Hall, (talks_sent n la fs) by done. apply filter_stream.
Qed.
End Talker.

End Relay.

(** ** A heartbeat from one link to another *)

Module RelaySample.
#[local] Existing Instance SampleTable.sample.
(** Link 0 is a byte stream, link 1 a [udpc:] endpoint, link 2 a peer of a [udps:] listener. *)
Abbreviation port := (StreamPort + (UdpcPort + PeerPort))%type.
Abbreviation net := (Net ListQueue.t (LiveSender.t RouterFrame) (LiveSender.t EndpointEvent) ListChan.t port).
Abbreviation chan := RouterExamples.Net.chan.
Abbreviation step := (net_step (Q := ListQueue.t) (C := LiveSender.t RouterFrame) (CE := LiveSender.t EndpointEvent) (CS := ListChan.t) (P := port) length_hash list_iter true).
Definition plain : IdentityFlags := {| filters := Filters_default; sniffer := false; group := None |}.
Definition grouped : IdentityFlags := {| filters := Filters_default; sniffer := false; group := Some "g"%string |}.
Definition gcs : IpAddr := V4 [10; 0; 0; 9].
Definition stream_port : port := inl stream_port_new.
Definition udpc_port : port := inr (inl
  {| up_spec := UdpClientSpec_from_endpoint UdpClientEndpoint_default 1 "b";
     up_dest := {| dest_host := "gcs"; dest_port := 14550; resolved_ips := [gcs]; latch := None |}; up_reader := ReaderState_new |}).
Definition peer_port : port := inr (inr
  {| pp_spec := UdpServerSpec_from_endpoint UdpServerEndpoint_default 9 "udps";
     pp_src := SocketAddr_new (V4 [10; 0; 0; 7]) 14551;
     pp_peer := {| pe_child_id := 2; pe_framer := Framer_new; pe_last_seen := 0; pe_framer_counters := FramerCounters_new;
                   pe_seq_tracker := SeqTracker_new SEQ_TRACKER_CAPACITY; pe_stats := 2 |} |}).

Definition start : net :=
  {| net_links := ∅;
     net_shared := {| sh_allocator := EndpointIdAllocator_new; sh_event_tx := {| LiveSender.log := [] |};
                      sh_world := {| w_stats := ∅; w_queues := ∅; w_notified := ∅ |} |};
     net_tx := {| LiveSender.log := [] |}; net_history := []; net_clock := 0; net_polled := false; net_router := Router_new chan 0 16 |}.

(** The network's steps as functions. *)
Definition link_up (n : net) (identity : IdentityFlags) (name : string) (p : port) : net :=
  let id := sh_allocator (net_shared n) in
  let '(k, w1) := stats_alloc Connected (net_world n) in
  let '(tq, w2) := TxQueue_new DEFAULT_TX_QUEUE_FRAMES k w1 in
  let l := new_link id k tq identity name p in
  changed n (<[id := l]> (net_links n))
    {| sh_allocator := id + 1; sh_event_tx := (send (sh_event_tx (net_shared n)) (EndpointAdded id name k (Some (link_routable l)))).2; sh_world := w2 |}.
Definition link_down (n : net) (id : EndpointId) : net :=
  changed n (delete id (net_links n))
    {| sh_allocator := sh_allocator (net_shared n); sh_world := net_world n;
       sh_event_tx := (send (sh_event_tx (net_shared n)) (PeerRemoved 9 id Disconnected)).2 |}.
Definition hear_event (n : net) : net :=
  match net_events n !! length (events_in (net_history n)) with
  | Some e => let '(r, w) := handle_event (net_router n) e (net_world n) in took n (InEvent e) (net_clock n) r w
  | None => n
  end.
Definition at_7 : tp_env (Q := ListQueue.t) (C := LiveSender.t RouterFrame) (P := port) := inl (AtTime 7).
Definition at_end : tp_env (Q := ListQueue.t) (C := LiveSender.t RouterFrame) (P := port) := inl ReadEof.
Definition hear_bytes (n : net) (d : Bytes) : net :=
  match net_links n !! 0 with
  | Some l =>
      match tp_read (lk_ctx l) (lk_queue l) at_7 d (lk_port l) (net_tx n) (net_world n) with
      | Some (p, tx, w) => worked n (<[0 := link_read l p d]> (net_links n)) tx w
      | None => n
      end
  | None => n
  end.
Definition hear_frame (n : net) : net :=
  let n := with_polled n true in
  match sent (net_tx n) !! length (frames_in (net_history n)) with
  | Some rf => match handle_frame length_hash list_iter true (net_router n) rf 8 (net_world n) with
               | Done (r, w) => took n (InFrame rf 8) 8 r w
               | _ => n
               end
  | None => n
  end.
Definition hang_up (n : net) : net :=
  match net_links n !! 0 with
  | Some l =>
      match tp_turn (lk_ctx l) (lk_queue l) at_end (lk_port l) (net_tx n) (net_world n) with
      | Some (p, tx, w) => worked n (<[0 := link_turned l p]> (net_links n)) tx w
      | None => n
      end
  | None => n
  end.
Definition reconnect (n : net) : net :=
  match net_links n !! 0 with
  | Some l =>
      match tp_renew (lk_port l), drain_and_discard (lk_queue l) (net_world n) with
      | Some p, Done (_, w) => worked n (<[0 := link_renewed l p]> (net_links n)) (net_tx n) (stats_update (ctx_stats (lk_ctx l)) (store_state Connected) w)
      | _, _ => n
      end
  | None => n
  end.

Lemma join_step n identity name p :
  sh_allocator (net_shared n) < 2 ^ 64 - 1 -> tp_framer p = Framer_new ->
  tp_own {| ctx_endpoint_id := sh_allocator (net_shared n); ctx_stats := (stats_alloc Connected (net_world n)).1; ctx_filters := filters identity |} p ->
  step n (link_up n identity name p).
Proof.
  intros Hb Hf Hr. unfold link_up. destruct (stats_alloc Connected (net_world n)) as [k w1] eqn:Ek. destruct (TxQueue_new _ k w1) as [tq w2] eqn:Eq.
  apply (net_join _ _ _ n (new_link (sh_allocator (net_shared n)) k tq identity name p)); [|done].
  eexists Connected, k, w1, w2, _. split_and!; try done. split_and!; done.
Qed.
Lemma leave_step n id l : net_links n !! id = Some l -> step n (link_down n id).
Proof. intros Hl. eapply net_leave; [exact Hl|by left]. Qed.
Lemma event_step n e : net_polled n = false -> net_events n !! length (events_in (net_history n)) = Some e -> step n (hear_event n).
Proof. intros Hp He. unfold hear_event. rewrite He. destruct (handle_event _ _ _) eqn:Er. by apply net_event. Qed.
Lemma read_step n d l p tx w :
  net_links n !! 0 = Some l -> tp_read (lk_ctx l) (lk_queue l) at_7 d (lk_port l) (net_tx n) (net_world n) = Some (p, tx, w) ->
  step n (hear_bytes n d).
Proof. intros Hl Hs. unfold hear_bytes. rewrite Hl, Hs. by eapply net_read. Qed.
Lemma route_step n rf r w :
  net_polled n = false -> length (events_in (net_history n)) = length (net_events n) ->
  sent (net_tx n) !! length (frames_in (net_history n)) = Some rf -> net_clock n <= 8 ->
  handle_frame length_hash list_iter true (net_router n) rf 8 (net_world n) = Done (r, w) -> rtc step n (hear_frame n).
Proof.
  intros Hp He Hrf Hc Hrun. eapply rtc_l; [by apply net_poll|]. apply rtc_once. unfold hear_frame. cbn [with_polled net_tx net_history net_router net_shared].
  rewrite Hrf. change (net_world (with_polled n true)) with (net_world n). rewrite Hrun. by apply net_route.
Qed.
Lemma hang_up_step (n : net) l p tx w :
  net_links n !! 0 = Some l -> tp_turn (lk_ctx l) (lk_queue l) at_end (lk_port l) (net_tx n) (net_world n) = Some (p, tx, w) -> step n (hang_up n).
Proof. intros Hl Hs. unfold hang_up. rewrite Hl, Hs. by eapply net_turn. Qed.
Lemma reconnect_step n l p k w :
  net_links n !! 0 = Some l -> tp_renew (lk_port l) = Some p -> drain_and_discard (lk_queue l) (net_world n) = Done (k, w) -> step n (reconnect n).
Proof. intros Hl Hp Hd. unfold reconnect. rewrite Hl, Hp, Hd. by eapply net_renew. Qed.

(** Three links come up and are registered; the peer goes; link 0 reads the heartbeat, in two
    pieces, and the router takes it; link 0 loses its connection and is connected anew. *)
Definition bytes : Bytes := on_wire Samples.heartbeat.
Definition linked : net := link_up (link_up (link_up start plain "a" stream_port) plain "b" udpc_port) grouped "udps" peer_port.
Definition registered : net := hear_event (link_down (hear_event (hear_event (hear_event linked))) 2).
Definition talked : net := hear_bytes (hear_bytes registered (take 5 bytes)) (drop 5 bytes).
Definition routed : net := hear_frame talked.
Definition renewed : net := reconnect (hang_up routed).

Lemma links_up : rtc step start registered.
Proof.
  unfold registered, linked. eapply rtc_r; [|eapply event_step; [reflexivity|vm_compute; reflexivity]].
  eapply rtc_r; [|eapply leave_step; vm_compute; reflexivity]. do 3 (eapply rtc_r; [|eapply event_step; [reflexivity|vm_compute; reflexivity]]).
  do 3 (eapply rtc_r; [|apply join_step; [vm_compute; reflexivity|reflexivity|vm_compute; first [by eexists|done]]]). apply rtc_refl.
Qed.
Lemma link_talks : rtc step registered talked.
Proof.
  unfold talked. do 2 (eapply rtc_r; [|eapply read_step; [vm_compute; reflexivity|vm_compute; reflexivity]]). apply rtc_refl.
Qed.
Lemma frame_heard : rtc step talked routed.
Proof. eapply route_step; [vm_compute; reflexivity..|vm_compute; discriminate|vm_compute; reflexivity]. Qed.
Lemma link_renews : rtc step routed renewed.
Proof.
  eapply rtc_l; [eapply hang_up_step; [vm_compute; reflexivity|vm_compute; reflexivity]|].
  apply rtc_once. eapply reconnect_step; [vm_compute; reflexivity|vm_compute; reflexivity|vm_compute; reflexivity].
Qed.

Definition link_of (n : net) (id : EndpointId) : Link port := default (new_link id 0 {| tq_inner := 0; tq_stats := 0 |} plain "" stream_port) (net_links n !! id).
Lemma heartbeat_sendable : Forall sendable [Samples.heartbeat].
Proof. apply List.Forall_cons; [|apply List.Forall_nil]. split; [exact heartbeat_ok|]. split; vm_compute; done. Qed.
Lemma started : net_init chan 0 16 start.
Proof. by split_and!. Qed.
End RelaySample.
Import RelaySample.
#[local] Existing Instance SampleTable.sample.

Lemma links_exchange_traffic_witness :
  (exists q (fate : list (Bytes * verdict)),
     w_queues (net_world renewed) !! tq_inner (lk_queue (link_of renewed 1)) = Some q /\ [bytes] = fate.*1 ++ aq_elems q) /\
  (exists n' lb, rtc step renewed n' /\ net_links n' !! 1 = Some lb /\ flushed n' lb).
Proof.
  destruct (links_exchange_traffic length_hash list_iter true list_iter_perm chan 0 16 (Z.le_refl 0) start renewed 1 (link_of renewed 1) started)
    as (_ & _ & _ & (q & fate & Hq & Hdue & _) & Hflush).
  - exact (transitivity links_up (transitivity link_talks (transitivity frame_heard link_renews))).
  - vm_compute. reflexivity.
  - intros mb Hmb. vm_compute in Hmb. injection Hmb as <-. right. apply Nat.leb_le. vm_compute. reflexivity.
  - split; [exists q, fate; split; [exact Hq|rewrite <- Hdue; vm_compute; reflexivity]|].
    destruct Hflush as (n' & lb & [Hr _ _ _] & Hl & _ & Hf); [vm_compute; by eexists|]. exists n', lb. split_and!; assumption.
Defined.

