(* ===== verification/StatsTask.v ===== *)
(** * The stats task ([src/src/stats.rs])

    A mirror of the endpoint registry and a bounded queue of JSON lines.  The clock's
    timestamp and the counters' values are inputs of a turn; [serde_json] and the writer
    answer each line with a [write_result]; the iteration order of the registry is a
    parameter. *)

From S2P Require Import Prelude EndpointStats TxQueue Identity Router.
#[local] Open Scope Z_scope.

Definition DEFAULT_STATS_QUEUE_LINES : nat := 256.
Definition POST_CANCEL_DRAIN : Z := from_millis 1500.

(** [struct RegisteredEndpoint] of [stats.rs] *)
Record StatsRow := { row_name : string; row_stats : nat; row_routable : bool }.

(** [enum StatsLine]: the counters of the [Routable] variant, by name. *)
Inductive StatsLine :=
| Line_Routable (ts endpoint state : string) (rx_frames tx_frames rx_bytes tx_bytes dropped_tx crc_errors resync_bytes
    rx_lost_est in_filter_drops out_filter_drops dedup_drops learn_entries : Z)
| Line_NonRoutable (ts endpoint state : string).

(** [StatsLine::endpoint] *)
Definition StatsLine_endpoint (l : StatsLine) : string :=
  match l with Line_Routable _ endpoint _ _ _ _ _ _ _ _ _ _ _ _ _ | Line_NonRoutable _ endpoint _ => endpoint end.

(** [struct StatsRunConfig] *)
Record StatsRunConfig := { cfg_enabled : bool; cfg_interval : Z; cfg_queue_capacity : nat }.

(** [fn state_label(state) -> &'static str] *)
Definition state_label (state : EndpointState) : string :=
  match state with
  | Reconnecting => "reconnecting" | Connected => "connected" | Idle => "idle" | Down => "down" | Unknown => "unknown"
  end.

(** [fn build_line(name, stats, ts, routable) -> StatsLine] *)
Definition build_line (name : string) (stats : EndpointStats) (ts : string) (routable : bool) : StatsLine :=
  let state := state_label (load_state stats) in
  if negb routable then Line_NonRoutable ts name state
  else
    Line_Routable ts name state (load RxFrames stats) (load TxFrames stats) (load RxBytes stats) (load TxBytes stats)
      (load DroppedTx stats) (load CrcErrors stats) (load ResyncBytes stats) (load RxLostEst stats)
      (load InFilterDrops stats) (load OutFilterDrops stats) (load DedupDrops stats) (load LearnEntries stats).

(** [struct QueueEntry] *)
Record QueueEntry := { qe_line : StatsLine; qe_synthetic : bool }.

(** [fn enqueue_regular(queue, queue_capacity, line, total_dropped)] *)
Definition enqueue_regular (queue : list QueueEntry) (cap : nat) (line : StatsLine) (total_dropped : Z) : list QueueEntry * Z :=
  if (cap =? 0)%nat then (queue, sat_add 64 total_dropped 1)
  else
    let '(queue, total_dropped) :=
      if (cap <=? length queue)%nat then (tail queue, sat_add 64 total_dropped 1) else (queue, total_dropped) in
    (queue ++ [{| qe_line := line; qe_synthetic := false |}], total_dropped).

(** [VecDeque::remove(pos)] *)
Definition remove_at {A} (pos : nat) (l : list A) : list A := take pos l ++ drop (S pos) l.

(** [fn enqueue_synthetic(queue, queue_capacity, line, total_dropped)] *)
Definition enqueue_synthetic (queue : list QueueEntry) (cap : nat) (line : StatsLine) (total_dropped : Z) : list QueueEntry * Z :=
  if (cap =? 0)%nat then (queue, sat_add 64 total_dropped 1)
  else
    let '(queue, total_dropped) :=
      if (cap <=? length queue)%nat then
        match position (fun e => negb (qe_synthetic e)) queue with
        | Some pos => (remove_at pos queue, sat_add 64 total_dropped 1)
        | None =>
            match queue with
            | _ :: rest => (rest, sat_add 64 total_dropped 1)
            | [] => (queue, total_dropped)
            end
        end
      else (queue, total_dropped) in
    (queue ++ [{| qe_line := line; qe_synthetic := true |}], total_dropped).

Inductive write_result := WriteOk | WriteBrokenPipe | WriteErr | SerializeErr.

(** The stats task's locals; [sk_out] are the lines written, [sk_writes] counts attempts. *)
Record StatsTask := {
  sk_registry : gmap EndpointId StatsRow;
  sk_queue : list QueueEntry;
  sk_total_dropped : Z;
  sk_last_warned : Z;
  sk_broken_pipe_warned : bool;
  sk_out : list StatsLine;
  sk_writes : nat;
}.

Definition StatsTask_new : StatsTask :=
  {| sk_registry := ∅; sk_queue := []; sk_total_dropped := 0; sk_last_warned := 0; sk_broken_pipe_warned := false;
     sk_out := []; sk_writes := 0 |}.

(** The stats objects as the task sees them at one moment. *)
Abbreviation snapshot := (nat -> EndpointStats).

Section StatsTask.
Context (iter : gmap EndpointId StatsRow -> list (EndpointId * StatsRow)) (writer : nat -> write_result).

Definition row_line (ts : string) (w : snapshot) (row : StatsRow) : StatsLine :=
  build_line (row_name row) (w (row_stats row)) ts (row_routable row).

Definition set_queue_dropped (t : StatsTask) (registry : gmap EndpointId StatsRow) (q : list QueueEntry * Z) : StatsTask :=
  {| sk_registry := registry; sk_queue := q.1; sk_total_dropped := q.2; sk_last_warned := sk_last_warned t;
     sk_broken_pipe_warned := sk_broken_pipe_warned t; sk_out := sk_out t; sk_writes := sk_writes t |}.

(** [fn handle_event(registry, queue, queue_capacity, total_dropped, emit_lines, event)] *)
Definition stats_handle_event (cfg : StatsRunConfig) (ts : string) (w : snapshot) (event : StatsEvent) (t : StatsTask) : StatsTask :=
  match event with
  | Register id name stats routable =>
      set_queue_dropped t (<[id := {| row_name := name; row_stats := stats; row_routable := routable |}]> (sk_registry t))
        (sk_queue t, sk_total_dropped t)
  | Finalize id =>
      match sk_registry t !! id with
      | None => t
      | Some entry =>
          let registry := delete id (sk_registry t) in
          if negb (cfg_enabled cfg) then set_queue_dropped t registry (sk_queue t, sk_total_dropped t)
          else set_queue_dropped t registry
                 (enqueue_synthetic (sk_queue t) (cfg_queue_capacity cfg) (row_line ts w entry) (sk_total_dropped t))
      end
  end.

Fixpoint enqueue_lines (cap : nat) (lines : list StatsLine) (q : list QueueEntry * Z) : list QueueEntry * Z :=
  match lines with
  | [] => q
  | line :: rest => enqueue_lines cap rest (enqueue_regular q.1 cap line q.2)
  end.

(** [fn emit_interval_lines(registry, queue, queue_capacity, total_dropped)] *)
Definition emit_interval_lines (cfg : StatsRunConfig) (ts : string) (w : snapshot) (t : StatsTask) : StatsTask :=
  if bool_decide (sk_registry t = ∅) then t
  else
    let lines := map (fun p => row_line ts w p.2) (iter (sk_registry t)) in
    set_queue_dropped t (sk_registry t) (enqueue_lines (cfg_queue_capacity cfg) lines (sk_queue t, sk_total_dropped t)).

(** [fn warn_on_new_drops(total_dropped, last_warned)] *)
Definition warn_on_new_drops (t : StatsTask) : StatsTask :=
  if sk_last_warned t <? sk_total_dropped t then
    {| sk_registry := sk_registry t; sk_queue := sk_queue t; sk_total_dropped := sk_total_dropped t;
       sk_last_warned := sk_total_dropped t; sk_broken_pipe_warned := sk_broken_pipe_warned t; sk_out := sk_out t;
       sk_writes := sk_writes t |}
  else t.

(** [async fn drain_queue(queue, writer, broken_pipe_warned)]: the loop, on the queue's
    entries. *)
Fixpoint drain_entries (entries : list QueueEntry) (broken : bool) (out : list StatsLine) (writes : nat)
    : bool * list StatsLine * nat :=
  match entries with
  | [] => (broken, out, writes)
  | entry :: rest =>
      if broken then drain_entries rest broken out writes
      else
        match writer writes with
        | SerializeErr => drain_entries rest broken out (S writes)
        | WriteOk => drain_entries rest broken (out ++ [qe_line entry]) (S writes)
        | WriteBrokenPipe => drain_entries rest true out (S writes)
        | WriteErr => drain_entries rest broken out (S writes)
        end
  end.

Definition drain_queue (t : StatsTask) : StatsTask :=
  let '(broken, out, writes) := drain_entries (sk_queue t) (sk_broken_pipe_warned t) (sk_out t) (sk_writes t) in
  {| sk_registry := sk_registry t; sk_queue := []; sk_total_dropped := sk_total_dropped t; sk_last_warned := sk_last_warned t;
     sk_broken_pipe_warned := broken; sk_out := out; sk_writes := writes |}.

(** What the [select!] of [run] resolved to. *)
Inductive stats_input :=
| StatsCancel
| StatsTick (ts : string) (w : snapshot)
| StatsRecv (event : StatsEvent) (ts : string) (w : snapshot)
| StatsClosed.

(** [Instant + Duration]: moments are in nanoseconds and [instant_max] is the last one the
    platform can represent; adding past it panics. *)
Definition instant_add (instant_max now d : Z) : outcome Z :=
  if instant_max <? now + d then Panicked else Done (now + d).

(** [tokio::time::Interval]: its first tick and its period. *)
Record Interval := { iv_start : Z; iv_period : Z }.

(** [tokio::time::interval_at(start, period)]: panics on a zero period. *)
Definition interval_at (start period : Z) : outcome Interval :=
  if period =? 0 then Panicked else Done {| iv_start := start; iv_period := period |}.

(** [let mut interval = cfg.enabled.then(..)] of [run], at [now]. *)
Definition stats_interval (instant_max now : Z) (cfg : StatsRunConfig) : outcome (option Interval) :=
  if cfg_enabled cfg then
    let! start := instant_add instant_max now (cfg_interval cfg) in
    let! timer := interval_at start (cfg_interval cfg) in
    Done (Some timer)
  else Done None.

(** [async fn interval_tick(interval)]: whether it can resolve at all. *)
Definition interval_tick (interval : option Interval) : bool :=
  match interval with Some _ => true | None => false end.

(** One turn of the loop of [run]; [true] is [break].  With stats off the timer never
    ticks. *)
Definition stats_turn (cfg : StatsRunConfig) (interval : option Interval) (i : stats_input) (t : StatsTask) : bool * StatsTask :=
  match i with
  | StatsCancel => (true, t)
  | StatsTick ts w =>
      if interval_tick interval then (false, drain_queue (warn_on_new_drops (emit_interval_lines cfg ts w t))) else (false, t)
  | StatsRecv event ts w => (false, drain_queue (stats_handle_event cfg ts w event t))
  | StatsClosed => (true, t)
  end.

Fixpoint stats_loop (cfg : StatsRunConfig) (interval : option Interval) (inputs : list stats_input) (t : StatsTask) : StatsTask :=
  match inputs with
  | [] => t
  | i :: rest => let '(stop, t) := stats_turn cfg interval i t in if stop : bool then t else stats_loop cfg interval rest t
  end.

(** What one round of the loop after the break meets: the clock at its top, and the answer
    of [timeout(remaining, event_rx.recv())], if it gets there. *)
Inductive late_answer := LateEvent (event : StatsEvent) (ts : string) (w : snapshot) | LateClosed | LateElapsed.

(** The loop after the break, up to [drain_deadline]. *)
Fixpoint post_cancel_loop (cfg : StatsRunConfig) (drain_deadline : Z) (rounds : list (Z * late_answer)) (t : StatsTask) : StatsTask :=
  match rounds with
  | [] => t
  | (now, answer) :: rest =>
      if drain_deadline <=? now then t
      else
        match answer with
        | LateEvent event ts w => post_cancel_loop cfg drain_deadline rest (stats_handle_event cfg ts w event t)
        | LateClosed | LateElapsed => t
        end
  end.

(** [pub async fn run(event_rx, cancel, cfg, writer)], started at [started]; the main loop
    breaks at [stopped]. *)
Definition stats_run (instant_max started : Z) (cfg : StatsRunConfig) (inputs : list stats_input) (stopped : Z)
    (late : list (Z * late_answer)) : outcome StatsTask :=
  let! interval := stats_interval instant_max started cfg in
  let t := stats_loop cfg interval inputs StatsTask_new in
  let! drain_deadline := instant_add instant_max stopped POST_CANCEL_DRAIN in
  Done (drain_queue (post_cancel_loop cfg drain_deadline late t)).
End StatsTask.

(** ** The queue policy *)

Definition synthetic_lines (q : list QueueEntry) : list StatsLine := qe_line <$> List.filter qe_synthetic q.

Lemma position_Some_split {A} (p : A -> bool) l i :
  position p l = Some i -> exists pre x post, l = pre ++ x :: post /\ length pre = i /\ p x = true.
Proof.
  revert i; induction l as [|y l IH]; intros i; simpl; [done|]. destruct (p y) eqn:E.
  - intros [= <-]. by exists [], y, l.
  - destruct (position p l) as [j|]; [|done]. intros [= <-]. destruct (IH j eq_refl) as (pre & x & post & -> & <- & Hx).
    by exists (y :: pre), x, post.
Qed.

Lemma sat_add_0 d : in_width 64 d -> sat_add 64 d 0 = d.
Proof. unfold in_width, sat_add. lia. Qed.

(** A regular line: the queue is a window on the last lines. *)
Lemma enqueue_regular_window q cap line d :
  (1 <= cap)%nat -> (length q <= cap)%nat -> in_width 64 d ->
  let '(q', d') := enqueue_regular q cap line d in
  q' = last_n cap (q ++ [{| qe_line := line; qe_synthetic := false |}]) /\ d' = sat_add 64 d (Z.of_nat (length q + 1 - length q')).
Proof.
  intros Hc Hl Hd. unfold enqueue_regular. destruct (Nat.eqb_spec cap 0); [lia|].
  unfold last_n. rewrite length_app. cbn [length]. destruct (Nat.leb_spec cap (length q)) as [Hf|Hf].
  - replace (length q + 1 - cap)%nat with 1%nat by lia. destruct q as [|e q]; [simpl in *; lia|]. simpl.
    split; [done|]. f_equal. rewrite length_app. simpl. lia.
  - replace (length q + 1 - cap)%nat with 0%nat by lia. split; [done|]. rewrite length_app. simpl.
    replace (length q + 1 - (length q + 1))%nat with 0%nat by lia. by rewrite sat_add_0.
Qed.

Lemma synthetic_lines_app q q' : synthetic_lines (q ++ q') = synthetic_lines q ++ synthetic_lines q'.
Proof. unfold synthetic_lines. by rewrite List.filter_app, fmap_app. Qed.

Lemma enqueue_synthetic_policy q cap line d :
  (1 <= cap)%nat -> (length q <= cap)%nat -> in_width 64 d ->
  let '(q', d') := enqueue_synthetic q cap line d in
  (length q' <= cap)%nat /\ d' = sat_add 64 d (Z.of_nat (length q + 1 - length q')) /\
  synthetic_lines q' =
    (if decide (length q = cap /\ Forall (fun e => qe_synthetic e = true) q)
     then tail (synthetic_lines q) else synthetic_lines q) ++ [line].
Proof.
  intros Hc Hl Hd. unfold enqueue_synthetic. destruct (Nat.eqb_spec cap 0); [lia|].
  destruct (Nat.leb_spec cap (length q)) as [Hf|Hf].
  - destruct (position (fun e => negb (qe_synthetic e)) q) as [i|] eqn:Ep.
    + apply position_Some_split in Ep as (pre & x & post & -> & <- & Hx%negb_true_iff).
      unfold remove_at. rewrite take_app_length, drop_app_ge by lia.
      replace (S (length pre) - length pre)%nat with 1%nat by lia. cbn [drop]. rewrite drop_0, !length_app in *. simpl in *.
      split_and!; [lia|f_equal; lia|]. rewrite decide_False.
      * rewrite !synthetic_lines_app. unfold synthetic_lines. simpl. by rewrite Hx.
      * intros [_ Hall]. rewrite Forall_app, Forall_cons in Hall. destruct Hall as (_ & He & _). congruence.
    + apply position_None in Ep. assert (Hall : Forall (fun e => qe_synthetic e = true) q).
      { eapply Forall_impl; [exact Ep|]. intros e. apply negb_false_iff. }
      destruct q as [|e q]; [simpl in *; lia|]. rewrite length_app. simpl in *. split_and!; [lia|f_equal; lia|].
      rewrite decide_True by (split; [lia|done]). rewrite synthetic_lines_app. unfold synthetic_lines. simpl.
      apply Forall_cons in Hall as [-> _]. done.
  - rewrite length_app. simpl. split_and!; [lia| |].
    + replace (length q + 1 - (length q + 1))%nat with 0%nat by lia. by rewrite sat_add_0.
    + rewrite decide_False by lia. by rewrite synthetic_lines_app.
Qed.

(** End-state lines are protected.  Queueing a line keeps the queue within its capacity
    and counts every displaced line.  A regular line displaces the oldest; an end-state line
    displaces a regular one whenever one is queued, so that no queued end-state line is lost
    to it unless the queue holds nothing else, and then only the oldest. *)
Theorem stats_queue_policy q cap line dropped :
  (1 <= cap)%nat -> (length q <= cap)%nat -> in_width 64 dropped ->
  (let '(q', d') := enqueue_regular q cap line dropped in
   q' = last_n cap (q ++ [{| qe_line := line; qe_synthetic := false |}]) /\ (length q' <= cap)%nat /\
   d' = sat_add 64 dropped (Z.of_nat (length q + 1 - length q'))) /\
  (let '(q', d') := enqueue_synthetic q cap line dropped in
   (length q' <= cap)%nat /\ d' = sat_add 64 dropped (Z.of_nat (length q + 1 - length q')) /\
   synthetic_lines q' =
     (if decide (length q = cap /\ Forall (fun e => qe_synthetic e = true) q)
      then tail (synthetic_lines q) else synthetic_lines q) ++ [line]).
Proof.
  intros Hc Hl Hd. split; [|by apply enqueue_synthetic_policy].
  pose proof (enqueue_regular_window q cap line dropped Hc Hl Hd) as Hr.
  destruct (enqueue_regular q cap line dropped) as [q' d']. destruct Hr as [-> ->]. split_and!; [done| |done].
  unfold last_n. rewrite length_drop, length_app. simpl. lia.
Qed.

(** ** The task writes what happened *)

Section Output.
Context (iter : gmap EndpointId StatsRow -> list (EndpointId * StatsRow)) (writer : nat -> write_result).
Hypothesis healthy : forall n, writer n = WriteOk.
Context (cfg : StatsRunConfig) (cap_pos : (1 <= cfg_queue_capacity cfg)%nat) (enabled : cfg_enabled cfg = true).
Implicit Types t : StatsTask.
Abbreviation cap := (cfg_queue_capacity cfg).

(** The registry and the line an event leaves, directly. *)
Definition event_effect (ts : string) (w : snapshot) (e : StatsEvent) (reg : gmap EndpointId StatsRow)
    : gmap EndpointId StatsRow * list StatsLine :=
  match e with
  | Register id name stats routable => (<[id := {| row_name := name; row_stats := stats; row_routable := routable |}]> reg, [])
  | Finalize id =>
      match reg !! id with Some row => (delete id reg, [row_line ts w row]) | None => (reg, []) end
  end.

(** The registry and the lines the main loop leaves, directly. *)
Fixpoint expected (inputs : list stats_input) (reg : gmap EndpointId StatsRow) : gmap EndpointId StatsRow * list StatsLine :=
  match inputs with
  | [] | StatsCancel :: _ | StatsClosed :: _ => (reg, [])
  | StatsTick ts w :: rest =>
      let '(reg', out) := expected rest reg in
      (reg', last_n cap (map (fun p => row_line ts w p.2) (iter reg)) ++ out)
  | StatsRecv e ts w :: rest =>
      let '(reg, line) := event_effect ts w e reg in
      let '(reg', out) := expected rest reg in (reg', line ++ out)
  end.

(** The end-state lines of the events received before [deadline]. *)
Fixpoint expected_late (deadline : Z) (late : list (Z * late_answer)) (reg : gmap EndpointId StatsRow) : list StatsLine :=
  match late with
  | (now, LateEvent e ts w) :: rest =>
      if now <? deadline then let '(reg, line) := event_effect ts w e reg in line ++ expected_late deadline rest reg else []
  | _ => []
  end.

Lemma drain_entries_healthy es out n :
  drain_entries writer es false out n = (false, out ++ (qe_line <$> es), (n + length es)%nat).
Proof.
  revert out n; induction es as [|e es IH]; intros out n; simpl; [by rewrite app_nil_r, Nat.add_0_r|].
  rewrite healthy, IH, <- app_assoc. simpl. f_equal. lia.
Qed.

Lemma enqueue_lines_window lines q d :
  (length q <= cap)%nat -> in_width 64 d ->
  qe_line <$> (enqueue_lines cap lines (q, d)).1 = last_n cap ((qe_line <$> q) ++ lines) /\
  in_width 64 (enqueue_lines cap lines (q, d)).2.
Proof.
  revert q d; induction lines as [|l lines IH]; intros q d Hl Hd; cbn [enqueue_lines fst].
  { rewrite app_nil_r, last_n_short by (by rewrite length_fmap). done. }
  cbn [snd]. pose proof (enqueue_regular_window q cap l d cap_pos Hl Hd) as Hr.
  destruct (enqueue_regular q cap l d) as [q' d']. destruct Hr as [-> ->].
  match goal with |- context [enqueue_lines cap lines (?a, ?b)] => destruct (IH a b) as [-> Hw] end.
  - unfold last_n. rewrite length_drop, length_app. simpl. lia.
  - apply sat_add_range; unfold in_width in *; lia.
  - split; [|exact Hw]. unfold last_n. rewrite fmap_drop, fmap_app. cbn [fmap list_fmap]. simpl. rewrite !length_app, !length_drop, !length_app, !length_fmap. simpl.
    rewrite (cons_middle l _ lines), app_assoc. set (a := (qe_line <$> q) ++ [l]).
    assert (Ha : length a = S (length q)) by (unfold a; rewrite length_app, length_fmap; simpl; lia).
    rewrite !drop_app, !length_drop, drop_drop, Ha. f_equal; f_equal; lia.
Qed.

(** Between turns the queue is empty and the pipe is up. *)
Definition at_rest t (reg : gmap EndpointId StatsRow) (out : list StatsLine) : Prop :=
  sk_queue t = [] /\ sk_registry t = reg /\ sk_out t = out /\ sk_broken_pipe_warned t = false /\ in_width 64 (sk_total_dropped t).

Lemma drain_queue_at_rest t reg out lines :
  qe_line <$> sk_queue t = lines -> sk_registry t = reg -> sk_out t = out -> sk_broken_pipe_warned t = false ->
  in_width 64 (sk_total_dropped t) -> at_rest (drain_queue writer t) reg (out ++ lines).
Proof. intros <- <- <- Hb Hd. unfold drain_queue. rewrite Hb, drain_entries_healthy. by split_and!. Qed.

Lemma event_at_rest ts w e t reg out :
  at_rest t reg out ->
  let '(reg', line) := event_effect ts w e reg in
  at_rest (drain_queue writer (stats_handle_event cfg ts w e t)) reg' (out ++ line).
Proof.
  intros (Hq & Hr & Ho & Hb & Hd). destruct e as [id name k rt|id]; cbn [event_effect stats_handle_event].
  - apply drain_queue_at_rest; simpl; by rewrite ?Hq, ?Hr.
  - rewrite Hr. destruct (reg !! id) as [row|]; [|apply drain_queue_at_rest; by rewrite ?Hq].
    rewrite enabled. cbn [negb].
    assert (Hlen : (length (sk_queue t) <= cap)%nat) by (rewrite Hq; simpl; lia).
    pose proof (enqueue_synthetic_policy (sk_queue t) cap (row_line ts w row) (sk_total_dropped t) cap_pos Hlen Hd) as Hp.
    apply drain_queue_at_rest; simpl; try done.
    + rewrite Hq in *. unfold enqueue_synthetic in *. destruct (Nat.eqb_spec cap 0); [lia|].
      destruct (Nat.leb_spec cap (length (@nil QueueEntry))); [simpl in *; lia|]. done.
    + destruct (enqueue_synthetic _ _ _ _) as [q' d']. destruct Hp as (_ & -> & _). simpl.
      apply sat_add_range; unfold in_width in *; lia.
Qed.

Hypothesis iter_empty : iter ∅ = [].

Lemma tick_at_rest ts w t reg out :
  at_rest t reg out ->
  at_rest (drain_queue writer (warn_on_new_drops (emit_interval_lines iter cfg ts w t))) reg
    (out ++ last_n cap (map (fun p => row_line ts w p.2) (iter reg))).
Proof.
  intros (Hq & Hr & Ho & Hb & Hd). set (t1 := emit_interval_lines iter cfg ts w t).
  assert (H1 : qe_line <$> sk_queue t1 = last_n cap (map (fun p => row_line ts w p.2) (iter reg)) /\ sk_registry t1 = reg /\
    sk_out t1 = out /\ sk_broken_pipe_warned t1 = false /\ in_width 64 (sk_total_dropped t1)).
  { unfold t1, emit_interval_lines. rewrite Hr. case_bool_decide as He.
    - rewrite Hq, He, iter_empty. split_and!; [done|congruence|done|done|done].
    - destruct (enqueue_lines_window (map (fun p => row_line ts w p.2) (iter reg)) (sk_queue t) (sk_total_dropped t)) as [Hl Hw]; [rewrite Hq; simpl; lia|done|].
      cbn [set_queue_dropped sk_queue sk_registry sk_out sk_broken_pipe_warned sk_total_dropped]. split_and!; [by rewrite Hl, Hq|done|done|done|exact Hw]. }
  destruct H1 as (Hl & Hr1 & Ho1 & Hb1 & Hd1). unfold warn_on_new_drops. destruct (_ <? _); by apply drain_queue_at_rest.
Qed.

Lemma stats_loop_at_rest timer inputs t reg out :
  at_rest t reg out ->
  let '(reg', lines) := expected inputs reg in at_rest (stats_loop iter writer cfg (Some timer) inputs t) reg' (out ++ lines).
Proof.
  revert t reg out; induction inputs as [|i inputs IH]; intros t reg out Ht; cbn [expected stats_loop].
  { by rewrite app_nil_r. }
  destruct i as [|ts w|e ts w|]; cbn [stats_turn]; [by rewrite app_nil_r| | |by rewrite app_nil_r].
  - cbn [interval_tick]. specialize (IH _ _ _ (tick_at_rest ts w t reg out Ht)). destruct (expected inputs reg) as [reg' lines].
    by rewrite app_assoc.
  - pose proof (event_at_rest ts w e t reg out Ht) as He. destruct (event_effect ts w e reg) as [reg1 line].
    specialize (IH _ _ _ He). destruct (expected inputs reg1) as [reg' lines]. by rewrite app_assoc.
Qed.

Lemma stats_interval_ok instant_max started :
  0 < cfg_interval cfg -> started + cfg_interval cfg <= instant_max ->
  stats_interval instant_max started cfg = Done (Some {| iv_start := started + cfg_interval cfg; iv_period := cfg_interval cfg |}).
Proof.
  intros Hi Hs. unfold stats_interval, instant_add, interval_at. rewrite enabled, (proj2 (Z.ltb_ge _ _)) by done.
  by rewrite (proj2 (Z.eqb_neq _ _)) by lia.
Qed.

(** After cancellation only end-state lines are queued. *)
Lemma post_cancel_window deadline late t lines :
  Forall (fun e => qe_synthetic e = true) (sk_queue t) -> qe_line <$> sk_queue t = last_n cap lines ->
  (length (sk_queue t) <= cap)%nat -> in_width 64 (sk_total_dropped t) ->
  let t' := post_cancel_loop cfg deadline late t in
  qe_line <$> sk_queue t' = last_n cap (lines ++ expected_late deadline late (sk_registry t)) /\
  sk_out t' = sk_out t /\ sk_broken_pipe_warned t' = sk_broken_pipe_warned t.
Proof.
  revert t lines; induction late as [|[now answer] late IH]; intros t lines Hs Hq Hl Hd; cbn [post_cancel_loop expected_late].
  { cbv zeta. by rewrite app_nil_r. }
  rewrite Z.leb_antisym. destruct answer as [e ts w| |]; destruct (now <? deadline); cbn [negb]; try (cbv zeta; by rewrite app_nil_r).
  destruct e as [id name k rt|id]; cbn [stats_handle_event event_effect].
  - apply (IH (set_queue_dropped t _ (sk_queue t, sk_total_dropped t)) lines Hs Hq Hl Hd).
  - destruct (sk_registry t !! id) as [row|] eqn:Er; [|apply (IH t lines Hs Hq Hl Hd)]. rewrite enabled. cbn [negb].
    set (line := row_line ts w row).
    assert (Hq' : let '(q', d') := enqueue_synthetic (sk_queue t) cap line (sk_total_dropped t) in
      Forall (fun e => qe_synthetic e = true) q' /\ qe_line <$> q' = last_n cap (lines ++ [line]) /\ (length q' <= cap)%nat /\ in_width 64 d').
    { pose proof (enqueue_synthetic_policy (sk_queue t) cap line (sk_total_dropped t) cap_pos Hl Hd) as Hp.
      unfold enqueue_synthetic in *. destruct (Nat.eqb_spec cap 0); [lia|].
      assert (Hnone : position (fun e => negb (qe_synthetic e)) (sk_queue t) = None).
      { clear -Hs. induction Hs as [|e q He _ IH]; [done|]. simpl. rewrite He. simpl. by rewrite IH. }
      rewrite Hnone in *. rewrite <- (last_n_snoc cap lines line cap_pos), <- Hq.
      destruct (Nat.leb_spec cap (length (sk_queue t))) as [Hf|Hf].
      - destruct (sk_queue t) as [|e q] eqn:Eq; [simpl in *; lia|]. destruct Hp as (Hb & -> & _). apply Forall_cons in Hs as [_ Hs].
        split_and!; [apply Forall_app; split; [done|by repeat constructor]| |done|apply sat_add_range; unfold in_width in *; lia].
        unfold last_n. rewrite length_app. simpl. rewrite length_fmap. simpl in Hl, Hf. rewrite fmap_app.
        replace (S (length q + 1) - cap)%nat with 1%nat by lia. simpl. by rewrite drop_0.
      - destruct Hp as (Hb & _ & _). split_and!; [apply Forall_app; split; [done|by repeat constructor]| |done|done].
        rewrite fmap_app, last_n_short; [done|]. rewrite length_app, length_fmap. simpl. lia. }
    destruct (enqueue_synthetic (sk_queue t) cap line (sk_total_dropped t)) as [q' d']. destruct Hq' as (Hs' & Hq' & Hl' & Hd').
    destruct (IH (set_queue_dropped t (delete id (sk_registry t)) (q', d')) (lines ++ [line]) Hs' Hq' Hl' Hd') as (IHq & IHo & IHb).
    cbv zeta. rewrite IHq, IHo, IHb, <- app_assoc. done.
Qed.

(** C28. What the stats stream contains.  With stats on, a positive interval the clock can
    represent, and stdout accepting lines, the task does not panic and the lines written are exactly these, in order: for each tick one line per registered
    endpoint (the last [queue_capacity] of them, if there are more); for each [Finalize]
    of a registered endpoint its end-state line, and no line for it after; and after
    cancellation the end-state lines of the [Finalize]s still received within
    [POST_CANCEL_DRAIN], up to [queue_capacity] (the latest ones). *)
Theorem stats_output_exact instant_max started inputs stopped late :
  0 < cfg_interval cfg -> started + cfg_interval cfg <= instant_max -> stopped + POST_CANCEL_DRAIN <= instant_max ->
  exists t, stats_run iter writer instant_max started cfg inputs stopped late = Done t /\
  sk_queue t = [] /\
  let '(reg, lines) := expected inputs ∅ in
  sk_out t = lines ++ last_n cap (expected_late (stopped + POST_CANCEL_DRAIN) late reg).
Proof.
  intros Hi Hs Hp. unfold stats_run. rewrite stats_interval_ok by done. unfold instant_add.
  rewrite (proj2 (Z.ltb_ge _ _)) by done. cbv zeta. eexists. split; [done|].
  match goal with |- context [stats_loop _ _ _ (Some ?i)] => pose proof (stats_loop_at_rest i inputs StatsTask_new ∅ []) as Hm end.
  destruct (expected inputs ∅) as [reg lines]. destruct Hm as (Hq & Hr & Ho & Hb & Hd); [by split_and!|].
  set (t := stats_loop iter writer cfg _ inputs StatsTask_new) in *.
  destruct (post_cancel_window (stopped + POST_CANCEL_DRAIN) late t []) as (Hpq & Hpo & Hpb); rewrite ?Hq; [constructor|done|simpl; lia|done|].
  unfold drain_queue. rewrite Hpb, Hb, drain_entries_healthy. simpl. by rewrite Hpo, Ho, Hpq, Hr.
Qed.
End Output.

(** An interval the clock cannot represent ends the task in a panic before its first turn. *)
Theorem huge_interval_panics iter writer instant_max started cfg inputs stopped late :
  cfg_enabled cfg = true -> instant_max < started + cfg_interval cfg ->
  stats_run iter writer instant_max started cfg inputs stopped late = Panicked.
Proof.
  intros He Hm. unfold stats_run, stats_interval, instant_add. by rewrite He, (proj2 (Z.ltb_lt _ _)) by done.
Qed.

(** ** Witnesses *)

Lemma stats_queue_policy_witness :
  synthetic_lines (enqueue_synthetic [{| qe_line := Line_NonRoutable "t" "a" "down"; qe_synthetic := true |};
    {| qe_line := Line_NonRoutable "t" "b" "connected"; qe_synthetic := false |}] 2 (Line_NonRoutable "t" "c" "down") 0).1
  = [Line_NonRoutable "t" "a" "down"; Line_NonRoutable "t" "c" "down"].
Proof.
  destruct (stats_queue_policy [{| qe_line := Line_NonRoutable "t" "a" "down"; qe_synthetic := true |};
    {| qe_line := Line_NonRoutable "t" "b" "connected"; qe_synthetic := false |}] 2 (Line_NonRoutable "t" "c" "down") 0)
    as (_ & _ & _ & Hs); [lia|simpl; lia|unfold in_width; lia|]. exact Hs.
Defined.

Module StatsSample.
Definition cfg : StatsRunConfig := {| cfg_enabled := true; cfg_interval := 1000000000; cfg_queue_capacity := 2 |}.
Definition w : snapshot := fun _ => EndpointStats_new Connected.
Definition inputs : list stats_input :=
  [StatsRecv (Register 0 "gcs" 0 false) "t0" w; StatsRecv (Register 1 "fc" 1 true) "t0" w; StatsTick "t1" w;
   StatsRecv (Finalize 1) "t2" (fun _ => EndpointStats_new Down); StatsCancel].
Definition late : list (Z * late_answer) :=
  [(100, LateEvent (Finalize 0) "t3" w); (1600000000, LateEvent (Finalize 0) "t4" w)].
End StatsSample.

Lemma stats_output_exact_witness :
  exists t, stats_run map_to_list (fun _ => WriteOk) (2 ^ 63 * 1000000000) 7 StatsSample.cfg StatsSample.inputs 90 StatsSample.late = Done t /\
  sk_out t =
  [row_line "t1" StatsSample.w {| row_name := "fc"; row_stats := 1; row_routable := true |}; Line_NonRoutable "t1" "gcs" "connected";
   row_line "t2" (fun _ => EndpointStats_new Down) {| row_name := "fc"; row_stats := 1; row_routable := true |};
   Line_NonRoutable "t3" "gcs" "connected"].
Proof.
  destruct (stats_output_exact map_to_list (fun _ => WriteOk) (fun _ => eq_refl) StatsSample.cfg ltac:(simpl; lia) eq_refl
    map_to_list_empty (2 ^ 63 * 1000000000) 7 StatsSample.inputs 90 StatsSample.late) as (t & Ht & _ & Ho).
  - vm_compute. reflexivity.
  - vm_compute. discriminate.
  - vm_compute. discriminate.
  - exists t. split; [exact Ht|]. rewrite Ho. vm_compute. reflexivity.
Defined.
