(* ===== verification/Config.v ===== *)
(** * Configuration: CLI, TOML and their merge
    ([src/src/config.rs], [src/src/parsers/cli.rs], [src/src/parsers/toml.rs],
    [src/src/main.rs], [src/src/lib.rs])

    [clap] and the [toml] crate deliver the typed structures [Cli], [TomlFile] and
    [TomlEndpoint]; the model starts there. *)

From Stdlib Require Import Ascii.
From S2P Require Import Prelude RustStr RustNet Frame Filters Identity FilterParse Spec Endpoint UdpServer.
#[local] Open Scope string_scope.
#[local] Open Scope Z_scope.

Definition DEFAULT_STATS_INTERVAL_SECS : Z := 5.
Definition MIN_STATS_INTERVAL_SECS : Z := 1.
Definition DEFAULT_DEDUP_MS : Z := 0.
Definition MAX_DEDUP_MS : Z := 10000.

(** [enum LogLevel], [enum LogFormat] *)
Inductive LogLevel := LogTrace | LogDebug | LogInfo | LogWarn | LogError.
Inductive LogFormat := LogText | LogJson.

(** [struct Config] *)
Record Config := {
  cf_log_level : LogLevel;
  cf_log_format : LogFormat;
  cf_stats : bool;
  cf_stats_interval_secs : Z;
  cf_dedup_ms : Z;
  cf_skip_config_log : bool;
  cf_endpoints : list EndpointSpec;
  cf_merged : bool;
}.

(** [struct CliConfig] and [struct TomlConfig], which have the same fields. *)
Record SourceConfig := {
  sc_log_level : option LogLevel;
  sc_log_format : option LogFormat;
  sc_stats : option bool;
  sc_stats_interval_secs : option Z;
  sc_dedup_ms : option Z;
  sc_skip_config_log : option bool;
  sc_endpoints : list EndpointSpec;
}.

Definition SourceConfig_default : SourceConfig :=
  {| sc_log_level := None; sc_log_format := None; sc_stats := None; sc_stats_interval_secs := None; sc_dedup_ms := None;
     sc_skip_config_log := None; sc_endpoints := [] |}.

Definition is_some {A} (o : option A) : bool := match o with Some _ => true | None => false end.

(** [has_values] of both sources *)
Definition has_values (s : SourceConfig) : bool :=
  is_some (sc_log_level s) || is_some (sc_log_format s) || is_some (sc_stats s) || is_some (sc_stats_interval_secs s)
  || is_some (sc_dedup_ms s) || is_some (sc_skip_config_log s) || negb (bool_decide (length (sc_endpoints s) = 0%nat)).

(** [Config::default] *)
Definition Config_default : Config :=
  {| cf_log_level := LogInfo; cf_log_format := LogText; cf_stats := false;
     cf_stats_interval_secs := DEFAULT_STATS_INTERVAL_SECS; cf_dedup_ms := DEFAULT_DEDUP_MS;
     cf_skip_config_log := false; cf_endpoints := []; cf_merged := false |}.

(** [enum Error]; the errors of [std::io] and of the [toml] crate are the text they display. *)
Inductive Error :=
| SpecInArg (index : nat) (arg : string) (source : SpecError)
| SpecInToml (name : string) (source : SpecError)
| DuplicateName (name : string)
| ConfigIo (path source : string)
| ConfigParse (source : string)
| ConfigSchema (name reason : string)
| DedupMsTooLarge (requested max : Z)
| StatsIntervalTooSmall (requested min : Z)
| FilterReferencesUnknownEndpoint (endpoint_name axis referenced_name : string).

(** [fn check_unique_names(endpoints) -> Result<(), Error>] *)
Fixpoint check_unique_loop (seen : gset string) (endpoints : list EndpointSpec) : result unit Error :=
  match endpoints with
  | [] => Ok tt
  | e :: rest =>
      if bool_decide (spec_name e ∈ seen) then Err (DuplicateName (spec_name e))
      else check_unique_loop ({[spec_name e]} ∪ seen) rest
  end.
Definition check_unique_names (endpoints : list EndpointSpec) : result unit Error := check_unique_loop ∅ endpoints.

(** [fn merge_endpoints(toml_endpoints, cli_endpoints)] *)
Fixpoint merge_loop (cli_names : gset string) (toml : list EndpointSpec) (endpoints : list EndpointSpec) (overridden : list string)
    : list EndpointSpec * list string :=
  match toml with
  | [] => (endpoints, overridden)
  | e :: rest =>
      if bool_decide (spec_name e ∈ cli_names) then merge_loop cli_names rest endpoints (overridden ++ [spec_name e])%list
      else merge_loop cli_names rest (endpoints ++ [e])%list overridden
  end.
Definition merge_endpoints (toml_endpoints cli_endpoints : list EndpointSpec) : list EndpointSpec * list string :=
  let cli_names := list_to_set (map spec_name cli_endpoints) in
  let '(endpoints, overridden) := merge_loop cli_names toml_endpoints [] [] in
  ((endpoints ++ cli_endpoints)%list, overridden).

(** [fn validate_endpoint_references(endpoints) -> Result<(), Error>] *)
Fixpoint check_references (known : gset string) (endpoint_name : string) (entries : list (string * string)) : result unit Error :=
  match entries with
  | [] => Ok tt
  | (axis, referenced) :: rest =>
      if negb (bool_decide (referenced ∈ known)) then Err (FilterReferencesUnknownEndpoint endpoint_name axis referenced)
      else check_references known endpoint_name rest
  end.
Fixpoint validate_references_loop (known : gset string) (endpoints : list EndpointSpec) : result unit Error :=
  match endpoints with
  | [] => Ok tt
  | e :: rest =>
      let? _ := check_references known (spec_name e) (src_endpoint_out_entries (filters (EndpointKind_identity (spec_kind e)))) in
      validate_references_loop known rest
  end.
Definition validate_endpoint_references (endpoints : list EndpointSpec) : result unit Error :=
  validate_references_loop (list_to_set (map spec_name endpoints)) endpoints.

(** [Config::validate] *)
Definition Config_validate (c : Config) : result unit Error :=
  if MAX_DEDUP_MS <? cf_dedup_ms c then Err (DedupMsTooLarge (cf_dedup_ms c) MAX_DEDUP_MS)
  else if cf_stats_interval_secs c <? MIN_STATS_INTERVAL_SECS
  then Err (StatsIntervalTooSmall (cf_stats_interval_secs c) MIN_STATS_INTERVAL_SECS)
  else
    let? _ := check_unique_names (cf_endpoints c) in
    validate_endpoint_references (cf_endpoints c).

Definition or_else {A} (a b : option A) : option A := match a with Some _ => a | None => b end.

(** [struct MergeOutcome] *)
Record MergeOutcome := { mo_config : Config; mo_overridden_names : list string }.

(** [Config::merge] *)
Definition Config_merge (toml : option SourceConfig) (cli : SourceConfig) : result MergeOutcome Error :=
  let toml := default SourceConfig_default toml in
  let? _ := check_unique_names (sc_endpoints toml) in
  let? _ := check_unique_names (sc_endpoints cli) in
  let merged := has_values toml && has_values cli in
  let '(endpoints, overridden_names) := merge_endpoints (sc_endpoints toml) (sc_endpoints cli) in
  let config := {|
    cf_log_level := default LogInfo (or_else (sc_log_level cli) (sc_log_level toml));
    cf_log_format := default LogText (or_else (sc_log_format cli) (sc_log_format toml));
    cf_stats := default false (or_else (sc_stats cli) (sc_stats toml));
    cf_stats_interval_secs := default DEFAULT_STATS_INTERVAL_SECS (or_else (sc_stats_interval_secs cli) (sc_stats_interval_secs toml));
    cf_dedup_ms := default DEFAULT_DEDUP_MS (or_else (sc_dedup_ms cli) (sc_dedup_ms toml));
    cf_skip_config_log := default false (or_else (sc_skip_config_log cli) (sc_skip_config_log toml));
    cf_endpoints := endpoints;
    cf_merged := merged |} in
  let? _ := Config_validate config in
  Ok {| mo_config := config; mo_overridden_names := overridden_names |}.

(** ** The command line *)

(** [struct Cli], as [clap] fills it. *)
Record Cli := {
  cli_config : option string;
  cli_log_level : option LogLevel;
  cli_log_format : option LogFormat;
  cli_stats : bool;
  cli_stats_interval_secs : option Z;
  cli_dedup_ms : option Z;
  cli_skip_config_log : bool;
  cli_dry_run : bool;
  cli_endpoints : list string;
}.

Section Parsers.
Context (levenshtein : string -> string -> nat).

(** [pub fn parse_specs(raw) -> Result<Vec<EndpointSpec>, Error>] *)
Fixpoint parse_specs_from (index : nat) (raw : list string) : result (list EndpointSpec) Error :=
  match raw with
  | [] => Ok []
  | text :: rest =>
      match EndpointSpec_parse levenshtein text with
      | Err source => Err (SpecInArg index text source)
      | Ok spec => let? specs := parse_specs_from (S index) rest in Ok (spec :: specs)
      end
  end.
Definition parse_specs (raw : list string) : result (list EndpointSpec) Error := parse_specs_from 0 raw.

(** [Cli::into_cli_config] *)
Definition into_cli_config (c : Cli) : result SourceConfig Error :=
  let? endpoints := parse_specs (cli_endpoints c) in
  let stats := if cli_stats c then Some true else None in
  let skip_config_log := if cli_skip_config_log c then Some true else None in
  Ok {| sc_log_level := cli_log_level c; sc_log_format := cli_log_format c; sc_stats := stats;
        sc_stats_interval_secs := cli_stats_interval_secs c; sc_dedup_ms := cli_dedup_ms c;
        sc_skip_config_log := skip_config_log; sc_endpoints := endpoints |}.

(** ** The TOML file *)

(** [struct TomlEndpoint] *)
Record TomlEndpoint := {
  te_scheme : string;
  te_path : option string;
  te_baud : option Z;
  te_flow_control : option string;
  te_bind : option string;
  te_host : option string;
  te_port : option Z;
  te_idle_secs : option Z;
  te_latch_idle_secs : option Z;
  te_sniffer : option bool;
  te_group : option string;
  te_allow_msgid_in : option string;
  te_block_msgid_in : option string;
  te_allow_msgid_out : option string;
  te_block_msgid_out : option string;
  te_allow_src_sys_in : option string;
  te_block_src_sys_in : option string;
  te_allow_src_sys_out : option string;
  te_block_src_sys_out : option string;
  te_allow_src_comp_in : option string;
  te_block_src_comp_in : option string;
  te_allow_src_comp_out : option string;
  te_block_src_comp_out : option string;
  te_allow_src_endpoint_out : option string;
  te_block_src_endpoint_out : option string;
}.

(** [fn missing(name, scheme, field) -> Error] *)
Definition missing (name : string) (scheme : Scheme) (field : string) : Error :=
  ConfigSchema name ("type '" ++s Scheme_as_str scheme ++s "' requires field '" ++s field ++s "'").

(** [fn scheme_from_toml_type(raw, name) -> Result<Scheme, Error>] *)
Definition scheme_from_toml_type (raw name : string) : result Scheme Error :=
  ok_or (Scheme_try_from_str raw)
    (ConfigSchema name ("unknown endpoint type '" ++s raw ++s "' (valid: serial, udps, udpc, tcps, tcpc)")).

(** [TomlEndpoint::synthesize_body] *)
Definition synthesize_body (e : TomlEndpoint) (name : string) (scheme : Scheme) : result string Error :=
  match scheme with
  | Scheme_Serial =>
      let? path := ok_or (te_path e) (missing name scheme "path") in
      let? baud := ok_or (te_baud e) (missing name scheme "baud") in
      Ok (path ++s ":" ++s show_uint baud)
  | Scheme_UdpServer | Scheme_TcpServer => ok_or (te_bind e) (missing name scheme "bind")
  | Scheme_UdpClient | Scheme_TcpClient =>
      let? host := ok_or (te_host e) (missing name scheme "host") in
      let? port := ok_or (te_port e) (missing name scheme "port") in
      if contains_char ":" host then Ok ("[" ++s host ++s "]:" ++s show_uint port)
      else Ok (host ++s ":" ++s show_uint port)
  end.

(** The fields a type allows, of the scheme-specific ones. *)
Definition allowed_fields (scheme : Scheme) : list string :=
  match scheme with
  | Scheme_Serial => ["path"; "baud"; "flow_control"]
  | Scheme_UdpServer => ["bind"; "idle_secs"]
  | Scheme_TcpServer => ["bind"]
  | Scheme_UdpClient => ["host"; "port"; "latch_idle_secs"]
  | Scheme_TcpClient => ["host"; "port"]
  end%list.

Definition provided_fields (e : TomlEndpoint) : list (string * bool) :=
  [("path", is_some (te_path e)); ("baud", is_some (te_baud e)); ("flow_control", is_some (te_flow_control e));
   ("bind", is_some (te_bind e)); ("host", is_some (te_host e)); ("port", is_some (te_port e));
   ("idle_secs", is_some (te_idle_secs e)); ("latch_idle_secs", is_some (te_latch_idle_secs e))]%list.

Fixpoint join_with (sep : string) (l : list string) : string :=
  match l with [] => "" | [x] => x | x :: rest => x ++s sep ++s join_with sep rest end.

Fixpoint reject_loop (name : string) (scheme : Scheme) (provided : list (string * bool)) : result unit Error :=
  match provided with
  | [] => Ok tt
  | (field, present) :: rest =>
      if present && negb (existsb (String.eqb field) (allowed_fields scheme)) then
        Err (ConfigSchema name ("field '" ++s field ++s "' is not valid for type '" ++s Scheme_as_str scheme
          ++s "' (allowed fields: " ++s join_with ", " (allowed_fields scheme) ++s ")"))
      else reject_loop name scheme rest
  end.

(** [TomlEndpoint::reject_disallowed_fields] *)
Definition reject_disallowed_fields (e : TomlEndpoint) (name : string) (scheme : Scheme) : result unit Error :=
  reject_loop name scheme (provided_fields e).

Definition pair_of (key : string) (value : option string) : list (string * string) :=
  match value with Some v => [(key, v)] | None => [] end%list.

Definition show_bool (b : bool) : string := if b then "true" else "false".

(** [TomlEndpoint::collect_pairs] *)
Definition collect_pairs (e : TomlEndpoint) : list (string * string) :=
  (pair_of "flow_control" (te_flow_control e)
   ++ pair_of "idle_secs" (show_uint <$> te_idle_secs e)
   ++ pair_of "latch_idle_secs" (show_uint <$> te_latch_idle_secs e)
   ++ pair_of "sniffer" (show_bool <$> te_sniffer e)
   ++ pair_of "group" (te_group e)
   ++ pair_of "allow_msgid_in" (te_allow_msgid_in e)
   ++ pair_of "block_msgid_in" (te_block_msgid_in e)
   ++ pair_of "allow_msgid_out" (te_allow_msgid_out e)
   ++ pair_of "block_msgid_out" (te_block_msgid_out e)
   ++ pair_of "allow_src_sys_in" (te_allow_src_sys_in e)
   ++ pair_of "block_src_sys_in" (te_block_src_sys_in e)
   ++ pair_of "allow_src_sys_out" (te_allow_src_sys_out e)
   ++ pair_of "block_src_sys_out" (te_block_src_sys_out e)
   ++ pair_of "allow_src_comp_in" (te_allow_src_comp_in e)
   ++ pair_of "block_src_comp_in" (te_block_src_comp_in e)
   ++ pair_of "allow_src_comp_out" (te_allow_src_comp_out e)
   ++ pair_of "block_src_comp_out" (te_block_src_comp_out e)
   ++ pair_of "allow_src_endpoint_out" (te_allow_src_endpoint_out e)
   ++ pair_of "block_src_endpoint_out" (te_block_src_endpoint_out e))%list.

(** [TomlEndpoint::into_spec] *)
Definition into_spec (e : TomlEndpoint) (name : string) : result EndpointSpec Error :=
  let? scheme := scheme_from_toml_type (te_scheme e) name in
  let? _ := reject_disallowed_fields e name scheme in
  let? body := synthesize_body e name scheme in
  let pairs := collect_pairs e in
  match EndpointSpec_build levenshtein scheme body (Some name) pairs with
  | Ok spec => Ok spec
  | Err source => Err (SpecInToml name source)
  end.

(** [struct TomlFile]; an entry of the endpoint table is what [try_into::<TomlEndpoint>]
    makes of it. *)
Record TomlFile := {
  tf_log_level : option LogLevel;
  tf_log_format : option LogFormat;
  tf_stats : option bool;
  tf_stats_interval_secs : option Z;
  tf_dedup_ms : option Z;
  tf_skip_config_log : option bool;
  tf_endpoint : list (string * result TomlEndpoint string);
}.

Fixpoint into_specs (entries : list (string * result TomlEndpoint string)) : result (list EndpointSpec) Error :=
  match entries with
  | [] => Ok []
  | (name, value) :: rest =>
      let? entry := match value with Ok entry => Ok entry | Err err => Err (ConfigParse err) end in
      let? spec := into_spec entry name in
      let? specs := into_specs rest in
      Ok (spec :: specs)
  end.

(** [TomlFile::into_toml_config] *)
Definition into_toml_config (f : TomlFile) : result SourceConfig Error :=
  let? endpoints := into_specs (tf_endpoint f) in
  Ok {| sc_log_level := tf_log_level f; sc_log_format := tf_log_format f; sc_stats := tf_stats f;
        sc_stats_interval_secs := tf_stats_interval_secs f; sc_dedup_ms := tf_dedup_ms f;
        sc_skip_config_log := tf_skip_config_log f; sc_endpoints := endpoints |}.

(** [toml::from_str::<TomlFile>] and [std::fs::read_to_string] *)
Context (toml_from_str : string -> result TomlFile string) (read_to_string : string -> result string string).

(** [TomlConfig::parse_str] *)
Definition TomlConfig_parse_str (text : string) : result SourceConfig Error :=
  let? file := match toml_from_str text with Ok file => Ok file | Err err => Err (ConfigParse err) end in
  into_toml_config file.

(** [TomlConfig::from_path] *)
Definition TomlConfig_from_path (path : string) : result SourceConfig Error :=
  let? raw := match read_to_string path with Ok raw => Ok raw | Err err => Err (ConfigIo path err) end in
  TomlConfig_parse_str raw.
End Parsers.

(** ** Sizing and warnings of [crate::run] *)

Definition DEFAULT_TCPS_PEER_BUDGET : nat := 64.

(** [fn estimate_registry_size(specs) -> usize] *)
Fixpoint estimate_loop (specs : list EndpointSpec) (count : Z) : Z :=
  match specs with
  | [] => count
  | spec :: rest =>
      let count := match spec_kind spec with
                   | Kind_UdpServer _ => sat_add 64 count (Z.of_nat DEFAULT_PEER_CAPACITY)
                   | Kind_TcpServer _ => sat_add 64 count (Z.of_nat DEFAULT_TCPS_PEER_BUDGET)
                   | _ => count
                   end in
      estimate_loop rest count
  end.
Definition estimate_registry_size (specs : list EndpointSpec) : Z := estimate_loop specs (Z.of_nat (length specs)).

(** The counting loop of [groups_needing_dedup_warning]. *)
Fixpoint count_groups (specs : list EndpointSpec) (by_group : gmap string nat) : gmap string nat :=
  match specs with
  | [] => by_group
  | spec :: rest =>
      let identity := EndpointKind_identity (spec_kind spec) in
      if sniffer identity then count_groups rest by_group
      else match group identity with
      | None => count_groups rest by_group
      | Some name => count_groups rest (<[name := S (default 0%nat (by_group !! name))]> by_group)
      end
  end.

(** [left.0.cmp(&right.0)] is not [Greater] *)
Definition name_le (a b : string * nat) : bool := String.leb a.1 b.1.

Fixpoint insert_sorted (x : string * nat) (l : list (string * nat)) : list (string * nat) :=
  match l with [] => [x] | y :: rest => if name_le x y then x :: l else y :: insert_sorted x rest end.
Definition sort_groups (l : list (string * nat)) : list (string * nat) := foldr insert_sorted [] l.

(** [fn groups_needing_dedup_warning(specs, dedup_ms) -> Vec<(Arc<str>, usize)>] *)
Definition groups_needing_dedup_warning (iter : gmap string nat -> list (string * nat)) (specs : list EndpointSpec) (dedup_ms : Z)
    : list (string * nat) :=
  if 0 <? dedup_ms then []
  else sort_groups (List.filter (fun p => (2 <=? p.2)%nat) (iter (count_groups specs ∅))).
