(* ===== verification/ConfigProps.v ===== *)
(** * What the configuration guarantees

    The merged configuration is valid and follows the documented precedence; a TOML entry
    and the CLI argument that spells the same endpoint give the same spec. *)

From Stdlib Require Import Ascii Sorted.
From S2P Require Import Prelude RustStr RustNet Frame Filters Identity FilterParse Spec SpecProps Endpoint UdpServer Config.
#[local] Open Scope string_scope.
#[local] Open Scope Z_scope.

(** [n] occurs a second time in [l]. *)
Definition repeats (n : string) (l : list string) : Prop := exists l1 l2, l = (l1 ++ n :: l2)%list /\ n ∈ l1.

Lemma repeats_not_NoDup n l : repeats n l -> ~ NoDup l.
Proof. intros (l1 & l2 & -> & Hn) Hnd. apply NoDup_app in Hnd as (_ & Hd & _). apply (Hd n Hn). set_solver. Qed.

Lemma check_unique_spec pre endpoints :
  NoDup pre ->
  match check_unique_loop (list_to_set pre) endpoints with
  | Ok _ => NoDup (pre ++ map spec_name endpoints)
  | Err e => exists n, e = DuplicateName n /\ repeats n (pre ++ map spec_name endpoints)
  end.
Proof.
  revert pre; induction endpoints as [|e endpoints IH]; intros pre Hpre; cbn [check_unique_loop map]; [by rewrite app_nil_r|].
  case_bool_decide as Hin.
  { exists (spec_name e). split; [done|]. exists pre, (map spec_name endpoints). split; [done|]. by apply elem_of_list_to_set in Hin. }
  assert (Hseen : {[spec_name e]} ∪ list_to_set pre = (list_to_set (pre ++ [spec_name e]) : gset string)) by set_solver.
  rewrite Hseen. specialize (IH (pre ++ [spec_name e])%list). rewrite <- app_assoc in IH. apply IH.
  apply NoDup_app. split_and!; [done| |by apply NoDup_singleton]. intros x Hx ->%list_elem_of_singleton. set_solver.
Qed.

Lemma check_unique_names_spec endpoints :
  match check_unique_names endpoints with
  | Ok _ => NoDup (map spec_name endpoints)
  | Err e => exists n, e = DuplicateName n /\ repeats n (map spec_name endpoints)
  end.
Proof. exact (check_unique_spec [] endpoints (NoDup_nil_2)). Qed.

Definition references_of (e : EndpointSpec) : list (string * string) :=
  src_endpoint_out_entries (filters (EndpointKind_identity (spec_kind e))).

(** Every name a filter refers to is declared. *)
Definition references_known (names : gset string) (e : EndpointSpec) : Prop :=
  Forall (fun p => p.2 ∈ names) (references_of e).

Lemma check_references_spec names name entries :
  match check_references names name entries with
  | Ok _ => Forall (fun p => p.2 ∈ names) entries
  | Err e => exists axis x, e = FilterReferencesUnknownEndpoint name axis x /\ (axis, x) ∈ entries /\ x ∉ names
  end.
Proof.
  induction entries as [|[axis x] entries IH]; cbn [check_references]; [constructor|].
  case_bool_decide as Hin; simpl; [|exists axis, x; set_solver].
  destruct (check_references names name entries); [by constructor|].
  destruct IH as (ax & y & -> & Hy & Hny). exists ax, y. set_solver.
Qed.

Lemma validate_references_spec names endpoints :
  match validate_references_loop names endpoints with
  | Ok _ => Forall (references_known names) endpoints
  | Err err => exists e axis x, err = FilterReferencesUnknownEndpoint (spec_name e) axis x /\ e ∈ endpoints /\
      (axis, x) ∈ references_of e /\ x ∉ names
  end.
Proof.
  induction endpoints as [|e endpoints IH]; cbn [validate_references_loop]; [constructor|].
  pose proof (check_references_spec names (spec_name e) (references_of e)) as Hc. fold (references_of e).
  destruct (check_references _ _ _).
  - destruct (validate_references_loop names endpoints); [by constructor|].
    destruct IH as (ep & ax & y & -> & He & Hy). exists ep, ax, y. set_solver.
  - destruct Hc as (ax & y & -> & Hy). exists e, ax, y. set_solver.
Qed.

Definition overrides (cli : list EndpointSpec) (e : EndpointSpec) : bool := existsb (fun c => String.eqb (spec_name c) (spec_name e)) cli.

Lemma overrides_spec cli e : overrides cli e = true <-> spec_name e ∈ (list_to_set (map spec_name cli) : gset string).
Proof.
  unfold overrides. rewrite existsb_exists, elem_of_list_to_set. change (map spec_name cli) with (spec_name <$> cli).
  rewrite list_elem_of_fmap. setoid_rewrite String.eqb_eq. setoid_rewrite <- list_elem_of_In. naive_solver.
Qed.

Lemma merge_endpoints_spec toml cli :
  merge_endpoints toml cli =
  ((List.filter (fun e => negb (overrides cli e)) toml ++ cli)%list, map spec_name (List.filter (overrides cli) toml)).
Proof.
  unfold merge_endpoints. set (names := list_to_set (map spec_name cli) : gset string).
  assert (Hgo : forall acc ov, merge_loop names toml acc ov =
    ((acc ++ List.filter (fun e => negb (overrides cli e)) toml)%list, (ov ++ map spec_name (List.filter (overrides cli) toml))%list)).
  { induction toml as [|e toml IH]; intros acc ov; cbn [merge_loop List.filter]; [by rewrite !app_nil_r|].
    pose proof (overrides_spec cli e) as Ho. fold names in Ho. case_bool_decide as Hin.
    - rewrite (proj2 Ho Hin). simpl. rewrite IH, <- app_assoc. done.
    - destruct (overrides cli e); [tauto|]. simpl. rewrite IH, <- app_assoc. done. }
  by rewrite Hgo.
Qed.

Lemma merged_names_unique toml cli :
  NoDup (map spec_name toml) -> NoDup (map spec_name cli) ->
  NoDup (map spec_name (List.filter (fun e => negb (overrides cli e)) toml ++ cli)).
Proof.
  intros Ht Hc. rewrite map_app. apply NoDup_app. split_and!; [|intros x Hx Hx2|done].
  - clear Hc. induction toml as [|e toml IH]; [constructor|]. simpl in *. apply NoDup_cons in Ht as [Hn Ht].
    destruct (negb (overrides cli e)); [|by apply IH]. simpl. constructor; [|by apply IH].
    change (map spec_name ?l) with (spec_name <$> l) in *. intros (y & Hy & Hin)%list_elem_of_fmap. apply Hn.
    apply list_elem_of_fmap. exists y. split; [done|]. rewrite list_elem_of_In, List.filter_In in Hin. apply list_elem_of_In. tauto.
  - change (map spec_name ?l) with (spec_name <$> l) in *. apply list_elem_of_fmap in Hx as (y & -> & Hin).
    rewrite list_elem_of_In, List.filter_In in Hin. destruct Hin as [_ Hno%negb_true_iff].
    assert (Ho : overrides cli y = true) by (apply overrides_spec, elem_of_list_to_set; exact Hx2). congruence.
Qed.

(** The resolved value of a global. *)
Definition resolved {A} (d : A) (cli toml : option A) : A :=
  match cli with Some x => x | None => match toml with Some y => y | None => d end end.

Lemma default_or_else {A} (d : A) cli toml : default d (or_else cli toml) = resolved d cli toml.
Proof. by destruct cli, toml. Qed.

(** ** The merge, directly *)

Section Merge.
Context (t cli : SourceConfig).

Definition merged_endpoints : list EndpointSpec :=
  (List.filter (fun e => negb (overrides (sc_endpoints cli) e)) (sc_endpoints t) ++ sc_endpoints cli)%list.

Definition merged_config : Config := {|
  cf_log_level := resolved LogInfo (sc_log_level cli) (sc_log_level t);
  cf_log_format := resolved LogText (sc_log_format cli) (sc_log_format t);
  cf_stats := resolved false (sc_stats cli) (sc_stats t);
  cf_stats_interval_secs := resolved DEFAULT_STATS_INTERVAL_SECS (sc_stats_interval_secs cli) (sc_stats_interval_secs t);
  cf_dedup_ms := resolved DEFAULT_DEDUP_MS (sc_dedup_ms cli) (sc_dedup_ms t);
  cf_skip_config_log := resolved false (sc_skip_config_log cli) (sc_skip_config_log t);
  cf_endpoints := merged_endpoints;
  cf_merged := has_values t && has_values cli |}.

(** What a configuration that runs satisfies. *)
Definition config_valid (c : Config) : Prop :=
  NoDup (map spec_name (cf_endpoints c)) /\
  cf_dedup_ms c <= MAX_DEDUP_MS /\ MIN_STATS_INTERVAL_SECS <= cf_stats_interval_secs c /\
  Forall (references_known (list_to_set (map spec_name (cf_endpoints c)))) (cf_endpoints c).

Definition sources_unique : Prop :=
  NoDup (map spec_name (sc_endpoints t)) /\ NoDup (map spec_name (sc_endpoints cli)).

(** What each error says is wrong. *)
Definition merge_refused (e : Error) : Prop :=
  match e with
  | DuplicateName n => repeats n (map spec_name (sc_endpoints t)) \/ repeats n (map spec_name (sc_endpoints cli))
  | DedupMsTooLarge requested max => requested = cf_dedup_ms merged_config /\ max = MAX_DEDUP_MS /\ max < requested
  | StatsIntervalTooSmall requested min =>
      requested = cf_stats_interval_secs merged_config /\ min = MIN_STATS_INTERVAL_SECS /\ requested < min
  | FilterReferencesUnknownEndpoint name axis x =>
      exists ep, name = spec_name ep /\ ep ∈ merged_endpoints /\ (axis, x) ∈ references_of ep /\
        x ∉ map spec_name merged_endpoints
  | _ => False
  end.

Lemma refused_invalid e : merge_refused e -> ~ (sources_unique /\ config_valid merged_config).
Proof.
  intros Hr [[Ht Hc] (_ & Hd & Hi & Hk)]. destruct e as [| |n| | | |r m|r m|name axis x]; simpl in Hr; try done.
  - destruct Hr as [Hr|Hr]; by apply repeats_not_NoDup in Hr.
  - destruct Hr as (-> & -> & ?). simpl in *. lia.
  - destruct Hr as (-> & -> & ?). simpl in *. lia.
  - destruct Hr as (ep & _ & Hep & Hx & Hn). rewrite Forall_forall in Hk. specialize (Hk ep Hep).
    unfold references_known in Hk. rewrite Forall_forall in Hk. specialize (Hk _ Hx). apply Hn. by apply elem_of_list_to_set in Hk.
Qed.
End Merge.

Lemma Config_merge_spec toml cli :
  let t := default SourceConfig_default toml in
  match Config_merge toml cli with
  | Ok out =>
      sources_unique t cli /\ config_valid (merged_config t cli) /\ mo_config out = merged_config t cli /\
      mo_overridden_names out = map spec_name (List.filter (overrides (sc_endpoints cli)) (sc_endpoints t))
  | Err e => merge_refused t cli e
  end.
Proof.
  cbv zeta. unfold Config_merge. set (t := default SourceConfig_default toml).
  pose proof (check_unique_names_spec (sc_endpoints t)) as Ht.
  destruct (check_unique_names (sc_endpoints t)); [|destruct Ht as (n & -> & ?); by left].
  pose proof (check_unique_names_spec (sc_endpoints cli)) as Hc.
  destruct (check_unique_names (sc_endpoints cli)); [|destruct Hc as (n & -> & ?); by right].
  rewrite merge_endpoints_spec, !default_or_else. fold (merged_endpoints t cli). fold (merged_config t cli).
  unfold Config_validate. destruct (Z.ltb_spec MAX_DEDUP_MS (cf_dedup_ms (merged_config t cli))); [done|].
  destruct (Z.ltb_spec (cf_stats_interval_secs (merged_config t cli)) MIN_STATS_INTERVAL_SECS); [done|].
  pose proof (merged_names_unique _ _ Ht Hc) as Hu. pose proof (check_unique_names_spec (cf_endpoints (merged_config t cli))) as Hm.
  destruct (check_unique_names _); [|destruct Hm as (n & _ & []%repeats_not_NoDup); exact Hu].
  unfold validate_endpoint_references.
  pose proof (validate_references_spec (list_to_set (map spec_name (merged_endpoints t cli))) (merged_endpoints t cli)) as Hv.
  change (cf_endpoints (merged_config t cli)) with (merged_endpoints t cli).
  destruct (validate_references_loop _ _); [by split_and!|].
  destruct Hv as (ep & ax & y & -> & He & Hy & Hn). exists ep. rewrite elem_of_list_to_set in Hn. by split_and!.
Qed.

(** C31. The merge of CLI and TOML, completely.  It succeeds exactly when neither source
    repeats a name and the merged configuration is valid: distinct names, [dedup_ms] and
    stats interval in range, every endpoint a filter names declared.  Then every global is
    the CLI's value, else the file's, else the default; the endpoints are the file's in
    order, without those a CLI endpoint overrides, followed by the CLI's; and the overridden
    names are reported.  Otherwise the error names what is wrong: the repeated name, the
    value out of range, or the filter entry that names no endpoint. *)
Theorem config_merge_exact toml cli :
  let t := default SourceConfig_default toml in
  match Config_merge toml cli with
  | Ok out =>
      sources_unique t cli /\ config_valid (merged_config t cli) /\ mo_config out = merged_config t cli /\
      mo_overridden_names out = map spec_name (List.filter (overrides (sc_endpoints cli)) (sc_endpoints t))
  | Err e => merge_refused t cli e /\ ~ (sources_unique t cli /\ config_valid (merged_config t cli))
  end.
Proof.
  pose proof (Config_merge_spec toml cli) as Hs. cbv zeta in *. destruct (Config_merge toml cli); [done|].
  split; [done|by eapply refused_invalid].
Qed.

(** ** TOML and CLI spell the same endpoints *)

Definition toml_keys : list string :=
  ["flow_control"; "idle_secs"; "latch_idle_secs"; "sniffer"; "group"; "allow_msgid_in"; "block_msgid_in"; "allow_msgid_out";
   "block_msgid_out"; "allow_src_sys_in"; "block_src_sys_in"; "allow_src_sys_out"; "block_src_sys_out"; "allow_src_comp_in";
   "block_src_comp_in"; "allow_src_comp_out"; "block_src_comp_out"; "allow_src_endpoint_out"; "block_src_endpoint_out"]%list.

Lemma pair_of_key k v rest keys :
  sublist rest.*1 keys -> sublist (pair_of k v ++ rest)%list.*1 (k :: keys).
Proof. intros Hr. destruct v; simpl; [by apply sublist_skip|by apply sublist_cons]. Qed.

Lemma collect_pairs_keys e : sublist (collect_pairs e).*1 toml_keys.
Proof.
  unfold collect_pairs, toml_keys. do 18 apply pair_of_key.
  match goal with |- context [pair_of ?k ?v] => destruct v; simpl; [by apply sublist_skip|apply sublist_nil_l] end.
Qed.

Lemma collect_pairs_ok e : Forall (fun p => contains_char "&" p.2 = false) (collect_pairs e) -> pairs_ok (collect_pairs e).
Proof.
  intros Hv. pose proof (collect_pairs_keys e) as Hs. split.
  - eapply sublist_NoDup; [|exact Hs]. apply (bool_decide_unpack _). vm_compute. exact I.
  - apply Forall_forall. intros [k v] Hin. rewrite Forall_forall in Hv. specialize (Hv _ Hin).
    assert (Hk : k ∈ toml_keys). { eapply elem_of_sublist; [|exact Hs]. apply list_elem_of_fmap. by exists (k, v). }
    assert (HF : Forall (fun k => k <> "" /\ to_ascii_lowercase k = k /\ contains_char "=" k = false /\ contains_char "&" k = false) toml_keys)
      by (repeat constructor; done).
    rewrite Forall_forall in HF. destruct (HF k Hk) as (? & ? & ? & ?). by split_and!.
Qed.

(** C32. TOML and CLI agree.  A TOML table accepted as an endpoint gives the same spec as the
    CLI argument [scheme:body#name?key=value&...] with the body and the keys of the table,
    provided the table's strings can be written there at all (no [#] or [?] in the body, no
    [&] in a value). *)
Theorem toml_and_cli_agree lev e name spec :
  into_spec lev e name = Ok spec ->
  exists scheme body, scheme_from_toml_type (te_scheme e) name = Ok scheme /\ synthesize_body e name scheme = Ok body /\
    spec_name spec = name /\ EndpointKind_scheme (spec_kind spec) = scheme /\
    (contains_char "#" body = false -> contains_char "?" body = false ->
     Forall (fun p => contains_char "&" p.2 = false) (collect_pairs e) ->
     EndpointSpec_parse lev (render_spec scheme body (Some name) (collect_pairs e)) = Ok spec).
Proof.
  unfold into_spec. destruct (scheme_from_toml_type (te_scheme e) name) as [scheme|] eqn:Es; [|done].
  destruct (reject_disallowed_fields e name scheme); [|done]. destruct (synthesize_body e name scheme) as [body|] eqn:Eb; [|done].
  destruct (EndpointSpec_build lev scheme body (Some name) (collect_pairs e)) as [sp|] eqn:Ebd; [|done]. intros [= ->].
  assert (Hname : spec_name spec = name).
  { unfold EndpointSpec_build in Ebd. destruct (parse_kind lev scheme body _); [|done]. destruct (validate_name name); [|done].
    by injection Ebd as <-. }
  pose proof Ebd as (Hn & _ & Hs)%build_wf. exists scheme, body. split_and!; [done|done|done|done|].
  intros Hh Hq Hv. rewrite parse_render_spec; [done|done|done| |by apply collect_pairs_ok|done]. by rewrite <- Hname.
Qed.

(** ** The redundancy warning *)

(** Non-sniffer members of a group. *)
Definition group_legs (name : string) (specs : list EndpointSpec) : nat :=
  length (List.filter (fun s => let i := EndpointKind_identity (spec_kind s) in
    negb (sniffer i) && bool_decide (group i = Some name)) specs).

Lemma count_groups_spec specs m name :
  default 0%nat (count_groups specs m !! name) = (default 0%nat (m !! name) + group_legs name specs)%nat.
Proof.
  unfold group_legs. revert m; induction specs as [|s specs IH]; intros m; cbn [count_groups List.filter]; [simpl; lia|].
  destruct (sniffer (EndpointKind_identity (spec_kind s))); cbn [negb andb]; [apply IH|].
  destruct (group (EndpointKind_identity (spec_kind s))) as [g|].
  - rewrite IH. case_bool_decide as Hg.
    + injection Hg as ->. rewrite lookup_insert_eq. simpl. lia.
    + rewrite lookup_insert_ne by congruence. done.
  - rewrite bool_decide_false by done. apply IH.
Qed.

Lemma count_groups_pos specs m : map_Forall (fun _ n => (0 < n)%nat) m -> map_Forall (fun _ n => (0 < n)%nat) (count_groups specs m).
Proof.
  revert m; induction specs as [|s specs IH]; intros m Hm; cbn [count_groups]; [done|]. repeat case_match; try by apply IH.
  apply IH. apply map_Forall_insert_2; [lia|done].
Qed.

Lemma insert_sorted_perm x l : insert_sorted x l ≡ₚ x :: l.
Proof.
  induction l as [|y l IH]; simpl; [done|]. destruct (name_le x y); [done|]. rewrite IH. apply Permutation_swap.
Qed.
Lemma sort_groups_perm l : sort_groups l ≡ₚ l.
Proof. induction l as [|x l IH]; simpl; [done|]. by rewrite insert_sorted_perm, IH. Qed.

Lemma name_le_total a b : name_le a b = false -> name_le b a = true.
Proof. unfold name_le. intros Hf. destruct (String.leb_total a.1 b.1) as [He|He]; congruence. Qed.

Lemma insert_sorted_sorted x l : Sorted (fun a b => name_le a b = true) l -> Sorted (fun a b => name_le a b = true) (insert_sorted x l).
Proof.
  induction 1 as [|y l Hs IH Hh]; simpl; [by repeat constructor|]. destruct (name_le x y) eqn:E.
  - constructor; [by constructor|]. by constructor.
  - constructor; [done|]. apply name_le_total in E. destruct l as [|z l]; simpl; [by constructor|].
    destruct (name_le x z); constructor; [done|]. by inv Hh.
Qed.
Lemma sort_groups_sorted l : Sorted (fun a b => name_le a b = true) (sort_groups l).
Proof. induction l as [|x l IH]; simpl; [constructor|]. by apply insert_sorted_sorted. Qed.

(** The redundancy warning names the right groups: with dedup off, exactly the groups
    that two or more non-sniffer endpoints share, each once with its count, sorted by name,
    whatever the iteration order of the table; with dedup on, none. *)
Theorem dedup_warning_exact iter specs dedup_ms :
  (forall m, iter m ≡ₚ map_to_list m) ->
  let warned := groups_needing_dedup_warning iter specs dedup_ms in
  (forall name n, (name, n) ∈ warned <-> dedup_ms <= 0 /\ (2 <= n)%nat /\ n = group_legs name specs) /\
  NoDup warned /\ Sorted (fun a b => name_le a b = true) warned.
Proof.
  intros Hiter. cbv zeta. unfold groups_needing_dedup_warning. destruct (Z.ltb_spec 0 dedup_ms) as [Hd|Hd].
  { split_and!; [|constructor|constructor]. intros name n. rewrite elem_of_nil. lia. }
  set (m := count_groups specs ∅).
  assert (Hm : forall name n, m !! name = Some n <-> n = group_legs name specs /\ (0 < n)%nat).
  { intros name n. pose proof (count_groups_spec specs ∅ name) as Hc. rewrite lookup_empty in Hc. fold m in Hc. simpl in Hc.
    assert (Hp : map_Forall (fun _ n => (0 < n)%nat) m) by (apply count_groups_pos, map_Forall_empty).
    destruct (m !! name) as [k|] eqn:E; simpl in Hc.
    - specialize (Hp _ _ E). simpl in Hp. split; [intros [= <-]; lia|intros [-> _]; by f_equal].
    - split; [done|]. lia. }
  split_and!; [|rewrite sort_groups_perm|apply sort_groups_sorted].
  - intros name n. rewrite sort_groups_perm, list_elem_of_In, List.filter_In, <- list_elem_of_In, Hiter, elem_of_map_to_list, Hm. cbn [snd].
    rewrite Nat.leb_le. lia.
  - apply NoDup_ListNoDup, List.NoDup_filter, NoDup_ListNoDup. rewrite Hiter. apply NoDup_map_to_list.
Qed.

(** ** Witnesses *)

Module ConfigSample.
Definition flags (g : option string) : IdentityFlags := {| filters := Filters_default; sniffer := false; group := g |}.
Definition link (name : string) (port : Z) : EndpointSpec :=
  {| spec_kind := Kind_TcpClient {| tc_host := "10.0.0.9"; tc_port := port; tc_identity := flags (Some "uplink") |}; spec_name := name |}.
Definition entry : TomlEndpoint :=
  {| te_scheme := "udps"; te_path := None; te_baud := None; te_flow_control := None; te_bind := Some "0.0.0.0:14550"; te_host := None;
     te_port := None; te_idle_secs := Some 30; te_latch_idle_secs := None; te_sniffer := Some true; te_group := None;
     te_allow_msgid_in := Some "0,30-33"; te_block_msgid_in := None; te_allow_msgid_out := None; te_block_msgid_out := None;
     te_allow_src_sys_in := None; te_block_src_sys_in := None; te_allow_src_sys_out := None; te_block_src_sys_out := None;
     te_allow_src_comp_in := None; te_block_src_comp_in := None; te_allow_src_comp_out := None; te_block_src_comp_out := None;
     te_allow_src_endpoint_out := None; te_block_src_endpoint_out := None |}.
End ConfigSample.

Lemma dedup_warning_exact_witness :
  groups_needing_dedup_warning map_to_list [ConfigSample.link "a" 1; ConfigSample.link "b" 2] 0 = [("uplink", 2%nat)]%list /\
  NoDup (groups_needing_dedup_warning map_to_list [ConfigSample.link "a" 1; ConfigSample.link "b" 2] 0).
Proof.
  split; [vm_compute; reflexivity|].
  apply (dedup_warning_exact map_to_list [ConfigSample.link "a" 1; ConfigSample.link "b" 2] 0 (fun m => Permutation_refl _)).
Defined.

Lemma toml_and_cli_agree_witness :
  match into_spec (fun _ _ => 0%nat) ConfigSample.entry "gcs" with
  | Ok spec => EndpointSpec_parse (fun _ _ => 0%nat) "udps:0.0.0.0:14550#gcs?idle_secs=30&sniffer=true&allow_msgid_in=0,30-33" = Ok spec
  | Err _ => False
  end.
Proof.
  destruct (into_spec (fun _ _ => 0%nat) ConfigSample.entry "gcs") as [spec|] eqn:E; [|vm_compute in E; discriminate E].
  destruct (toml_and_cli_agree (fun _ _ => 0%nat) ConfigSample.entry "gcs" spec E) as (scheme & body & Hs & Hb & _ & _ & Hp).
  vm_compute in Hs. injection Hs as <-. vm_compute in Hb. injection Hb as <-.
  rewrite <- Hp; [vm_compute; reflexivity|reflexivity|reflexivity|repeat constructor].
Defined.

Example merge_overrides :
  match Config_merge (Some {| sc_log_level := None; sc_log_format := None; sc_stats := Some true; sc_stats_interval_secs := Some 2;
      sc_dedup_ms := None; sc_skip_config_log := None; sc_endpoints := [ConfigSample.link "a" 1; ConfigSample.link "b" 2]%list |})
    {| sc_log_level := None; sc_log_format := None; sc_stats := None; sc_stats_interval_secs := Some 7; sc_dedup_ms := None;
       sc_skip_config_log := None; sc_endpoints := [ConfigSample.link "a" 9]%list |} with
  | Ok out => cf_endpoints (mo_config out) = [ConfigSample.link "b" 2; ConfigSample.link "a" 9]%list /\
      cf_stats_interval_secs (mo_config out) = 7 /\ cf_stats (mo_config out) = true /\ mo_overridden_names out = ["a"]%list
  | Err _ => False
  end.
Proof. vm_compute. done. Qed.
