(* ===== verification/BuildTable.v ===== *)
(** * The build script ([src/build.rs], [src/build_support/])

    From the dialect XML to the table [SORTED].  [quick_xml] is a parameter in the form of
    the event stream it gives for a file; a file system is a map from canonical paths to
    event streams, with the resolution of an include as a function.  A panic of the build
    script stops the build: [Panicked]. *)

From Stdlib Require Import Ascii Sorted.
From stdpp Require Import relations.
From S2P Require Import Prelude RustStr Crc MsgTable.
#[local] Open Scope string_scope.
#[local] Open Scope Z_scope.

(** ** [build_support/crc_extra.rs] *)

(** The build script's own copy of the CRC update. *)
Definition build_crc16_update (crc byte : Z) : Z :=
  let tmp := Z.lxor byte (Z.land crc 0xFF) in
  let tmp := Z.lxor tmp (wrap 8 (Z.shiftl tmp 4)) in
  let tmp16 := tmp in
  Z.lxor (Z.lxor (Z.lxor (Z.shiftr crc 8) (wrap 16 (Z.shiftl tmp16 8))) (wrap 16 (Z.shiftl tmp16 3))) (Z.shiftr tmp16 4).

Fixpoint as_bytes (s : string) : list Z :=
  match s with EmptyString => [] | String c s' => byte_val c :: as_bytes s' end%list.

Definition update_all (crc : Z) (bytes : list Z) : Z := foldl build_crc16_update crc bytes.

(** [struct ParsedField]; [CrcExtraField] has the same fields. *)
Record ParsedField := { f_name : string; f_type_name : string; f_array_length : Z; f_is_extension : bool }.

(** [pub(crate) fn type_size(type_name) -> u8] *)
Definition type_size (type_name : string) : outcome Z :=
  if existsb (String.eqb type_name) ["char"; "int8_t"; "uint8_t"; "uint8_t_mavlink_version"] then Done 1
  else if existsb (String.eqb type_name) ["int16_t"; "uint16_t"] then Done 2
  else if existsb (String.eqb type_name) ["int32_t"; "uint32_t"; "float"] then Done 4
  else if existsb (String.eqb type_name) ["int64_t"; "uint64_t"; "double"] then Done 8
  else Panicked.

(** [fn crc_type(type_name) -> &str] *)
Definition crc_type (type_name : string) : string :=
  if String.eqb type_name "uint8_t_mavlink_version" then "uint8_t" else type_name.

Definition size_or_0 (f : ParsedField) : Z := match type_size (f_type_name f) with Done n => n | _ => 0 end.
Definition type_known (f : ParsedField) : bool := match type_size (f_type_name f) with Done _ => true | _ => false end.

(** The non-extension fields in wire order: [sort_by] descending size, stable.  With two or
    more fields every field is compared, so that an unknown type panics. *)
Definition wire_order (fields : list ParsedField) : outcome (list ParsedField) :=
  let base := List.filter (fun f => negb (f_is_extension f)) fields in
  if (length base <? 2)%nat || forallb type_known base then Done (sort_by_key (fun f => - size_or_0 f) base) else Panicked.

Definition field_crc (crc : Z) (f : ParsedField) : Z :=
  let crc := update_all crc (as_bytes (crc_type (f_type_name f))) in
  let crc := build_crc16_update crc 32 in
  let crc := update_all crc (as_bytes (f_name f)) in
  let crc := build_crc16_update crc 32 in
  if 0 <? f_array_length f then build_crc16_update crc (f_array_length f) else crc.

(** [pub(crate) fn crc_extra_for_message(msg_name, fields) -> u8] *)
Definition crc_extra_for_message (msg_name : string) (fields : list ParsedField) : outcome Z :=
  let! base := wire_order fields in
  let crc := update_all CRC_INIT (as_bytes msg_name) in
  let crc := build_crc16_update crc 32 in
  let crc := foldl field_crc crc base in
  Done (wrap 8 (Z.lxor (Z.land crc 0xFF) (Z.shiftr crc 8))).

(** ** [build_support/dialect_parse.rs] *)

(** [struct ParsedMessage] *)
Record ParsedMessage := { m_id : Z; m_name : string; m_fields : list ParsedField }.

(** [struct MsgEntryGen] *)
Record MsgEntryGen := {
  g_name : string;
  g_crc_extra : Z;
  g_target_sys_offset : option Z;
  g_target_comp_offset : option Z;
}.

Inductive ParseArrayError := Malformed (t : string) | BadLength (t : string) | ZeroLength (t : string).

(** [pub(crate) fn parse_array_suffix(type_name) -> Result<(String, u8), ParseArrayError>];
    the slice [lb + 1..rb] panics when [rb] comes first. *)
Definition parse_array_suffix (type_name : string) : outcome (result (string * Z) ParseArrayError) :=
  match find_char "[" type_name with
  | None => Done (Ok (type_name, 0))
  | Some lb =>
      match find_char "]" type_name with
      | None => Done (Err (Malformed type_name))
      | Some rb =>
          let elem := str_take lb type_name in
          if (rb <? lb + 1)%nat then Panicked
          else
            match parse_uint u8_max (str_take (rb - (lb + 1)) (str_drop (lb + 1) type_name)) with
            | None => Done (Err (BadLength type_name))
            | Some len => if len =? 0 then Done (Err (ZeroLength type_name)) else Done (Ok (elem, len))
            end
      end
  end.

Inductive MergeError :=
| CrcExtraConflict (id : Z) (prev_name new_name : string) (prev_crc new_crc : Z)
| NameConflict (id : Z) (prev_name new_name : string).

(** [pub(crate) fn merge_entry(..) -> Result<(), MergeError>] *)
Definition merge_entry (msg_id : Z) (msg_name : string) (crc_extra : Z) (target_sys_offset target_comp_offset : option Z)
    (entries : gmap Z MsgEntryGen) : result (gmap Z MsgEntryGen) MergeError :=
  match entries !! msg_id with
  | Some prev =>
      if negb (g_crc_extra prev =? crc_extra)
      then Err (CrcExtraConflict msg_id (g_name prev) msg_name (g_crc_extra prev) crc_extra)
      else if negb (String.eqb (g_name prev) msg_name) then Err (NameConflict msg_id (g_name prev) msg_name)
      else Ok entries
  | None =>
      Ok (<[msg_id := {| g_name := msg_name; g_crc_extra := crc_extra; g_target_sys_offset := target_sys_offset;
                         g_target_comp_offset := target_comp_offset |}]> entries)
  end.

(** ** [build_support/xml_loader.rs] *)

Section Walk.
Context {K : Type} `{Countable K} {S : Type}.

(** The callback: its [Result] and the state it leaves. *)
Context (load : K -> S -> outcome (result (list K) string * S)).

Inductive WalkError := Cycle (k : K) | LoadFailed (k : K) (reason : string).

(** [for inc in includes { walk_inner(&inc, ..)?; }] *)
Fixpoint walk_each (walk : K -> gset K -> gset K -> S -> outcome (result (gset K * gset K) WalkError * S))
    (includes : list K) (visited in_progress : gset K) (s : S) : outcome (result (gset K * gset K) WalkError * S) :=
  match includes with
  | [] => Done (Ok (visited, in_progress), s)
  | inc :: rest =>
      let! (r, s) := walk inc visited in_progress s in
      match r with
      | Err e => Done (Err e, s)
      | Ok (visited, in_progress) => walk_each walk rest visited in_progress s
      end
  end.

(** [fn walk_inner(key, visited, in_progress, load) -> Result<(), WalkError<K>>]; the fuel
    bounds the depth of the recursion. *)
Fixpoint walk_inner (fuel : nat) (key : K) (visited in_progress : gset K) (s : S)
    : outcome (result (gset K * gset K) WalkError * S) :=
  match fuel with
  | O => OutOfFuel
  | Datatypes.S fuel' =>
      if bool_decide (key ∈ in_progress) then Done (Err (Cycle key), s)
      else if bool_decide (key ∈ visited) then Done (Ok (visited, in_progress), s)
      else
        let visited := {[key]} ∪ visited in
        let in_progress := {[key]} ∪ in_progress in
        let! (r, s) := load key s in
        match r with
        | Err reason => Done (Err (LoadFailed key reason), s)
        | Ok includes =>
            let! (r, s) := walk_each (walk_inner fuel') includes visited in_progress s in
            match r with
            | Err e => Done (Err e, s)
            | Ok (visited, in_progress) => Done (Ok (visited, in_progress ∖ {[key]}), s)
            end
        end
  end.

(** [pub(crate) fn walk_includes(root, load) -> Result<(), WalkError<K>>] *)
Definition walk_includes (fuel : nat) (root : K) (s : S) : outcome (result (gset K * gset K) WalkError * S) :=
  walk_inner fuel root ∅ ∅ s.
End Walk.
Arguments WalkError : clear implicits.

(** ** [build.rs] *)

(** What [quick_xml]'s reader yields, attribute values and text unescaped. *)
Inductive xml_event :=
| XStart (tag : string) (attrs : list (string * string))
| XEmpty (tag : string) (attrs : list (string * string))
| XText (text : string)
| XEnd (tag : string)
| XEof
| XOther
| XError.

(** [fn parse_msg_attrs(event) -> (u32, String)] *)
Fixpoint parse_msg_attrs (attrs : list (string * string)) (id : Z) (name : string) : outcome (Z * string) :=
  match attrs with
  | [] => Done (id, name)
  | (key, val) :: rest =>
      if String.eqb key "id" then
        match parse_uint u32_max (trim val) with
        | Some id => parse_msg_attrs rest id name
        | None => Panicked
        end
      else if String.eqb key "name" then parse_msg_attrs rest id val
      else parse_msg_attrs rest id name
  end.

(** [fn parse_field_attrs(event) -> (String, String)] *)
Fixpoint parse_field_attrs (attrs : list (string * string)) (type_name field_name : string) : string * string :=
  match attrs with
  | [] => (type_name, field_name)
  | (key, val) :: rest =>
      if String.eqb key "type" then parse_field_attrs rest val field_name
      else if String.eqb key "name" then parse_field_attrs rest type_name val
      else parse_field_attrs rest type_name field_name
  end.

(** [fn push_field(event, current_msg, past_extensions)] *)
Definition push_field (attrs : list (string * string)) (current_msg : option ParsedMessage) (past_extensions : bool)
    : outcome (option ParsedMessage) :=
  match current_msg with
  | None => Done None
  | Some msg =>
      let '(type_name, field_name) := parse_field_attrs attrs "" "" in
      let! r := parse_array_suffix type_name in
      match r with
      | Err _ => Panicked
      | Ok (elem, len) =>
          Done (Some {| m_id := m_id msg; m_name := m_name msg;
                        m_fields := m_fields msg ++ [{| f_name := field_name; f_type_name := elem; f_array_length := len;
                                                        f_is_extension := past_extensions |}] |})
      end
  end.

(** The locals of [parse_xml]. *)
Record XmlState := {
  x_includes : list string;
  x_messages : list ParsedMessage;
  x_in_include : bool;
  x_current_msg : option ParsedMessage;
  x_past_extensions : bool;
}.

Definition set_current (st : XmlState) (msg : option ParsedMessage) (past : bool) : XmlState :=
  {| x_includes := x_includes st; x_messages := x_messages st; x_in_include := x_in_include st; x_current_msg := msg;
     x_past_extensions := past |}.
Definition set_in_include (st : XmlState) (b : bool) : XmlState :=
  {| x_includes := x_includes st; x_messages := x_messages st; x_in_include := b; x_current_msg := x_current_msg st;
     x_past_extensions := x_past_extensions st |}.

(** ["extensions"] and ["field"], the same in a start tag and in an empty one. *)
Definition xml_inner (tag : string) (attrs : list (string * string)) (st : XmlState) : outcome XmlState :=
  if String.eqb tag "extensions" then
    Done (match x_current_msg st with Some _ => set_current st (x_current_msg st) true | None => st end)
  else if String.eqb tag "field" then
    let! msg := push_field attrs (x_current_msg st) (x_past_extensions st) in
    Done (set_current st msg (x_past_extensions st))
  else Done st.

(** The loop of [fn parse_xml(content) -> (Vec<String>, Vec<ParsedMessage>)]. *)
Fixpoint parse_xml_loop (events : list xml_event) (st : XmlState) : outcome XmlState :=
  match events with
  | [] | XEof :: _ => Done st
  | XStart tag attrs :: rest =>
      let! st :=
        if String.eqb tag "include" then Done (set_in_include st true)
        else if String.eqb tag "message" then
          let! (id, name) := parse_msg_attrs attrs 0 "" in
          Done (set_current st (Some {| m_id := id; m_name := name; m_fields := [] |}) false)
        else xml_inner tag attrs st in
      parse_xml_loop rest st
  | XEmpty tag attrs :: rest => let! st := xml_inner tag attrs st in parse_xml_loop rest st
  | XText text :: rest =>
      let st := if x_in_include st && negb (str_is_empty (trim text))
                then {| x_includes := x_includes st ++ [trim text]; x_messages := x_messages st; x_in_include := x_in_include st;
                        x_current_msg := x_current_msg st; x_past_extensions := x_past_extensions st |}
                else st in
      parse_xml_loop rest st
  | XEnd tag :: rest =>
      let st :=
        if String.eqb tag "include" then set_in_include st false
        else if String.eqb tag "message" then
          match x_current_msg st with
          | Some msg => {| x_includes := x_includes st; x_messages := x_messages st ++ [msg]; x_in_include := x_in_include st;
                           x_current_msg := None; x_past_extensions := x_past_extensions st |}
          | None => st
          end
        else st in
      parse_xml_loop rest st
  | XError :: _ => Panicked
  | XOther :: rest => parse_xml_loop rest st
  end%list.

Definition parse_xml (events : list xml_event) : outcome (list string * list ParsedMessage) :=
  let! st := parse_xml_loop events
    {| x_includes := []; x_messages := []; x_in_include := false; x_current_msg := None; x_past_extensions := false |} in
  Done (x_includes st, x_messages st).

(** The loop of [fn compute_offsets(fields) -> (Option<u8>, Option<u8>)]. *)
Fixpoint offsets_loop (base : list ParsedField) (off : Z) (tsys tcomp : option Z) : outcome (option Z * option Z) :=
  match base with
  | [] => Done (tsys, tcomp)
  | field :: rest =>
      let! (tsys, tcomp) :=
        if (f_array_length field =? 0) && String.eqb (f_type_name field) "uint8_t" then
          if u8_max <? off then Panicked
          else if String.eqb (f_name field) "target_system" then Done (Some off, tcomp)
          else if String.eqb (f_name field) "target_component" then Done (tsys, Some off)
          else Done (tsys, tcomp)
        else Done (tsys, tcomp) in
      let! elem := type_size (f_type_name field) in
      let elem_count := if f_array_length field =? 0 then 1 else f_array_length field in
      if u16_max <? off + elem * elem_count then Panicked
      else offsets_loop rest (off + elem * elem_count) tsys tcomp
  end.
Definition compute_offsets (fields : list ParsedField) : outcome (option Z * option Z) :=
  let! base := wire_order fields in offsets_loop base 0 None None.

(** [fn ingest_message(canon, msg, entries)] *)
Definition ingest_message (msg : ParsedMessage) (entries : gmap Z MsgEntryGen) : outcome (gmap Z MsgEntryGen) :=
  let! crc_extra := crc_extra_for_message (m_name msg) (m_fields msg) in
  let! (target_sys_offset, target_comp_offset) := compute_offsets (m_fields msg) in
  match merge_entry (m_id msg) (m_name msg) crc_extra target_sys_offset target_comp_offset entries with
  | Ok entries => Done entries
  | Err _ => Panicked
  end.

Fixpoint ingest_all (msgs : list ParsedMessage) (entries : gmap Z MsgEntryGen) : outcome (gmap Z MsgEntryGen) :=
  match msgs with
  | [] => Done entries
  | msg :: rest => let! entries := ingest_message msg entries in ingest_all rest entries
  end.

Definition DIALECTS : list string := ["common.xml"; "ardupilotmega.xml"]%list.

Section Build.
(** The vendored files by canonical path; [fs::canonicalize] of an include next to the file
    that names it, and of a dialect in the vendored directory. *)
Context (files : gmap string (list xml_event)) (canonicalize : string -> string -> option string)
        (canonical_dialect : string -> option string).

Fixpoint canonicalize_all (path : string) (includes : list string) : result (list string) string :=
  match includes with
  | [] => Ok []
  | inc :: rest =>
      match canonicalize path inc with
      | None => Err "canonicalize include"
      | Some p => let? ps := canonicalize_all path rest in Ok (p :: ps)
      end
  end%list.

(** The closure [main] passes to [walk_includes]. *)
Definition load_dialect (path : string) (entries : gmap Z MsgEntryGen)
    : outcome (result (list string) string * gmap Z MsgEntryGen) :=
  match files !! path with
  | None => Done (Err "read", entries)
  | Some events =>
      let! (includes, messages) := parse_xml events in
      let! entries := ingest_all messages entries in
      Done (canonicalize_all path includes, entries)
  end.

(** One walk per dialect; an include chain visits each file at most once. *)
Fixpoint load_dialects (dialects : list string) (entries : gmap Z MsgEntryGen) : outcome (gmap Z MsgEntryGen) :=
  match dialects with
  | [] => Done entries
  | dialect :: rest =>
      match canonical_dialect dialect with
      | None => Panicked
      | Some root =>
          let! (walk, entries) := walk_includes load_dialect (2 + size files) root entries in
          match walk with
          | Ok _ => load_dialects rest entries
          | Err _ => Panicked
          end
      end
  end.

(** [fn main()]: the rows of the table written to [OUT_DIR]; [iter] is the order in which the
    hash map yields its entries. *)
Definition build_main (iter : gmap Z MsgEntryGen -> list (Z * MsgEntryGen)) : outcome (list (Z * MsgEntry)) :=
  let! entries := load_dialects DIALECTS ∅ in
  if bool_decide (entries = ∅) then Panicked
  else if negb (bool_decide (is_Some (entries !! 0))) then Panicked
  else
    let sorted := sort_by_key fst (iter entries) in
    Done (map (fun row => (row.1, {| crc_extra := g_crc_extra row.2; target_sys_offset := g_target_sys_offset row.2;
                                     target_comp_offset := g_target_comp_offset row.2 |})) sorted).
End Build.
