(* ===== verification/BuildProps.v ===== *)
(** * What the build script guarantees

    The include walk, the wire order of fields, and the laws of the generated table. *)

From Stdlib Require Import Ascii Sorted.
From stdpp Require Import relations.
From S2P Require Import Prelude RustStr Crc MsgTable BuildTable.
#[local] Open Scope string_scope.
#[local] Open Scope Z_scope.

(** ** The include walk *)

Section WalkProps.
Context {K : Type} `{Countable K} {S : Type}.
Context (load : K -> S -> outcome (result (list K) string * S)).
Context (r : K -> result (list K) string) (f : K -> S -> S).
Hypothesis load_pure : forall k s, load k s = Done (r k, f k s).

Definition edge (a b : K) : Prop := exists l, r a = Ok l /\ b ∈ l.

(** A set the walk is done with: closed under includes and without cycles. *)
Definition settled (F : gset K) : Prop :=
  (forall x y, x ∈ F -> edge x y -> y ∈ F) /\ (forall x, x ∈ F -> ~ tc edge x x).

Lemma settled_reach F x y : settled F -> x ∈ F -> rtc edge x y -> y ∈ F.
Proof. intros [Hc _] Hx. induction 1 as [|a b c He _ IH]; [done|]. eauto. Qed.

(** Finishing a key whose includes are settled. *)
Lemma settled_finish F key l :
  settled F -> r key = Ok l -> key ∉ F -> (forall y, y ∈ l -> y ∈ F) -> settled ({[key]} ∪ F).
Proof.
  intros HF Hr Hk Hl. assert (Hkey : forall y, edge key y -> y ∈ F).
  { intros y (l' & Hr' & Hy). rewrite Hr in Hr'. injection Hr' as <-. auto. }
  split.
  - intros x y [->%elem_of_singleton|Hx]%elem_of_union He; apply elem_of_union_r; [auto|]. by eapply (proj1 HF).
  - intros x Hx Ht. assert (Hin : x ∈ F).
    { apply elem_of_union in Hx as [->%elem_of_singleton|?]; [|done]. exfalso. apply Hk.
      inv Ht as [? ? He|? y ? He Ht']; [auto|]. eapply settled_reach; [exact HF|exact (Hkey _ He)|by apply tc_rtc]. }
    by apply (proj2 HF x).
Qed.

(** What a walk from [key] has done. *)
Definition walk_post (key : K) (V P : gset K) (s : S) (res : result (gset K * gset K) (WalkError K)) (s' : S) : Prop :=
  exists log, s' = foldl (fun s k => f k s) s log /\ NoDup log /\ (forall x, x ∈ log -> (x ∉ V) /\ rtc edge key x) /\
  match res with
  | Ok (V', P') => P' = P /\ V' = V ∪ list_to_set log /\ settled (V' ∖ P) /\ key ∈ V' ∖ P
  | Err (Cycle k) => rtc edge key k /\ tc edge k k
  | Err (LoadFailed k reason) => rtc edge key k /\ r k = Err reason
  end.

Definition walk_pre (U : gset K) (fuel : nat) (key : K) (V P : gset K) : Prop :=
  P ⊆ V /\ settled (V ∖ P) /\ (forall p, p ∈ P -> tc edge p key) /\ (size (U ∖ P) < fuel)%nat.

Lemma walk_each_spec U fuel key l walk :
  (forall k V P s, walk_pre U fuel k V P -> exists res s', walk k V P s = Done (res, s') /\ walk_post k V P s res s') ->
  forall incs V P s, r key = Ok l -> (forall x, x ∈ incs -> x ∈ l) ->
  P ⊆ V -> settled (V ∖ P) -> (forall p, p ∈ P -> forall x, x ∈ l -> tc edge p x) -> key ∈ P -> (size (U ∖ P) < fuel)%nat ->
  exists res s', walk_each walk incs V P s = Done (res, s') /\
    exists log, s' = foldl (fun s k => f k s) s log /\ NoDup log /\ (forall x, x ∈ log -> (x ∉ V) /\ rtc edge key x) /\
    match res with
    | Ok (V', P') => P' = P /\ V' = V ∪ list_to_set log /\ settled (V' ∖ P) /\ (forall x, x ∈ incs -> x ∈ V' ∖ P)
    | Err (Cycle k) => rtc edge key k /\ tc edge k k
    | Err (LoadFailed k reason) => rtc edge key k /\ r k = Err reason
    end.
Proof.
  intros Hwalk incs. induction incs as [|inc incs IH]; intros V P s Hr Hsub HPV HF HP Hk Hfuel; cbn [walk_each].
  { eexists _, _. split; [done|]. exists []. split_and!; [done|constructor|set_solver|done|set_solver|done|set_solver]. }
  assert (Hinc : inc ∈ l) by (apply Hsub; by left).
  assert (Hedge : edge key inc) by (exists l; done).
  destruct (Hwalk inc V P s) as (res & s1 & Hw & log1 & Hs1 & Hnd1 & Hnew1 & Hres).
  { split_and!; [done|done| |done]. intros p Hp. by apply HP. }
  rewrite Hw. assert (Hnew1' : forall x, x ∈ log1 -> (x ∉ V) /\ rtc edge key x).
  { intros x Hx. destruct (Hnew1 x Hx) as [? Hr1]. split; [done|]. by eapply rtc_l. }
  destruct res as [[V1 P1]|[k|k reason]].
  - destruct Hres as (-> & HV1 & HF1 & Hin1).
    destruct (IH V1 P s1) as (res2 & s2 & Hw2 & log2 & Hs2 & Hnd2 & Hnew2 & Hres2); try done.
    { intros x Hx. apply Hsub. by right. }
    { set_solver. }
    exists res2, s2. split; [done|]. exists (log1 ++ log2)%list. split_and!.
    + by rewrite foldl_app, <- Hs1.
    + apply NoDup_app. split_and!; [done| |done]. intros x Hx1 Hx2. destruct (Hnew2 x Hx2) as [Hn _]. apply Hn. set_solver.
    + intros x [Hx|Hx]%elem_of_app; [by apply Hnew1'|]. destruct (Hnew2 x Hx) as [Hn Hr2]. split; [set_solver|done].
    + destruct res2 as [[V2 P2]|]; [|done]. destruct Hres2 as (-> & HV2 & HF2 & Hin2).
      split_and!; [done|rewrite list_to_set_app_L; set_solver|done|].
      intros x [->|Hx]%elem_of_cons; [set_solver|by apply Hin2].
  - eexists _, _. split; [done|]. exists log1. destruct Hres as [Hr1 Ht]. split_and!; [done|done|done|by eapply rtc_l|done].
  - eexists _, _. split; [done|]. exists log1. destruct Hres as [Hr1 Ht]. split_and!; [done|done|done|by eapply rtc_l|done].
Qed.

Context (U : gset K).
Hypothesis U_loads : forall k l, r k = Ok l -> k ∈ U.

Lemma walk_inner_spec fuel key V P s :
  walk_pre U fuel key V P -> exists res s', walk_inner load fuel key V P s = Done (res, s') /\ walk_post key V P s res s'.
Proof.
  revert key V P s; induction fuel as [|fuel IH]; intros key V P s (HPV & HF & HP & Hfuel); [lia|]. cbn [walk_inner].
  case_bool_decide as HinP.
  { eexists _, _. split; [done|]. exists []. split_and!; [done|constructor|set_solver|reflexivity|by apply HP]. }
  case_bool_decide as HinV.
  { eexists _, _. split; [done|]. exists []. split_and!; [done|constructor|set_solver|done|set_solver|done|set_solver]. }
  rewrite load_pure. destruct (r key) as [l|reason] eqn:Er.
  2: { eexists _, _. split; [done|]. exists [key]. split_and!; [done|apply NoDup_singleton| |reflexivity|done].
       intros x ->%list_elem_of_singleton. by split. }
  destruct (walk_each_spec U fuel key l (walk_inner load fuel) IH l ({[key]} ∪ V) ({[key]} ∪ P) (f key s) Er)
    as (res & s' & Hw & log & Hs' & Hnd & Hnew & Hres); try done.
  { set_solver. }
  { assert (({[key]} ∪ V) ∖ ({[key]} ∪ P) = V ∖ P) as -> by set_solver. done. }
  { intros p [->%elem_of_singleton|Hp]%elem_of_union x Hx; [apply tc_once; by exists l|].
    eapply tc_r; [by apply HP|by exists l]. }
  { set_solver. }
  { assert (Hlt : (size (U ∖ ({[key]} ∪ P)) < size (U ∖ P))%nat); [|lia].
    apply subset_size. specialize (U_loads _ _ Er). set_solver. }
  rewrite Hw. assert (Hlog : forall x, x ∈ (key :: log)%list -> (x ∉ V) /\ rtc edge key x).
  { intros x [->|Hx]%elem_of_cons; [done|]. destruct (Hnew x Hx). split; [set_solver|done]. }
  assert (Hnd' : NoDup (key :: log)%list).
  { constructor; [|done]. intros Hx. destruct (Hnew key Hx). set_solver. }
  destruct res as [[V2 P2]|[k|k reason]].
  - destruct Hres as (-> & HV2 & HF2 & Hin2). eexists _, _. split; [done|]. exists (key :: log)%list. split_and!; [done|done|done| | | |].
    + set_solver.
    + simpl. set_solver.
    + assert (V2 ∖ P = {[key]} ∪ V2 ∖ ({[key]} ∪ P)) as ->.
      { apply set_eq. intros x. destruct (decide (x = key)) as [->|]; set_solver. }
      eapply settled_finish; [done|exact Er|set_solver|done].
    + set_solver.
  - eexists _, _. split; [done|]. by exists (key :: log)%list.
  - eexists _, _. split; [done|]. by exists (key :: log)%list.
Qed.

(** C35. The include walk.  With [1 + |U|] levels of recursion ([U] the loadable files) the
    walk always ends.  If it succeeds, it loaded exactly the files reachable from the root,
    each once, and none of them is on an include cycle; if it reports a cycle, the reported
    file is reachable and includes itself; if it reports a load failure, that file is
    reachable and failed. *)
Theorem walk_includes_exact root s :
  exists res log, walk_includes load (1 + size U) root s = Done (res, foldl (fun s k => f k s) s log) /\ NoDup log /\
  match res with
  | Ok _ => (forall k, k ∈ log <-> rtc edge root k) /\ (forall k, rtc edge root k -> ~ tc edge k k)
  | Err (Cycle k) => rtc edge root k /\ tc edge k k
  | Err (LoadFailed k reason) => rtc edge root k /\ r k = Err reason
  end.
Proof.
  destruct (walk_inner_spec (1 + size U) root ∅ ∅ s) as (res & s' & Hw & log & Hs & Hnd & Hnew & Hres).
  { split_and!; [done|split; set_solver|set_solver|]. assert (U ∖ ∅ = U) as -> by set_solver. lia. }
  exists res, log. unfold walk_includes. rewrite Hw, Hs. split_and!; [done|done|]. destruct res as [[V' P']|]; [|done].
  destruct Hres as (-> & -> & HF & Hin). assert (Hset : (∅ ∪ list_to_set log) ∖ (∅ : gset K) = list_to_set log) by set_solver.
  rewrite Hset in HF, Hin. split.
  - intros k. split; [by intros []%Hnew|]. intros Hr. apply (settled_reach _ _ _ HF Hin) in Hr. set_solver.
  - intros k Hr. apply (settled_reach _ _ _ HF Hin) in Hr. by apply HF.
Qed.
End WalkProps.

(** ** Fuel and invariants of a walk whose callback may panic *)

Section WalkInv.
Context {K : Type} `{Countable K} {S : Type}.
Context (load : K -> S -> outcome (result (list K) string * S)) (U : gset K) (I : S -> Prop).
Hypothesis load_fuel : forall k s, load k s <> OutOfFuel.
Hypothesis load_U : forall k s l s', load k s = Done (Ok l, s') -> k ∈ U.
Hypothesis load_inv : forall k s res s', I s -> load k s = Done (res, s') -> I s'.

(** The walk does not run out of fuel, restores [in_progress], and keeps the invariant. *)
Definition walk_good (P : gset K) (o : outcome (result (gset K * gset K) (WalkError K) * S)) : Prop :=
  match o with
  | OutOfFuel => False
  | Panicked => True
  | Done (res, s) => I s /\ match res with Ok (_, P') => P' = P | Err _ => True end
  end.

Lemma walk_each_good walk incs P V s :
  (forall k V s, I s -> walk_good P (walk k V P s)) -> I s -> walk_good P (walk_each walk incs V P s).
Proof.
  intros Hw. revert V s; induction incs as [|inc incs IH]; intros V s Hs; cbn [walk_each]; [done|].
  specialize (Hw inc V s Hs). destruct (walk inc V P s) as [[[[V1 P1]|e] s1]| |]; simpl in Hw; [|done..].
  destruct Hw as [Hs1 ->]. by apply IH.
Qed.

Lemma walk_inner_good fuel key V P s : (size (U ∖ P) < fuel)%nat -> I s -> walk_good P (walk_inner load fuel key V P s).
Proof.
  revert key V P s; induction fuel as [|fuel IH]; intros key V P s Hf Hs; [lia|]. cbn [walk_inner].
  case_bool_decide as HP; [done|]. case_bool_decide as HV; [done|].
  pose proof (load_fuel key s) as Hlf. pose proof (load_inv key s) as Hli. pose proof (load_U key s) as HU.
  destruct (load key s) as [[[l|e] s1]| |]; [| |done|done].
  2: { split; [|done]. by eapply Hli. }
  assert (Hg : walk_good ({[key]} ∪ P) (walk_each (walk_inner load fuel) l ({[key]} ∪ V) ({[key]} ∪ P) s1)).
  { apply walk_each_good; [|by eapply Hli]. intros k V1 s2 Hs2. apply IH; [|done].
    assert (Hlt : (size (U ∖ ({[key]} ∪ P)) < size (U ∖ P))%nat); [|lia].
    apply subset_size. specialize (HU _ _ eq_refl). set_solver. }
  destruct (walk_each _ l _ _ s1) as [[[[V2 P2]|e] s2]| |]; simpl in Hg; [|done..].
  destruct Hg as [Hs2 ->]. split; [done|]. set_solver.
Qed.
End WalkInv.

(** ** The generated table *)

Definition field_ok (fd : ParsedField) : Prop := 0 <= f_array_length fd <= u8_max.
Definition message_ok (m : ParsedMessage) : Prop := is_u32 (m_id m) /\ Forall field_ok (m_fields m).
Definition gen_ok (id : Z) (e : MsgEntryGen) : Prop :=
  is_u32 id /\ is_u8 (g_crc_extra e) /\ opt_width 8 (g_target_sys_offset e) /\ opt_width 8 (g_target_comp_offset e).

Lemma parse_array_suffix_len t elem len : parse_array_suffix t = Done (Ok (elem, len)) -> 0 <= len <= u8_max.
Proof.
  unfold parse_array_suffix. destruct (find_char "[" t) as [lb|]; [|intros [= _ <-]; unfold u8_max; lia].
  destruct (find_char "]" t) as [rb|]; [|done]. destruct (rb <? lb + 1)%nat; [done|].
  destruct (parse_uint u8_max _) as [n|] eqn:E; [|done]. destruct (n =? 0); [done|]. intros [= _ <-].
  apply parse_uint_range in E; [done|unfold u8_max; lia].
Qed.

Lemma parse_msg_attrs_id attrs id name id' name' : is_u32 id -> parse_msg_attrs attrs id name = Done (id', name') -> is_u32 id'.
Proof.
  revert id name; induction attrs as [|[k v] attrs IH]; intros id name Hid; cbn [parse_msg_attrs]; [by intros [= <- <-]|].
  repeat case_match; try done; try by apply IH. apply IH.
  match goal with Hp : parse_uint _ _ = Some _ |- _ => apply parse_uint_range in Hp; unfold in_width, u32_max in *; lia end.
Qed.

Definition xml_ok (st : XmlState) : Prop :=
  Forall message_ok (x_messages st) /\ match x_current_msg st with Some m => message_ok m | None => True end.

Lemma push_field_ok attrs msg past msg' :
  match msg with Some m => message_ok m | None => True end -> push_field attrs msg past = Done msg' ->
  match msg' with Some m => message_ok m | None => True end.
Proof.
  unfold push_field. destruct msg as [m|]; [|by intros _ [= <-]]. intros [Hid Hf]. destruct (parse_field_attrs attrs "" "") as [t n].
  destruct (parse_array_suffix t) as [[[elem len]|]| |] eqn:E; try done. intros [= <-]. split; [done|].
  simpl. apply Forall_app. split; [done|]. apply Forall_singleton. by eapply parse_array_suffix_len.
Qed.

Lemma xml_inner_ok tag attrs st st' : xml_ok st -> xml_inner tag attrs st = Done st' -> xml_ok st'.
Proof.
  intros [Hm Hc]. unfold xml_inner. destruct (String.eqb tag "extensions").
  { intros [= <-]. destruct (x_current_msg st) as [m|] eqn:E; [|by split; rewrite ?E]. by split. }
  destruct (String.eqb tag "field"); [|by intros [= <-]].
  destruct (push_field attrs (x_current_msg st) (x_past_extensions st)) as [msg| |] eqn:E; try done.
  intros [= <-]. split; [done|]. by eapply push_field_ok.
Qed.

Lemma parse_xml_loop_ok events st st' : xml_ok st -> parse_xml_loop events st = Done st' -> xml_ok st'.
Proof.
  revert st; induction events as [|ev events IH]; intros st Hst; cbn [parse_xml_loop]; [by intros [= <-]|].
  destruct ev as [tag attrs|tag attrs|text|tag| | |]; try done.
  - destruct (String.eqb tag "include"); [by apply IH|]. destruct (String.eqb tag "message").
    + destruct (parse_msg_attrs attrs 0 "") as [[id name]| |] eqn:E; try done. apply IH. split; [apply Hst|].
      split; [|constructor]. eapply parse_msg_attrs_id; [|exact E]. unfold in_width; lia.
    + destruct (xml_inner tag attrs st) as [st1| |] eqn:E; try done. apply IH. by eapply xml_inner_ok.
  - destruct (xml_inner tag attrs st) as [st1| |] eqn:E; try done. apply IH. by eapply xml_inner_ok.
  - case_match; apply IH; done.
  - apply IH. destruct (String.eqb tag "include"); [done|]. destruct (String.eqb tag "message"); [|done].
    destruct (x_current_msg st) as [m|] eqn:E; [|done]. destruct Hst as [Hm Hc]. rewrite E in Hc. split; [|done].
    apply Forall_app. split; [done|by apply Forall_singleton].
  - by intros [= <-].
  - by apply IH.
Qed.

Lemma type_size_pos t n : type_size t = Done n -> 1 <= n <= 8.
Proof. unfold type_size. repeat case_match; intros Heq; simplify_eq; lia. Qed.

Lemma offsets_loop_ok base off tsys tcomp ts tc :
  0 <= off -> Forall field_ok base -> opt_width 8 tsys -> opt_width 8 tcomp -> offsets_loop base off tsys tcomp = Done (ts, tc) ->
  opt_width 8 ts /\ opt_width 8 tc.
Proof.
  intros Ho HF. revert off tsys tcomp Ho; induction HF as [|fd base Hf HF IH]; intros off tsys tcomp Ho Hs Hc; cbn [offsets_loop].
  { by intros [= <- <-]. }
  destruct (type_size (f_type_name fd)) as [n| |] eqn:En; [|repeat case_match; done..].
  apply type_size_pos in En. unfold field_ok, u8_max in Hf.
  assert (Hoff : 0 <= off + n * (if f_array_length fd =? 0 then 1 else f_array_length fd)) by (case_match; nia).
  assert (Hw : off <= u8_max -> opt_width 8 (Some off)) by (unfold u8_max; simpl; unfold in_width; lia).
  destruct ((f_array_length fd =? 0) && String.eqb (f_type_name fd) "uint8_t").
  - destruct (Z.ltb_spec u8_max off); [done|]. destruct (String.eqb (f_name fd) "target_system"); [|destruct (String.eqb (f_name fd) "target_component")];
      (destruct (u16_max <? _); [done|]); apply IH; auto.
  - destruct (u16_max <? _); [done|]. by apply IH.
Qed.

Lemma wire_order_perm fields base : wire_order fields = Done base -> base ≡ₚ List.filter (fun f => negb (f_is_extension f)) fields.
Proof. unfold wire_order. case_match; [|done]. intros [= <-]. apply sort_by_key_perm. Qed.

Lemma wire_order_Forall fields base (P : ParsedField -> Prop) : wire_order fields = Done base -> Forall P fields -> Forall P base.
Proof.
  intros ->%wire_order_perm HF. rewrite Forall_forall in *. intros x Hx. apply HF. rewrite list_elem_of_In, List.filter_In in Hx. apply list_elem_of_In. tauto.
Qed.

Lemma ingest_message_ok msg entries entries' :
  message_ok msg -> map_Forall gen_ok entries -> ingest_message msg entries = Done entries' -> map_Forall gen_ok entries'.
Proof.
  intros [Hid Hf] He. unfold ingest_message, crc_extra_for_message, compute_offsets.
  destruct (wire_order (m_fields msg)) as [base| |] eqn:Ew; try done.
  pose proof (wire_order_Forall _ _ _ Ew Hf) as Hb.
  destruct (offsets_loop base 0 None None) as [[ts tc]| |] eqn:Eo; try done.
  destruct (offsets_loop_ok base 0 None None ts tc) as [Hs Hc]; [lia|done|done|done|done|].
  unfold merge_entry. destruct (entries !! m_id msg) as [prev|] eqn:E.
  - repeat case_match; intros Heq; simplify_eq; done.
  - intros [= <-]. apply map_Forall_insert_2; [|done]. split_and!; [done|apply wrap_range; lia|done|done].
Qed.

Lemma ingest_all_ok msgs entries entries' :
  Forall message_ok msgs -> map_Forall gen_ok entries -> ingest_all msgs entries = Done entries' -> map_Forall gen_ok entries'.
Proof.
  intros HF. revert entries; induction HF as [|m msgs Hm HF IH]; intros entries He; cbn [ingest_all]; [by intros [= <-]|].
  destruct (ingest_message m entries) as [e1| |] eqn:E; try done. apply IH. by eapply ingest_message_ok.
Qed.

Lemma parse_xml_fuel events : parse_xml events <> OutOfFuel.
Proof.
  assert (Hin : forall tag attrs st, xml_inner tag attrs st <> OutOfFuel).
  { intros tag attrs st. unfold xml_inner, push_field, parse_array_suffix. repeat case_match; congruence. }
  assert (Hattr : forall attrs id name, parse_msg_attrs attrs id name <> OutOfFuel).
  { induction attrs as [|[k v] attrs IH]; intros id name; cbn [parse_msg_attrs]; [done|]. repeat case_match; try done; apply IH. }
  assert (Hloop : forall st, parse_xml_loop events st <> OutOfFuel).
  { induction events as [|ev events IH]; intros st; cbn [parse_xml_loop]; [done|].
    destruct ev as [tag attrs|tag attrs|text|tag| | |]; try done; try apply IH.
    - destruct (String.eqb tag "include"); [apply IH|]. destruct (String.eqb tag "message").
      + specialize (Hattr attrs 0 ""). destruct (parse_msg_attrs attrs 0 "") as [[id name]| |]; [apply IH|done|done].
      + specialize (Hin tag attrs st). destruct (xml_inner tag attrs st); [apply IH|done|done].
    - specialize (Hin tag attrs st). destruct (xml_inner tag attrs st); [apply IH|done|done]. }
  unfold parse_xml. specialize (Hloop {| x_includes := []; x_messages := []; x_in_include := false; x_current_msg := None; x_past_extensions := false |}).
  by destruct (parse_xml_loop _ _).
Qed.

Lemma ingest_all_fuel msgs entries : ingest_all msgs entries <> OutOfFuel.
Proof.
  assert (Hoff : forall base off ts tc, offsets_loop base off ts tc <> OutOfFuel).
  { induction base as [|fd base IH]; intros off ts tc; cbn [offsets_loop]; [done|].
    assert (Ht : type_size (f_type_name fd) <> OutOfFuel) by (unfold type_size; repeat case_match; done).
    destruct (type_size (f_type_name fd)); [|repeat case_match; done|done]. repeat case_match; try done; apply IH. }
  revert entries; induction msgs as [|m msgs IH]; intros entries; cbn [ingest_all]; [done|].
  assert (Hm : ingest_message m entries <> OutOfFuel).
  { unfold ingest_message, crc_extra_for_message, compute_offsets. 
    assert (Hwo : wire_order (m_fields m) <> OutOfFuel) by (unfold wire_order; by destruct (_ || _)).
    destruct (wire_order (m_fields m)) as [base| |]; [|done|done]. specialize (Hoff base 0 None None).
    destruct (offsets_loop base 0 None None) as [[ts tc]| |]; [|done|done]. by destruct (merge_entry _ _ _ _ _ _). }
  destruct (ingest_message m entries); [apply IH|done|done].
Qed.

(** Strict order from order and distinct keys. *)
Lemma sorted_strict {A} (key : A -> Z) l :
  StronglySorted (fun a b => key a <= key b) l -> NoDup (map key l) -> StronglySorted Z.lt (map key l).
Proof.
  induction 1 as [|x l Hs IH Hx]; simpl; intros Hnd; [constructor|]. apply NoDup_cons in Hnd as [Hn Hnd].
  constructor; [by apply IH|]. rewrite Forall_forall in Hx. apply Forall_forall. intros k Hk. change (map key l) with (key <$> l) in *.
  pose proof Hk as (y & -> & Hy)%list_elem_of_fmap. specialize (Hx y Hy). simpl in Hx.
  assert (key x <> key y); [|lia]. intros Heq. apply Hn. by rewrite Heq.
Qed.

Lemma parse_xml_ok events incs msgs : parse_xml events = Done (incs, msgs) -> Forall message_ok msgs.
Proof.
  unfold parse_xml. destruct (parse_xml_loop events _) as [st| |] eqn:E; intros Heq; try done. injection Heq as _ <-.
  apply parse_xml_loop_ok in E as [? _]; [done|by split].
Qed.

Section BuildProps.
Context (files : gmap string (list xml_event)) (canonicalize : string -> string -> option string)
        (canonical_dialect : string -> option string).

Lemma load_dialect_fuel k s : load_dialect files canonicalize k s <> OutOfFuel.
Proof.
  unfold load_dialect. destruct (files !! k) as [evs|]; [|done]. pose proof (parse_xml_fuel evs) as Hp.
  destruct (parse_xml evs) as [[incs msgs]| |]; [|done|done]. pose proof (ingest_all_fuel msgs s) as Hi. by destruct (ingest_all msgs s).
Qed.

Lemma load_dialect_dom k s l s' : load_dialect files canonicalize k s = Done (Ok l, s') -> k ∈ dom files.
Proof. unfold load_dialect. destruct (files !! k) as [evs|] eqn:E; [|done]. intros _. by eapply elem_of_dom_2. Qed.

Lemma load_dialect_ok k s res s' :
  map_Forall gen_ok s -> load_dialect files canonicalize k s = Done (res, s') -> map_Forall gen_ok s'.
Proof.
  intros Hs. unfold load_dialect. destruct (files !! k) as [evs|]; [|by intros [= _ <-]].
  destruct (parse_xml evs) as [[incs msgs]| |] eqn:E; [|done|done].
  destruct (ingest_all msgs s) as [s1| |] eqn:Ei; [|done|done]. intros [= _ <-].
  eapply ingest_all_ok; [|exact Hs|exact Ei]. by eapply parse_xml_ok.
Qed.

Lemma load_dialects_good roots entries :
  map_Forall gen_ok entries ->
  match load_dialects files canonicalize canonical_dialect roots entries with
  | Done entries' => map_Forall gen_ok entries'
  | Panicked => True
  | OutOfFuel => False
  end.
Proof.
  revert entries; induction roots as [|d roots IH]; intros entries He; cbn [load_dialects]; [done|].
  destruct (canonical_dialect d) as [root|]; [|done].
  assert (Hw : walk_good (map_Forall gen_ok) ∅ (walk_includes (load_dialect files canonicalize) (2 + size files) root entries)).
  { apply (walk_inner_good (load_dialect files canonicalize) (dom files)); [apply load_dialect_fuel|apply load_dialect_dom|apply load_dialect_ok| |done].
    rewrite <- (size_dom (D := gset string)). assert (dom files ∖ ∅ = dom files) as -> by set_solver. lia. }
  destruct (walk_includes _ _ root entries) as [[[w|e] entries1]| |]; [|done..]. apply IH. apply Hw.
Qed.

(** Every run of the build script ends, and a table it writes satisfies the interface. *)
Lemma build_main_good iter :
  (forall m, iter m ≡ₚ map_to_list m) ->
  match build_main files canonicalize canonical_dialect iter with
  | Done table => MsgTableOk (H := table) /\ exists e, lookup_msg (H := table) 0 = Some e
  | Panicked => True
  | OutOfFuel => False
  end.
Proof.
  intros Hiter. unfold build_main. pose proof (load_dialects_good DIALECTS ∅ (map_Forall_empty _)) as Hg.
  destruct (load_dialects files canonicalize canonical_dialect DIALECTS ∅) as [entries| |]; [|done|done].
  case_bool_decide as Hne; [done|]. destruct (decide (is_Some (entries !! 0))) as [[e0 H0']|Hn]; [|by rewrite bool_decide_false by done].
  rewrite bool_decide_true by done. cbn [negb].
  set (rows := sort_by_key fst (iter entries)).
  set (conv := fun row : Z * MsgEntryGen => (row.1, {| crc_extra := g_crc_extra row.2; target_sys_offset := g_target_sys_offset row.2;
                                     target_comp_offset := g_target_comp_offset row.2 |})).
  assert (Hp : rows ≡ₚ map_to_list entries) by (unfold rows; by rewrite sort_by_key_perm, Hiter).
  assert (Hfst : map fst (map conv rows) = map fst rows) by (rewrite map_map; by apply map_ext).
  assert (Hok : MsgTableOk (H := map conv rows)).
  { split.
    - change (StronglySorted Z.lt (map fst (map conv rows))). rewrite Hfst. apply sorted_strict; [apply sort_by_key_sorted|].
      change (map fst rows) with (rows.*1). rewrite Hp. apply NoDup_fst_map_to_list.
    - change (Forall entry_ok (map conv rows)). rewrite Forall_forall. intros row Hrow.
      change (map conv rows) with (conv <$> rows) in Hrow. apply list_elem_of_fmap in Hrow as ([id e] & -> & Hin).
      rewrite Hp in Hin. apply elem_of_map_to_list in Hin. apply (Hg id e Hin). }
  split; [exact Hok|]. exists (conv (0, e0)).2. apply (lookup_msg_elem (H := map conv rows)).
  change (conv (0, e0) ∈ conv <$> rows). apply list_elem_of_fmap_2. rewrite Hp. by apply elem_of_map_to_list.
Qed.

(** C37. The generated table is fit for the lookup.  Whatever XML is vendored, the build
    either stops with a panic or writes a table with strictly ascending message ids whose
    ids, CRC bytes and target offsets fit their widths, and which has HEARTBEAT (id 0); the
    include walk's fuel is never the limit.  The lookup's theorems therefore apply to it. *)
Theorem built_table_ok iter :
  (forall m, iter m ≡ₚ map_to_list m) ->
  match build_main files canonicalize canonical_dialect iter with
  | Done table => MsgTableOk (H := table) /\ exists e, lookup_msg (H := table) 0 = Some e
  | Panicked => True
  | OutOfFuel => False
  end.
Proof. apply build_main_good. Qed.
End BuildProps.

(** ** Target offsets *)

Definition wire_size (fd : ParsedField) : Z := size_or_0 fd * (if f_array_length fd =? 0 then 1 else f_array_length fd).
Definition payload_size (fs : list ParsedField) : Z := foldr (fun fd acc => wire_size fd + acc) 0 fs.
Definition is_target (name : string) (fd : ParsedField) : bool :=
  (f_array_length fd =? 0) && String.eqb (f_type_name fd) "uint8_t" && String.eqb (f_name fd) name.

(** The offset of the last field that is the target, [off] bytes having gone before. *)
Fixpoint target_offset (name : string) (fs : list ParsedField) (off : Z) (found : option Z) : option Z :=
  match fs with
  | [] => found
  | fd :: rest => target_offset name rest (off + wire_size fd) (if is_target name fd then Some off else found)
  end.

Lemma target_offset_spec name fs off found :
  target_offset name fs off found = found /\ Forall (fun fd => is_target name fd = false) fs \/
  exists pre fd post, fs = (pre ++ fd :: post)%list /\ is_target name fd = true /\ Forall (fun fd => is_target name fd = false) post /\
    target_offset name fs off found = Some (off + payload_size pre).
Proof.
  revert off found; induction fs as [|fd fs IH]; intros off found; simpl; [left; by split|].
  destruct (IH (off + wire_size fd) (if is_target name fd then Some off else found)) as [[-> Hn]|(pre & g & post & -> & Hg & Hp & ->)].
  - destruct (is_target name fd) eqn:E; [|left; split; [done|by constructor]].
    right. exists [], fd, fs. simpl. split_and!; [done|done|done|]. f_equal. lia.
  - right. exists (fd :: pre)%list, g, post. simpl. split_and!; [done|done|done|]. f_equal. lia.
Qed.

Lemma offsets_loop_spec fs off ts tc ts' tc' :
  offsets_loop fs off ts tc = Done (ts', tc') ->
  ts' = target_offset "target_system" fs off ts /\ tc' = target_offset "target_component" fs off tc.
Proof.
  revert off ts tc; induction fs as [|fd fs IH]; intros off ts tc; cbn [offsets_loop target_offset]; [by intros [= <- <-]|].
  destruct (type_size (f_type_name fd)) as [n| |] eqn:En; [|repeat case_match; done..].
  assert (Hw : wire_size fd = n * (if f_array_length fd =? 0 then 1 else f_array_length fd)) by (unfold wire_size, size_or_0; by rewrite En).
  rewrite Hw. unfold is_target. destruct ((f_array_length fd =? 0) && String.eqb (f_type_name fd) "uint8_t"); cbn [andb].
  - destruct (u8_max <? off); [done|]. destruct (String.eqb_spec (f_name fd) "target_system") as [Hs|Hs].
    + rewrite (proj2 (String.eqb_neq (f_name fd) "target_component")) by (rewrite Hs; done). destruct (u16_max <? _); [done|]. apply IH.
    + destruct (String.eqb (f_name fd) "target_component"); (destruct (u16_max <? _); [done|]); apply IH.
  - destruct (u16_max <? _); [done|]. apply IH.
Qed.

(** What the generator accepts: known types, and a payload that fits MAVLink's 255 bytes. *)
Definition layout_ok (fields : list ParsedField) : Prop :=
  Forall (fun fd => type_known fd = true /\ 0 <= f_array_length fd) fields /\
  payload_size (List.filter (fun f => negb (f_is_extension f)) fields) <= u8_max.

Lemma payload_size_perm fs gs : fs ≡ₚ gs -> payload_size fs = payload_size gs.
Proof. induction 1; simpl in *; lia. Qed.

Lemma type_known_size fd : type_known fd = true -> exists n, type_size (f_type_name fd) = Done n /\ size_or_0 fd = n /\ 0 <= n.
Proof. unfold type_known, size_or_0, type_size. repeat case_match; simplify_eq; try done; intros _; eexists; split_and!; done || lia. Qed.

Lemma payload_size_nonneg fs : Forall (fun fd => type_known fd = true /\ 0 <= f_array_length fd) fs -> 0 <= payload_size fs.
Proof.
  induction 1 as [|fd fs [Hk Ha] HF IH]; cbn; [lia|]. destruct (type_known_size fd Hk) as (n & _ & Hs & Hn).
  fold (payload_size fs). unfold wire_size. rewrite Hs. destruct (f_array_length fd =? 0); nia.
Qed.

Lemma offsets_loop_Done fs off ts tc :
  Forall (fun fd => type_known fd = true /\ 0 <= f_array_length fd) fs -> 0 <= off -> off + payload_size fs <= u8_max ->
  exists r, offsets_loop fs off ts tc = Done r.
Proof.
  intros HF. revert off ts tc; induction HF as [|fd fs [Hk Ha] HF IH]; intros off ts tc Ho Hp; cbn [offsets_loop]; [eauto|].
  destruct (type_known_size fd Hk) as (n & Hn & Hs & Hn0). rewrite Hn. pose proof (payload_size_nonneg fs HF).
  cbn in Hp. fold (payload_size fs) in Hp. unfold wire_size in Hp. rewrite Hs in Hp.
  set (c := if f_array_length fd =? 0 then 1 else f_array_length fd) in *. assert (0 <= c) by (unfold c; case_match; lia).
  assert (0 <= n * c) by nia. unfold u8_max, u16_max in *.
  rewrite !(proj2 (Z.ltb_ge _ _)) by lia. destruct (_ && _); [destruct (String.eqb _ "target_system"); [|destruct (String.eqb _ _)]|]; apply IH; lia.
Qed.

Lemma strongly_sorted_impl {A} (R R' : A -> A -> Prop) l : (forall a b, R a b -> R' a b) -> StronglySorted R l -> StronglySorted R' l.
Proof. intros HR. induction 1 as [|x l Hs IH Hx]; constructor; [done|]. eapply Forall_impl; [exact Hx|]. simpl. auto. Qed.

Lemma wire_order_stable fields base size :
  wire_order fields = Done base ->
  List.filter (fun f => size_or_0 f =? size) base =
  List.filter (fun f => (size_or_0 f =? size) && negb (f_is_extension f)) fields.
Proof.
  unfold wire_order. case_match; [|done]. intros [= <-].
  pose proof (sort_by_key_stable (fun f => - size_or_0 f) (List.filter (fun f => negb (f_is_extension f)) fields) (- size)) as Hs.
  assert (Hk : forall l, List.filter (fun f => - size_or_0 f =? - size) l = List.filter (fun f => size_or_0 f =? size) l).
  { intros l. apply List.filter_ext. intros f. destruct (size_or_0 f =? size) eqn:E; bool_hyps; [apply Z.eqb_eq|apply Z.eqb_neq]; lia. }
  rewrite !Hk in Hs. rewrite Hs. clear. induction fields as [|f fields IH]; [done|]. cbn [List.filter].
  destruct (f_is_extension f); cbn [negb List.filter]; rewrite ?andb_true_r, ?andb_false_r; [done|]. by rewrite IH.
Qed.

(** C38. Target offsets are where the fields are on the wire.  Fields go on the wire without
    the extensions, larger types first; those of one size are, in declaration order, the
    message's non-extension fields of that size.  For a message
    of known types that fits MAVLink's 255 payload bytes the generator succeeds; the offset
    it records is the number of payload bytes before its (last) scalar
    [uint8_t] field of that name, and there is no offset exactly when there is no such
    field. *)
Theorem offsets_match_wire_layout fields :
  layout_ok fields ->
  exists ts tc base, compute_offsets fields = Done (ts, tc) /\ wire_order fields = Done base /\
    base ≡ₚ List.filter (fun f => negb (f_is_extension f)) fields /\
    StronglySorted (fun a b => size_or_0 b <= size_or_0 a) base /\
    (forall size, List.filter (fun f => size_or_0 f =? size) base =
       List.filter (fun f => (size_or_0 f =? size) && negb (f_is_extension f)) fields) /\
    forall name o, (name = "target_system" /\ o = ts) \/ (name = "target_component" /\ o = tc) ->
      match o with
      | None => Forall (fun fd => is_target name fd = false) base
      | Some off => exists pre fd post, base = (pre ++ fd :: post)%list /\ is_target name fd = true /\
          Forall (fun fd => is_target name fd = false) post /\ off = payload_size pre
      end.
Proof.
  intros [Hk Hp]. destruct (wire_order fields) as [base| |] eqn:Ew.
  2,3: exfalso; unfold wire_order in Ew; case_match; [done|]; simplify_eq; match goal with Hb : _ || _ = false |- _ =>
    apply orb_false_iff in Hb as [_ Hb]; rewrite <- not_true_iff_false, forallb_forall in Hb; apply Hb; intros x [Hx _]%List.filter_In;
    apply (proj1 (Forall_forall _ _) Hk); by apply list_elem_of_In end.
  rewrite <- (payload_size_perm base) in Hp by by apply wire_order_perm.
  destruct (offsets_loop_Done base 0 None None) as [[ts tc] Ho]; [by eapply wire_order_Forall|lia|lia|].
  unfold compute_offsets. rewrite Ew. pose proof Ho as Ho'. apply offsets_loop_spec in Ho as [Hts Htc].
  exists ts, tc, base. split_and!; [done|done|by apply wire_order_perm| |intros size; by apply wire_order_stable|].
  - unfold wire_order in Ew. case_match; [|done]. injection Ew as <-.
    eapply strongly_sorted_impl; [|apply sort_by_key_sorted]. simpl. lia.
  - clear Ho'. intros name o Ho. assert (Hspec : o = target_offset name base 0 None) by (destruct Ho as [[-> ->]|[-> ->]]; done).
    destruct (target_offset_spec name base 0 None) as [[He Hn]|(pre & fd & post & Hb & Hf & Hpost & He)]; rewrite Hspec, He; [done|].
    exists pre, fd, post. split_and!; [done|done|done|lia].
Qed.

(** The two copies of the CRC update agree. *)
Lemma crc_copies_agree crc byte : build_crc16_update crc byte = crc16_update crc byte.
Proof. reflexivity. Qed.

(** ** Witnesses *)

Module BuildSample.
Definition field (type_name name : string) : xml_event := XStart "field" [("type", type_name); ("name", name)]%list.
Definition heartbeat : list xml_event :=
  [XStart "mavlink" []; XStart "message" [("id", "0"); ("name", "HEARTBEAT")]; field "uint8_t" "type"; XEnd "field";
   field "uint8_t" "autopilot"; XEnd "field"; field "uint8_t" "base_mode"; XEnd "field"; field "uint32_t" "custom_mode"; XEnd "field";
   field "uint8_t" "system_status"; XEnd "field"; field "uint8_t_mavlink_version" "mavlink_version"; XEnd "field"; XEnd "message";
   XEnd "mavlink"; XEof]%list.
Definition command_long : list xml_event :=
  [XStart "mavlink" []; XStart "include" []; XText "minimal.xml"; XEnd "include";
   XStart "message" [("id", "76"); ("name", "COMMAND_LONG")]; field "uint8_t" "target_system"; field "uint8_t" "target_component";
   field "uint16_t" "command"; field "uint8_t" "confirmation"; field "float" "param1"; field "float" "param2"; field "float" "param3";
   field "float" "param4"; field "float" "param5"; field "float" "param6"; field "float" "param7"; XEnd "message"; XEof]%list.
Definition files : gmap string (list xml_event) := {["minimal.xml" := heartbeat; "common.xml" := command_long;
    "ardupilotmega.xml" := [XStart "mavlink" []; XStart "include" []; XText "common.xml"; XEnd "include"; XEof]%list]}.
Definition canonicalize (dir inc : string) : option string := Some inc.
Definition setter : list ParsedField :=
  [{| f_name := "target_system"; f_type_name := "uint8_t"; f_array_length := 0; f_is_extension := false |};
   {| f_name := "value"; f_type_name := "float"; f_array_length := 3; f_is_extension := false |}]%list.
End BuildSample.

(** The published CRC bytes: HEARTBEAT is 50, COMMAND_LONG is 152 with targets at 30 and 31. *)
Example build_sample :
  build_main BuildSample.files BuildSample.canonicalize Some map_to_list =
  Done [(0, {| crc_extra := 50; target_sys_offset := None; target_comp_offset := None |});
        (76, {| crc_extra := 152; target_sys_offset := Some 30; target_comp_offset := Some 31 |})]%list.
Proof. vm_compute. reflexivity. Qed.

Lemma built_table_ok_witness :
  match build_main BuildSample.files BuildSample.canonicalize Some map_to_list with
  | Done table => exists e, lookup_msg (H := table) 0 = Some e
  | _ => False
  end.
Proof.
  pose proof (built_table_ok BuildSample.files BuildSample.canonicalize Some map_to_list (fun m => Permutation_refl _)) as Hb.
  destruct (build_main _ _ _ _) as [table| |] eqn:E; [exact (proj2 Hb)|vm_compute in E; discriminate E|exact Hb].
Defined.

Module WalkSample.
Definition names : gset string := {["a"; "b"; "c"]}.
Definition includes (k : string) : result (list string) string :=
  if bool_decide (k ∈ names) then Ok (if String.eqb k "a" then ["b"; "c"] else if String.eqb k "b" then ["c"] else [])%list
  else Err "missing".
Definition note (k : string) (s : list string) : list string := (s ++ [k])%list.
Lemma includes_names k l : includes k = Ok l -> k ∈ names.
Proof. unfold includes. by case_bool_decide. Qed.
End WalkSample.

Lemma walk_includes_exact_witness :
  exists res log, walk_includes (fun k s => Done (WalkSample.includes k, WalkSample.note k s)) (1 + size WalkSample.names) "a" []%list
    = Done (res, foldl (fun s k => WalkSample.note k s) []%list log) /\ NoDup log.
Proof.
  destruct (walk_includes_exact (fun k s => Done (WalkSample.includes k, WalkSample.note k s)) WalkSample.includes WalkSample.note
    (fun k s => eq_refl) WalkSample.names WalkSample.includes_names "a" []%list) as (res & log & Hw & Hnd & _).
  exists res, log. split; [exact Hw|exact Hnd].
Defined.

Lemma offsets_match_wire_layout_witness :
  exists base, compute_offsets BuildSample.setter = Done (Some 12, None) /\ wire_order BuildSample.setter = Done base /\
    StronglySorted (fun a b => size_or_0 b <= size_or_0 a) base.
Proof.
  destruct (offsets_match_wire_layout BuildSample.setter) as (ts & tc & base & Ho & Hb & _ & Hs & _).
  - split; [repeat constructor; vm_compute; discriminate|vm_compute; discriminate].
  - exists base. split; [vm_compute; reflexivity|]. split; [exact Hb|exact Hs].
Defined.

(** A [']'] before the ['[']: the slice is out of order and the build panics instead of
    reporting a malformed type. *)
Example parse_array_suffix_reversed : parse_array_suffix "a]b[" = Panicked.
Proof. reflexivity. Qed.
