(* ===== verification/Shutdown.v ===== *)
(** * Shutdown ([src/src/shutdown.rs])

    Time is in nanoseconds since [shutdown] was called.  A task is known by when it would
    return on its own and how long it takes to react to an abort. *)

From S2P Require Import Prelude Endpoint StatsTask.
#[local] Open Scope Z_scope.

Definition PER_TASK_DRAIN : Z := from_secs 2.
Definition SHUTDOWN_GRACE : Z := from_secs 5.

(** ** Signals

    A future is known by the moment it resolves; [None] is never.  Asking the operating
    system for a signal gives such a moment, or the error of installing the handler. *)

Abbreviation moment := (option Z).
Abbreviation source := (result (option Z) string).

(** [tokio::select!] over two futures. *)
Definition first_of (a b : moment) : moment :=
  match a, b with
  | Some x, Some y => Some (Z.min x y)
  | Some x, None => Some x
  | None, _ => b
  end.

(** Waiting on a source; with no handler the future is [pending]. *)
Definition wait_source (s : source) : moment := match s with Ok at_time => at_time | Err _ => None end.

(** What terminates the process on each platform. *)
Inductive Terminate :=
| TerminateUnix (sigterm : source)
| TerminateWindows (ctrl_close ctrl_shutdown ctrl_break : source)
| TerminateOther.

(** [async fn wait_for_terminate()], its three versions. *)
Definition wait_for_terminate_unix (sigterm : source) : moment := wait_source sigterm.
Definition wait_for_terminate_windows (ctrl_close ctrl_shutdown ctrl_break : source) : moment :=
  let close_event := wait_source ctrl_close in
  let shutdown_event := wait_source ctrl_shutdown in
  let break_event := wait_source ctrl_break in
  first_of close_event (first_of shutdown_event break_event).
Definition wait_for_terminate_other : moment := None.
Definition wait_for_terminate (t : Terminate) : moment :=
  match t with
  | TerminateUnix sigterm => wait_for_terminate_unix sigterm
  | TerminateWindows ctrl_close ctrl_shutdown ctrl_break => wait_for_terminate_windows ctrl_close ctrl_shutdown ctrl_break
  | TerminateOther => wait_for_terminate_other
  end.

(** [pub async fn watch_for_shutdown_signal(token)]: when the token is cancelled, given when
    someone else cancels it. *)
Definition watch_for_shutdown_signal (ctrl_c : source) (t : Terminate) (token : moment) : moment :=
  let signalled := first_of (wait_source ctrl_c) (wait_for_terminate t) in
  match token with
  | Some c =>
      match signalled with
      | Some s => if c <? s then Some c else Some s
      | None => Some c
      end
  | None => signalled
  end.

Record JoinTask := { jt_returns : option Z; jt_abort_latency : option Z }.

Inductive shutdown_end := NoTasks | Drained | Aborted | GaveUp.

(** When the last of these moments is; [None] is never. *)
Fixpoint last_moment (l : list (option Z)) : option Z :=
  match l with
  | [] => Some 0
  | None :: _ => None
  | Some t :: rest => match last_moment rest with Some u => Some (Z.max t u) | None => None end
  end.

(** The tasks a drain that expires at [budget] leaves, and when each is gone after the abort at [now]. *)
Definition still_running (budget : Z) (t : JoinTask) : bool :=
  match jt_returns t with Some r => budget <? r | None => true end.
Definition gone_after_abort (now : Z) (t : JoinTask) : option Z :=
  match jt_returns t, jt_abort_latency t with
  | Some r, Some a => Some (Z.min r (now + a))
  | Some r, None => Some r
  | None, Some a => Some (now + a)
  | None, None => None
  end.

(** [pub async fn shutdown(tasks, wall_clock)]: how it ended, when, and which tasks were
    aborted.  The first timer fires [lag] late and the second [abort_lag]; a [timeout] polls what
    it guards before its timer, so what is complete when the timer fires still counts. *)
Definition shutdown (tasks : list JoinTask) (wall_clock lag abort_lag : Z) : shutdown_end * Z * list JoinTask :=
  match tasks with
  | [] => (NoTasks, 0, [])
  | _ =>
      let drain_budget := Z.min PER_TASK_DRAIN wall_clock in
      let elapsed := drain_budget + lag in
      let drained := match last_moment (map jt_returns tasks) with Some t => if t <=? elapsed then Some t else None | None => None end in
      match drained with
      | Some t => (Drained, t, [])
      | None =>
          let remaining := List.filter (still_running elapsed) tasks in
          let abort_budget := sat_sub wall_clock elapsed in
          let deadline := elapsed + abort_budget + abort_lag in
          match last_moment (map (gone_after_abort elapsed) remaining) with
          | Some t => if t <=? deadline then (Aborted, Z.max t elapsed, remaining) else (GaveUp, deadline, remaining)
          | None => (GaveUp, deadline, remaining)
          end
      end
  end.

Lemma last_moment_bound l t : last_moment l = Some t -> Forall (fun o => exists u, o = Some u /\ u <= t) l.
Proof.
  revert t; induction l as [|[u|] l IH]; intros t; simpl; [constructor| |done].
  destruct (last_moment l) as [v|]; [|done]. intros [= <-]. constructor; [eexists; split; [done|lia]|].
  eapply Forall_impl; [by apply IH|]. intros o (w & -> & Hw). eexists. split; [done|lia].
Qed.

Lemma last_moment_le l b : 0 <= b -> Forall (fun o => exists u, o = Some u /\ u <= b) l -> exists t, last_moment l = Some t /\ t <= b.
Proof.
  intros Hb. induction 1 as [|o l (u & -> & Hu) HF IH]; simpl; [eauto|]. destruct IH as (t & -> & Ht). eexists. split; [done|lia].
Qed.

(** C29. Shutdown is bounded and patient.  It returns within its wall-clock budget (5 s in
    the program) or, should the drain timer be later than that, when it fires, in either case
    up to the lateness of the abort timer; a task that
    returns on its own within the drain budget of 2 s is never aborted; if all tasks do, it
    returns exactly when the last one has; and the stats task's post-cancel drain fits
    strictly within the drain budget. *)
Theorem shutdown_bounded_and_patient tasks wall_clock lag abort_lag :
  0 < wall_clock -> 0 <= lag -> 0 <= abort_lag ->
  let drain_budget := Z.min PER_TASK_DRAIN wall_clock in
  let '(how, at_time, aborted) := shutdown tasks wall_clock lag abort_lag in
  at_time <= Z.max wall_clock (drain_budget + lag) + abort_lag /\
  Forall (fun t => forall r, jt_returns t = Some r -> drain_budget + lag < r) aborted /\
  (Forall (fun t => exists r, jt_returns t = Some r /\ r <= drain_budget) tasks ->
   aborted = [] /\ last_moment (map jt_returns tasks) = Some at_time) /\
  POST_CANCEL_DRAIN < PER_TASK_DRAIN /\ PER_TASK_DRAIN < SHUTDOWN_GRACE.
Proof.
  intros Hw Hl Hl'. cbv zeta. assert (Hc : POST_CANCEL_DRAIN < PER_TASK_DRAIN /\ PER_TASK_DRAIN < SHUTDOWN_GRACE) by done.
  unfold shutdown. destruct tasks as [|t0 tasks0]; [split_and!; [lia|done|by auto|apply Hc|apply Hc]|].
  set (tasks := (t0 :: tasks0)%list). set (b := Z.min PER_TASK_DRAIN wall_clock). cbv zeta.
  assert (Hb : 0 < b) by (unfold b, PER_TASK_DRAIN, from_secs; lia).
  destruct (match last_moment (map jt_returns tasks) with Some t => if t <=? b + lag then Some t else None | None => None end) as [t|] eqn:E.
  { destruct (last_moment _) as [u|]; [|done]. destruct (Z.leb_spec u (b + lag)); [|done]. injection E as <-.
    split_and!; [lia|done|by auto|apply Hc|apply Hc]. }
  assert (Hab : Forall (fun t => forall r, jt_returns t = Some r -> b + lag < r) (List.filter (still_running (b + lag)) tasks)).
  { apply Forall_forall. intros t Ht r Hr. rewrite list_elem_of_In, List.filter_In in Ht. destruct Ht as [_ Hs].
    unfold still_running in Hs. rewrite Hr in Hs. lia. }
  assert (Hall : Forall (fun t => exists r, jt_returns t = Some r /\ r <= b) tasks -> False).
  { intros HF. destruct (last_moment_le (map jt_returns tasks) b ltac:(lia)) as (t & Ht & Hle); [by apply Forall_map|].
    rewrite Ht in E. destruct (Z.leb_spec t (b + lag)); [done|lia]. }
  assert (Hs : b + lag + sat_sub wall_clock (b + lag) = Z.max wall_clock (b + lag)) by (unfold sat_sub; lia).
  destruct (last_moment (map (gone_after_abort _) _)) as [t|]; [destruct (Z.leb_spec t (b + lag + sat_sub wall_clock (b + lag) + abort_lag))|];
    (split_and!; [lia|exact Hab|by intros ?%Hall|apply Hc|apply Hc]).
Qed.

Lemma shutdown_bounded_and_patient_witness :
  let '(how, at_time, aborted) := shutdown [{| jt_returns := Some 100; jt_abort_latency := None |}; {| jt_returns := None; jt_abort_latency := Some 5 |}] SHUTDOWN_GRACE 0 0 in
  how = Aborted /\ at_time <= SHUTDOWN_GRACE /\ length aborted = 1%nat.
Proof.
  pose proof (shutdown_bounded_and_patient [{| jt_returns := Some 100; jt_abort_latency := None |}; {| jt_returns := None; jt_abort_latency := Some 5 |}]
    SHUTDOWN_GRACE 0 0 ltac:(vm_compute; reflexivity) ltac:(lia) ltac:(lia)) as Hs.
  destruct (shutdown _ _ _ _) as [[how at_time] aborted] eqn:E. destruct Hs as [Hs _].
  vm_compute in E. injection E as <- <- <-. split; [reflexivity|]. split; [|reflexivity].
  eapply Z.le_trans; [exact Hs|]. vm_compute. discriminate.
Defined.
