(* ===== verification/Log.v ===== *)
(** * Logging ([src/src/log.rs])

    [tracing] events and the subscriber [main] installs.  How the subscriber lays out a line
    is [tracing_subscriber]'s; which events reach stderr is not. *)

From S2P Require Import Prelude RustStr RustNet Frame Filters TxQueue Identity FilterParse Spec Config.
#[local] Open Scope Z_scope.

(** [tracing::Level], most verbose first. *)
Inductive Level := TRACE | DEBUG | INFO | WARN | ERROR.

(** A [tracing] event: level, message and fields. *)
Record Event := { ev_level : Level; ev_message : string; ev_fields : list (string * string) }.

(** [impl From<LogLevel> for Level] *)
Definition Level_from (level : LogLevel) : Level :=
  match level with
  | LogTrace => TRACE
  | LogDebug => DEBUG
  | LogInfo => INFO
  | LogWarn => WARN
  | LogError => ERROR
  end.

(** The subscriber: the most verbose level it lets through, and its format; it writes to
    stderr. *)
Record Subscriber := { sub_max_level : Level; sub_json : bool }.

(** [pub fn init_tracing(level, format)] *)
Definition init_tracing (level : LogLevel) (format : LogFormat) : Subscriber :=
  {| sub_max_level := Level_from level; sub_json := match format with LogText => false | LogJson => true end |}.

Definition severity (l : Level) : Z := match l with TRACE => 0 | DEBUG => 1 | INFO => 2 | WARN => 3 | ERROR => 4 end.

(** What of an event sequence the subscriber writes. *)
Definition written (s : Subscriber) (events : list Event) : list Event :=
  List.filter (fun e => severity (sub_max_level s) <=? severity (ev_level e)) events.
