(* ===== verification/ErrorText.v ===== *)
(** * The text of errors ([src/src/error.rs], [src/src/endpoint/spec/error.rs],
    [src/build_support/dialect_parse.rs])

    What [Display] prints for each error; the operator's view of a failed start. *)

From S2P Require Import Prelude RustStr RustNet Filters Identity FilterParse Spec Config BuildTable.
#[local] Open Scope string_scope.
#[local] Open Scope Z_scope.

(** [fn fmt_suggestion(suggestion) -> String] *)
Definition fmt_suggestion (suggestion : option string) : string :=
  match suggestion with Some text => " (did you mean '" ++s text ++s "'?)" | None => "" end.

(** [impl Display for SpecError] *)
Definition SpecError_to_string (e : SpecError) : string :=
  match e with
  | MissingScheme s =>
      "missing scheme in '" ++s s ++s "' (expected one of: 'serial:', 'udps:', 'udpc:', 'tcps:', 'tcpc:')"
  | UnknownScheme s => "unknown scheme '" ++s s ++s "' (valid: serial, udps, udpc, tcps, tcpc)"
  | InvalidName s => "invalid endpoint name '" ++s s ++s "': must match [A-Za-z0-9_-]+"
  | UnknownQueryKey scheme key suggestion =>
      "unknown query key '" ++s key ++s "' for scheme '" ++s Scheme_as_str scheme ++s "'" ++s fmt_suggestion suggestion
  | MalformedQuery s => "malformed query string: " ++s s
  | DuplicateQueryKey s => "duplicate query key '" ++s s ++s "'"
  | MalformedBody scheme body reason =>
      "malformed body for scheme '" ++s Scheme_as_str scheme ++s "': '" ++s body ++s "' (" ++s reason ++s ")"
  | InvalidQueryValue key reason => "invalid value for '" ++s key ++s "': " ++s reason
  end.

(** [impl Display for Error] *)
Definition Error_to_string (e : Error) : string :=
  match e with
  | SpecInArg index arg source =>
      "invalid endpoint #" ++s show_uint (Z.of_nat index + 1) ++s " '" ++s arg ++s "': " ++s SpecError_to_string source
  | SpecInToml name source => "invalid endpoint [endpoint." ++s name ++s "]: " ++s SpecError_to_string source
  | DuplicateName name => "duplicate endpoint name '" ++s name ++s "'"
  | ConfigIo path source => "failed to read config '" ++s path ++s "': " ++s source
  | ConfigParse source => "failed to parse config TOML: " ++s source
  | ConfigSchema name reason => "invalid endpoint [endpoint." ++s name ++s "]: " ++s reason
  | DedupMsTooLarge requested max =>
      "dedup_ms = " ++s show_uint requested ++s "ms exceeds maximum of " ++s show_uint max ++s "ms"
  | StatsIntervalTooSmall requested min =>
      "stats_interval_secs = " ++s show_uint requested ++s "s is below minimum of " ++s show_uint min ++s "s"
  | FilterReferencesUnknownEndpoint endpoint_name axis referenced_name =>
      "endpoint '" ++s endpoint_name ++s "' filter " ++s axis ++s ": '" ++s referenced_name
        ++s "' is not a declared endpoint name"
  end.

(** [impl Display for ParseArrayError] *)
Definition ParseArrayError_to_string (e : ParseArrayError) : string :=
  match e with
  | Malformed type_name => "malformed array type '" ++s type_name ++s "'"
  | BadLength type_name => "bad array length in '" ++s type_name ++s "'"
  | ZeroLength type_name => "zero-length array in '" ++s type_name ++s "'"
  end.

(** [impl Display for MergeError] *)
Definition MergeError_to_string (e : MergeError) : string :=
  match e with
  | CrcExtraConflict id prev_name new_name prev_crc new_crc =>
      "crc_extra conflict for msgid " ++s show_uint id ++s " (" ++s prev_name ++s " vs " ++s new_name ++s "): "
        ++s show_uint prev_crc ++s " != " ++s show_uint new_crc
  | NameConflict id prev_name new_name =>
      "msgid " ++s show_uint id ++s " declared under two names: '" ++s prev_name ++s "' and '" ++s new_name ++s "'"
  end.
