(* ===== verification/Display.v ===== *)
(** * How a configuration is shown ([src/src/endpoint/spec/endpoint_kinds.rs],
    [src/src/endpoint/spec/mod.rs], [src/src/endpoint/filters.rs],
    [src/src/endpoint/identity_flags.rs], [src/src/config.rs])

    The [Display] and [Debug] implementations behind [Config::log_resolved], on a model of
    [core::fmt]'s builders.  A byte from 0x80 up is copied by [str]'s [Debug]: the Unicode
    tables that would escape some non-ASCII characters are not modelled. *)

From Stdlib Require Import Ascii.
From S2P Require Import Prelude RustStr RustNet Frame Filters TxQueue Identity FilterParse Spec Config Log.
#[local] Open Scope string_scope.
#[local] Open Scope Z_scope.

(** ** [core::fmt] *)

(** [trait Debug], with [{:?}]. *)
Class Debug (A : Type) := fmt_debug : A -> string.

(** [struct DebugStruct]: the text so far and [has_fields]. *)
Record DebugStruct := { ds_text : string; ds_has_fields : bool }.
Definition debug_struct (name : string) : DebugStruct := {| ds_text := name; ds_has_fields := false |}.
Definition ds_field {A} `{Debug A} (name : string) (value : A) (d : DebugStruct) : DebugStruct :=
  {| ds_text := ds_text d ++s (if ds_has_fields d then ", " else " { ") ++s name ++s ": " ++s fmt_debug value;
     ds_has_fields := true |}.
Definition ds_finish (d : DebugStruct) : string := if ds_has_fields d then ds_text d ++s " }" else ds_text d.

Definition dquote : ascii := "034".

(** [char::escape_debug_ext] as [str]'s [Debug] calls it. *)
Definition escape_debug (c : ascii) : string :=
  if Ascii.eqb c "000" then "\0"
  else if Ascii.eqb c "009" then "\t"
  else if Ascii.eqb c "013" then "\r"
  else if Ascii.eqb c "010" then "\n"
  else if Ascii.eqb c "\" then "\\"
  else if Ascii.eqb c dquote then String "\" (String dquote "")
  else if (byte_val c <? 32) || (byte_val c =? 127) then "\u{" ++s show_hex (byte_val c) ++s "}"
  else String c "".

Fixpoint escape_str (s : string) : string :=
  match s with EmptyString => "" | String c s' => escape_debug c ++s escape_str s' end.

#[global] Instance Debug_str : Debug string := fun s => String dquote (escape_str s ++s String dquote "").
#[global] Instance Debug_uint : Debug Z := show_uint.
#[global] Instance Debug_bool : Debug bool := show_bool.
#[global] Instance Debug_list {A} `{Debug A} : Debug (list A) := fun l => "[" ++s join_with ", " (map fmt_debug l) ++s "]".

(** [SocketAddr]'s [Debug] is its [Display]. *)
#[global] Instance Debug_SocketAddr : Debug SocketAddr := SocketAddr_to_string.

(** ** Filters and identity *)

(** The derived [Debug] of the ranges. *)
#[global] Instance Debug_MsgIdRange : Debug MsgIdRange := fun r =>
  ds_finish (ds_field "hi" (mr_hi r) (ds_field "lo" (mr_lo r) (debug_struct "MsgIdRange"))).
#[global] Instance Debug_U8Range : Debug U8Range := fun r =>
  ds_finish (ds_field "hi" (ur_hi r) (ds_field "lo" (ur_lo r) (debug_struct "U8Range"))).

(** [MsgIdRange::single], [U8Range::single] *)
Definition MsgIdRange_single (value : Z) : MsgIdRange := {| mr_lo := value; mr_hi := value |}.
Definition U8Range_single (value : Z) : U8Range := {| ur_lo := value; ur_hi := value |}.

#[global] Instance MsgIdRange_eq_dec : EqDecision MsgIdRange.
Proof. solve_decision. Defined.
#[global] Instance U8Range_eq_dec : EqDecision U8Range.
Proof. solve_decision. Defined.
#[global] Instance Filters_eq_dec : EqDecision Filters.
Proof. solve_decision. Defined.
#[global] Instance IdentityFlags_eq_dec : EqDecision IdentityFlags.
Proof. solve_decision. Defined.

(** One arm of the [fields!] macro. *)
Definition field_unless_empty {A} `{Debug A} (name : string) (l : list A) (entry : DebugStruct) : DebugStruct :=
  match l with [] => entry | _ => ds_field name l entry end.

(** [impl Debug for Filters] *)
#[global] Instance Filters_fmt : Debug Filters := fun f =>
  let entry := debug_struct "Filters" in
  let entry := field_unless_empty "allow_msgid_in" (allow_msgid_in f) entry in
  let entry := field_unless_empty "block_msgid_in" (block_msgid_in f) entry in
  let entry := field_unless_empty "allow_msgid_out" (allow_msgid_out f) entry in
  let entry := field_unless_empty "block_msgid_out" (block_msgid_out f) entry in
  let entry := field_unless_empty "allow_src_sys_in" (allow_src_sys_in f) entry in
  let entry := field_unless_empty "block_src_sys_in" (block_src_sys_in f) entry in
  let entry := field_unless_empty "allow_src_sys_out" (allow_src_sys_out f) entry in
  let entry := field_unless_empty "block_src_sys_out" (block_src_sys_out f) entry in
  let entry := field_unless_empty "allow_src_comp_in" (allow_src_comp_in f) entry in
  let entry := field_unless_empty "block_src_comp_in" (block_src_comp_in f) entry in
  let entry := field_unless_empty "allow_src_comp_out" (allow_src_comp_out f) entry in
  let entry := field_unless_empty "block_src_comp_out" (block_src_comp_out f) entry in
  let entry := field_unless_empty "allow_src_endpoint_out" (allow_src_endpoint_out f) entry in
  let entry := field_unless_empty "block_src_endpoint_out" (block_src_endpoint_out f) entry in
  ds_finish entry.

(** [impl Debug for IdentityFlags] *)
#[global] Instance IdentityFlags_fmt : Debug IdentityFlags := fun i =>
  let entry := debug_struct "IdentityFlags" in
  let entry := if negb (bool_decide (filters i = Filters_default)) then ds_field "filters" (filters i) entry else entry in
  let entry := if sniffer i then ds_field "sniffer" (sniffer i) entry else entry in
  let entry := match group i with Some group => ds_field "group" group entry | None => entry end in
  ds_finish entry.

(** ** Endpoints *)

(** [fn fmt_identity(entry, identity)] *)
Definition fmt_identity (entry : DebugStruct) (identity : IdentityFlags) : DebugStruct :=
  if negb (bool_decide (identity = IdentityFlags_default)) then ds_field "identity" identity entry else entry.

#[global] Instance SerialFlowControl_fmt : Debug SerialFlowControl := fun f =>
  match f with FlowControl_None => "None" | FlowControl_RtsCts => "RtsCts" end.

Definition field_if_some {A} `{Debug A} (name : string) (o : option A) (entry : DebugStruct) : DebugStruct :=
  match o with Some value => ds_field name value entry | None => entry end.

(** [impl Display for SerialEndpoint] *)
Definition SerialEndpoint_fmt (e : SerialEndpoint) : string :=
  let entry := debug_struct "SerialEndpoint" in
  let entry := ds_field "path" (se_path e) entry in
  let entry := ds_field "baud" (se_baud e) entry in
  let entry :=
    match se_flow_control e with FlowControl_None => entry | FlowControl_RtsCts => ds_field "flow_control" (se_flow_control e) entry end in
  ds_finish (fmt_identity entry (se_identity e)).

(** [impl Display for UdpServerEndpoint] *)
Definition UdpServerEndpoint_fmt (e : UdpServerEndpoint) : string :=
  let entry := debug_struct "UdpServerEndpoint" in
  let entry := ds_field "bind_addr" (us_bind_addr e) entry in
  let entry := field_if_some "idle_secs" (us_idle_secs e) entry in
  ds_finish (fmt_identity entry (us_identity e)).

(** [impl Display for UdpClientEndpoint] *)
Definition UdpClientEndpoint_fmt (e : UdpClientEndpoint) : string :=
  let entry := debug_struct "UdpClientEndpoint" in
  let entry := ds_field "host" (uc_host e) entry in
  let entry := ds_field "port" (uc_port e) entry in
  let entry := field_if_some "latch_idle_secs" (uc_latch_idle_secs e) entry in
  ds_finish (fmt_identity entry (uc_identity e)).

(** [impl Display for TcpServerEndpoint] *)
Definition TcpServerEndpoint_fmt (e : TcpServerEndpoint) : string :=
  let entry := debug_struct "TcpServerEndpoint" in
  let entry := ds_field "bind_addr" (ts_bind_addr e) entry in
  ds_finish (fmt_identity entry (ts_identity e)).

(** [impl Display for TcpClientEndpoint] *)
Definition TcpClientEndpoint_fmt (e : TcpClientEndpoint) : string :=
  let entry := debug_struct "TcpClientEndpoint" in
  let entry := ds_field "host" (tc_host e) entry in
  let entry := ds_field "port" (tc_port e) entry in
  ds_finish (fmt_identity entry (tc_identity e)).

(** [impl Display for EndpointKind] *)
Definition EndpointKind_fmt (k : EndpointKind) : string :=
  match k with
  | Kind_Serial e => SerialEndpoint_fmt e
  | Kind_UdpServer e => UdpServerEndpoint_fmt e
  | Kind_UdpClient e => UdpClientEndpoint_fmt e
  | Kind_TcpServer e => TcpServerEndpoint_fmt e
  | Kind_TcpClient e => TcpClientEndpoint_fmt e
  end.

(** [impl Display for EndpointSpec] *)
Definition EndpointSpec_fmt (s : EndpointSpec) : string := spec_name s ++s ": " ++s EndpointKind_fmt (spec_kind s).

(** ** [Config::log_resolved] *)

#[global] Instance LogLevel_fmt : Debug LogLevel := fun l =>
  match l with LogTrace => "Trace" | LogDebug => "Debug" | LogInfo => "Info" | LogWarn => "Warn" | LogError => "Error" end.
#[global] Instance LogFormat_fmt : Debug LogFormat := fun f => match f with LogText => "Text" | LogJson => "Json" end.

(** [Config::log_resolved] *)
Definition log_resolved (c : Config) : Event :=
  let msg := if cf_merged c then "merged config" else "config" in
  let endpoints := join_with ", " (map EndpointSpec_fmt (cf_endpoints c)) in
  {| ev_level := INFO; ev_message := msg;
     ev_fields := [("log_level", fmt_debug (cf_log_level c)); ("log_format", fmt_debug (cf_log_format c));
                   ("stats", show_bool (cf_stats c)); ("stats_interval_secs", show_uint (cf_stats_interval_secs c));
                   ("dedup_ms", show_uint (cf_dedup_ms c)); ("skip_config_log", show_bool (cf_skip_config_log c));
                   ("endpoint_count", show_uint (Z.of_nat (length (cf_endpoints c)))); ("endpoints", endpoints)]%list |}.
