(* ===== verification/Version.v ===== *)
(** * The version string ([src/build.rs])

    [git], the clock and the [time] crate are parameters.  The output of a command is its
    text, decoded. *)

From S2P Require Import Prelude RustStr.
#[local] Open Scope string_scope.
#[local] Open Scope Z_scope.

(** [std::process::Output], of what the source reads. *)
Record Output := { out_success : bool; out_stdout : string }.

Section Version.
(** [CARGO_PKG_VERSION], whether [.git] exists, and [git]'s answer to its arguments; [None]
    when it cannot be run. *)
Context (pkg_version : string) (in_git : bool) (git : list string -> option Output).
(** [OffsetDateTime]: the moments the clock is read at, and the crate's two operations. *)
Context {T : Type} (now_utc now_utc_again : T) (replace_nanosecond : Z -> T -> option T) (format_rfc3339 : T -> option string).

(** [fn head_matches_release_tag(pkg_version) -> bool] *)
Definition head_matches_release_tag : bool :=
  let tag := "v" ++s pkg_version in
  match git ["describe"; "--tags"; "--exact-match"; "HEAD"]%list with
  | None => false
  | Some out => out_success out && String.eqb (trim (out_stdout out)) tag
  end.

(** [fn git_short_sha() -> Option<String>] *)
Definition git_short_sha : option string :=
  match git ["rev-parse"; "--short=7"; "HEAD"]%list with
  | None => None
  | Some out =>
      if negb (out_success out) then None
      else
        let trimmed := trim (out_stdout out) in
        if str_is_empty trimmed then None else Some trimmed
  end.

(** [fn build_timestamp_utc() -> String] *)
Definition build_timestamp_utc : string :=
  default "unknown" (format_rfc3339 (default now_utc_again (replace_nanosecond 0 now_utc))).

(** The value of [RMR_VERSION_STRING]. *)
Definition version_string : string :=
  let tagged := in_git && head_matches_release_tag in
  if negb in_git || tagged then pkg_version
  else
    let short_sha := default "unknown" git_short_sha in
    let built := build_timestamp_utc in
    pkg_version ++s " (sha " ++s short_sha ++s ", built " ++s built ++s ")".

(** [fn emit_version_string()]: the lines it prints for cargo. *)
Definition emit_version_string : list string :=
  (("cargo:rustc-env=RMR_VERSION_STRING=" ++s version_string) ::
   (if in_git then ["cargo:rerun-if-changed=.git/HEAD"; "cargo:rerun-if-changed=.git/refs"; "cargo:rerun-if-changed=.git/packed-refs"]
    else []))%list.

Lemma append_nonempty_ne a b : b <> "" -> a ++s b <> a.
Proof. intros Hb E. apply Hb. clear Hb. induction a as [|c a IH]; [done|]. injection E as E. by apply IH. Qed.

(** The version is bare exactly outside a checkout and at the release tag; otherwise it
    carries the commit and the build time. *)
Theorem version_bare_iff_release :
  version_string = pkg_version <-> in_git = false \/ head_matches_release_tag = true.
Proof.
  unfold version_string. destruct in_git, head_matches_release_tag; cbn -[String.append]; try tauto.
  split; [intros E; exfalso; revert E; by apply append_nonempty_ne|intros [|]; done].
Qed.

(** In a checkout on a machine without [git] the version is not bare: it says that the
    commit is unknown. *)
Theorem version_without_git_binary :
  in_git = true -> (forall args, git args = None) ->
  version_string = pkg_version ++s " (sha unknown, built " ++s build_timestamp_utc ++s ")" /\ version_string <> pkg_version.
Proof.
  intros Hg Hn. rewrite version_bare_iff_release. unfold version_string, head_matches_release_tag, git_short_sha.
  rewrite Hg, !Hn. split; [done|]. intros [|]; done.
Qed.
End Version.

Example version_sample :
  emit_version_string "0.4.1" true
    (fun args => match args with
                 | "describe" :: _ => Some {| out_success := false; out_stdout := "" |}
                 | _ => Some {| out_success := true; out_stdout := "1a2b3c4
" |} end)%list tt tt (fun _ t => Some t) (fun _ => Some "2026-05-21T20:15:32Z") =
  ["cargo:rustc-env=RMR_VERSION_STRING=0.4.1 (sha 1a2b3c4, built 2026-05-21T20:15:32Z)"; "cargo:rerun-if-changed=.git/HEAD";
   "cargo:rerun-if-changed=.git/refs"; "cargo:rerun-if-changed=.git/packed-refs"]%list.
Proof. vm_compute. reflexivity. Qed.
