(* ===== verification/Socket.v ===== *)
(** * Socket options ([src/src/endpoint/socket.rs])

    A socket is its options; the operating system answers each call on it, possibly with an
    error. *)

From S2P Require Import Prelude RustStr RustNet.
#[local] Open Scope Z_scope.

Definition TCP_LISTEN_BACKLOG : Z := 1024.

(** [socket2::Domain] and [socket2::Type], with the protocol that goes with it. *)
Inductive Domain := IPV4 | IPV6.
Inductive SockType := DGRAM_UDP | STREAM_TCP.

(** The calls the source makes. *)
Inductive SockCall :=
| SocketNew (domain : Domain) (ty : SockType)
| SetReuseAddress (on : bool)
| SetOnlyV6 (on : bool)
| WSAIoctlConnReset (on : bool)
| SetNonblocking (on : bool)
| BindTo (addr : SocketAddr)
| Listen (backlog : Z)
| FromStd
| SetNodelay (on : bool)
| SetKeepalive (on : bool).

(** A socket's options; [None] is the system's default. *)
Record Socket := {
  so_domain : Domain;
  so_type : SockType;
  so_reuse_address : option bool;
  so_only_v6 : option bool;
  so_conn_reset : option bool;
  so_nonblocking : option bool;
  so_bound : option SocketAddr;
  so_backlog : option Z;
  so_nodelay : option bool;
  so_keepalive : option bool;
}.

Definition fresh_socket (domain : Domain) (ty : SockType) : Socket :=
  {| so_domain := domain; so_type := ty; so_reuse_address := None; so_only_v6 := None; so_conn_reset := None; so_nonblocking := None;
     so_bound := None; so_backlog := None; so_nodelay := None; so_keepalive := None |}.

(** What a call that succeeds changes. *)
Definition apply_call (c : SockCall) (s : Socket) : Socket :=
  let '(Build_Socket domain ty reuse v6 reset nonblocking bound backlog nodelay keepalive) := s in
  match c with
  | SocketNew _ _ | FromStd => s
  | SetReuseAddress on => Build_Socket domain ty (Some on) v6 reset nonblocking bound backlog nodelay keepalive
  | SetOnlyV6 on => Build_Socket domain ty reuse (Some on) reset nonblocking bound backlog nodelay keepalive
  | WSAIoctlConnReset on => Build_Socket domain ty reuse v6 (Some on) nonblocking bound backlog nodelay keepalive
  | SetNonblocking on => Build_Socket domain ty reuse v6 reset (Some on) bound backlog nodelay keepalive
  | BindTo addr => Build_Socket domain ty reuse v6 reset nonblocking (Some addr) backlog nodelay keepalive
  | Listen n => Build_Socket domain ty reuse v6 reset nonblocking bound (Some n) nodelay keepalive
  | SetNodelay on => Build_Socket domain ty reuse v6 reset nonblocking bound backlog (Some on) keepalive
  | SetKeepalive on => Build_Socket domain ty reuse v6 reset nonblocking bound backlog nodelay (Some on)
  end.

(** [v6.ip().is_unspecified()] of a v6 address *)
Definition unspecified_v6 (addr : SocketAddr) : bool :=
  match addr_ip addr with V6 segments => bool_decide (segments = [0; 0; 0; 0; 0; 0; 0; 0]) | V4 _ => false end.

Section Socket.
(** The system's answer to a call on a socket: an error, or [None]; and whether this is a
    Windows build. *)
Context (os : Socket -> SockCall -> option string) (windows : bool).

Definition sys_call (c : SockCall) (s : Socket) : result Socket string :=
  match os s c with Some err => Err err | None => Ok (apply_call c s) end.

(** [fn disable_udp_conn_reset(sock)]; not called, nor compiled, elsewhere. *)
Definition disable_udp_conn_reset (s : Socket) : result Socket string :=
  if windows then sys_call (WSAIoctlConnReset false) s else Ok s.

(** [pub fn bind_udp_dual_stack(addr) -> io::Result<UdpSocket>] *)
Definition bind_udp_dual_stack (addr : SocketAddr) : result Socket string :=
  let domain := match addr_ip addr with V4 _ => IPV4 | V6 _ => IPV6 end in
  let? sock := sys_call (SocketNew domain DGRAM_UDP) (fresh_socket domain DGRAM_UDP) in
  let? sock := sys_call (SetReuseAddress true) sock in
  let? sock := if unspecified_v6 addr then sys_call (SetOnlyV6 false) sock else Ok sock in
  let? sock := disable_udp_conn_reset sock in
  let? sock := sys_call (SetNonblocking true) sock in
  let? sock := sys_call (BindTo addr) sock in
  sys_call FromStd sock.

(** [pub fn bind_tcp_dual_stack(addr) -> io::Result<TcpListener>] *)
Definition bind_tcp_dual_stack (addr : SocketAddr) : result Socket string :=
  let domain := match addr_ip addr with V4 _ => IPV4 | V6 _ => IPV6 end in
  let? sock := sys_call (SocketNew domain STREAM_TCP) (fresh_socket domain STREAM_TCP) in
  let? sock := sys_call (SetReuseAddress true) sock in
  let? sock := if unspecified_v6 addr then sys_call (SetOnlyV6 false) sock else Ok sock in
  let? sock := sys_call (SetNonblocking true) sock in
  let? sock := sys_call (BindTo addr) sock in
  let? sock := sys_call (Listen TCP_LISTEN_BACKLOG) sock in
  sys_call FromStd sock.

(** [pub fn configure_tcp_stream(stream) -> io::Result<()>] *)
Definition configure_tcp_stream (stream : Socket) : result Socket string :=
  let? stream := sys_call (SetNodelay true) stream in
  sys_call (SetKeepalive true) stream.

(** ** The calls in order *)

Fixpoint run_calls (calls : list SockCall) (s : Socket) : result Socket string :=
  match calls with
  | [] => Ok s
  | c :: rest => let? s := sys_call c s in run_calls rest s
  end.

(** The socket after the calls of [pre] succeeded, each on what the ones before it left. *)
Inductive reached : list SockCall -> Socket -> Socket -> Prop :=
| reached_nil s : reached [] s s
| reached_call c pre s t : os s c = None -> reached pre (apply_call c s) t -> reached (c :: pre) s t.

Lemma run_calls_spec calls s :
  match run_calls calls s with
  | Ok t => reached calls s t
  | Err e => exists pre c post t, calls = pre ++ c :: post /\ reached pre s t /\ os t c = Some e
  end.
Proof.
  revert s; induction calls as [|c calls IH]; intros s; cbn [run_calls]; [constructor|]. unfold sys_call.
  destruct (os s c) as [e|] eqn:E; cbn.
  { exists [], c, calls, s. split_and!; [done|constructor|done]. }
  specialize (IH (apply_call c s)). destruct (run_calls calls (apply_call c s)) as [t|e]; [by constructor|].
  destruct IH as (pre & c' & post & t & -> & Hr & He). exists (c :: pre), c', post, t. split_and!; [done|by constructor|done].
Qed.

Lemma reached_fold pre s t : reached pre s t -> t = foldl (fun s c => apply_call c s) s pre.
Proof. induction 1; [done|]. simpl. done. Qed.

Definition domain_of (addr : SocketAddr) : Domain := match addr_ip addr with V4 _ => IPV4 | V6 _ => IPV6 end.
Definition dual_stack (addr : SocketAddr) : list SockCall := if unspecified_v6 addr then [SetOnlyV6 false] else [].

Definition udp_calls (addr : SocketAddr) : list SockCall :=
  [SocketNew (domain_of addr) DGRAM_UDP; SetReuseAddress true] ++ dual_stack addr ++
  (if windows then [WSAIoctlConnReset false] else []) ++ [SetNonblocking true; BindTo addr; FromStd].
Definition tcp_calls (addr : SocketAddr) : list SockCall :=
  [SocketNew (domain_of addr) STREAM_TCP; SetReuseAddress true] ++ dual_stack addr ++
  [SetNonblocking true; BindTo addr; Listen TCP_LISTEN_BACKLOG; FromStd].

Lemma run_calls_last c s : run_calls [c] s = sys_call c s.
Proof. cbn [run_calls]. by destruct (sys_call c s). Qed.

Lemma bind_calls addr :
  bind_udp_dual_stack addr = run_calls (udp_calls addr) (fresh_socket (domain_of addr) DGRAM_UDP) /\
  bind_tcp_dual_stack addr = run_calls (tcp_calls addr) (fresh_socket (domain_of addr) STREAM_TCP).
Proof.
  unfold bind_udp_dual_stack, bind_tcp_dual_stack, udp_calls, tcp_calls, disable_udp_conn_reset, dual_stack, domain_of.
  destruct (unspecified_v6 addr), windows; cbn [app run_calls]; split;
    repeat match goal with |- context [sys_call ?c ?s] => destruct (sys_call c s); cbn; try done end.
Qed.

(** The socket that results. *)
Definition bound_socket (ty : SockType) (addr : SocketAddr) : Socket :=
  {| so_domain := domain_of addr; so_type := ty; so_reuse_address := Some true;
     so_only_v6 := if unspecified_v6 addr then Some false else None;
     so_conn_reset := match ty with DGRAM_UDP => if windows then Some false else None | STREAM_TCP => None end;
     so_nonblocking := Some true; so_bound := Some addr;
     so_backlog := match ty with DGRAM_UDP => None | STREAM_TCP => Some TCP_LISTEN_BACKLOG end;
     so_nodelay := None; so_keepalive := None |}.

(** Listening sockets.  Binding makes its system calls in a fixed order and stops at the
    first that fails, whose error it returns; so [bind] is reached only with the options set.
    When all succeed the socket is bound to the address, non-blocking, with [SO_REUSEADDR],
    dual-stack exactly when the address is [[::]] (otherwise the system's default is left
    alone), and a TCP socket listens with the fixed backlog. *)
Theorem bind_applies_options addr :
  (forall t, bind_udp_dual_stack addr = Ok t -> t = bound_socket DGRAM_UDP addr /\ reached (udp_calls addr) (fresh_socket (domain_of addr) DGRAM_UDP) t) /\
  (forall e, bind_udp_dual_stack addr = Err e -> exists pre c post t, udp_calls addr = pre ++ c :: post /\
     reached pre (fresh_socket (domain_of addr) DGRAM_UDP) t /\ os t c = Some e) /\
  (forall t, bind_tcp_dual_stack addr = Ok t -> t = bound_socket STREAM_TCP addr /\ reached (tcp_calls addr) (fresh_socket (domain_of addr) STREAM_TCP) t) /\
  (forall e, bind_tcp_dual_stack addr = Err e -> exists pre c post t, tcp_calls addr = pre ++ c :: post /\
     reached pre (fresh_socket (domain_of addr) STREAM_TCP) t /\ os t c = Some e).
Proof.
  destruct (bind_calls addr) as [-> ->].
  pose proof (run_calls_spec (udp_calls addr) (fresh_socket (domain_of addr) DGRAM_UDP)) as Hu.
  pose proof (run_calls_spec (tcp_calls addr) (fresh_socket (domain_of addr) STREAM_TCP)) as Ht.
  split_and!; intros x Hx; rewrite Hx in *; try done; (split; [|done]).
  - rewrite (reached_fold _ _ _ Hu). unfold udp_calls, dual_stack, bound_socket. by destruct (unspecified_v6 addr), windows.
  - rewrite (reached_fold _ _ _ Ht). unfold tcp_calls, dual_stack, bound_socket. by destruct (unspecified_v6 addr).
Qed.

(** A stream gets [TCP_NODELAY] and [SO_KEEPALIVE], and nothing else changes. *)
Lemma configured_stream s t : configure_tcp_stream s = Ok t -> t = apply_call (SetKeepalive true) (apply_call (SetNodelay true) s).
Proof. unfold configure_tcp_stream, sys_call. destruct (os s _); [done|]. cbn. destruct (os _ _); [done|]. by intros [= <-]. Qed.
End Socket.

Example bind_dual_stack_sample :
  bind_tcp_dual_stack (fun _ _ => None) (SocketAddr_new (V6 [0; 0; 0; 0; 0; 0; 0; 0]) 5760) =
  Ok (bound_socket false STREAM_TCP (SocketAddr_new (V6 [0; 0; 0; 0; 0; 0; 0; 0]) 5760)).
Proof. reflexivity. Qed.

(** A system that refuses to bind. *)
Example bind_refused_sample :
  bind_udp_dual_stack (fun _ c => match c with BindTo _ => Some "address in use"%string | _ => None end) true
    (SocketAddr_new (V4 [127; 0; 0; 1]) 14550) = Err "address in use"%string.
Proof. reflexivity. Qed.
