(* ===== verification/Program.v ===== *)
(** * The program ([src/src/lib.rs], [src/src/main.rs])

    [main] resolves the configuration and installs logging; [run] sizes the channels,
    starts the router, the stats task and the endpoint tasks, and stops them when the token
    is cancelled.  [clap], the file system, the [toml] crate and [tokio]'s channels are
    parameters. *)

From S2P Require Import Prelude RustStr RustNet Filters EndpointStats TxQueue Identity Router FilterParse Spec SpecProps Session Endpoint UdpServer Spawn StatsTask Config ConfigProps Shutdown Log ErrorText Display.
#[local] Open Scope string_scope.
#[local] Open Scope Z_scope.

Definition INGRESS_QUEUE_FRAMES : Z := 1024.

(** [struct RouterWiring]: the capacities stand for the channels' ends. *)
Record RouterWiring := {
  rw_frame_rx : Z;
  rw_event_rx : Z;
  rw_stats_event_tx : Z;
  rw_dedup_ms : Z;
  rw_dedup_window_capacity : nat;
}.

(** The futures in [run]'s [JoinSet]. *)
Inductive ProgramTask :=
| RouterTask (wiring : RouterWiring)
| StatsTaskRun (stats_event_rx : Z) (cfg : StatsRunConfig)
| EndpointTask (task : Task).

(** [fn spawn_router(tasks, wiring)] *)
Definition spawn_router (tasks : list ProgramTask) (wiring : RouterWiring) : list ProgramTask :=
  (tasks ++ [RouterTask wiring])%list.

(** [fn spawn_stats(tasks, stats_event_rx, cancel, cfg)] *)
Definition spawn_stats (tasks : list ProgramTask) (stats_event_rx : Z) (cfg : StatsRunConfig) : list ProgramTask :=
  (tasks ++ [StatsTaskRun stats_event_rx cfg])%list.

(** [router::run(wiring)]: the router it starts with, given its stats sender. *)
Definition router_run_start {C} (stats_event_tx : C) (wiring : RouterWiring) : Router C :=
  Router_new stats_event_tx (rw_dedup_ms wiring) (rw_dedup_window_capacity wiring).

(** [usize] multiplication: an overflow panics in a debug build and wraps otherwise. *)
Definition usize_mul (debug_assertions : bool) (a b : Z) : outcome Z :=
  if u64_max <? a * b then (if debug_assertions then Panicked else Done (wrap 64 (a * b))) else Done (a * b).

(** One line of [warn_on_groups_without_dedup]. *)
Definition group_warning (p : string * nat) : Event :=
  {| ev_level := WARN;
     ev_message := "group shares a learn-set but --dedup-ms=0; if its members deliver duplicate uplink frames, set --dedup-ms (e.g. 100) to suppress them";
     ev_fields := [("group", p.1); ("members", show_uint (Z.of_nat p.2))]%list |}.

(** What is up after [run]'s start-up. *)
Record Started (Q CE : Type) := {
  su_tasks : list ProgramTask;
  su_shared : Shared Q CE;
  su_event_q_cap : Z;
  su_events : list Event;
}.
Arguments su_tasks {Q CE}.
Arguments su_shared {Q CE}.
Arguments su_event_q_cap {Q CE}.
Arguments su_events {Q CE}.

(** How [run] ended: when it returned, if it did, and how its shutdown went. *)
Record RunEnd := { re_returned : moment; re_shutdown : option shutdown_end; re_events : list Event }.

Section Program.
Context {Q : Type} `{ArrayQueue Q} {CE : Type} `{Sender EndpointEvent CE}.
(** [mpsc::channel(capacity)]: whether it panics, and the event channel's sender. *)
Context (channel_panics : Z -> bool) (event_channel : Z -> CE).
Context (group_iter : gmap string nat -> list (string * nat)) (debug_assertions : bool).
(** What the tasks that are up do while start-up goes on ([spawn_loop]). *)
Context (others : nat -> Shared Q CE -> Shared Q CE).

Definition mpsc_channel (capacity : Z) : outcome Z := if channel_panics capacity then Panicked else Done capacity.

(** [fn warn_on_groups_without_dedup(specs, dedup_ms)] *)
Definition warn_on_groups_without_dedup (specs : list EndpointSpec) (dedup_ms : Z) : list Event :=
  map group_warning (groups_needing_dedup_warning group_iter specs dedup_ms).

(** [pub async fn run(cfg, token)], up to the wait on the token. *)
Definition run_startup (cfg : Config) (w : World Q) : outcome (Started Q CE) :=
  let log_config := if negb (cf_skip_config_log cfg) then [log_resolved cfg] else []%list in
  let specs := cf_endpoints cfg in
  let endpoint_count := length specs in
  let warnings := warn_on_groups_without_dedup specs (cf_dedup_ms cfg) in
  let registry_estimate := estimate_registry_size specs in
  let! event_q_cap := usize_mul debug_assertions registry_estimate 2 in
  let event_q_cap := Z.max event_q_cap 64 in
  let! stats_q_cap := usize_mul debug_assertions registry_estimate 2 in
  let stats_q_cap := Z.max stats_q_cap 64 in
  let! frame_rx := mpsc_channel INGRESS_QUEUE_FRAMES in
  let! event_rx := mpsc_channel event_q_cap in
  let! stats_event := mpsc_channel stats_q_cap in
  let tasks := []%list in
  let tasks := spawn_router tasks
    {| rw_frame_rx := frame_rx; rw_event_rx := event_rx; rw_stats_event_tx := stats_event; rw_dedup_ms := cf_dedup_ms cfg;
       rw_dedup_window_capacity := DEFAULT_DEDUP_WINDOW_CAPACITY |} in
  let tasks := spawn_stats tasks stats_event
    {| cfg_enabled := cf_stats cfg; cfg_interval := from_secs (cf_stats_interval_secs cfg);
       cfg_queue_capacity := DEFAULT_STATS_QUEUE_LINES |} in
  let '(endpoint_tasks, shared) := spawn_endpoints others specs []%list (event_channel event_q_cap) w in
  let started :=
    {| ev_level := INFO; ev_message := "rmr started"; ev_fields := [("endpoint_count", show_uint (Z.of_nat endpoint_count))]%list |} in
  Done {| su_tasks := (tasks ++ map EndpointTask endpoint_tasks)%list; su_shared := shared; su_event_q_cap := event_q_cap;
          su_events := (log_config ++ warnings ++ [started])%list |}.

Definition info_event (message : string) : Event := {| ev_level := INFO; ev_message := message; ev_fields := []%list |}.

(** [pub async fn run(cfg, token)].  The token is cancelled at [cancelled], perhaps before
    start-up, which waits for the router to make room for its announcements, is done at
    [ready]; [reacts] says how each task behaves once [shutdown] is called, and the lags are
    those of its timers.  [run] has no other way to return than [Ok(())]. *)
Definition run (cfg : Config) (w : World Q) (ready : Z) (cancelled : moment) (reacts : ProgramTask -> JoinTask) (lag abort_lag : Z) : outcome RunEnd :=
  let! st := run_startup cfg w in
  match cancelled with
  | None => Done {| re_returned := None; re_shutdown := None; re_events := su_events st |}
  | Some at_time =>
      let '(how, elapsed, _) := shutdown (map reacts (su_tasks st)) SHUTDOWN_GRACE lag abort_lag in
      Done {| re_returned := Some (Z.max at_time ready + elapsed); re_shutdown := Some how;
              re_events := (su_events st ++ [info_event "shutdown signal received"; info_event "rmr stopped"])%list |}
  end.

(** ** [main] *)

Context (levenshtein : string -> string -> nat).
Context (toml_from_str : string -> result TomlFile string) (read_to_string : string -> result string string).

Definition NO_ENDPOINT_MESSAGE : string :=
"error: no endpoint specified

Usage:
  rmr [GLOBAL OPTS] ENDPOINT [ENDPOINT ...]    # one or more endpoints on the CLI
  rmr -c rmr.toml                              # or load them from a TOML config

Minimal example (serial flight controller forwarded to a GCS over UDP):
  rmr serial:/dev/ttyUSB0:115200#fc udpc:192.168.1.5:14550#gcs

Run `rmr --help` for the endpoint grammar and per-scheme query keys.
Tip: pass --dry-run to validate a setup without binding sockets.
".

(** The warning for an overridden TOML endpoint. *)
Definition override_warning (name : string) : Event :=
  {| ev_level := WARN;
     ev_message := "CLI endpoint overrides TOML endpoint of the same name (TOML entry discarded entirely)";
     ev_fields := [("endpoint", name)]%list |}.

(** What [main] has decided when it comes to [run]: it failed with a line on stderr, it
    showed the configuration, or it runs it.  [events] is what went to the subscriber. *)
Inductive Prepared :=
| ExitFailure (stderr : string)
| DryRun (sub : Subscriber) (events : list Event)
| RunConfig (cfg : Config) (sub : Subscriber) (events : list Event).

(** [async fn main()], up to [run]. *)
Definition prepare (cli : Cli) : Prepared :=
  let failed err := ExitFailure ("error: " ++s Error_to_string err) in
  match (match cli_config cli with
         | Some path => match TomlConfig_from_path levenshtein toml_from_str read_to_string path with Ok toml => Ok (Some toml) | Err err => Err err end
         | None => Ok None
         end) with
  | Err err => failed err
  | Ok toml =>
      let dry_run := cli_dry_run cli in
      match into_cli_config levenshtein cli with
      | Err err => failed err
      | Ok cli_cfg =>
          match Config_merge toml cli_cfg with
          | Err err => failed err
          | Ok outcome =>
              let cfg := mo_config outcome in
              let overrides := mo_overridden_names outcome in
              if negb dry_run && bool_decide (length (cf_endpoints cfg) = 0%nat) then ExitFailure NO_ENDPOINT_MESSAGE
              else
                let sub := init_tracing (cf_log_level cfg) (cf_log_format cfg) in
                let warnings := map override_warning overrides in
                if dry_run then DryRun sub (warnings ++ [log_resolved cfg])%list else RunConfig cfg sub warnings
          end
      end
  end.

Inductive ExitCode := SUCCESS | FAILURE.

(** What one run of the process leaves: when it exits and with which code (it may never
    exit), the line it prints itself, and the log lines of its subscriber. *)
Record ProcessEnd := { pe_exit : option (Z * ExitCode); pe_stderr : option string; pe_log : list Event }.

(** [async fn main() -> ExitCode], started at moment 0. *)
Definition main (cli : Cli) (w : World Q) (ready : Z) (ctrl_c : source) (terminate : Terminate) (reacts : ProgramTask -> JoinTask) (lag abort_lag : Z)
    : outcome ProcessEnd :=
  match prepare cli with
  | ExitFailure stderr => Done {| pe_exit := Some (0, FAILURE); pe_stderr := Some stderr; pe_log := []%list |}
  | DryRun sub events => Done {| pe_exit := Some (0, SUCCESS); pe_stderr := None; pe_log := written sub events |}
  | RunConfig cfg sub events =>
      let cancelled := watch_for_shutdown_signal ctrl_c terminate None in
      let! e := run cfg w ready cancelled reacts lag abort_lag in
      Done {| pe_exit := (fun at_time => (at_time, SUCCESS)) <$> re_returned e; pe_stderr := None;
              pe_log := written sub (events ++ re_events e)%list |}
  end.
End Program.
