(* ===== verification/ProgramProps.v ===== *)
(** * What the program guarantees as a whole

    [main] runs only valid configurations, start-up announces and starts every endpoint that
    the router takes, without panicking, and a signal stops the program in bounded time. *)

From Stdlib Require Import Ascii.
From S2P Require Import Prelude RustStr RustNet Filters EndpointStats TxQueue Identity Router RouterExamples FilterParse Spec SpecProps Session Endpoint UdpServer Spawn StatsTask Config ConfigProps Shutdown Log ErrorText Display Program.
#[local] Open Scope string_scope.
#[local] Open Scope Z_scope.

(** ** Signals *)

Lemma first_of_le a b t : first_of a b = Some t -> (a = Some t \/ b = Some t) /\ (forall x, a = Some x -> t <= x) /\ (forall x, b = Some x -> t <= x).
Proof.
  destruct a as [x|], b as [y|]; simpl; intros [= <-]; (split; [|split; intros ? [= <-]; lia || done]).
  - destruct (Z.min_spec x y) as [[_ ->]|[_ ->]]; auto.
  - by left.
  - by right.
Qed.

(** Every signal whose handler could be installed, with the moment it arrives. *)
Definition signal_moments (ctrl_c : source) (t : Terminate) : list moment :=
  wait_source ctrl_c ::
  match t with
  | TerminateUnix sigterm => [wait_source sigterm]
  | TerminateWindows a b c => [wait_source a; wait_source b; wait_source c]
  | TerminateOther => []
  end%list.

(** The token is cancelled by the first of the signals and whoever else cancels it: never
    later than any of them, and only if one of them comes. *)
Theorem first_signal_cancels ctrl_c t token :
  match watch_for_shutdown_signal ctrl_c t token with
  | Some at_time => Some at_time ∈ token :: signal_moments ctrl_c t /\
      forall x, Some x ∈ token :: signal_moments ctrl_c t -> at_time <= x
  | None => Forall (fun m => m = None) (token :: signal_moments ctrl_c t)
  end.
Proof.
  assert (Hw : watch_for_shutdown_signal ctrl_c t token = first_of token (foldr first_of None (signal_moments ctrl_c t))).
  { unfold watch_for_shutdown_signal, signal_moments, wait_for_terminate, wait_for_terminate_unix, wait_for_terminate_windows, wait_for_terminate_other.
    assert (Hn : forall m, first_of m None = m) by by intros [].
    destruct t; cbn [foldr]; rewrite ?Hn; destruct token as [c|]; cbn [first_of]; try done;
      match goal with |- context [match ?m with Some s => _ | None => _ end] => destruct m as [x|] end; try done;
      destruct (Z.ltb_spec c x); f_equal; lia. }
  rewrite Hw. generalize (signal_moments ctrl_c t). intros ms. change (first_of token (foldr first_of None ms)) with (foldr first_of None (token :: ms)).
  induction (token :: ms)%list as [|m l IH]; cbn [foldr]; [done|].
  destruct (first_of m (foldr first_of None l)) as [x|] eqn:E.
  - apply first_of_le in E as (Hor & Hm & Hl). destruct (foldr first_of None l) as [y|].
    + destruct IH as [IHin IHle]. specialize (Hl y eq_refl). split.
      * destruct Hor as [->|[= ->]]; [by left|by right].
      * intros z [Hz|Hz]%elem_of_cons; [by apply Hm|]. specialize (IHle z Hz). lia.
    + destruct Hor as [->|]; [|done]. split; [by left|]. rewrite Forall_forall in IH.
      intros z [Hz|Hz]%elem_of_cons; [by apply Hm|]. by specialize (IH _ Hz).
  - destruct m as [x|]; [by destruct (foldr first_of None l)|]. cbn [first_of] in E. rewrite E in IH. by constructor.
Qed.

(** ** Configurations that run *)

Definition spec_wf (s : EndpointSpec) : Prop := name_matches_regex (spec_name s) = true /\ kind_wf (spec_kind s).

Lemma parse_specs_spec lev i raw :
  match parse_specs_from lev i raw with
  | Ok specs => Forall2 (fun text spec => EndpointSpec_parse lev text = Ok spec) raw specs
  | Err e => exists good text rest source, raw = (good ++ text :: rest)%list /\
      Forall (fun g => exists spec, EndpointSpec_parse lev g = Ok spec) good /\
      EndpointSpec_parse lev text = Err source /\ e = SpecInArg (i + length good) text source
  end.
Proof.
  revert i; induction raw as [|text raw IH]; intros i; cbn [parse_specs_from]; [constructor|].
  destruct (EndpointSpec_parse lev text) as [spec|source] eqn:E.
  - specialize (IH (S i)). destruct (parse_specs_from lev (S i) raw) as [specs|e]; [by constructor|].
    destruct IH as (good & bad & rest & source & -> & Hg & Hb & ->). exists (text :: good)%list, bad, rest, source.
    split_and!; [done|constructor; eauto|done|]. simpl. by rewrite Nat.add_succ_r.
  - exists []%list, text, raw, source. split_and!; [done|constructor|done|]. simpl. by rewrite Nat.add_0_r.
Qed.

Lemma into_cli_config_wf lev cli cfg : into_cli_config lev cli = Ok cfg -> Forall spec_wf (sc_endpoints cfg).
Proof.
  unfold into_cli_config, parse_specs. pose proof (parse_specs_spec lev 0 (cli_endpoints cli)) as Hp.
  destruct (parse_specs_from lev 0 (cli_endpoints cli)) as [specs|]; [|done]. intros [= <-]. simpl.
  induction Hp as [|text spec raw specs Hs _ IH]; constructor; [|done]. apply EndpointSpec_parse_wf in Hs as (? & ? & _). by split.
Qed.

Lemma into_specs_wf lev entries specs : into_specs lev entries = Ok specs -> Forall spec_wf specs.
Proof.
  revert specs; induction entries as [|[name [entry|]] entries IH]; intros specs; cbn [into_specs]; [by intros [= <-]| |done].
  cbn. destruct (into_spec lev entry name) as [spec|] eqn:E; [|done]. destruct (into_specs lev entries) as [rest|]; [|done].
  intros [= <-]. constructor; [|by apply IH]. revert E. unfold into_spec.
  destruct (scheme_from_toml_type _ _) as [scheme|]; [|done]. destruct (reject_disallowed_fields _ _ _); [|done].
  destruct (synthesize_body _ _ _) as [body|]; [|done].
  destruct (EndpointSpec_build _ _ _ _ _) as [sp|] eqn:Eb; [|done]. intros [= <-]. apply build_wf in Eb as (? & ? & _). by split.
Qed.

Lemma from_path_wf lev tfs rts path toml : TomlConfig_from_path lev tfs rts path = Ok toml -> Forall spec_wf (sc_endpoints toml).
Proof.
  unfold TomlConfig_from_path, TomlConfig_parse_str, into_toml_config. destruct (rts path) as [raw|]; [|done].
  cbn. destruct (tfs raw) as [file|]; [|done]. cbn.
  destruct (into_specs lev (tf_endpoint file)) as [specs|] eqn:Es; [|done]. intros [= <-]. by eapply into_specs_wf.
Qed.

Lemma merged_wf t cli : Forall spec_wf (sc_endpoints t) -> Forall spec_wf (sc_endpoints cli) -> Forall spec_wf (merged_endpoints t cli).
Proof.
  intros Ht Hc. apply Forall_app. split; [|done]. rewrite Forall_forall in *. intros x Hx. apply Ht.
  rewrite list_elem_of_In, List.filter_In in Hx. apply list_elem_of_In. tauto.
Qed.

(** The operator learns which argument is wrong.  The CLI's endpoints are accepted when
    every argument parses, in order; otherwise the message names the first argument that
    does not parse, counting from one, its text and the reason. *)
Theorem cli_error_names_first_bad_arg lev raw :
  match parse_specs lev raw with
  | Ok specs => Forall2 (fun text spec => EndpointSpec_parse lev text = Ok spec) raw specs
  | Err e => exists good text rest source, raw = (good ++ text :: rest)%list /\
      Forall (fun g => exists spec, EndpointSpec_parse lev g = Ok spec) good /\
      EndpointSpec_parse lev text = Err source /\
      Error_to_string e = "invalid endpoint #" ++s show_uint (Z.of_nat (length good) + 1) ++s " '" ++s text ++s "': "
        ++s SpecError_to_string source
  end.
Proof.
  pose proof (parse_specs_spec lev 0 raw) as Hp. unfold parse_specs. destruct (parse_specs_from lev 0 raw); [done|].
  destruct Hp as (good & text & rest & source & ? & ? & ? & ->). by exists good, text, rest, source.
Qed.

Section Prepare.
Context (lev : string -> string -> nat) (tfs : string -> result TomlFile string) (rts : string -> result string string).

Lemma prepare_spec cli :
  match prepare lev tfs rts cli with
  | RunConfig cfg sub events =>
      cli_dry_run cli = false /\ cf_endpoints cfg <> []%list /\ config_valid cfg /\ Forall spec_wf (cf_endpoints cfg) /\
      sub = init_tracing (cf_log_level cfg) (cf_log_format cfg) /\
      exists names, events = map override_warning names
  | DryRun sub events =>
      cli_dry_run cli = true /\
      exists cfg names, config_valid cfg /\ Forall spec_wf (cf_endpoints cfg) /\
        sub = init_tracing (cf_log_level cfg) (cf_log_format cfg) /\
        events = (map override_warning names ++ [log_resolved cfg])%list
  | ExitFailure text =>
      (cli_dry_run cli = false /\ text = NO_ENDPOINT_MESSAGE) \/ exists err, text = "error: " ++s Error_to_string err
  end.
Proof.
  unfold prepare.
  match goal with |- context [match ?l with Ok toml => _ | Err err => ExitFailure _ end] => destruct l as [toml|err] eqn:El end; [|eauto].
  assert (Ht : Forall spec_wf (sc_endpoints (default SourceConfig_default toml))).
  { destruct (cli_config cli) as [path|]; [|injection El as <-; constructor].
    destruct (TomlConfig_from_path lev tfs rts path) eqn:Ep; [|done]. injection El as <-. by eapply from_path_wf. }
  destruct (into_cli_config lev cli) as [cli_cfg|err] eqn:Ec; [|eauto]. apply into_cli_config_wf in Ec.
  pose proof (Config_merge_spec toml cli_cfg) as Hm. cbv zeta in Hm.
  destruct (Config_merge toml cli_cfg) as [out|err]; [|eauto]. destruct Hm as (_ & Hv & Hcfg & _).
  rewrite Hcfg. pose proof (merged_wf _ _ Ht Ec) as Hwf.
  set (cfg := merged_config (default SourceConfig_default toml) cli_cfg) in *.
  destruct (cli_dry_run cli) eqn:Ed; cbn [negb andb].
  - split; [done|]. exists cfg, (mo_overridden_names out). by split_and!.
  - case_bool_decide as Hl; [left; done|]. split_and!; [done| |done|done|done|eauto]. intros Hn. by rewrite Hn in Hl.
Qed.
(** C30. The program runs only what it has checked.  [main] gets to [run] only with a
    configuration that has an endpoint, whose names are grammatical and distinct, whose
    endpoints are well formed with every filter reference declared, whose [dedup_ms] and stats
    interval are in range, and never with [--dry-run]; [--dry-run] ends, after the override
    warnings, with the line that shows a configuration equally checked; everything else is
    one message on stderr. *)
Theorem main_runs_only_checked_configs cli :
  match prepare lev tfs rts cli with
  | RunConfig cfg sub events =>
      cli_dry_run cli = false /\ cf_endpoints cfg <> []%list /\ config_valid cfg /\ Forall spec_wf (cf_endpoints cfg) /\
      sub = init_tracing (cf_log_level cfg) (cf_log_format cfg) /\
      exists names, events = map override_warning names
  | DryRun sub events =>
      cli_dry_run cli = true /\
      exists cfg names, config_valid cfg /\ Forall spec_wf (cf_endpoints cfg) /\
        sub = init_tracing (cf_log_level cfg) (cf_log_format cfg) /\
        events = (map override_warning names ++ [log_resolved cfg])%list
  | ExitFailure text =>
      (cli_dry_run cli = false /\ text = NO_ENDPOINT_MESSAGE) \/ exists err, text = "error: " ++s Error_to_string err
  end.
Proof. apply prepare_spec. Qed.
End Prepare.

(** With a log level above info, [--dry-run] shows nothing of the configuration: only the
    override warnings can pass the subscriber. *)
Theorem dry_run_silent_above_info lev tfs rts cli sub events :
  prepare lev tfs rts cli = DryRun sub events -> severity INFO < severity (sub_max_level sub) ->
  Forall (fun e => exists name, e = override_warning name) (written sub events).
Proof.
  intros Hp Hs. pose proof (prepare_spec lev tfs rts cli) as Hspec. rewrite Hp in Hspec.
  destruct Hspec as (_ & cfg & names & _ & _ & _ & ->).
  unfold written. rewrite List.filter_app. apply Forall_app. split.
  - apply Forall_forall. intros e He. rewrite list_elem_of_In, List.filter_In in He. destruct He as [He _].
    apply in_map_iff in He as (n & <- & _). eauto.
  - cbn -[severity]. destruct (Z.leb_spec (severity (sub_max_level sub)) (severity INFO)); [lia|constructor].
Qed.

(** ** Start-up and stop *)

Lemma estimate_bounds specs count :
  0 <= count -> count + 256 * Z.of_nat (length specs) < 2 ^ 64 ->
  count <= estimate_loop specs count <= count + 256 * Z.of_nat (length specs).
Proof.
  revert count; induction specs as [|s specs IH]; intros count H0 Hb; cbn [estimate_loop length] in *; [lia|].
  destruct (spec_kind s); rewrite ?sat_add_small by (unfold DEFAULT_PEER_CAPACITY, DEFAULT_TCPS_PEER_BUDGET; lia);
    match goal with |- context [estimate_loop specs ?c] => specialize (IH c) end;
    unfold DEFAULT_PEER_CAPACITY, DEFAULT_TCPS_PEER_BUDGET in *; lia.
Qed.

Lemma last_moment_nonneg l t : last_moment l = Some t -> 0 <= t.
Proof.
  revert t; induction l as [|[x|] l IH]; intros t; cbn [last_moment]; [intros [= <-]; lia| |done].
  destruct (last_moment l) as [u|]; [|done]. intros [= <-]. specialize (IH u eq_refl). lia.
Qed.

(** The latest [shutdown] returns. *)
Definition stop_bound (lag abort_lag : Z) : Z := Z.max SHUTDOWN_GRACE (PER_TASK_DRAIN + lag) + abort_lag.

Lemma shutdown_time tasks lag abort_lag : 0 <= lag -> 0 <= abort_lag ->
  let '(_, elapsed, _) := shutdown tasks SHUTDOWN_GRACE lag abort_lag in 0 <= elapsed <= stop_bound lag abort_lag.
Proof.
  intros Hl Hl'. unfold stop_bound, shutdown. assert (Hb : Z.min PER_TASK_DRAIN SHUTDOWN_GRACE = PER_TASK_DRAIN) by done. rewrite Hb.
  assert (0 < PER_TASK_DRAIN) by done. assert (0 < SHUTDOWN_GRACE) by done.
  assert (Hs : PER_TASK_DRAIN + lag + sat_sub SHUTDOWN_GRACE (PER_TASK_DRAIN + lag) = Z.max SHUTDOWN_GRACE (PER_TASK_DRAIN + lag))
    by (unfold sat_sub; lia).
  destruct tasks as [|t0 tasks]; [lia|]. set (ts := (t0 :: tasks)%list).
  destruct (last_moment (map jt_returns ts)) as [t|] eqn:E; [apply last_moment_nonneg in E; destruct (Z.leb_spec t (PER_TASK_DRAIN + lag)); [lia|]|];
    (destruct (last_moment (map (gone_after_abort _) _)) as [u|]; [destruct (Z.leb_spec u (PER_TASK_DRAIN + lag + sat_sub SHUTDOWN_GRACE (PER_TASK_DRAIN + lag) + abort_lag))|]; lia).
Qed.

Section Run.
Context {Q : Type} `{ArrayQueue Q} {CE : Type} `{SenderLaws EndpointEvent CE}.
Context (channel_panics : Z -> bool) (event_channel : Z -> CE).
Context (group_iter : gmap string nat -> list (string * nat)) (debug_assertions : bool).
Context (others : nat -> Shared Q CE -> Shared Q CE) (alive : CE -> bool) (up : nat -> bool).
(** [tokio]'s channels: a capacity from 1 to [Semaphore::MAX_PERMITS] is accepted, and a send
    succeeds exactly while the receiver is there.  The tasks that are up send events too, and
    the router may go at any time: [up i] says whether it is there when the endpoint with [i]
    others after it is spawned. *)
Hypothesis channel_ok : forall c, 0 < c <= 2 ^ 61 - 1 -> channel_panics c = false.
Hypothesis send_answers : forall (c : CE) (x : EndpointEvent), (send c x).1 = alive c.
Hypothesis others_send : forall i sh, sent (sh_event_tx sh) `prefix_of` sent (sh_event_tx (others i sh)).
Hypothesis others_up : forall i sh, alive (sh_event_tx (others i sh)) = up i.
Abbreviation run_startup := (run_startup channel_panics event_channel group_iter debug_assertions others).
Abbreviation run := (run channel_panics event_channel group_iter debug_assertions others).

(** What start-up leaves: the tasks, and the announcements among the events sent to the
    router, whose queue has room for two per configured endpoint. *)
Definition started_right (cfg : Config) (st : Started Q CE) : Prop :=
  exists wiring stats_rx scfg endpoint_tasks events,
    su_tasks st = (RouterTask wiring :: StatsTaskRun stats_rx scfg :: map EndpointTask endpoint_tasks)%list /\
    rw_dedup_ms wiring = cf_dedup_ms cfg /\ cfg_enabled scfg = cf_stats cfg /\
    cfg_interval scfg = from_secs (cf_stats_interval_secs cfg) /\ (0 < cfg_queue_capacity scfg)%nat /\
    spawned_in_order up (cf_endpoints cfg) endpoint_tasks events /\ events `sublist_of` sent (sh_event_tx (su_shared st)) /\
    ((forall i, up i = true) -> length endpoint_tasks = length (cf_endpoints cfg)) /\
    2 * Z.of_nat (length (cf_endpoints cfg)) <= su_event_q_cap st /\ rw_event_rx wiring = su_event_q_cap st.

Lemma run_startup_spec cfg (w : World Q) :
  Z.of_nat (length (cf_endpoints cfg)) <= 2 ^ 40 -> exists st, run_startup cfg w = Done st /\ started_right cfg st.
Proof.
  intros Hn. pose proof (estimate_bounds (cf_endpoints cfg) (Z.of_nat (length (cf_endpoints cfg)))) as He.
  specialize (He ltac:(lia) ltac:(lia)). change (estimate_loop _ _) with (estimate_registry_size (cf_endpoints cfg)) in He.
  unfold run_startup, Program.run_startup, usize_mul, mpsc_channel. set (n := estimate_registry_size (cf_endpoints cfg)) in *.
  rewrite (proj2 (Z.ltb_ge u64_max (n * 2))) by (unfold u64_max; lia). cbv zeta.
  rewrite !channel_ok by (unfold INGRESS_QUEUE_FRAMES; lia).
  pose proof (spawn_endpoints_announces others alive up send_answers others_send others_up (cf_endpoints cfg) (event_channel (Z.max (n * 2) 64)) w) as Hs.
  destruct (spawn_endpoints others (cf_endpoints cfg) [] _ w) as [ets sh]. destruct Hs as (events & Hl & Hsub). eexists. split; [done|].
  eexists _, _, _, ets, events. cbn -[Z.max Z.mul]. split_and!; try done; [cbn; unfold DEFAULT_STATS_QUEUE_LINES; lia|intros Hup; by eapply spawned_all|lia].
Qed.

Lemma run_returns cfg (w : World Q) ready cancelled reacts lag abort_lag :
  Z.of_nat (length (cf_endpoints cfg)) <= 2 ^ 40 -> 0 <= lag -> 0 <= abort_lag ->
  exists e, run cfg w ready cancelled reacts lag abort_lag = Done e /\
    match cancelled with
    | None => re_returned e = None
    | Some t => exists u, re_returned e = Some u /\ Z.max t ready <= u <= Z.max t ready + stop_bound lag abort_lag
    end.
Proof.
  intros Hn Hl Hl'. destruct (run_startup_spec cfg w Hn) as (st & Hst & _). unfold run, Program.run. fold run_startup. rewrite Hst.
  pose proof (shutdown_time (map reacts (su_tasks st)) lag abort_lag Hl Hl') as Ht.
  destruct (shutdown (map reacts (su_tasks st)) SHUTDOWN_GRACE lag abort_lag) as [[how elapsed] aborted].
  destruct cancelled as [t|]; (eexists; split; [done|]); [|done]. eexists. split; [done|]. lia.
Qed.

Lemma stats_timer_starts cfg (st : Started Q CE) rx scfg instant_max now :
  started_right cfg st -> MIN_STATS_INTERVAL_SECS <= cf_stats_interval_secs cfg ->
  StatsTaskRun rx scfg ∈ su_tasks st -> now + cfg_interval scfg <= instant_max ->
  exists timer, stats_interval instant_max now scfg = Done timer.
Proof.
  intros (wiring & srx & scfg0 & ets & evs & Htasks & _ & _ & Hint & _) Hi Hin Hnow. assert (Hs : scfg = scfg0).
  { rewrite Htasks in Hin. apply elem_of_cons in Hin as [?|Hin]; [done|]. apply elem_of_cons in Hin as [[= -> ->]|Hin]; [done|].
    rewrite list_elem_of_In, in_map_iff in Hin. by destruct Hin as (? & ? & _). }
  subst scfg0. assert (0 < cfg_interval scfg) by (rewrite Hint; unfold MIN_STATS_INTERVAL_SECS, from_secs in *; lia).
  unfold stats_interval, instant_add, interval_at. destruct (cfg_enabled scfg); [|eauto].
  rewrite (proj2 (Z.ltb_ge _ _)), (proj2 (Z.eqb_neq _ _)) by lia. eauto.
Qed.

(** C8. The program starts and stops.  For any valid configuration (of up to 2^40 endpoints),
    start-up does not panic, whatever the tasks already up do meanwhile: it starts the router,
    the stats task and, in configuration order, a task for every endpoint that the router is
    there for (all of them, if it stays), announced beforehand with the task's own id, stats and
    queue; should the router go (the token is cancelled during start-up), the endpoints left get
    neither, and start-up goes on to its end.  The event queue has room for two events per configured endpoint; the
    stats task's timer starts, if the clock can represent its first tick.  [run] returns only
    once the token is cancelled and start-up is done, and then within [SHUTDOWN_GRACE],
    whatever the tasks do (up to the lateness of the two timers of the shutdown). *)
Theorem run_starts_and_stops cfg (w : World Q) ready cancelled reacts lag abort_lag :
  config_valid cfg -> Z.of_nat (length (cf_endpoints cfg)) <= 2 ^ 40 -> 0 <= lag -> 0 <= abort_lag ->
  exists st e, run_startup cfg w = Done st /\ started_right cfg st /\
    (forall rx scfg instant_max now, StatsTaskRun rx scfg ∈ su_tasks st -> now + cfg_interval scfg <= instant_max ->
       exists timer, stats_interval instant_max now scfg = Done timer) /\
    run cfg w ready cancelled reacts lag abort_lag = Done e /\
    match cancelled with
    | None => re_returned e = None
    | Some t => exists u, re_returned e = Some u /\ Z.max t ready <= u <= Z.max t ready + stop_bound lag abort_lag
    end.
Proof.
  intros (_ & _ & Hi & _) Hn Hl Hl'. destruct (run_startup_spec cfg w Hn) as (st & Hst & Hr).
  destruct (run_returns cfg w ready cancelled reacts lag abort_lag Hn Hl Hl') as (e & He & Hret).
  exists st, e. split_and!; [done|done| |done|done]. intros. by eapply stats_timer_starts.
Qed.

(** The process as a whole: a configuration it refuses ends in failure with its message on
    stderr, [--dry-run] in success with nothing but log lines, and a run in success, within
    the bound after the first signal and the end of start-up; without a signal it runs on. *)
Theorem main_exits lev tfs rts cli (w : World Q) ready ctrl_c terminate reacts lag abort_lag :
  (forall cfg sub events, prepare lev tfs rts cli = RunConfig cfg sub events -> Z.of_nat (length (cf_endpoints cfg)) <= 2 ^ 40) ->
  0 <= lag -> 0 <= abort_lag ->
  exists p, main channel_panics event_channel group_iter debug_assertions others lev tfs rts cli w ready ctrl_c terminate reacts lag abort_lag = Done p /\
    match prepare lev tfs rts cli with
    | ExitFailure text => pe_exit p = Some (0, FAILURE) /\ pe_stderr p = Some text /\ pe_log p = []%list
    | DryRun _ _ => pe_exit p = Some (0, SUCCESS) /\ pe_stderr p = None
    | RunConfig _ _ _ =>
        pe_stderr p = None /\
        match watch_for_shutdown_signal ctrl_c terminate None with
        | None => pe_exit p = None
        | Some t => exists u, pe_exit p = Some (u, SUCCESS) /\ Z.max t ready <= u <= Z.max t ready + stop_bound lag abort_lag
        end
    end.
Proof.
  intros Hn Hl Hl'. pose proof (prepare_spec lev tfs rts cli) as Hp. unfold main.
  destruct (prepare lev tfs rts cli) as [text|sub events|cfg sub events] eqn:E; [eexists; by split_and!|eexists; by split_and!|].
  destruct Hp as (_ & _ & Hv & _).
  destruct (run_returns cfg w ready (watch_for_shutdown_signal ctrl_c terminate None) reacts lag abort_lag (Hn _ _ _ eq_refl) Hl Hl') as (e & He & Hret).
  fold run. rewrite He. eexists. split; [done|]. cbn [pe_exit pe_stderr]. split; [done|].
  destruct (watch_for_shutdown_signal ctrl_c terminate None) as [t|]; [|by rewrite Hret].
  destruct Hret as (u & -> & Hu). eauto.
Qed.
End Run.

(** ** Witnesses *)

Module ProgramSample.
Definition cfg : Config :=
  {| cf_log_level := LogInfo; cf_log_format := LogText; cf_stats := true; cf_stats_interval_secs := 5; cf_dedup_ms := 100;
     cf_skip_config_log := false; cf_endpoints := SpawnSample.specs; cf_merged := false |}.
Definition channel_panics (c : Z) : bool := negb ((0 <? c) && (c <=? 2 ^ 61 - 1)).
Definition event_channel (_ : Z) : ListSender.t EndpointEvent := RouterGoes.tx.
Lemma channel_ok c : 0 < c <= 2 ^ 61 - 1 -> channel_panics c = false.
Proof. unfold channel_panics. destruct (Z.ltb_spec 0 c), (Z.leb_spec c (2 ^ 61 - 1)); (done || lia). Qed.
Definition reacts (t : ProgramTask) : JoinTask := {| jt_returns := Some 1000; jt_abort_latency := None |}.
Definition cli (dry_run : bool) (level : option LogLevel) : Cli :=
  {| cli_config := None; cli_log_level := level; cli_log_format := None; cli_stats := false; cli_stats_interval_secs := None;
     cli_dedup_ms := None; cli_skip_config_log := false; cli_dry_run := dry_run;
     cli_endpoints := ["tcps:0.0.0.0:5760#gcs"; "serial:/dev/ttyACM0:57600#fc"]%list |}.
Definition lev (a b : string) : nat := 9.
Definition tfs (text : string) : result TomlFile string := Err "no file".
Definition rts (path : string) : result string string := Err "no file".
End ProgramSample.

Lemma run_starts_and_stops_witness :
  exists st e, run_startup ProgramSample.channel_panics ProgramSample.event_channel map_to_list true RouterGoes.others ProgramSample.cfg
      (sample_world (aq_new 1)) = Done st /\
    started_right RouterGoes.up ProgramSample.cfg st /\ length (su_tasks st) = 3%nat /\
    run ProgramSample.channel_panics ProgramSample.event_channel map_to_list true RouterGoes.others ProgramSample.cfg (sample_world (aq_new 1))
      9 (Some 7) ProgramSample.reacts 0 0 = Done e /\ re_returned e = Some 1009.
Proof.
  destruct (run_starts_and_stops ProgramSample.channel_panics ProgramSample.event_channel map_to_list true RouterGoes.others ListSender.open RouterGoes.up
    ProgramSample.channel_ok RouterGoes.router_goes_answers RouterGoes.router_goes_keeps (fun _ _ => eq_refl)
    ProgramSample.cfg (sample_world (aq_new 1)) 9 (Some 7) ProgramSample.reacts 0 0)
    as (st & e & Hst & Hr & _ & He & u & Hu & _).
  - split; [apply (bool_decide_unpack _); vm_compute; exact I|]. split; [vm_compute; discriminate|]. split; [vm_compute; discriminate|].
    repeat constructor.
  - vm_compute. discriminate.
  - vm_compute. discriminate.
  - vm_compute. discriminate.
  - exists st, e. split; [exact Hst|]. split; [exact Hr|]. split; [vm_compute in Hst; injection Hst as <-; reflexivity|].
    split; [exact He|]. vm_compute in He. injection He as <-. reflexivity.
Defined.

(** The program from its arguments to its exit, stopped by SIGTERM. *)
Example program_sample :
  match main ProgramSample.channel_panics ProgramSample.event_channel map_to_list true (fun _ sh => sh) ProgramSample.lev ProgramSample.tfs ProgramSample.rts
    (ProgramSample.cli false None) (sample_world (aq_new 1)) 2 (Err "no handler") (TerminateUnix (Ok (Some 7))) ProgramSample.reacts 0 0 with
  | Done p => pe_exit p = Some (1007, SUCCESS) /\
      map ev_message (pe_log p) = ["config"; "rmr started"; "shutdown signal received"; "rmr stopped"]%list
  | _ => False
  end.
Proof. vm_compute. done. Qed.

(** The resolved configuration as one log line. *)
Example log_resolved_sample :
  match prepare ProgramSample.lev ProgramSample.tfs ProgramSample.rts (ProgramSample.cli true None) with
  | DryRun sub events => map (fun e => list_find (fun f => f.1 = "endpoints") (ev_fields e)) (written sub events) =
      [Some (7%nat, ("endpoints", "gcs: TcpServerEndpoint { bind_addr: 0.0.0.0:5760 }, fc: SerialEndpoint { path: " ++s
        String dquote ("/dev/ttyACM0" ++s String dquote ", baud: 57600 }")))]%list
  | _ => False
  end.
Proof. vm_compute. done. Qed.

Lemma dry_run_silent_above_info_witness :
  match prepare ProgramSample.lev ProgramSample.tfs ProgramSample.rts (ProgramSample.cli true (Some LogWarn)) with
  | DryRun sub events => Forall (fun e => exists name, e = override_warning name) (written sub events) /\ written sub events = []%list
  | _ => False
  end.
Proof.
  destruct (prepare ProgramSample.lev ProgramSample.tfs ProgramSample.rts (ProgramSample.cli true (Some LogWarn))) as [|sub events|] eqn:E;
    [vm_compute in E; discriminate E| |vm_compute in E; discriminate E].
  split; [|vm_compute in E; injection E as <- <-; vm_compute; reflexivity].
  apply (dry_run_silent_above_info ProgramSample.lev ProgramSample.tfs ProgramSample.rts (ProgramSample.cli true (Some LogWarn)) sub events E).
  vm_compute in E. injection E as <- <-. vm_compute. reflexivity.
Defined.
