(* ===== verification/Vendored.v ===== *)
(** * The vendored dialects ([src/vendor/mavlink/*.xml])

    The nine MAVLink definition files the build script reads, one definition per file: the
    texts of its [include] elements, then its [message] elements in file order, each with
    its [id] and [name] attributes as written and the [type] and [name] of its [field]
    elements; [Ext] is the [extensions] marker.  Nothing else of a file reaches the table
    ([Dialect.parse_xml_strip]). *)

From S2P Require Import Prelude.
#[local] Open Scope string_scope.
#[local] Open Scope list_scope.

Inductive element :=
| F (type_name field_name : string)
| Ext.

Record message_element := M { e_id : string; e_name : string; e_body : list element }.
Record dialect_file := { d_includes : list string; d_messages : list message_element }.

Definition ardupilotmega_xml : dialect_file :=
  {| d_includes := ["common.xml"; "uAvionix.xml"; "icarous.xml"; "loweheiser.xml"; "cubepilot.xml"; "csAirLink.xml"]; d_messages :=
    [
     M "150" "SENSOR_OFFSETS" [F "int16_t" "mag_ofs_x"; F "int16_t" "mag_ofs_y"; F "int16_t" "mag_ofs_z"; F "float"
       "mag_declination"; F "int32_t" "raw_press"; F "int32_t" "raw_temp"; F "float" "gyro_cal_x"; F "float" "gyro_cal_y"; F "float"
       "gyro_cal_z"; F "float" "accel_cal_x"; F "float" "accel_cal_y"; F "float" "accel_cal_z"];
     M "151" "SET_MAG_OFFSETS" [F "uint8_t" "target_system"; F "uint8_t" "target_component"; F "int16_t" "mag_ofs_x"; F "int16_t"
       "mag_ofs_y"; F "int16_t" "mag_ofs_z"];
     M "152" "MEMINFO" [F "uint16_t" "brkval"; F "uint16_t" "freemem"; Ext; F "uint32_t" "freemem32"];
     M "153" "AP_ADC" [F "uint16_t" "adc1"; F "uint16_t" "adc2"; F "uint16_t" "adc3"; F "uint16_t" "adc4"; F "uint16_t" "adc5"; F
       "uint16_t" "adc6"];
     M "154" "DIGICAM_CONFIGURE" [F "uint8_t" "target_system"; F "uint8_t" "target_component"; F "uint8_t" "mode"; F "uint16_t"
       "shutter_speed"; F "uint8_t" "aperture"; F "uint8_t" "iso"; F "uint8_t" "exposure_type"; F "uint8_t" "command_id"; F
       "uint8_t" "engine_cut_off"; F "uint8_t" "extra_param"; F "float" "extra_value"];
     M "155" "DIGICAM_CONTROL" [F "uint8_t" "target_system"; F "uint8_t" "target_component"; F "uint8_t" "session"; F "uint8_t"
       "zoom_pos"; F "int8_t" "zoom_step"; F "uint8_t" "focus_lock"; F "uint8_t" "shot"; F "uint8_t" "command_id"; F "uint8_t"
       "extra_param"; F "float" "extra_value"];
     M "156" "MOUNT_CONFIGURE" [F "uint8_t" "target_system"; F "uint8_t" "target_component"; F "uint8_t" "mount_mode"; F "uint8_t"
       "stab_roll"; F "uint8_t" "stab_pitch"; F "uint8_t" "stab_yaw"];
     M "157" "MOUNT_CONTROL" [F "uint8_t" "target_system"; F "uint8_t" "target_component"; F "int32_t" "input_a"; F "int32_t"
       "input_b"; F "int32_t" "input_c"; F "uint8_t" "save_position"];
     M "158" "MOUNT_STATUS" [F "uint8_t" "target_system"; F "uint8_t" "target_component"; F "int32_t" "pointing_a"; F "int32_t"
       "pointing_b"; F "int32_t" "pointing_c"; Ext; F "uint8_t" "mount_mode"];
     M "160" "FENCE_POINT" [F "uint8_t" "target_system"; F "uint8_t" "target_component"; F "uint8_t" "idx"; F "uint8_t" "count"; F
       "float" "lat"; F "float" "lng"];
     M "161" "FENCE_FETCH_POINT" [F "uint8_t" "target_system"; F "uint8_t" "target_component"; F "uint8_t" "idx"];
     M "163" "AHRS" [F "float" "omegaIx"; F "float" "omegaIy"; F "float" "omegaIz"; F "float" "accel_weight"; F "float"
       "renorm_val"; F "float" "error_rp"; F "float" "error_yaw"];
     M "164" "SIMSTATE" [F "float" "roll"; F "float" "pitch"; F "float" "yaw"; F "float" "xacc"; F "float" "yacc"; F "float"
       "zacc"; F "float" "xgyro"; F "float" "ygyro"; F "float" "zgyro"; F "int32_t" "lat"; F "int32_t" "lng"];
     M "165" "HWSTATUS" [F "uint16_t" "Vcc"; F "uint8_t" "I2Cerr"];
     M "166" "RADIO" [F "uint8_t" "rssi"; F "uint8_t" "remrssi"; F "uint8_t" "txbuf"; F "uint8_t" "noise"; F "uint8_t" "remnoise";
       F "uint16_t" "rxerrors"; F "uint16_t" "fixed"];
     M "167" "LIMITS_STATUS" [F "uint8_t" "limits_state"; F "uint32_t" "last_trigger"; F "uint32_t" "last_action"; F "uint32_t"
       "last_recovery"; F "uint32_t" "last_clear"; F "uint16_t" "breach_count"; F "uint8_t" "mods_enabled"; F "uint8_t"
       "mods_required"; F "uint8_t" "mods_triggered"];
     M "168" "WIND" [F "float" "direction"; F "float" "speed"; F "float" "speed_z"];
     M "169" "DATA16" [F "uint8_t" "type"; F "uint8_t" "len"; F "uint8_t[16]" "data"];
     M "170" "DATA32" [F "uint8_t" "type"; F "uint8_t" "len"; F "uint8_t[32]" "data"];
     M "171" "DATA64" [F "uint8_t" "type"; F "uint8_t" "len"; F "uint8_t[64]" "data"];
     M "172" "DATA96" [F "uint8_t" "type"; F "uint8_t" "len"; F "uint8_t[96]" "data"];
     M "173" "RANGEFINDER" [F "float" "distance"; F "float" "voltage"];
     M "174" "AIRSPEED_AUTOCAL" [F "float" "vx"; F "float" "vy"; F "float" "vz"; F "float" "diff_pressure"; F "float" "EAS2TAS"; F
       "float" "ratio"; F "float" "state_x"; F "float" "state_y"; F "float" "state_z"; F "float" "Pax"; F "float" "Pby"; F "float"
       "Pcz"];
     M "175" "RALLY_POINT" [F "uint8_t" "target_system"; F "uint8_t" "target_component"; F "uint8_t" "idx"; F "uint8_t" "count"; F
       "int32_t" "lat"; F "int32_t" "lng"; F "int16_t" "alt"; F "int16_t" "break_alt"; F "uint16_t" "land_dir"; F "uint8_t" "flags"];
     M "176" "RALLY_FETCH_POINT" [F "uint8_t" "target_system"; F "uint8_t" "target_component"; F "uint8_t" "idx"];
     M "177" "COMPASSMOT_STATUS" [F "uint16_t" "throttle"; F "float" "current"; F "uint16_t" "interference"; F "float"
       "CompensationX"; F "float" "CompensationY"; F "float" "CompensationZ"];
     M "178" "AHRS2" [F "float" "roll"; F "float" "pitch"; F "float" "yaw"; F "float" "altitude"; F "int32_t" "lat"; F "int32_t"
       "lng"];
     M "179" "CAMERA_STATUS" [F "uint64_t" "time_usec"; F "uint8_t" "target_system"; F "uint8_t" "cam_idx"; F "uint16_t"
       "img_idx"; F "uint8_t" "event_id"; F "float" "p1"; F "float" "p2"; F "float" "p3"; F "float" "p4"];
     M "180" "CAMERA_FEEDBACK" [F "uint64_t" "time_usec"; F "uint8_t" "target_system"; F "uint8_t" "cam_idx"; F "uint16_t"
       "img_idx"; F "int32_t" "lat"; F "int32_t" "lng"; F "float" "alt_msl"; F "float" "alt_rel"; F "float" "roll"; F "float"
       "pitch"; F "float" "yaw"; F "float" "foc_len"; F "uint8_t" "flags"; Ext; F "uint16_t" "completed_captures"];
     M "181" "BATTERY2" [F "uint16_t" "voltage"; F "int16_t" "current_battery"];
     M "182" "AHRS3" [F "float" "roll"; F "float" "pitch"; F "float" "yaw"; F "float" "altitude"; F "int32_t" "lat"; F "int32_t"
       "lng"; F "float" "v1"; F "float" "v2"; F "float" "v3"; F "float" "v4"];
     M "183" "AUTOPILOT_VERSION_REQUEST" [F "uint8_t" "target_system"; F "uint8_t" "target_component"];
     M "184" "REMOTE_LOG_DATA_BLOCK" [F "uint8_t" "target_system"; F "uint8_t" "target_component"; F "uint32_t" "seqno"; F
       "uint8_t[200]" "data"];
     M "185" "REMOTE_LOG_BLOCK_STATUS" [F "uint8_t" "target_system"; F "uint8_t" "target_component"; F "uint32_t" "seqno"; F
       "uint8_t" "status"];
     M "186" "LED_CONTROL" [F "uint8_t" "target_system"; F "uint8_t" "target_component"; F "uint8_t" "instance"; F "uint8_t"
       "pattern"; F "uint8_t" "custom_len"; F "uint8_t[24]" "custom_bytes"];
     M "191" "MAG_CAL_PROGRESS" [F "uint8_t" "compass_id"; F "uint8_t" "cal_mask"; F "uint8_t" "cal_status"; F "uint8_t"
       "attempt"; F "uint8_t" "completion_pct"; F "uint8_t[10]" "completion_mask"; F "float" "direction_x"; F "float" "direction_y";
       F "float" "direction_z"];
     M "193" "EKF_STATUS_REPORT" [F "uint16_t" "flags"; F "float" "velocity_variance"; F "float" "pos_horiz_variance"; F "float"
       "pos_vert_variance"; F "float" "compass_variance"; F "float" "terrain_alt_variance"; Ext; F "float" "airspeed_variance"];
     M "194" "PID_TUNING" [F "uint8_t" "axis"; F "float" "desired"; F "float" "achieved"; F "float" "FF"; F "float" "P"; F "float"
       "I"; F "float" "D"; Ext; F "float" "SRate"; F "float" "PDmod"];
     M "195" "DEEPSTALL" [F "int32_t" "landing_lat"; F "int32_t" "landing_lon"; F "int32_t" "path_lat"; F "int32_t" "path_lon"; F
       "int32_t" "arc_entry_lat"; F "int32_t" "arc_entry_lon"; F "float" "altitude"; F "float" "expected_travel_distance"; F "float"
       "cross_track_error"; F "uint8_t" "stage"];
     M "200" "GIMBAL_REPORT" [F "uint8_t" "target_system"; F "uint8_t" "target_component"; F "float" "delta_time"; F "float"
       "delta_angle_x"; F "float" "delta_angle_y"; F "float" "delta_angle_z"; F "float" "delta_velocity_x"; F "float"
       "delta_velocity_y"; F "float" "delta_velocity_z"; F "float" "joint_roll"; F "float" "joint_el"; F "float" "joint_az"];
     M "201" "GIMBAL_CONTROL" [F "uint8_t" "target_system"; F "uint8_t" "target_component"; F "float" "demanded_rate_x"; F "float"
       "demanded_rate_y"; F "float" "demanded_rate_z"];
     M "214" "GIMBAL_TORQUE_CMD_REPORT" [F "uint8_t" "target_system"; F "uint8_t" "target_component"; F "int16_t" "rl_torque_cmd";
       F "int16_t" "el_torque_cmd"; F "int16_t" "az_torque_cmd"];
     M "215" "GOPRO_HEARTBEAT" [F "uint8_t" "status"; F "uint8_t" "capture_mode"; F "uint8_t" "flags"];
     M "216" "GOPRO_GET_REQUEST" [F "uint8_t" "target_system"; F "uint8_t" "target_component"; F "uint8_t" "cmd_id"];
     M "217" "GOPRO_GET_RESPONSE" [F "uint8_t" "cmd_id"; F "uint8_t" "status"; F "uint8_t[4]" "value"];
     M "218" "GOPRO_SET_REQUEST" [F "uint8_t" "target_system"; F "uint8_t" "target_component"; F "uint8_t" "cmd_id"; F
       "uint8_t[4]" "value"];
     M "219" "GOPRO_SET_RESPONSE" [F "uint8_t" "cmd_id"; F "uint8_t" "status"];
     M "226" "RPM" [F "float" "rpm1"; F "float" "rpm2"];
     M "11000" "DEVICE_OP_READ" [F "uint8_t" "target_system"; F "uint8_t" "target_component"; F "uint32_t" "request_id"; F
       "uint8_t" "bustype"; F "uint8_t" "bus"; F "uint8_t" "address"; F "char[40]" "busname"; F "uint8_t" "regstart"; F "uint8_t"
       "count"; Ext; F "uint8_t" "bank"];
     M "11001" "DEVICE_OP_READ_REPLY" [F "uint32_t" "request_id"; F "uint8_t" "result"; F "uint8_t" "regstart"; F "uint8_t"
       "count"; F "uint8_t[128]" "data"; Ext; F "uint8_t" "bank"];
     M "11002" "DEVICE_OP_WRITE" [F "uint8_t" "target_system"; F "uint8_t" "target_component"; F "uint32_t" "request_id"; F
       "uint8_t" "bustype"; F "uint8_t" "bus"; F "uint8_t" "address"; F "char[40]" "busname"; F "uint8_t" "regstart"; F "uint8_t"
       "count"; F "uint8_t[128]" "data"; Ext; F "uint8_t" "bank"];
     M "11003" "DEVICE_OP_WRITE_REPLY" [F "uint32_t" "request_id"; F "uint8_t" "result"];
     M "11004" "SECURE_COMMAND" [F "uint8_t" "target_system"; F "uint8_t" "target_component"; F "uint32_t" "sequence"; F
       "uint32_t" "operation"; F "uint8_t" "data_length"; F "uint8_t" "sig_length"; F "uint8_t[220]" "data"];
     M "11005" "SECURE_COMMAND_REPLY" [F "uint32_t" "sequence"; F "uint32_t" "operation"; F "uint8_t" "result"; F "uint8_t"
       "data_length"; F "uint8_t[220]" "data"];
     M "11010" "ADAP_TUNING" [F "uint8_t" "axis"; F "float" "desired"; F "float" "achieved"; F "float" "error"; F "float" "theta";
       F "float" "omega"; F "float" "sigma"; F "float" "theta_dot"; F "float" "omega_dot"; F "float" "sigma_dot"; F "float" "f"; F
       "float" "f_dot"; F "float" "u"];
     M "11011" "VISION_POSITION_DELTA" [F "uint64_t" "time_usec"; F "uint64_t" "time_delta_usec"; F "float[3]" "angle_delta"; F
       "float[3]" "position_delta"; F "float" "confidence"];
     M "11020" "AOA_SSA" [F "uint64_t" "time_usec"; F "float" "AOA"; F "float" "SSA"];
     M "11030" "ESC_TELEMETRY_1_TO_4" [F "uint8_t[4]" "temperature"; F "uint16_t[4]" "voltage"; F "uint16_t[4]" "current"; F
       "uint16_t[4]" "totalcurrent"; F "uint16_t[4]" "rpm"; F "uint16_t[4]" "count"];
     M "11031" "ESC_TELEMETRY_5_TO_8" [F "uint8_t[4]" "temperature"; F "uint16_t[4]" "voltage"; F "uint16_t[4]" "current"; F
       "uint16_t[4]" "totalcurrent"; F "uint16_t[4]" "rpm"; F "uint16_t[4]" "count"];
     M "11032" "ESC_TELEMETRY_9_TO_12" [F "uint8_t[4]" "temperature"; F "uint16_t[4]" "voltage"; F "uint16_t[4]" "current"; F
       "uint16_t[4]" "totalcurrent"; F "uint16_t[4]" "rpm"; F "uint16_t[4]" "count"];
     M "11033" "OSD_PARAM_CONFIG" [F "uint8_t" "target_system"; F "uint8_t" "target_component"; F "uint32_t" "request_id"; F
       "uint8_t" "osd_screen"; F "uint8_t" "osd_index"; F "char[16]" "param_id"; F "uint8_t" "config_type"; F "float" "min_value"; F
       "float" "max_value"; F "float" "increment"];
     M "11034" "OSD_PARAM_CONFIG_REPLY" [F "uint32_t" "request_id"; F "uint8_t" "result"];
     M "11035" "OSD_PARAM_SHOW_CONFIG" [F "uint8_t" "target_system"; F "uint8_t" "target_component"; F "uint32_t" "request_id"; F
       "uint8_t" "osd_screen"; F "uint8_t" "osd_index"];
     M "11036" "OSD_PARAM_SHOW_CONFIG_REPLY" [F "uint32_t" "request_id"; F "uint8_t" "result"; F "char[16]" "param_id"; F
       "uint8_t" "config_type"; F "float" "min_value"; F "float" "max_value"; F "float" "increment"];
     M "11037" "OBSTACLE_DISTANCE_3D" [F "uint32_t" "time_boot_ms"; F "uint8_t" "sensor_type"; F "uint8_t" "frame"; F "uint16_t"
       "obstacle_id"; F "float" "x"; F "float" "y"; F "float" "z"; F "float" "min_distance"; F "float" "max_distance"];
     M "11038" "WATER_DEPTH" [F "uint32_t" "time_boot_ms"; F "uint8_t" "id"; F "uint8_t" "healthy"; F "int32_t" "lat"; F "int32_t"
       "lng"; F "float" "alt"; F "float" "roll"; F "float" "pitch"; F "float" "yaw"; F "float" "distance"; F "float" "temperature"];
     M "11039" "MCU_STATUS" [F "uint8_t" "id"; F "int16_t" "MCU_temperature"; F "uint16_t" "MCU_voltage"; F "uint16_t"
       "MCU_voltage_min"; F "uint16_t" "MCU_voltage_max"];
     M "11040" "ESC_TELEMETRY_13_TO_16" [F "uint8_t[4]" "temperature"; F "uint16_t[4]" "voltage"; F "uint16_t[4]" "current"; F
       "uint16_t[4]" "totalcurrent"; F "uint16_t[4]" "rpm"; F "uint16_t[4]" "count"];
     M "11041" "ESC_TELEMETRY_17_TO_20" [F "uint8_t[4]" "temperature"; F "uint16_t[4]" "voltage"; F "uint16_t[4]" "current"; F
       "uint16_t[4]" "totalcurrent"; F "uint16_t[4]" "rpm"; F "uint16_t[4]" "count"];
     M "11042" "ESC_TELEMETRY_21_TO_24" [F "uint8_t[4]" "temperature"; F "uint16_t[4]" "voltage"; F "uint16_t[4]" "current"; F
       "uint16_t[4]" "totalcurrent"; F "uint16_t[4]" "rpm"; F "uint16_t[4]" "count"];
     M "11043" "ESC_TELEMETRY_25_TO_28" [F "uint8_t[4]" "temperature"; F "uint16_t[4]" "voltage"; F "uint16_t[4]" "current"; F
       "uint16_t[4]" "totalcurrent"; F "uint16_t[4]" "rpm"; F "uint16_t[4]" "count"];
     M "11044" "ESC_TELEMETRY_29_TO_32" [F "uint8_t[4]" "temperature"; F "uint16_t[4]" "voltage"; F "uint16_t[4]" "current"; F
       "uint16_t[4]" "totalcurrent"; F "uint16_t[4]" "rpm"; F "uint16_t[4]" "count"];
     M "11060" "NAMED_VALUE_STRING" [F "uint32_t" "time_boot_ms"; F "char[10]" "name"; F "char[64]" "value"]] |}.

Definition common_xml : dialect_file :=
  {| d_includes := ["standard.xml"]; d_messages :=
    [
     M "1" "SYS_STATUS" [F "uint32_t" "onboard_control_sensors_present"; F "uint32_t" "onboard_control_sensors_enabled"; F
       "uint32_t" "onboard_control_sensors_health"; F "uint16_t" "load"; F "uint16_t" "voltage_battery"; F "int16_t"
       "current_battery"; F "int8_t" "battery_remaining"; F "uint16_t" "drop_rate_comm"; F "uint16_t" "errors_comm"; F "uint16_t"
       "errors_count1"; F "uint16_t" "errors_count2"; F "uint16_t" "errors_count3"; F "uint16_t" "errors_count4"; Ext; F "uint32_t"
       "onboard_control_sensors_present_extended"; F "uint32_t" "onboard_control_sensors_enabled_extended"; F "uint32_t"
       "onboard_control_sensors_health_extended"];
     M "2" "SYSTEM_TIME" [F "uint64_t" "time_unix_usec"; F "uint32_t" "time_boot_ms"];
     M "4" "PING" [F "uint64_t" "time_usec"; F "uint32_t" "seq"; F "uint8_t" "target_system"; F "uint8_t" "target_component"];
     M "5" "CHANGE_OPERATOR_CONTROL" [F "uint8_t" "target_system"; F "uint8_t" "control_request"; F "uint8_t" "version"; F
       "char[25]" "passkey"];
     M "6" "CHANGE_OPERATOR_CONTROL_ACK" [F "uint8_t" "gcs_system_id"; F "uint8_t" "control_request"; F "uint8_t" "ack"];
     M "7" "AUTH_KEY" [F "char[32]" "key"];
     M "8" "LINK_NODE_STATUS" [F "uint64_t" "timestamp"; F "uint8_t" "tx_buf"; F "uint8_t" "rx_buf"; F "uint32_t" "tx_rate"; F
       "uint32_t" "rx_rate"; F "uint16_t" "rx_parse_err"; F "uint16_t" "tx_overflows"; F "uint16_t" "rx_overflows"; F "uint32_t"
       "messages_sent"; F "uint32_t" "messages_received"; F "uint32_t" "messages_lost"];
     M "11" "SET_MODE" [F "uint8_t" "target_system"; F "uint8_t" "base_mode"; F "uint32_t" "custom_mode"];
     M "20" "PARAM_REQUEST_READ" [F "uint8_t" "target_system"; F "uint8_t" "target_component"; F "char[16]" "param_id"; F
       "int16_t" "param_index"];
     M "21" "PARAM_REQUEST_LIST" [F "uint8_t" "target_system"; F "uint8_t" "target_component"];
     M "22" "PARAM_VALUE" [F "char[16]" "param_id"; F "float" "param_value"; F "uint8_t" "param_type"; F "uint16_t" "param_count";
       F "uint16_t" "param_index"];
     M "23" "PARAM_SET" [F "uint8_t" "target_system"; F "uint8_t" "target_component"; F "char[16]" "param_id"; F "float"
       "param_value"; F "uint8_t" "param_type"];
     M "24" "GPS_RAW_INT" [F "uint64_t" "time_usec"; F "uint8_t" "fix_type"; F "int32_t" "lat"; F "int32_t" "lon"; F "int32_t"
       "alt"; F "uint16_t" "eph"; F "uint16_t" "epv"; F "uint16_t" "vel"; F "uint16_t" "cog"; F "uint8_t" "satellites_visible"; Ext;
       F "int32_t" "alt_ellipsoid"; F "uint32_t" "h_acc"; F "uint32_t" "v_acc"; F "uint32_t" "vel_acc"; F "uint32_t" "hdg_acc"; F
       "uint16_t" "yaw"];
     M "25" "GPS_STATUS" [F "uint8_t" "satellites_visible"; F "uint8_t[20]" "satellite_prn"; F "uint8_t[20]" "satellite_used"; F
       "uint8_t[20]" "satellite_elevation"; F "uint8_t[20]" "satellite_azimuth"; F "uint8_t[20]" "satellite_snr"];
     M "26" "SCALED_IMU" [F "uint32_t" "time_boot_ms"; F "int16_t" "xacc"; F "int16_t" "yacc"; F "int16_t" "zacc"; F "int16_t"
       "xgyro"; F "int16_t" "ygyro"; F "int16_t" "zgyro"; F "int16_t" "xmag"; F "int16_t" "ymag"; F "int16_t" "zmag"; Ext; F
       "int16_t" "temperature"];
     M "27" "RAW_IMU" [F "uint64_t" "time_usec"; F "int16_t" "xacc"; F "int16_t" "yacc"; F "int16_t" "zacc"; F "int16_t" "xgyro";
       F "int16_t" "ygyro"; F "int16_t" "zgyro"; F "int16_t" "xmag"; F "int16_t" "ymag"; F "int16_t" "zmag"; Ext; F "uint8_t" "id";
       F "int16_t" "temperature"];
     M "28" "RAW_PRESSURE" [F "uint64_t" "time_usec"; F "int16_t" "press_abs"; F "int16_t" "press_diff1"; F "int16_t"
       "press_diff2"; F "int16_t" "temperature"];
     M "29" "SCALED_PRESSURE" [F "uint32_t" "time_boot_ms"; F "float" "press_abs"; F "float" "press_diff"; F "int16_t"
       "temperature"; Ext; F "int16_t" "temperature_press_diff"];
     M "30" "ATTITUDE" [F "uint32_t" "time_boot_ms"; F "float" "roll"; F "float" "pitch"; F "float" "yaw"; F "float" "rollspeed";
       F "float" "pitchspeed"; F "float" "yawspeed"];
     M "31" "ATTITUDE_QUATERNION" [F "uint32_t" "time_boot_ms"; F "float" "q1"; F "float" "q2"; F "float" "q3"; F "float" "q4"; F
       "float" "rollspeed"; F "float" "pitchspeed"; F "float" "yawspeed"; Ext; F "float[4]" "repr_offset_q"];
     M "32" "LOCAL_POSITION_NED" [F "uint32_t" "time_boot_ms"; F "float" "x"; F "float" "y"; F "float" "z"; F "float" "vx"; F
       "float" "vy"; F "float" "vz"];
     M "34" "RC_CHANNELS_SCALED" [F "uint32_t" "time_boot_ms"; F "uint8_t" "port"; F "int16_t" "chan1_scaled"; F "int16_t"
       "chan2_scaled"; F "int16_t" "chan3_scaled"; F "int16_t" "chan4_scaled"; F "int16_t" "chan5_scaled"; F "int16_t"
       "chan6_scaled"; F "int16_t" "chan7_scaled"; F "int16_t" "chan8_scaled"; F "uint8_t" "rssi"];
     M "35" "RC_CHANNELS_RAW" [F "uint32_t" "time_boot_ms"; F "uint8_t" "port"; F "uint16_t" "chan1_raw"; F "uint16_t"
       "chan2_raw"; F "uint16_t" "chan3_raw"; F "uint16_t" "chan4_raw"; F "uint16_t" "chan5_raw"; F "uint16_t" "chan6_raw"; F
       "uint16_t" "chan7_raw"; F "uint16_t" "chan8_raw"; F "uint8_t" "rssi"];
     M "36" "SERVO_OUTPUT_RAW" [F "uint32_t" "time_usec"; F "uint8_t" "port"; F "uint16_t" "servo1_raw"; F "uint16_t"
       "servo2_raw"; F "uint16_t" "servo3_raw"; F "uint16_t" "servo4_raw"; F "uint16_t" "servo5_raw"; F "uint16_t" "servo6_raw"; F
       "uint16_t" "servo7_raw"; F "uint16_t" "servo8_raw"; Ext; F "uint16_t" "servo9_raw"; F "uint16_t" "servo10_raw"; F "uint16_t"
       "servo11_raw"; F "uint16_t" "servo12_raw"; F "uint16_t" "servo13_raw"; F "uint16_t" "servo14_raw"; F "uint16_t"
       "servo15_raw"; F "uint16_t" "servo16_raw"];
     M "37" "MISSION_REQUEST_PARTIAL_LIST" [F "uint8_t" "target_system"; F "uint8_t" "target_component"; F "int16_t"
       "start_index"; F "int16_t" "end_index"; Ext; F "uint8_t" "mission_type"];
     M "38" "MISSION_WRITE_PARTIAL_LIST" [F "uint8_t" "target_system"; F "uint8_t" "target_component"; F "int16_t" "start_index";
       F "int16_t" "end_index"; Ext; F "uint8_t" "mission_type"];
     M "39" "MISSION_ITEM" [F "uint8_t" "target_system"; F "uint8_t" "target_component"; F "uint16_t" "seq"; F "uint8_t" "frame";
       F "uint16_t" "command"; F "uint8_t" "current"; F "uint8_t" "autocontinue"; F "float" "param1"; F "float" "param2"; F "float"
       "param3"; F "float" "param4"; F "float" "x"; F "float" "y"; F "float" "z"; Ext; F "uint8_t" "mission_type"];
     M "40" "MISSION_REQUEST" [F "uint8_t" "target_system"; F "uint8_t" "target_component"; F "uint16_t" "seq"; Ext; F "uint8_t"
       "mission_type"];
     M "41" "MISSION_SET_CURRENT" [F "uint8_t" "target_system"; F "uint8_t" "target_component"; F "uint16_t" "seq"];
     M "42" "MISSION_CURRENT" [F "uint16_t" "seq"; Ext; F "uint16_t" "total"; F "uint8_t" "mission_state"; F "uint8_t"
       "mission_mode"; F "uint32_t" "mission_id"; F "uint32_t" "fence_id"; F "uint32_t" "rally_points_id"];
     M "43" "MISSION_REQUEST_LIST" [F "uint8_t" "target_system"; F "uint8_t" "target_component"; Ext; F "uint8_t" "mission_type"];
     M "44" "MISSION_COUNT" [F "uint8_t" "target_system"; F "uint8_t" "target_component"; F "uint16_t" "count"; Ext; F "uint8_t"
       "mission_type"; F "uint32_t" "opaque_id"];
     M "45" "MISSION_CLEAR_ALL" [F "uint8_t" "target_system"; F "uint8_t" "target_component"; Ext; F "uint8_t" "mission_type"];
     M "46" "MISSION_ITEM_REACHED" [F "uint16_t" "seq"];
     M "47" "MISSION_ACK" [F "uint8_t" "target_system"; F "uint8_t" "target_component"; F "uint8_t" "type"; Ext; F "uint8_t"
       "mission_type"; F "uint32_t" "opaque_id"];
     M "48" "SET_GPS_GLOBAL_ORIGIN" [F "uint8_t" "target_system"; F "int32_t" "latitude"; F "int32_t" "longitude"; F "int32_t"
       "altitude"; Ext; F "uint64_t" "time_usec"];
     M "49" "GPS_GLOBAL_ORIGIN" [F "int32_t" "latitude"; F "int32_t" "longitude"; F "int32_t" "altitude"; Ext; F "uint64_t"
       "time_usec"];
     M "50" "PARAM_MAP_RC" [F "uint8_t" "target_system"; F "uint8_t" "target_component"; F "char[16]" "param_id"; F "int16_t"
       "param_index"; F "uint8_t" "parameter_rc_channel_index"; F "float" "param_value0"; F "float" "scale"; F "float"
       "param_value_min"; F "float" "param_value_max"];
     M "51" "MISSION_REQUEST_INT" [F "uint8_t" "target_system"; F "uint8_t" "target_component"; F "uint16_t" "seq"; Ext; F
       "uint8_t" "mission_type"];
     M "54" "SAFETY_SET_ALLOWED_AREA" [F "uint8_t" "target_system"; F "uint8_t" "target_component"; F "uint8_t" "frame"; F "float"
       "p1x"; F "float" "p1y"; F "float" "p1z"; F "float" "p2x"; F "float" "p2y"; F "float" "p2z"];
     M "55" "SAFETY_ALLOWED_AREA" [F "uint8_t" "frame"; F "float" "p1x"; F "float" "p1y"; F "float" "p1z"; F "float" "p2x"; F
       "float" "p2y"; F "float" "p2z"];
     M "61" "ATTITUDE_QUATERNION_COV" [F "uint64_t" "time_usec"; F "float[4]" "q"; F "float" "rollspeed"; F "float" "pitchspeed";
       F "float" "yawspeed"; F "float[9]" "covariance"];
     M "62" "NAV_CONTROLLER_OUTPUT" [F "float" "nav_roll"; F "float" "nav_pitch"; F "int16_t" "nav_bearing"; F "int16_t"
       "target_bearing"; F "uint16_t" "wp_dist"; F "float" "alt_error"; F "float" "aspd_error"; F "float" "xtrack_error"];
     M "63" "GLOBAL_POSITION_INT_COV" [F "uint64_t" "time_usec"; F "uint8_t" "estimator_type"; F "int32_t" "lat"; F "int32_t"
       "lon"; F "int32_t" "alt"; F "int32_t" "relative_alt"; F "float" "vx"; F "float" "vy"; F "float" "vz"; F "float[36]"
       "covariance"];
     M "64" "LOCAL_POSITION_NED_COV" [F "uint64_t" "time_usec"; F "uint8_t" "estimator_type"; F "float" "x"; F "float" "y"; F
       "float" "z"; F "float" "vx"; F "float" "vy"; F "float" "vz"; F "float" "ax"; F "float" "ay"; F "float" "az"; F "float[45]"
       "covariance"];
     M "65" "RC_CHANNELS" [F "uint32_t" "time_boot_ms"; F "uint8_t" "chancount"; F "uint16_t" "chan1_raw"; F "uint16_t"
       "chan2_raw"; F "uint16_t" "chan3_raw"; F "uint16_t" "chan4_raw"; F "uint16_t" "chan5_raw"; F "uint16_t" "chan6_raw"; F
       "uint16_t" "chan7_raw"; F "uint16_t" "chan8_raw"; F "uint16_t" "chan9_raw"; F "uint16_t" "chan10_raw"; F "uint16_t"
       "chan11_raw"; F "uint16_t" "chan12_raw"; F "uint16_t" "chan13_raw"; F "uint16_t" "chan14_raw"; F "uint16_t" "chan15_raw"; F
       "uint16_t" "chan16_raw"; F "uint16_t" "chan17_raw"; F "uint16_t" "chan18_raw"; F "uint8_t" "rssi"];
     M "66" "REQUEST_DATA_STREAM" [F "uint8_t" "target_system"; F "uint8_t" "target_component"; F "uint8_t" "req_stream_id"; F
       "uint16_t" "req_message_rate"; F "uint8_t" "start_stop"];
     M "67" "DATA_STREAM" [F "uint8_t" "stream_id"; F "uint16_t" "message_rate"; F "uint8_t" "on_off"];
     M "69" "MANUAL_CONTROL" [F "uint8_t" "target"; F "int16_t" "x"; F "int16_t" "y"; F "int16_t" "z"; F "int16_t" "r"; F
       "uint16_t" "buttons"; Ext; F "uint16_t" "buttons2"; F "uint8_t" "enabled_extensions"; F "int16_t" "s"; F "int16_t" "t"; F
       "int16_t" "aux1"; F "int16_t" "aux2"; F "int16_t" "aux3"; F "int16_t" "aux4"; F "int16_t" "aux5"; F "int16_t" "aux6"];
     M "70" "RC_CHANNELS_OVERRIDE" [F "uint8_t" "target_system"; F "uint8_t" "target_component"; F "uint16_t" "chan1_raw"; F
       "uint16_t" "chan2_raw"; F "uint16_t" "chan3_raw"; F "uint16_t" "chan4_raw"; F "uint16_t" "chan5_raw"; F "uint16_t"
       "chan6_raw"; F "uint16_t" "chan7_raw"; F "uint16_t" "chan8_raw"; Ext; F "uint16_t" "chan9_raw"; F "uint16_t" "chan10_raw"; F
       "uint16_t" "chan11_raw"; F "uint16_t" "chan12_raw"; F "uint16_t" "chan13_raw"; F "uint16_t" "chan14_raw"; F "uint16_t"
       "chan15_raw"; F "uint16_t" "chan16_raw"; F "uint16_t" "chan17_raw"; F "uint16_t" "chan18_raw"];
     M "73" "MISSION_ITEM_INT" [F "uint8_t" "target_system"; F "uint8_t" "target_component"; F "uint16_t" "seq"; F "uint8_t"
       "frame"; F "uint16_t" "command"; F "uint8_t" "current"; F "uint8_t" "autocontinue"; F "float" "param1"; F "float" "param2"; F
       "float" "param3"; F "float" "param4"; F "int32_t" "x"; F "int32_t" "y"; F "float" "z"; Ext; F "uint8_t" "mission_type"];
     M "74" "VFR_HUD" [F "float" "airspeed"; F "float" "groundspeed"; F "int16_t" "heading"; F "uint16_t" "throttle"; F "float"
       "alt"; F "float" "climb"];
     M "75" "COMMAND_INT" [F "uint8_t" "target_system"; F "uint8_t" "target_component"; F "uint8_t" "frame"; F "uint16_t"
       "command"; F "uint8_t" "current"; F "uint8_t" "autocontinue"; F "float" "param1"; F "float" "param2"; F "float" "param3"; F
       "float" "param4"; F "int32_t" "x"; F "int32_t" "y"; F "float" "z"];
     M "76" "COMMAND_LONG" [F "uint8_t" "target_system"; F "uint8_t" "target_component"; F "uint16_t" "command"; F "uint8_t"
       "confirmation"; F "float" "param1"; F "float" "param2"; F "float" "param3"; F "float" "param4"; F "float" "param5"; F "float"
       "param6"; F "float" "param7"];
     M "77" "COMMAND_ACK" [F "uint16_t" "command"; F "uint8_t" "result"; Ext; F "uint8_t" "progress"; F "int32_t" "result_param2";
       F "uint8_t" "target_system"; F "uint8_t" "target_component"];
     M "80" "COMMAND_CANCEL" [F "uint8_t" "target_system"; F "uint8_t" "target_component"; F "uint16_t" "command"];
     M "81" "MANUAL_SETPOINT" [F "uint32_t" "time_boot_ms"; F "float" "roll"; F "float" "pitch"; F "float" "yaw"; F "float"
       "thrust"; F "uint8_t" "mode_switch"; F "uint8_t" "manual_override_switch"];
     M "82" "SET_ATTITUDE_TARGET" [F "uint32_t" "time_boot_ms"; F "uint8_t" "target_system"; F "uint8_t" "target_component"; F
       "uint8_t" "type_mask"; F "float[4]" "q"; F "float" "body_roll_rate"; F "float" "body_pitch_rate"; F "float" "body_yaw_rate";
       F "float" "thrust"; Ext; F "float[3]" "thrust_body"];
     M "83" "ATTITUDE_TARGET" [F "uint32_t" "time_boot_ms"; F "uint8_t" "type_mask"; F "float[4]" "q"; F "float" "body_roll_rate";
       F "float" "body_pitch_rate"; F "float" "body_yaw_rate"; F "float" "thrust"];
     M "84" "SET_POSITION_TARGET_LOCAL_NED" [F "uint32_t" "time_boot_ms"; F "uint8_t" "target_system"; F "uint8_t"
       "target_component"; F "uint8_t" "coordinate_frame"; F "uint16_t" "type_mask"; F "float" "x"; F "float" "y"; F "float" "z"; F
       "float" "vx"; F "float" "vy"; F "float" "vz"; F "float" "afx"; F "float" "afy"; F "float" "afz"; F "float" "yaw"; F "float"
       "yaw_rate"];
     M "85" "POSITION_TARGET_LOCAL_NED" [F "uint32_t" "time_boot_ms"; F "uint8_t" "coordinate_frame"; F "uint16_t" "type_mask"; F
       "float" "x"; F "float" "y"; F "float" "z"; F "float" "vx"; F "float" "vy"; F "float" "vz"; F "float" "afx"; F "float" "afy";
       F "float" "afz"; F "float" "yaw"; F "float" "yaw_rate"];
     M "86" "SET_POSITION_TARGET_GLOBAL_INT" [F "uint32_t" "time_boot_ms"; F "uint8_t" "target_system"; F "uint8_t"
       "target_component"; F "uint8_t" "coordinate_frame"; F "uint16_t" "type_mask"; F "int32_t" "lat_int"; F "int32_t" "lon_int"; F
       "float" "alt"; F "float" "vx"; F "float" "vy"; F "float" "vz"; F "float" "afx"; F "float" "afy"; F "float" "afz"; F "float"
       "yaw"; F "float" "yaw_rate"];
     M "87" "POSITION_TARGET_GLOBAL_INT" [F "uint32_t" "time_boot_ms"; F "uint8_t" "coordinate_frame"; F "uint16_t" "type_mask"; F
       "int32_t" "lat_int"; F "int32_t" "lon_int"; F "float" "alt"; F "float" "vx"; F "float" "vy"; F "float" "vz"; F "float" "afx";
       F "float" "afy"; F "float" "afz"; F "float" "yaw"; F "float" "yaw_rate"];
     M "89" "LOCAL_POSITION_NED_SYSTEM_GLOBAL_OFFSET" [F "uint32_t" "time_boot_ms"; F "float" "x"; F "float" "y"; F "float" "z"; F
       "float" "roll"; F "float" "pitch"; F "float" "yaw"];
     M "90" "HIL_STATE" [F "uint64_t" "time_usec"; F "float" "roll"; F "float" "pitch"; F "float" "yaw"; F "float" "rollspeed"; F
       "float" "pitchspeed"; F "float" "yawspeed"; F "int32_t" "lat"; F "int32_t" "lon"; F "int32_t" "alt"; F "int16_t" "vx"; F
       "int16_t" "vy"; F "int16_t" "vz"; F "int16_t" "xacc"; F "int16_t" "yacc"; F "int16_t" "zacc"];
     M "91" "HIL_CONTROLS" [F "uint64_t" "time_usec"; F "float" "roll_ailerons"; F "float" "pitch_elevator"; F "float"
       "yaw_rudder"; F "float" "throttle"; F "float" "aux1"; F "float" "aux2"; F "float" "aux3"; F "float" "aux4"; F "uint8_t"
       "mode"; F "uint8_t" "nav_mode"];
     M "92" "HIL_RC_INPUTS_RAW" [F "uint64_t" "time_usec"; F "uint16_t" "chan1_raw"; F "uint16_t" "chan2_raw"; F "uint16_t"
       "chan3_raw"; F "uint16_t" "chan4_raw"; F "uint16_t" "chan5_raw"; F "uint16_t" "chan6_raw"; F "uint16_t" "chan7_raw"; F
       "uint16_t" "chan8_raw"; F "uint16_t" "chan9_raw"; F "uint16_t" "chan10_raw"; F "uint16_t" "chan11_raw"; F "uint16_t"
       "chan12_raw"; F "uint8_t" "rssi"];
     M "93" "HIL_ACTUATOR_CONTROLS" [F "uint64_t" "time_usec"; F "float[16]" "controls"; F "uint8_t" "mode"; F "uint64_t" "flags"];
     M "100" "OPTICAL_FLOW" [F "uint64_t" "time_usec"; F "uint8_t" "sensor_id"; F "int16_t" "flow_x"; F "int16_t" "flow_y"; F
       "float" "flow_comp_m_x"; F "float" "flow_comp_m_y"; F "uint8_t" "quality"; F "float" "ground_distance"; Ext; F "float"
       "flow_rate_x"; F "float" "flow_rate_y"];
     M "101" "GLOBAL_VISION_POSITION_ESTIMATE" [F "uint64_t" "usec"; F "float" "x"; F "float" "y"; F "float" "z"; F "float"
       "roll"; F "float" "pitch"; F "float" "yaw"; Ext; F "float[21]" "covariance"; F "uint8_t" "reset_counter"];
     M "102" "VISION_POSITION_ESTIMATE" [F "uint64_t" "usec"; F "float" "x"; F "float" "y"; F "float" "z"; F "float" "roll"; F
       "float" "pitch"; F "float" "yaw"; Ext; F "float[21]" "covariance"; F "uint8_t" "reset_counter"];
     M "103" "VISION_SPEED_ESTIMATE" [F "uint64_t" "usec"; F "float" "x"; F "float" "y"; F "float" "z"; Ext; F "float[9]"
       "covariance"; F "uint8_t" "reset_counter"];
     M "104" "VICON_POSITION_ESTIMATE" [F "uint64_t" "usec"; F "float" "x"; F "float" "y"; F "float" "z"; F "float" "roll"; F
       "float" "pitch"; F "float" "yaw"; Ext; F "float[21]" "covariance"];
     M "105" "HIGHRES_IMU" [F "uint64_t" "time_usec"; F "float" "xacc"; F "float" "yacc"; F "float" "zacc"; F "float" "xgyro"; F
       "float" "ygyro"; F "float" "zgyro"; F "float" "xmag"; F "float" "ymag"; F "float" "zmag"; F "float" "abs_pressure"; F "float"
       "diff_pressure"; F "float" "pressure_alt"; F "float" "temperature"; F "uint16_t" "fields_updated"; Ext; F "uint8_t" "id"];
     M "106" "OPTICAL_FLOW_RAD" [F "uint64_t" "time_usec"; F "uint8_t" "sensor_id"; F "uint32_t" "integration_time_us"; F "float"
       "integrated_x"; F "float" "integrated_y"; F "float" "integrated_xgyro"; F "float" "integrated_ygyro"; F "float"
       "integrated_zgyro"; F "int16_t" "temperature"; F "uint8_t" "quality"; F "uint32_t" "time_delta_distance_us"; F "float"
       "distance"];
     M "107" "HIL_SENSOR" [F "uint64_t" "time_usec"; F "float" "xacc"; F "float" "yacc"; F "float" "zacc"; F "float" "xgyro"; F
       "float" "ygyro"; F "float" "zgyro"; F "float" "xmag"; F "float" "ymag"; F "float" "zmag"; F "float" "abs_pressure"; F "float"
       "diff_pressure"; F "float" "pressure_alt"; F "float" "temperature"; F "uint32_t" "fields_updated"; Ext; F "uint8_t" "id"];
     M "108" "SIM_STATE" [F "float" "q1"; F "float" "q2"; F "float" "q3"; F "float" "q4"; F "float" "roll"; F "float" "pitch"; F
       "float" "yaw"; F "float" "xacc"; F "float" "yacc"; F "float" "zacc"; F "float" "xgyro"; F "float" "ygyro"; F "float" "zgyro";
       F "float" "lat"; F "float" "lon"; F "float" "alt"; F "float" "std_dev_horz"; F "float" "std_dev_vert"; F "float" "vn"; F
       "float" "ve"; F "float" "vd"; Ext; F "int32_t" "lat_int"; F "int32_t" "lon_int"];
     M "109" "RADIO_STATUS" [F "uint8_t" "rssi"; F "uint8_t" "remrssi"; F "uint8_t" "txbuf"; F "uint8_t" "noise"; F "uint8_t"
       "remnoise"; F "uint16_t" "rxerrors"; F "uint16_t" "fixed"];
     M "110" "FILE_TRANSFER_PROTOCOL" [F "uint8_t" "target_network"; F "uint8_t" "target_system"; F "uint8_t" "target_component";
       F "uint8_t[251]" "payload"];
     M "111" "TIMESYNC" [F "int64_t" "tc1"; F "int64_t" "ts1"; Ext; F "uint8_t" "target_system"; F "uint8_t" "target_component"];
     M "112" "CAMERA_TRIGGER" [F "uint64_t" "time_usec"; F "uint32_t" "seq"];
     M "113" "HIL_GPS" [F "uint64_t" "time_usec"; F "uint8_t" "fix_type"; F "int32_t" "lat"; F "int32_t" "lon"; F "int32_t" "alt";
       F "uint16_t" "eph"; F "uint16_t" "epv"; F "uint16_t" "vel"; F "int16_t" "vn"; F "int16_t" "ve"; F "int16_t" "vd"; F
       "uint16_t" "cog"; F "uint8_t" "satellites_visible"; Ext; F "uint8_t" "id"; F "uint16_t" "yaw"];
     M "114" "HIL_OPTICAL_FLOW" [F "uint64_t" "time_usec"; F "uint8_t" "sensor_id"; F "uint32_t" "integration_time_us"; F "float"
       "integrated_x"; F "float" "integrated_y"; F "float" "integrated_xgyro"; F "float" "integrated_ygyro"; F "float"
       "integrated_zgyro"; F "int16_t" "temperature"; F "uint8_t" "quality"; F "uint32_t" "time_delta_distance_us"; F "float"
       "distance"];
     M "115" "HIL_STATE_QUATERNION" [F "uint64_t" "time_usec"; F "float[4]" "attitude_quaternion"; F "float" "rollspeed"; F
       "float" "pitchspeed"; F "float" "yawspeed"; F "int32_t" "lat"; F "int32_t" "lon"; F "int32_t" "alt"; F "int16_t" "vx"; F
       "int16_t" "vy"; F "int16_t" "vz"; F "uint16_t" "ind_airspeed"; F "uint16_t" "true_airspeed"; F "int16_t" "xacc"; F "int16_t"
       "yacc"; F "int16_t" "zacc"];
     M "116" "SCALED_IMU2" [F "uint32_t" "time_boot_ms"; F "int16_t" "xacc"; F "int16_t" "yacc"; F "int16_t" "zacc"; F "int16_t"
       "xgyro"; F "int16_t" "ygyro"; F "int16_t" "zgyro"; F "int16_t" "xmag"; F "int16_t" "ymag"; F "int16_t" "zmag"; Ext; F
       "int16_t" "temperature"];
     M "117" "LOG_REQUEST_LIST" [F "uint8_t" "target_system"; F "uint8_t" "target_component"; F "uint16_t" "start"; F "uint16_t"
       "end"];
     M "118" "LOG_ENTRY" [F "uint16_t" "id"; F "uint16_t" "num_logs"; F "uint16_t" "last_log_num"; F "uint32_t" "time_utc"; F
       "uint32_t" "size"];
     M "119" "LOG_REQUEST_DATA" [F "uint8_t" "target_system"; F "uint8_t" "target_component"; F "uint16_t" "id"; F "uint32_t"
       "ofs"; F "uint32_t" "count"];
     M "120" "LOG_DATA" [F "uint16_t" "id"; F "uint32_t" "ofs"; F "uint8_t" "count"; F "uint8_t[90]" "data"];
     M "121" "LOG_ERASE" [F "uint8_t" "target_system"; F "uint8_t" "target_component"];
     M "122" "LOG_REQUEST_END" [F "uint8_t" "target_system"; F "uint8_t" "target_component"];
     M "123" "GPS_INJECT_DATA" [F "uint8_t" "target_system"; F "uint8_t" "target_component"; F "uint8_t" "len"; F "uint8_t[110]"
       "data"];
     M "124" "GPS2_RAW" [F "uint64_t" "time_usec"; F "uint8_t" "fix_type"; F "int32_t" "lat"; F "int32_t" "lon"; F "int32_t"
       "alt"; F "uint16_t" "eph"; F "uint16_t" "epv"; F "uint16_t" "vel"; F "uint16_t" "cog"; F "uint8_t" "satellites_visible"; F
       "uint8_t" "dgps_numch"; F "uint32_t" "dgps_age"; Ext; F "uint16_t" "yaw"; F "int32_t" "alt_ellipsoid"; F "uint32_t" "h_acc";
       F "uint32_t" "v_acc"; F "uint32_t" "vel_acc"; F "uint32_t" "hdg_acc"];
     M "125" "POWER_STATUS" [F "uint16_t" "Vcc"; F "uint16_t" "Vservo"; F "uint16_t" "flags"];
     M "126" "SERIAL_CONTROL" [F "uint8_t" "device"; F "uint8_t" "flags"; F "uint16_t" "timeout"; F "uint32_t" "baudrate"; F
       "uint8_t" "count"; F "uint8_t[70]" "data"; Ext; F "uint8_t" "target_system"; F "uint8_t" "target_component"];
     M "127" "GPS_RTK" [F "uint32_t" "time_last_baseline_ms"; F "uint8_t" "rtk_receiver_id"; F "uint16_t" "wn"; F "uint32_t"
       "tow"; F "uint8_t" "rtk_health"; F "uint8_t" "rtk_rate"; F "uint8_t" "nsats"; F "uint8_t" "baseline_coords_type"; F "int32_t"
       "baseline_a_mm"; F "int32_t" "baseline_b_mm"; F "int32_t" "baseline_c_mm"; F "uint32_t" "accuracy"; F "int32_t"
       "iar_num_hypotheses"];
     M "128" "GPS2_RTK" [F "uint32_t" "time_last_baseline_ms"; F "uint8_t" "rtk_receiver_id"; F "uint16_t" "wn"; F "uint32_t"
       "tow"; F "uint8_t" "rtk_health"; F "uint8_t" "rtk_rate"; F "uint8_t" "nsats"; F "uint8_t" "baseline_coords_type"; F "int32_t"
       "baseline_a_mm"; F "int32_t" "baseline_b_mm"; F "int32_t" "baseline_c_mm"; F "uint32_t" "accuracy"; F "int32_t"
       "iar_num_hypotheses"];
     M "129" "SCALED_IMU3" [F "uint32_t" "time_boot_ms"; F "int16_t" "xacc"; F "int16_t" "yacc"; F "int16_t" "zacc"; F "int16_t"
       "xgyro"; F "int16_t" "ygyro"; F "int16_t" "zgyro"; F "int16_t" "xmag"; F "int16_t" "ymag"; F "int16_t" "zmag"; Ext; F
       "int16_t" "temperature"];
     M "130" "DATA_TRANSMISSION_HANDSHAKE" [F "uint8_t" "type"; F "uint32_t" "size"; F "uint16_t" "width"; F "uint16_t" "height";
       F "uint16_t" "packets"; F "uint8_t" "payload"; F "uint8_t" "jpg_quality"];
     M "131" "ENCAPSULATED_DATA" [F "uint16_t" "seqnr"; F "uint8_t[253]" "data"];
     M "132" "DISTANCE_SENSOR" [F "uint32_t" "time_boot_ms"; F "uint16_t" "min_distance"; F "uint16_t" "max_distance"; F
       "uint16_t" "current_distance"; F "uint8_t" "type"; F "uint8_t" "id"; F "uint8_t" "orientation"; F "uint8_t" "covariance";
       Ext; F "float" "horizontal_fov"; F "float" "vertical_fov"; F "float[4]" "quaternion"; F "uint8_t" "signal_quality"];
     M "133" "TERRAIN_REQUEST" [F "int32_t" "lat"; F "int32_t" "lon"; F "uint16_t" "grid_spacing"; F "uint64_t" "mask"];
     M "134" "TERRAIN_DATA" [F "int32_t" "lat"; F "int32_t" "lon"; F "uint16_t" "grid_spacing"; F "uint8_t" "gridbit"; F
       "int16_t[16]" "data"];
     M "135" "TERRAIN_CHECK" [F "int32_t" "lat"; F "int32_t" "lon"];
     M "136" "TERRAIN_REPORT" [F "int32_t" "lat"; F "int32_t" "lon"; F "uint16_t" "spacing"; F "float" "terrain_height"; F "float"
       "current_height"; F "uint16_t" "pending"; F "uint16_t" "loaded"];
     M "137" "SCALED_PRESSURE2" [F "uint32_t" "time_boot_ms"; F "float" "press_abs"; F "float" "press_diff"; F "int16_t"
       "temperature"; Ext; F "int16_t" "temperature_press_diff"];
     M "138" "ATT_POS_MOCAP" [F "uint64_t" "time_usec"; F "float[4]" "q"; F "float" "x"; F "float" "y"; F "float" "z"; Ext; F
       "float[21]" "covariance"];
     M "139" "SET_ACTUATOR_CONTROL_TARGET" [F "uint64_t" "time_usec"; F "uint8_t" "group_mlx"; F "uint8_t" "target_system"; F
       "uint8_t" "target_component"; F "float[8]" "controls"];
     M "140" "ACTUATOR_CONTROL_TARGET" [F "uint64_t" "time_usec"; F "uint8_t" "group_mlx"; F "float[8]" "controls"];
     M "141" "ALTITUDE" [F "uint64_t" "time_usec"; F "float" "altitude_monotonic"; F "float" "altitude_amsl"; F "float"
       "altitude_local"; F "float" "altitude_relative"; F "float" "altitude_terrain"; F "float" "bottom_clearance"];
     M "142" "RESOURCE_REQUEST" [F "uint8_t" "request_id"; F "uint8_t" "uri_type"; F "uint8_t[120]" "uri"; F "uint8_t"
       "transfer_type"; F "uint8_t[120]" "storage"];
     M "143" "SCALED_PRESSURE3" [F "uint32_t" "time_boot_ms"; F "float" "press_abs"; F "float" "press_diff"; F "int16_t"
       "temperature"; Ext; F "int16_t" "temperature_press_diff"];
     M "144" "FOLLOW_TARGET" [F "uint64_t" "timestamp"; F "uint8_t" "est_capabilities"; F "int32_t" "lat"; F "int32_t" "lon"; F
       "float" "alt"; F "float[3]" "vel"; F "float[3]" "acc"; F "float[4]" "attitude_q"; F "float[3]" "rates"; F "float[3]"
       "position_cov"; F "uint64_t" "custom_state"];
     M "146" "CONTROL_SYSTEM_STATE" [F "uint64_t" "time_usec"; F "float" "x_acc"; F "float" "y_acc"; F "float" "z_acc"; F "float"
       "x_vel"; F "float" "y_vel"; F "float" "z_vel"; F "float" "x_pos"; F "float" "y_pos"; F "float" "z_pos"; F "float" "airspeed";
       F "float[3]" "vel_variance"; F "float[3]" "pos_variance"; F "float[4]" "q"; F "float" "roll_rate"; F "float" "pitch_rate"; F
       "float" "yaw_rate"];
     M "147" "BATTERY_STATUS" [F "uint8_t" "id"; F "uint8_t" "battery_function"; F "uint8_t" "type"; F "int16_t" "temperature"; F
       "uint16_t[10]" "voltages"; F "int16_t" "current_battery"; F "int32_t" "current_consumed"; F "int32_t" "energy_consumed"; F
       "int8_t" "battery_remaining"; Ext; F "int32_t" "time_remaining"; F "uint8_t" "charge_state"; F "uint16_t[4]" "voltages_ext";
       F "uint8_t" "mode"; F "uint32_t" "fault_bitmask"];
     M "149" "LANDING_TARGET" [F "uint64_t" "time_usec"; F "uint8_t" "target_num"; F "uint8_t" "frame"; F "float" "angle_x"; F
       "float" "angle_y"; F "float" "distance"; F "float" "size_x"; F "float" "size_y"; Ext; F "float" "x"; F "float" "y"; F "float"
       "z"; F "float[4]" "q"; F "uint8_t" "type"; F "uint8_t" "position_valid"];
     M "162" "FENCE_STATUS" [F "uint8_t" "breach_status"; F "uint16_t" "breach_count"; F "uint8_t" "breach_type"; F "uint32_t"
       "breach_time"; Ext; F "uint8_t" "breach_mitigation"];
     M "192" "MAG_CAL_REPORT" [F "uint8_t" "compass_id"; F "uint8_t" "cal_mask"; F "uint8_t" "cal_status"; F "uint8_t"
       "autosaved"; F "float" "fitness"; F "float" "ofs_x"; F "float" "ofs_y"; F "float" "ofs_z"; F "float" "diag_x"; F "float"
       "diag_y"; F "float" "diag_z"; F "float" "offdiag_x"; F "float" "offdiag_y"; F "float" "offdiag_z"; Ext; F "float"
       "orientation_confidence"; F "uint8_t" "old_orientation"; F "uint8_t" "new_orientation"; F "float" "scale_factor"];
     M "225" "EFI_STATUS" [F "uint8_t" "health"; F "float" "ecu_index"; F "float" "rpm"; F "float" "fuel_consumed"; F "float"
       "fuel_flow"; F "float" "engine_load"; F "float" "throttle_position"; F "float" "spark_dwell_time"; F "float"
       "barometric_pressure"; F "float" "intake_manifold_pressure"; F "float" "intake_manifold_temperature"; F "float"
       "cylinder_head_temperature"; F "float" "ignition_timing"; F "float" "injection_time"; F "float" "exhaust_gas_temperature"; F
       "float" "throttle_out"; F "float" "pt_compensation"; Ext; F "float" "ignition_voltage"; F "float" "fuel_pressure"];
     M "230" "ESTIMATOR_STATUS" [F "uint64_t" "time_usec"; F "uint16_t" "flags"; F "float" "vel_ratio"; F "float"
       "pos_horiz_ratio"; F "float" "pos_vert_ratio"; F "float" "mag_ratio"; F "float" "hagl_ratio"; F "float" "tas_ratio"; F
       "float" "pos_horiz_accuracy"; F "float" "pos_vert_accuracy"];
     M "231" "WIND_COV" [F "uint64_t" "time_usec"; F "float" "wind_x"; F "float" "wind_y"; F "float" "wind_z"; F "float"
       "var_horiz"; F "float" "var_vert"; F "float" "wind_alt"; F "float" "horiz_accuracy"; F "float" "vert_accuracy"];
     M "232" "GPS_INPUT" [F "uint64_t" "time_usec"; F "uint8_t" "gps_id"; F "uint16_t" "ignore_flags"; F "uint32_t"
       "time_week_ms"; F "uint16_t" "time_week"; F "uint8_t" "fix_type"; F "int32_t" "lat"; F "int32_t" "lon"; F "float" "alt"; F
       "float" "hdop"; F "float" "vdop"; F "float" "vn"; F "float" "ve"; F "float" "vd"; F "float" "speed_accuracy"; F "float"
       "horiz_accuracy"; F "float" "vert_accuracy"; F "uint8_t" "satellites_visible"; Ext; F "uint16_t" "yaw"];
     M "233" "GPS_RTCM_DATA" [F "uint8_t" "flags"; F "uint8_t" "len"; F "uint8_t[180]" "data"];
     M "234" "HIGH_LATENCY" [F "uint8_t" "base_mode"; F "uint32_t" "custom_mode"; F "uint8_t" "landed_state"; F "int16_t" "roll";
       F "int16_t" "pitch"; F "uint16_t" "heading"; F "int8_t" "throttle"; F "int16_t" "heading_sp"; F "int32_t" "latitude"; F
       "int32_t" "longitude"; F "int16_t" "altitude_amsl"; F "int16_t" "altitude_sp"; F "uint8_t" "airspeed"; F "uint8_t"
       "airspeed_sp"; F "uint8_t" "groundspeed"; F "int8_t" "climb_rate"; F "uint8_t" "gps_nsat"; F "uint8_t" "gps_fix_type"; F
       "uint8_t" "battery_remaining"; F "int8_t" "temperature"; F "int8_t" "temperature_air"; F "uint8_t" "failsafe"; F "uint8_t"
       "wp_num"; F "uint16_t" "wp_distance"];
     M "235" "HIGH_LATENCY2" [F "uint32_t" "timestamp"; F "uint8_t" "type"; F "uint8_t" "autopilot"; F "uint16_t" "custom_mode"; F
       "int32_t" "latitude"; F "int32_t" "longitude"; F "int16_t" "altitude"; F "int16_t" "target_altitude"; F "uint8_t" "heading";
       F "uint8_t" "target_heading"; F "uint16_t" "target_distance"; F "uint8_t" "throttle"; F "uint8_t" "airspeed"; F "uint8_t"
       "airspeed_sp"; F "uint8_t" "groundspeed"; F "uint8_t" "windspeed"; F "uint8_t" "wind_heading"; F "uint8_t" "eph"; F "uint8_t"
       "epv"; F "int8_t" "temperature_air"; F "int8_t" "climb_rate"; F "int8_t" "battery"; F "uint16_t" "wp_num"; F "uint16_t"
       "failure_flags"; F "int8_t" "custom0"; F "int8_t" "custom1"; F "int8_t" "custom2"];
     M "241" "VIBRATION" [F "uint64_t" "time_usec"; F "float" "vibration_x"; F "float" "vibration_y"; F "float" "vibration_z"; F
       "uint32_t" "clipping_0"; F "uint32_t" "clipping_1"; F "uint32_t" "clipping_2"];
     M "242" "HOME_POSITION" [F "int32_t" "latitude"; F "int32_t" "longitude"; F "int32_t" "altitude"; F "float" "x"; F "float"
       "y"; F "float" "z"; F "float[4]" "q"; F "float" "approach_x"; F "float" "approach_y"; F "float" "approach_z"; Ext; F
       "uint64_t" "time_usec"];
     M "243" "SET_HOME_POSITION" [F "uint8_t" "target_system"; F "int32_t" "latitude"; F "int32_t" "longitude"; F "int32_t"
       "altitude"; F "float" "x"; F "float" "y"; F "float" "z"; F "float[4]" "q"; F "float" "approach_x"; F "float" "approach_y"; F
       "float" "approach_z"; Ext; F "uint64_t" "time_usec"];
     M "244" "MESSAGE_INTERVAL" [F "uint16_t" "message_id"; F "int32_t" "interval_us"];
     M "245" "EXTENDED_SYS_STATE" [F "uint8_t" "vtol_state"; F "uint8_t" "landed_state"];
     M "246" "ADSB_VEHICLE" [F "uint32_t" "ICAO_address"; F "int32_t" "lat"; F "int32_t" "lon"; F "uint8_t" "altitude_type"; F
       "int32_t" "altitude"; F "uint16_t" "heading"; F "uint16_t" "hor_velocity"; F "int16_t" "ver_velocity"; F "char[9]"
       "callsign"; F "uint8_t" "emitter_type"; F "uint8_t" "tslc"; F "uint16_t" "flags"; F "uint16_t" "squawk"];
     M "247" "COLLISION" [F "uint8_t" "src"; F "uint32_t" "id"; F "uint8_t" "action"; F "uint8_t" "threat_level"; F "float"
       "time_to_minimum_delta"; F "float" "altitude_minimum_delta"; F "float" "horizontal_minimum_delta"];
     M "248" "V2_EXTENSION" [F "uint8_t" "target_network"; F "uint8_t" "target_system"; F "uint8_t" "target_component"; F
       "uint16_t" "message_type"; F "uint8_t[249]" "payload"];
     M "249" "MEMORY_VECT" [F "uint16_t" "address"; F "uint8_t" "ver"; F "uint8_t" "type"; F "int8_t[32]" "value"];
     M "250" "DEBUG_VECT" [F "char[10]" "name"; F "uint64_t" "time_usec"; F "float" "x"; F "float" "y"; F "float" "z"];
     M "251" "NAMED_VALUE_FLOAT" [F "uint32_t" "time_boot_ms"; F "char[10]" "name"; F "float" "value"];
     M "252" "NAMED_VALUE_INT" [F "uint32_t" "time_boot_ms"; F "char[10]" "name"; F "int32_t" "value"];
     M "253" "STATUSTEXT" [F "uint8_t" "severity"; F "char[50]" "text"; Ext; F "uint16_t" "id"; F "uint8_t" "chunk_seq"];
     M "254" "DEBUG" [F "uint32_t" "time_boot_ms"; F "uint8_t" "ind"; F "float" "value"];
     M "256" "SETUP_SIGNING" [F "uint8_t" "target_system"; F "uint8_t" "target_component"; F "uint8_t[32]" "secret_key"; F
       "uint64_t" "initial_timestamp"];
     M "257" "BUTTON_CHANGE" [F "uint32_t" "time_boot_ms"; F "uint32_t" "last_change_ms"; F "uint8_t" "state"];
     M "258" "PLAY_TUNE" [F "uint8_t" "target_system"; F "uint8_t" "target_component"; F "char[30]" "tune"; Ext; F "char[200]"
       "tune2"];
     M "259" "CAMERA_INFORMATION" [F "uint32_t" "time_boot_ms"; F "uint8_t[32]" "vendor_name"; F "uint8_t[32]" "model_name"; F
       "uint32_t" "firmware_version"; F "float" "focal_length"; F "float" "sensor_size_h"; F "float" "sensor_size_v"; F "uint16_t"
       "resolution_h"; F "uint16_t" "resolution_v"; F "uint8_t" "lens_id"; F "uint32_t" "flags"; F "uint16_t"
       "cam_definition_version"; F "char[140]" "cam_definition_uri"; Ext; F "uint8_t" "gimbal_device_id"; F "uint8_t"
       "camera_device_id"];
     M "260" "CAMERA_SETTINGS" [F "uint32_t" "time_boot_ms"; F "uint8_t" "mode_id"; Ext; F "float" "zoomLevel"; F "float"
       "focusLevel"; F "uint8_t" "camera_device_id"];
     M "261" "STORAGE_INFORMATION" [F "uint32_t" "time_boot_ms"; F "uint8_t" "storage_id"; F "uint8_t" "storage_count"; F
       "uint8_t" "status"; F "float" "total_capacity"; F "float" "used_capacity"; F "float" "available_capacity"; F "float"
       "read_speed"; F "float" "write_speed"; Ext; F "uint8_t" "type"; F "char[32]" "name"; F "uint8_t" "storage_usage"];
     M "262" "CAMERA_CAPTURE_STATUS" [F "uint32_t" "time_boot_ms"; F "uint8_t" "image_status"; F "uint8_t" "video_status"; F
       "float" "image_interval"; F "uint32_t" "recording_time_ms"; F "float" "available_capacity"; Ext; F "int32_t" "image_count"; F
       "uint8_t" "camera_device_id"];
     M "263" "CAMERA_IMAGE_CAPTURED" [F "uint32_t" "time_boot_ms"; F "uint64_t" "time_utc"; F "uint8_t" "camera_id"; F "int32_t"
       "lat"; F "int32_t" "lon"; F "int32_t" "alt"; F "int32_t" "relative_alt"; F "float[4]" "q"; F "int32_t" "image_index"; F
       "int8_t" "capture_result"; F "char[205]" "file_url"];
     M "264" "FLIGHT_INFORMATION" [F "uint32_t" "time_boot_ms"; F "uint64_t" "arming_time_utc"; F "uint64_t" "takeoff_time_utc"; F
       "uint64_t" "flight_uuid"; Ext; F "uint32_t" "landing_time"];
     M "265" "MOUNT_ORIENTATION" [F "uint32_t" "time_boot_ms"; F "float" "roll"; F "float" "pitch"; F "float" "yaw"; Ext; F
       "float" "yaw_absolute"];
     M "266" "LOGGING_DATA" [F "uint8_t" "target_system"; F "uint8_t" "target_component"; F "uint16_t" "sequence"; F "uint8_t"
       "length"; F "uint8_t" "first_message_offset"; F "uint8_t[249]" "data"];
     M "267" "LOGGING_DATA_ACKED" [F "uint8_t" "target_system"; F "uint8_t" "target_component"; F "uint16_t" "sequence"; F
       "uint8_t" "length"; F "uint8_t" "first_message_offset"; F "uint8_t[249]" "data"];
     M "268" "LOGGING_ACK" [F "uint8_t" "target_system"; F "uint8_t" "target_component"; F "uint16_t" "sequence"];
     M "269" "VIDEO_STREAM_INFORMATION" [F "uint8_t" "stream_id"; F "uint8_t" "count"; F "uint8_t" "type"; F "uint16_t" "flags"; F
       "float" "framerate"; F "uint16_t" "resolution_h"; F "uint16_t" "resolution_v"; F "uint32_t" "bitrate"; F "uint16_t"
       "rotation"; F "uint16_t" "hfov"; F "char[32]" "name"; F "char[160]" "uri"; Ext; F "uint8_t" "encoding"; F "uint8_t"
       "camera_device_id"];
     M "270" "VIDEO_STREAM_STATUS" [F "uint8_t" "stream_id"; F "uint16_t" "flags"; F "float" "framerate"; F "uint16_t"
       "resolution_h"; F "uint16_t" "resolution_v"; F "uint32_t" "bitrate"; F "uint16_t" "rotation"; F "uint16_t" "hfov"; Ext; F
       "uint8_t" "camera_device_id"];
     M "271" "CAMERA_FOV_STATUS" [F "uint32_t" "time_boot_ms"; F "int32_t" "lat_camera"; F "int32_t" "lon_camera"; F "int32_t"
       "alt_camera"; F "int32_t" "lat_image"; F "int32_t" "lon_image"; F "int32_t" "alt_image"; F "float[4]" "q"; F "float" "hfov";
       F "float" "vfov"; Ext; F "uint8_t" "camera_device_id"];
     M "275" "CAMERA_TRACKING_IMAGE_STATUS" [F "uint8_t" "tracking_status"; F "uint8_t" "tracking_mode"; F "uint8_t"
       "target_data"; F "float" "point_x"; F "float" "point_y"; F "float" "radius"; F "float" "rec_top_x"; F "float" "rec_top_y"; F
       "float" "rec_bottom_x"; F "float" "rec_bottom_y"; Ext; F "uint8_t" "camera_device_id"];
     M "276" "CAMERA_TRACKING_GEO_STATUS" [F "uint8_t" "tracking_status"; F "int32_t" "lat"; F "int32_t" "lon"; F "float" "alt"; F
       "float" "h_acc"; F "float" "v_acc"; F "float" "vel_n"; F "float" "vel_e"; F "float" "vel_d"; F "float" "vel_acc"; F "float"
       "dist"; F "float" "hdg"; F "float" "hdg_acc"; Ext; F "uint8_t" "camera_device_id"];
     M "277" "CAMERA_THERMAL_RANGE" [F "uint32_t" "time_boot_ms"; F "uint8_t" "stream_id"; F "uint8_t" "camera_device_id"; F
       "float" "max"; F "float" "max_point_x"; F "float" "max_point_y"; F "float" "min"; F "float" "min_point_x"; F "float"
       "min_point_y"];
     M "280" "GIMBAL_MANAGER_INFORMATION" [F "uint32_t" "time_boot_ms"; F "uint32_t" "cap_flags"; F "uint8_t" "gimbal_device_id";
       F "float" "roll_min"; F "float" "roll_max"; F "float" "pitch_min"; F "float" "pitch_max"; F "float" "yaw_min"; F "float"
       "yaw_max"];
     M "281" "GIMBAL_MANAGER_STATUS" [F "uint32_t" "time_boot_ms"; F "uint32_t" "flags"; F "uint8_t" "gimbal_device_id"; F
       "uint8_t" "primary_control_sysid"; F "uint8_t" "primary_control_compid"; F "uint8_t" "secondary_control_sysid"; F "uint8_t"
       "secondary_control_compid"];
     M "282" "GIMBAL_MANAGER_SET_ATTITUDE" [F "uint8_t" "target_system"; F "uint8_t" "target_component"; F "uint32_t" "flags"; F
       "uint8_t" "gimbal_device_id"; F "float[4]" "q"; F "float" "angular_velocity_x"; F "float" "angular_velocity_y"; F "float"
       "angular_velocity_z"];
     M "283" "GIMBAL_DEVICE_INFORMATION" [F "uint32_t" "time_boot_ms"; F "char[32]" "vendor_name"; F "char[32]" "model_name"; F
       "char[32]" "custom_name"; F "uint32_t" "firmware_version"; F "uint32_t" "hardware_version"; F "uint64_t" "uid"; F "uint16_t"
       "cap_flags"; F "uint16_t" "custom_cap_flags"; F "float" "roll_min"; F "float" "roll_max"; F "float" "pitch_min"; F "float"
       "pitch_max"; F "float" "yaw_min"; F "float" "yaw_max"; Ext; F "uint8_t" "gimbal_device_id"; F "uint32_t" "cap_flags2"];
     M "284" "GIMBAL_DEVICE_SET_ATTITUDE" [F "uint8_t" "target_system"; F "uint8_t" "target_component"; F "uint16_t" "flags"; F
       "float[4]" "q"; F "float" "angular_velocity_x"; F "float" "angular_velocity_y"; F "float" "angular_velocity_z"];
     M "285" "GIMBAL_DEVICE_ATTITUDE_STATUS" [F "uint8_t" "target_system"; F "uint8_t" "target_component"; F "uint32_t"
       "time_boot_ms"; F "uint16_t" "flags"; F "float[4]" "q"; F "float" "angular_velocity_x"; F "float" "angular_velocity_y"; F
       "float" "angular_velocity_z"; F "uint32_t" "failure_flags"; Ext; F "float" "delta_yaw"; F "float" "delta_yaw_velocity"; F
       "uint8_t" "gimbal_device_id"];
     M "286" "AUTOPILOT_STATE_FOR_GIMBAL_DEVICE" [F "uint8_t" "target_system"; F "uint8_t" "target_component"; F "uint64_t"
       "time_boot_us"; F "float[4]" "q"; F "uint32_t" "q_estimated_delay_us"; F "float" "vx"; F "float" "vy"; F "float" "vz"; F
       "uint32_t" "v_estimated_delay_us"; F "float" "feed_forward_angular_velocity_z"; F "uint16_t" "estimator_status"; F "uint8_t"
       "landed_state"; Ext; F "float" "angular_velocity_z"];
     M "287" "GIMBAL_MANAGER_SET_PITCHYAW" [F "uint8_t" "target_system"; F "uint8_t" "target_component"; F "uint32_t" "flags"; F
       "uint8_t" "gimbal_device_id"; F "float" "pitch"; F "float" "yaw"; F "float" "pitch_rate"; F "float" "yaw_rate"];
     M "288" "GIMBAL_MANAGER_SET_MANUAL_CONTROL" [F "uint8_t" "target_system"; F "uint8_t" "target_component"; F "uint32_t"
       "flags"; F "uint8_t" "gimbal_device_id"; F "float" "pitch"; F "float" "yaw"; F "float" "pitch_rate"; F "float" "yaw_rate"];
     M "290" "ESC_INFO" [F "uint8_t" "index"; F "uint64_t" "time_usec"; F "uint16_t" "counter"; F "uint8_t" "count"; F "uint8_t"
       "connection_type"; F "uint8_t" "info"; F "uint16_t[4]" "failure_flags"; F "uint32_t[4]" "error_count"; F "int16_t[4]"
       "temperature"];
     M "291" "ESC_STATUS" [F "uint8_t" "index"; F "uint64_t" "time_usec"; F "int32_t[4]" "rpm"; F "float[4]" "voltage"; F
       "float[4]" "current"];
     M "295" "AIRSPEED" [F "uint8_t" "id"; F "float" "airspeed"; F "int16_t" "temperature"; F "float" "raw_press"; F "uint8_t"
       "flags"];
     M "296" "GLOBAL_POSITION_SENSOR" [F "uint8_t" "target_system"; F "uint8_t" "target_component"; F "uint8_t" "id"; F "uint64_t"
       "time_usec"; F "uint32_t" "processing_time"; F "uint8_t" "source"; F "uint8_t" "flags"; F "int32_t" "lat"; F "int32_t" "lon";
       F "float" "alt_ellipsoid"; F "float" "alt"; F "float" "eph"; F "float" "epv"];
     M "299" "WIFI_CONFIG_AP" [F "char[32]" "ssid"; F "char[64]" "password"; Ext; F "int8_t" "mode"; F "int8_t" "response"];
     M "300" "PROTOCOL_VERSION" [F "uint16_t" "version"; F "uint16_t" "min_version"; F "uint16_t" "max_version"; F "uint8_t[8]"
       "spec_version_hash"; F "uint8_t[8]" "library_version_hash"];
     M "301" "AIS_VESSEL" [F "uint32_t" "MMSI"; F "int32_t" "lat"; F "int32_t" "lon"; F "uint16_t" "COG"; F "uint16_t" "heading";
       F "uint16_t" "velocity"; F "int8_t" "turn_rate"; F "uint8_t" "navigational_status"; F "uint8_t" "type"; F "uint16_t"
       "dimension_bow"; F "uint16_t" "dimension_stern"; F "uint8_t" "dimension_port"; F "uint8_t" "dimension_starboard"; F "char[7]"
       "callsign"; F "char[20]" "name"; F "uint16_t" "tslc"; F "uint16_t" "flags"];
     M "310" "UAVCAN_NODE_STATUS" [F "uint64_t" "time_usec"; F "uint32_t" "uptime_sec"; F "uint8_t" "health"; F "uint8_t" "mode";
       F "uint8_t" "sub_mode"; F "uint16_t" "vendor_specific_status_code"];
     M "311" "UAVCAN_NODE_INFO" [F "uint64_t" "time_usec"; F "uint32_t" "uptime_sec"; F "char[80]" "name"; F "uint8_t"
       "hw_version_major"; F "uint8_t" "hw_version_minor"; F "uint8_t[16]" "hw_unique_id"; F "uint8_t" "sw_version_major"; F
       "uint8_t" "sw_version_minor"; F "uint32_t" "sw_vcs_commit"];
     M "320" "PARAM_EXT_REQUEST_READ" [F "uint8_t" "target_system"; F "uint8_t" "target_component"; F "char[16]" "param_id"; F
       "int16_t" "param_index"];
     M "321" "PARAM_EXT_REQUEST_LIST" [F "uint8_t" "target_system"; F "uint8_t" "target_component"];
     M "322" "PARAM_EXT_VALUE" [F "char[16]" "param_id"; F "char[128]" "param_value"; F "uint8_t" "param_type"; F "uint16_t"
       "param_count"; F "uint16_t" "param_index"];
     M "323" "PARAM_EXT_SET" [F "uint8_t" "target_system"; F "uint8_t" "target_component"; F "char[16]" "param_id"; F "char[128]"
       "param_value"; F "uint8_t" "param_type"];
     M "324" "PARAM_EXT_ACK" [F "char[16]" "param_id"; F "char[128]" "param_value"; F "uint8_t" "param_type"; F "uint8_t"
       "param_result"];
     M "330" "OBSTACLE_DISTANCE" [F "uint64_t" "time_usec"; F "uint8_t" "sensor_type"; F "uint16_t[72]" "distances"; F "uint8_t"
       "increment"; F "uint16_t" "min_distance"; F "uint16_t" "max_distance"; Ext; F "float" "increment_f"; F "float"
       "angle_offset"; F "uint8_t" "frame"];
     M "331" "ODOMETRY" [F "uint64_t" "time_usec"; F "uint8_t" "frame_id"; F "uint8_t" "child_frame_id"; F "float" "x"; F "float"
       "y"; F "float" "z"; F "float[4]" "q"; F "float" "vx"; F "float" "vy"; F "float" "vz"; F "float" "rollspeed"; F "float"
       "pitchspeed"; F "float" "yawspeed"; F "float[21]" "pose_covariance"; F "float[21]" "velocity_covariance"; Ext; F "uint8_t"
       "reset_counter"; F "uint8_t" "estimator_type"; F "int8_t" "quality"];
     M "332" "TRAJECTORY_REPRESENTATION_WAYPOINTS" [F "uint64_t" "time_usec"; F "uint8_t" "valid_points"; F "float[5]" "pos_x"; F
       "float[5]" "pos_y"; F "float[5]" "pos_z"; F "float[5]" "vel_x"; F "float[5]" "vel_y"; F "float[5]" "vel_z"; F "float[5]"
       "acc_x"; F "float[5]" "acc_y"; F "float[5]" "acc_z"; F "float[5]" "pos_yaw"; F "float[5]" "vel_yaw"; F "uint16_t[5]"
       "command"];
     M "333" "TRAJECTORY_REPRESENTATION_BEZIER" [F "uint64_t" "time_usec"; F "uint8_t" "valid_points"; F "float[5]" "pos_x"; F
       "float[5]" "pos_y"; F "float[5]" "pos_z"; F "float[5]" "delta"; F "float[5]" "pos_yaw"];
     M "334" "CELLULAR_STATUS" [F "uint8_t" "status"; F "uint8_t" "failure_reason"; F "uint8_t" "type"; F "uint8_t" "quality"; F
       "uint16_t" "mcc"; F "uint16_t" "mnc"; F "uint16_t" "lac"];
     M "335" "ISBD_LINK_STATUS" [F "uint64_t" "timestamp"; F "uint64_t" "last_heartbeat"; F "uint16_t" "failed_sessions"; F
       "uint16_t" "successful_sessions"; F "uint8_t" "signal_quality"; F "uint8_t" "ring_pending"; F "uint8_t" "tx_session_pending";
       F "uint8_t" "rx_session_pending"];
     M "336" "CELLULAR_CONFIG" [F "uint8_t" "enable_lte"; F "uint8_t" "enable_pin"; F "char[16]" "pin"; F "char[16]" "new_pin"; F
       "char[32]" "apn"; F "char[16]" "puk"; F "uint8_t" "roaming"; F "uint8_t" "response"];
     M "339" "RAW_RPM" [F "uint8_t" "index"; F "float" "frequency"];
     M "340" "UTM_GLOBAL_POSITION" [F "uint64_t" "time"; F "uint8_t[18]" "uas_id"; F "int32_t" "lat"; F "int32_t" "lon"; F
       "int32_t" "alt"; F "int32_t" "relative_alt"; F "int16_t" "vx"; F "int16_t" "vy"; F "int16_t" "vz"; F "uint16_t" "h_acc"; F
       "uint16_t" "v_acc"; F "uint16_t" "vel_acc"; F "int32_t" "next_lat"; F "int32_t" "next_lon"; F "int32_t" "next_alt"; F
       "uint16_t" "update_rate"; F "uint8_t" "flight_state"; F "uint8_t" "flags"];
     M "345" "PARAM_ERROR" [F "uint8_t" "target_system"; F "uint8_t" "target_component"; F "char[16]" "param_id"; F "int16_t"
       "param_index"; F "uint8_t" "error"];
     M "350" "DEBUG_FLOAT_ARRAY" [F "uint64_t" "time_usec"; F "char[10]" "name"; F "uint16_t" "array_id"; Ext; F "float[58]"
       "data"];
     M "360" "ORBIT_EXECUTION_STATUS" [F "uint64_t" "time_usec"; F "float" "radius"; F "uint8_t" "frame"; F "int32_t" "x"; F
       "int32_t" "y"; F "float" "z"];
     M "370" "SMART_BATTERY_INFO" [F "uint8_t" "id"; F "uint8_t" "battery_function"; F "uint8_t" "type"; F "int32_t"
       "capacity_full_specification"; F "int32_t" "capacity_full"; F "uint16_t" "cycle_count"; F "char[16]" "serial_number"; F
       "char[50]" "device_name"; F "uint16_t" "weight"; F "uint16_t" "discharge_minimum_voltage"; F "uint16_t"
       "charging_minimum_voltage"; F "uint16_t" "resting_minimum_voltage"; Ext; F "uint16_t" "charging_maximum_voltage"; F "uint8_t"
       "cells_in_series"; F "uint32_t" "discharge_maximum_current"; F "uint32_t" "discharge_maximum_burst_current"; F "char[11]"
       "manufacture_date"];
     M "361" "FIGURE_EIGHT_EXECUTION_STATUS" [F "uint64_t" "time_usec"; F "float" "major_radius"; F "float" "minor_radius"; F
       "float" "orientation"; F "uint8_t" "frame"; F "int32_t" "x"; F "int32_t" "y"; F "float" "z"];
     M "371" "FUEL_STATUS" [F "uint8_t" "id"; F "float" "maximum_fuel"; F "float" "consumed_fuel"; F "float" "remaining_fuel"; F
       "uint8_t" "percent_remaining"; F "float" "flow_rate"; F "float" "temperature"; F "uint32_t" "fuel_type"];
     M "372" "BATTERY_INFO" [F "uint8_t" "id"; F "uint8_t" "battery_function"; F "uint8_t" "type"; F "uint8_t" "state_of_health";
       F "uint8_t" "cells_in_series"; F "uint16_t" "cycle_count"; F "uint16_t" "weight"; F "float" "discharge_minimum_voltage"; F
       "float" "charging_minimum_voltage"; F "float" "resting_minimum_voltage"; F "float" "charging_maximum_voltage"; F "float"
       "charging_maximum_current"; F "float" "nominal_voltage"; F "float" "discharge_maximum_current"; F "float"
       "discharge_maximum_burst_current"; F "float" "design_capacity"; F "float" "full_charge_capacity"; F "char[9]"
       "manufacture_date"; F "char[32]" "serial_number"; F "char[50]" "name"];
     M "373" "GENERATOR_STATUS" [F "uint64_t" "status"; F "uint16_t" "generator_speed"; F "float" "battery_current"; F "float"
       "load_current"; F "float" "power_generated"; F "float" "bus_voltage"; F "int16_t" "rectifier_temperature"; F "float"
       "bat_current_setpoint"; F "int16_t" "generator_temperature"; F "uint32_t" "runtime"; F "int32_t" "time_until_maintenance"];
     M "375" "ACTUATOR_OUTPUT_STATUS" [F "uint64_t" "time_usec"; F "uint32_t" "active"; F "float[32]" "actuator"];
     M "376" "RELAY_STATUS" [F "uint32_t" "time_boot_ms"; F "uint16_t" "on"; F "uint16_t" "present"];
     M "380" "TIME_ESTIMATE_TO_TARGET" [F "int32_t" "safe_return"; F "int32_t" "land"; F "int32_t" "mission_next_item"; F
       "int32_t" "mission_end"; F "int32_t" "commanded_action"];
     M "385" "TUNNEL" [F "uint8_t" "target_system"; F "uint8_t" "target_component"; F "uint16_t" "payload_type"; F "uint8_t"
       "payload_length"; F "uint8_t[128]" "payload"];
     M "386" "CAN_FRAME" [F "uint8_t" "target_system"; F "uint8_t" "target_component"; F "uint8_t" "bus"; F "uint8_t" "len"; F
       "uint32_t" "id"; F "uint8_t[8]" "data"];
     M "390" "ONBOARD_COMPUTER_STATUS" [F "uint64_t" "time_usec"; F "uint32_t" "uptime"; F "uint8_t" "type"; F "uint8_t[8]"
       "cpu_cores"; F "uint8_t[10]" "cpu_combined"; F "uint8_t[4]" "gpu_cores"; F "uint8_t[10]" "gpu_combined"; F "int8_t"
       "temperature_board"; F "int8_t[8]" "temperature_core"; F "int16_t[4]" "fan_speed"; F "uint32_t" "ram_usage"; F "uint32_t"
       "ram_total"; F "uint32_t[4]" "storage_type"; F "uint32_t[4]" "storage_usage"; F "uint32_t[4]" "storage_total"; F
       "uint32_t[6]" "link_type"; F "uint32_t[6]" "link_tx_rate"; F "uint32_t[6]" "link_rx_rate"; F "uint32_t[6]" "link_tx_max"; F
       "uint32_t[6]" "link_rx_max"; Ext; F "uint16_t" "status_flags"];
     M "395" "COMPONENT_INFORMATION" [F "uint32_t" "time_boot_ms"; F "uint32_t" "general_metadata_file_crc"; F "char[100]"
       "general_metadata_uri"; F "uint32_t" "peripherals_metadata_file_crc"; F "char[100]" "peripherals_metadata_uri"];
     M "396" "COMPONENT_INFORMATION_BASIC" [F "uint32_t" "time_boot_ms"; F "uint64_t" "capabilities"; F "uint32_t"
       "time_manufacture_s"; F "char[32]" "vendor_name"; F "char[32]" "model_name"; F "char[24]" "software_version"; F "char[24]"
       "hardware_version"; F "char[32]" "serial_number"];
     M "397" "COMPONENT_METADATA" [F "uint32_t" "time_boot_ms"; F "uint32_t" "file_crc"; F "char[100]" "uri"];
     M "400" "PLAY_TUNE_V2" [F "uint8_t" "target_system"; F "uint8_t" "target_component"; F "uint32_t" "format"; F "char[248]"
       "tune"];
     M "401" "SUPPORTED_TUNES" [F "uint8_t" "target_system"; F "uint8_t" "target_component"; F "uint32_t" "format"];
     M "410" "EVENT" [F "uint8_t" "destination_component"; F "uint8_t" "destination_system"; F "uint32_t" "id"; F "uint32_t"
       "event_time_boot_ms"; F "uint16_t" "sequence"; F "uint8_t" "log_levels"; F "uint8_t[40]" "arguments"];
     M "411" "CURRENT_EVENT_SEQUENCE" [F "uint16_t" "sequence"; F "uint8_t" "flags"];
     M "412" "REQUEST_EVENT" [F "uint8_t" "target_system"; F "uint8_t" "target_component"; F "uint16_t" "first_sequence"; F
       "uint16_t" "last_sequence"];
     M "413" "RESPONSE_EVENT_ERROR" [F "uint8_t" "target_system"; F "uint8_t" "target_component"; F "uint16_t" "sequence"; F
       "uint16_t" "sequence_oldest_available"; F "uint8_t" "reason"];
     M "435" "AVAILABLE_MODES" [F "uint8_t" "number_modes"; F "uint8_t" "mode_index"; F "uint8_t" "standard_mode"; F "uint32_t"
       "custom_mode"; F "uint32_t" "properties"; F "char[35]" "mode_name"];
     M "436" "CURRENT_MODE" [F "uint8_t" "standard_mode"; F "uint32_t" "custom_mode"; F "uint32_t" "intended_custom_mode"];
     M "437" "AVAILABLE_MODES_MONITOR" [F "uint8_t" "seq"];
     M "440" "ILLUMINATOR_STATUS" [F "uint32_t" "uptime_ms"; F "uint8_t" "enable"; F "uint8_t" "mode_bitmask"; F "uint32_t"
       "error_status"; F "uint8_t" "mode"; F "float" "brightness"; F "float" "strobe_period"; F "float" "strobe_duty_cycle"; F
       "float" "temp_c"; F "float" "min_strobe_period"; F "float" "max_strobe_period"];
     M "387" "CANFD_FRAME" [F "uint8_t" "target_system"; F "uint8_t" "target_component"; F "uint8_t" "bus"; F "uint8_t" "len"; F
       "uint32_t" "id"; F "uint8_t[64]" "data"];
     M "388" "CAN_FILTER_MODIFY" [F "uint8_t" "target_system"; F "uint8_t" "target_component"; F "uint8_t" "bus"; F "uint8_t"
       "operation"; F "uint8_t" "num_ids"; F "uint16_t[16]" "ids"];
     M "9000" "WHEEL_DISTANCE" [F "uint64_t" "time_usec"; F "uint8_t" "count"; F "double[16]" "distance"];
     M "9005" "WINCH_STATUS" [F "uint64_t" "time_usec"; F "float" "line_length"; F "float" "speed"; F "float" "tension"; F "float"
       "voltage"; F "float" "current"; F "int16_t" "temperature"; F "uint32_t" "status"];
     M "12900" "OPEN_DRONE_ID_BASIC_ID" [F "uint8_t" "target_system"; F "uint8_t" "target_component"; F "uint8_t[20]" "id_or_mac";
       F "uint8_t" "id_type"; F "uint8_t" "ua_type"; F "uint8_t[20]" "uas_id"];
     M "12901" "OPEN_DRONE_ID_LOCATION" [F "uint8_t" "target_system"; F "uint8_t" "target_component"; F "uint8_t[20]" "id_or_mac";
       F "uint8_t" "status"; F "uint16_t" "direction"; F "uint16_t" "speed_horizontal"; F "int16_t" "speed_vertical"; F "int32_t"
       "latitude"; F "int32_t" "longitude"; F "float" "altitude_barometric"; F "float" "altitude_geodetic"; F "uint8_t"
       "height_reference"; F "float" "height"; F "uint8_t" "horizontal_accuracy"; F "uint8_t" "vertical_accuracy"; F "uint8_t"
       "barometer_accuracy"; F "uint8_t" "speed_accuracy"; F "float" "timestamp"; F "uint8_t" "timestamp_accuracy"];
     M "12902" "OPEN_DRONE_ID_AUTHENTICATION" [F "uint8_t" "target_system"; F "uint8_t" "target_component"; F "uint8_t[20]"
       "id_or_mac"; F "uint8_t" "authentication_type"; F "uint8_t" "data_page"; F "uint8_t" "last_page_index"; F "uint8_t" "length";
       F "uint32_t" "timestamp"; F "uint8_t[23]" "authentication_data"];
     M "12903" "OPEN_DRONE_ID_SELF_ID" [F "uint8_t" "target_system"; F "uint8_t" "target_component"; F "uint8_t[20]" "id_or_mac";
       F "uint8_t" "description_type"; F "char[23]" "description"];
     M "12904" "OPEN_DRONE_ID_SYSTEM" [F "uint8_t" "target_system"; F "uint8_t" "target_component"; F "uint8_t[20]" "id_or_mac"; F
       "uint8_t" "operator_location_type"; F "uint8_t" "classification_type"; F "int32_t" "operator_latitude"; F "int32_t"
       "operator_longitude"; F "uint16_t" "area_count"; F "uint16_t" "area_radius"; F "float" "area_ceiling"; F "float"
       "area_floor"; F "uint8_t" "category_eu"; F "uint8_t" "class_eu"; F "float" "operator_altitude_geo"; F "uint32_t" "timestamp"];
     M "12905" "OPEN_DRONE_ID_OPERATOR_ID" [F "uint8_t" "target_system"; F "uint8_t" "target_component"; F "uint8_t[20]"
       "id_or_mac"; F "uint8_t" "operator_id_type"; F "char[20]" "operator_id"];
     M "12915" "OPEN_DRONE_ID_MESSAGE_PACK" [F "uint8_t" "target_system"; F "uint8_t" "target_component"; F "uint8_t[20]"
       "id_or_mac"; F "uint8_t" "single_message_size"; F "uint8_t" "msg_pack_size"; F "uint8_t[225]" "messages"];
     M "12918" "OPEN_DRONE_ID_ARM_STATUS" [F "uint8_t" "status"; F "char[50]" "error"];
     M "12919" "OPEN_DRONE_ID_SYSTEM_UPDATE" [F "uint8_t" "target_system"; F "uint8_t" "target_component"; F "int32_t"
       "operator_latitude"; F "int32_t" "operator_longitude"; F "float" "operator_altitude_geo"; F "uint32_t" "timestamp"];
     M "12920" "HYGROMETER_SENSOR" [F "uint8_t" "id"; F "int16_t" "temperature"; F "uint16_t" "humidity"]] |}.

Definition csAirLink_xml : dialect_file :=
  {| d_includes := []; d_messages :=
    [
     M "52000" "AIRLINK_AUTH" [F "char[50]" "login"; F "char[50]" "password"];
     M "52001" "AIRLINK_AUTH_RESPONSE" [F "uint8_t" "resp_type"]] |}.

Definition cubepilot_xml : dialect_file :=
  {| d_includes := ["common.xml"]; d_messages :=
    [
     M "50001" "CUBEPILOT_RAW_RC" [F "uint8_t[32]" "rc_raw"];
     M "50002" "HERELINK_VIDEO_STREAM_INFORMATION" [F "uint8_t" "camera_id"; F "uint8_t" "status"; F "float" "framerate"; F
       "uint16_t" "resolution_h"; F "uint16_t" "resolution_v"; F "uint32_t" "bitrate"; F "uint16_t" "rotation"; F "char[230]" "uri"];
     M "50003" "HERELINK_TELEM" [F "uint8_t" "rssi"; F "int16_t" "snr"; F "uint32_t" "rf_freq"; F "uint32_t" "link_bw"; F
       "uint32_t" "link_rate"; F "int16_t" "cpu_temp"; F "int16_t" "board_temp"];
     M "50004" "CUBEPILOT_FIRMWARE_UPDATE_START" [F "uint8_t" "target_system"; F "uint8_t" "target_component"; F "uint32_t"
       "size"; F "uint32_t" "crc"];
     M "50005" "CUBEPILOT_FIRMWARE_UPDATE_RESP" [F "uint8_t" "target_system"; F "uint8_t" "target_component"; F "uint32_t"
       "offset"]] |}.

Definition icarous_xml : dialect_file :=
  {| d_includes := []; d_messages :=
    [
     M "42000" "ICAROUS_HEARTBEAT" [F "uint8_t" "status"];
     M "42001" "ICAROUS_KINEMATIC_BANDS" [F "int8_t" "numBands"; F "uint8_t" "type1"; F "float" "min1"; F "float" "max1"; F
       "uint8_t" "type2"; F "float" "min2"; F "float" "max2"; F "uint8_t" "type3"; F "float" "min3"; F "float" "max3"; F "uint8_t"
       "type4"; F "float" "min4"; F "float" "max4"; F "uint8_t" "type5"; F "float" "min5"; F "float" "max5"]] |}.

Definition loweheiser_xml : dialect_file :=
  {| d_includes := ["minimal.xml"]; d_messages :=
    [
     M "10151" "LOWEHEISER_GOV_EFI" [F "float" "volt_batt"; F "float" "curr_batt"; F "float" "curr_gen"; F "float" "curr_rot"; F
       "float" "fuel_level"; F "float" "throttle"; F "uint32_t" "runtime"; F "int32_t" "until_maintenance"; F "float"
       "rectifier_temp"; F "float" "generator_temp"; F "float" "efi_batt"; F "float" "efi_rpm"; F "float" "efi_pw"; F "float"
       "efi_fuel_flow"; F "float" "efi_fuel_consumed"; F "float" "efi_baro"; F "float" "efi_mat"; F "float" "efi_clt"; F "float"
       "efi_tps"; F "float" "efi_exhaust_gas_temperature"; F "uint8_t" "efi_index"; F "uint16_t" "generator_status"; F "uint16_t"
       "efi_status"]] |}.

Definition minimal_xml : dialect_file :=
  {| d_includes := []; d_messages :=
    [
     M "0" "HEARTBEAT" [F "uint8_t" "type"; F "uint8_t" "autopilot"; F "uint8_t" "base_mode"; F "uint32_t" "custom_mode"; F
       "uint8_t" "system_status"; F "uint8_t_mavlink_version" "mavlink_version"]] |}.

Definition standard_xml : dialect_file :=
  {| d_includes := ["minimal.xml"]; d_messages :=
    [
     M "33" "GLOBAL_POSITION_INT" [F "uint32_t" "time_boot_ms"; F "int32_t" "lat"; F "int32_t" "lon"; F "int32_t" "alt"; F
       "int32_t" "relative_alt"; F "int16_t" "vx"; F "int16_t" "vy"; F "int16_t" "vz"; F "uint16_t" "hdg"];
     M "148" "AUTOPILOT_VERSION" [F "uint64_t" "capabilities"; F "uint32_t" "flight_sw_version"; F "uint32_t"
       "middleware_sw_version"; F "uint32_t" "os_sw_version"; F "uint32_t" "board_version"; F "uint8_t[8]" "flight_custom_version";
       F "uint8_t[8]" "middleware_custom_version"; F "uint8_t[8]" "os_custom_version"; F "uint16_t" "vendor_id"; F "uint16_t"
       "product_id"; F "uint64_t" "uid"; Ext; F "uint8_t[18]" "uid2"]] |}.

Definition uAvionix_xml : dialect_file :=
  {| d_includes := ["common.xml"]; d_messages :=
    [
     M "10001" "UAVIONIX_ADSB_OUT_CFG" [F "uint32_t" "ICAO"; F "char[9]" "callsign"; F "uint8_t" "emitterType"; F "uint8_t"
       "aircraftSize"; F "uint8_t" "gpsOffsetLat"; F "uint8_t" "gpsOffsetLon"; F "uint16_t" "stallSpeed"; F "uint8_t" "rfSelect"];
     M "10002" "UAVIONIX_ADSB_OUT_DYNAMIC" [F "uint32_t" "utcTime"; F "int32_t" "gpsLat"; F "int32_t" "gpsLon"; F "int32_t"
       "gpsAlt"; F "uint8_t" "gpsFix"; F "uint8_t" "numSats"; F "int32_t" "baroAltMSL"; F "uint32_t" "accuracyHor"; F "uint16_t"
       "accuracyVert"; F "uint16_t" "accuracyVel"; F "int16_t" "velVert"; F "int16_t" "velNS"; F "int16_t" "VelEW"; F "uint8_t"
       "emergencyStatus"; F "uint16_t" "state"; F "uint16_t" "squawk"];
     M "10003" "UAVIONIX_ADSB_TRANSCEIVER_HEALTH_REPORT" [F "uint8_t" "rfHealth"];
     M "10004" "UAVIONIX_ADSB_OUT_CFG_REGISTRATION" [F "char[9]" "registration"];
     M "10005" "UAVIONIX_ADSB_OUT_CFG_FLIGHTID" [F "char[9]" "flight_id"];
     M "10006" "UAVIONIX_ADSB_GET" [F "uint32_t" "ReqMessageId"];
     M "10007" "UAVIONIX_ADSB_OUT_CONTROL" [F "uint8_t" "state"; F "int32_t" "baroAltMSL"; F "uint16_t" "squawk"; F "uint8_t"
       "emergencyStatus"; F "char[8]" "flight_id"; F "uint8_t" "x_bit"];
     M "10008" "UAVIONIX_ADSB_OUT_STATUS" [F "uint8_t" "state"; F "uint16_t" "squawk"; F "uint8_t" "NIC_NACp"; F "uint8_t"
       "boardTemp"; F "uint8_t" "fault"; F "char[8]" "flight_id"]] |}.

(** The vendored directory, by file name. *)
Definition vendored : list (string * dialect_file) :=
  [("ardupilotmega.xml", ardupilotmega_xml);
   ("common.xml", common_xml);
   ("csAirLink.xml", csAirLink_xml);
   ("cubepilot.xml", cubepilot_xml);
   ("icarous.xml", icarous_xml);
   ("loweheiser.xml", loweheiser_xml);
   ("minimal.xml", minimal_xml);
   ("standard.xml", standard_xml);
   ("uAvionix.xml", uAvionix_xml)].
