(* ===== verification/Dialect.v ===== *)
(** * The table of the vendored dialects ([src/build.rs] on [src/vendor/mavlink])

    The build script run on the dialect files of [Vendored]: which parts of an XML file can
    reach the table ([strip], [parse_xml_strip]), that the table does not depend on the order
    in which the hash map yields its entries ([build_main_order]), and the table itself,
    [table], as an instance of the interface the framer and the router are proved against. *)

From Stdlib Require Import Sorted.
From stdpp Require Import sorting.
From S2P Require Import Prelude RustStr Crc Frame MsgTable BuildTable BuildProps Vendored.
#[local] Open Scope string_scope.
#[local] Open Scope Z_scope.

(** ** What [parse_xml] reads of a file *)

Definition read_attr (kv : string * string) : bool :=
  String.eqb kv.1 "id" || String.eqb kv.1 "name" || String.eqb kv.1 "type".
Definition read_inner (tag : string) : bool := String.eqb tag "extensions" || String.eqb tag "field".
Definition read_outer (tag : string) : bool := String.eqb tag "include" || String.eqb tag "message".

(** The events without those [parse_xml] passes over: other elements (enums, descriptions),
    other attributes (units, enum names), the text outside an [include], comments. *)
Fixpoint strip (in_include : bool) (events : list xml_event) : list xml_event :=
  match events with
  | [] => []
  | XStart tag attrs :: rest =>
      let rest := strip (in_include || String.eqb tag "include") rest in
      if read_inner tag || read_outer tag then XStart tag (List.filter read_attr attrs) :: rest else rest
  | XEmpty tag attrs :: rest =>
      if read_inner tag then XEmpty tag (List.filter read_attr attrs) :: strip in_include rest else strip in_include rest
  | XText text :: rest =>
      if in_include && negb (str_is_empty (trim text)) then XText text :: strip in_include rest else strip in_include rest
  | XEnd tag :: rest =>
      let rest := strip (in_include && negb (String.eqb tag "include")) rest in
      if read_outer tag then XEnd tag :: rest else rest
  | XOther :: rest => strip in_include rest
  | XEof :: _ => [XEof]
  | XError :: _ => [XError]
  end%list.

Lemma parse_msg_attrs_strip attrs id name :
  parse_msg_attrs (List.filter read_attr attrs) id name = parse_msg_attrs attrs id name.
Proof.
  revert id name; induction attrs as [|[k v] attrs IH]; intros id name; [done|]. cbn [List.filter parse_msg_attrs].
  unfold read_attr; cbn [fst].
  destruct (String.eqb k "id") eqn:E1; cbn [orb parse_msg_attrs]; rewrite ?E1; [destruct (parse_uint _ _); [apply IH|done]|].
  destruct (String.eqb k "name") eqn:E2; cbn [orb parse_msg_attrs]; rewrite ?E1, ?E2; [apply IH|].
  destruct (String.eqb k "type") eqn:E3; cbn [orb parse_msg_attrs]; rewrite ?E1, ?E2; apply IH.
Qed.

Lemma parse_field_attrs_strip attrs t n :
  parse_field_attrs (List.filter read_attr attrs) t n = parse_field_attrs attrs t n.
Proof.
  revert t n; induction attrs as [|[k v] attrs IH]; intros t n; [done|]. cbn [List.filter parse_field_attrs].
  unfold read_attr; cbn [fst].
  destruct (String.eqb k "id") eqn:E1; destruct (String.eqb k "name") eqn:E2; destruct (String.eqb k "type") eqn:E3;
    cbn [orb parse_field_attrs]; rewrite ?E2, ?E3; apply IH.
Qed.

Lemma xml_inner_strip tag attrs st : xml_inner tag (List.filter read_attr attrs) st = xml_inner tag attrs st.
Proof. unfold xml_inner, push_field. by rewrite parse_field_attrs_strip. Qed.

Lemma xml_inner_skip tag attrs st : read_inner tag = false -> xml_inner tag attrs st = Done st.
Proof. unfold read_inner, xml_inner. intros [-> ->]%orb_false_iff. done. Qed.

Lemma xml_inner_include tag attrs st st' : xml_inner tag attrs st = Done st' -> x_in_include st' = x_in_include st.
Proof. unfold xml_inner. repeat case_match; intros; simplify_eq; done. Qed.

Lemma parse_xml_loop_strip events st :
  parse_xml_loop (strip (x_in_include st) events) st = parse_xml_loop events st.
Proof.
  revert st; induction events as [|ev events IH]; intros st; [done|]. destruct ev as [tag attrs|tag attrs|text|tag| | |]; cbn [strip parse_xml_loop].
  - unfold read_outer. destruct (String.eqb tag "include") eqn:E1.
    { rewrite !orb_true_r. cbn [parse_xml_loop]. rewrite E1, <- IH. done. }
    rewrite orb_false_r. destruct (String.eqb tag "message") eqn:E2.
    { rewrite orb_true_r. cbn [parse_xml_loop]. rewrite E1, E2, parse_msg_attrs_strip.
      destruct (parse_msg_attrs attrs 0 "") as [[id name]| |]; [|done|done]. by rewrite <- IH. }
    rewrite orb_false_r. destruct (read_inner tag) eqn:E3.
    + cbn [parse_xml_loop]. rewrite E1, E2, xml_inner_strip. destruct (xml_inner tag attrs st) as [st'| |] eqn:E; [|done|done].
      by rewrite <- IH, <- (xml_inner_include _ _ _ _ E).
    + rewrite xml_inner_skip by done. apply IH.
  - destruct (read_inner tag) eqn:E3.
    + cbn [parse_xml_loop]. rewrite xml_inner_strip. destruct (xml_inner tag attrs st) as [st'| |] eqn:E; [|done|done].
      by rewrite <- IH, <- (xml_inner_include _ _ _ _ E).
    + rewrite xml_inner_skip by done. apply IH.
  - destruct (x_in_include st && negb (str_is_empty (trim text))) eqn:E.
    + cbn [parse_xml_loop]. rewrite E, <- IH. done.
    + apply IH.
  - unfold read_outer. destruct (String.eqb tag "include") eqn:E1.
    { cbn [orb parse_xml_loop]. rewrite E1, andb_false_r, <- IH. done. }
    cbn [negb]. rewrite andb_true_r. destruct (String.eqb tag "message") eqn:E2; cbn [orb parse_xml_loop].
    + rewrite E1, E2, <- IH. by destruct (x_current_msg st).
    + apply IH.
  - done.
  - apply IH.
  - done.
Qed.

(** [parse_xml] returns the same for a file and for what [strip] keeps of it. *)
Lemma parse_xml_strip events : parse_xml (strip false events) = parse_xml events.
Proof. unfold parse_xml. by rewrite <- (parse_xml_loop_strip events). Qed.

(** ** The table does not depend on the hash map's order *)

Lemma sort_by_key_unique {A} (l1 l2 : list (Z * A)) :
  NoDup l1.*1 -> l1 ≡ₚ l2 -> sort_by_key fst l1 = sort_by_key fst l2.
Proof.
  intros Hnd Hp. assert (Hs : sort_by_key fst l1 ≡ₚ sort_by_key fst l2) by by rewrite !sort_by_key_perm.
  eapply (StronglySorted_unique_strong (fun a b => a.1 <= b.1)); [|apply sort_by_key_sorted|apply sort_by_key_sorted|exact Hs].
  intros [k1 v1] [k2 v2] H1 H2 Hle Hge. cbn in *. assert (k1 = k2) as -> by lia. f_equal.
  rewrite sort_by_key_perm in H1, H2. rewrite <- Hp in H2.
  pose proof (proj1 (list_elem_of_lookup _ _) H1) as [i Hi]. pose proof (proj1 (list_elem_of_lookup _ _) H2) as [j Hj].
  assert (i = j) as ->; [|congruence]. eapply (NoDup_lookup l1.*1); [done| |].
  - rewrite list_lookup_fmap, Hi. reflexivity.
  - rewrite list_lookup_fmap, Hj. reflexivity.
Qed.

Lemma build_main_order files canonicalize canonical_dialect iter :
  (forall m, iter m ≡ₚ map_to_list m) ->
  build_main files canonicalize canonical_dialect iter = build_main files canonicalize canonical_dialect map_to_list.
Proof.
  intros Hiter. unfold build_main. destruct (load_dialects files canonicalize canonical_dialect DIALECTS ∅) as [entries| |]; [|done|done].
  rewrite (sort_by_key_unique (iter entries) (map_to_list entries)); [done| |apply Hiter].
  rewrite Hiter. apply NoDup_fst_map_to_list.
Qed.

(** ** The vendored files *)

Definition element_event (e : element) : xml_event :=
  match e with
  | F type_name field_name => XStart "field" [("type", type_name); ("name", field_name)]
  | Ext => XEmpty "extensions" []
  end%list.
Definition message_events (m : message_element) : list xml_event :=
  (XStart "message" [("id", e_id m); ("name", e_name m)] :: map element_event (e_body m) ++ [XEnd "message"])%list.
Definition include_events (inc : string) : list xml_event := [XStart "include" []; XText inc; XEnd "include"]%list.
Definition dialect_events (d : dialect_file) : list xml_event :=
  (flat_map include_events (d_includes d) ++ flat_map message_events (d_messages d) ++ [XEof])%list.

(** The files are stored by name, in one directory without links: an include next to the
    file that names it is the file of that name. *)
Definition vendored_files : gmap string (list xml_event) :=
  list_to_map (map (fun file => (file.1, dialect_events file.2)) vendored).
Definition vendored_path (name : string) : option string :=
  if bool_decide (name ∈ map fst vendored) then Some name else None.
Definition vendored_build (iter : gmap Z MsgEntryGen -> list (Z * MsgEntryGen)) : outcome (list (Z * MsgEntry)) :=
  build_main vendored_files (fun _ => vendored_path) vendored_path iter.

(** [generated::SORTED], computed from the vendored files. *)
Definition table :=
  Eval vm_compute in match vendored_build map_to_list with Done rows => rows | _ => []%list end.

Lemma vendored_build_computed : vendored_build map_to_list = Done table.
Proof. vm_cast_no_check (eq_refl (Done table : outcome (list (Z * MsgEntry)))). Qed.

Lemma vendored_build_eq iter : (forall m, iter m ≡ₚ map_to_list m) -> vendored_build iter = Done table.
Proof. intros Hiter. unfold vendored_build. rewrite build_main_order by done. apply vendored_build_computed. Qed.

#[export] Instance vendored_table : MsgTable := table.
#[export] Instance vendored_table_ok : MsgTableOk.
Proof.
  pose proof (build_main_good vendored_files (fun _ => vendored_path) vendored_path map_to_list (fun m => Permutation_refl _)) as Hb.
  change (build_main _ _ _ _) with (vendored_build map_to_list) in Hb. rewrite vendored_build_computed in Hb. apply Hb.
Qed.

(** ** The rows, as MAVLink's serialization rules give them

    Written from the format's definition, with none of the build script's code: the fields
    before the [extensions] marker go on the wire larger element types first and otherwise in
    declaration order; the seed of a message is the CRC-16/MCRF4XX, bit by bit, of its name and
    of the element type, name and array length of each field in that order, folded to a byte;
    a target field is a scalar [uint8_t] of that name. *)

Record spec_field := { sf_type : string; sf_size : Z; sf_length : option Z; sf_name : string }.

Definition type_sizes : list (string * Z) :=
  [("uint64_t", 8); ("int64_t", 8); ("double", 8); ("uint32_t", 4); ("int32_t", 4); ("float", 4);
   ("uint16_t", 2); ("int16_t", 2); ("uint8_t", 1); ("int8_t", 1); ("char", 1)]%list.

(** [name], [name\[len\]]; the version field is a [uint8_t] on the wire. *)
Fixpoint split_type (t : string) : string * string :=
  match t with
  | EmptyString => ("", "")
  | String c rest => if Ascii.eqb c (Ascii.ascii_of_nat 91) then ("", rest) else let '(name, len) := split_type rest in (String c name, len)
  end.
Fixpoint decimal (acc : Z) (s : string) : Z :=
  match s with
  | EmptyString => acc
  | String c rest =>
      let d := Z.of_N (Ascii.N_of_ascii c) - 48 in if (0 <=? d) && (d <=? 9) then decimal (10 * acc + d) rest else acc
  end.
Definition spec_field_of (e : element) : option spec_field :=
  match e with
  | Ext => None
  | F t n =>
      let '(name, len) := split_type t in
      let name := if String.eqb name "uint8_t_mavlink_version" then "uint8_t" else name in
      size ← List.find (fun ts => String.eqb ts.1 name) type_sizes;
      Some {| sf_type := name; sf_size := size.2; sf_length := if String.eqb len "" then None else Some (decimal 0 len); sf_name := n |}
  end.

Fixpoint spec_fields (body : list element) : list spec_field :=
  match body with
  | F t n :: rest => (option_list (spec_field_of (F t n)) ++ spec_fields rest)%list
  | _ => []%list
  end.
Definition on_the_wire (fields : list spec_field) : list spec_field :=
  flat_map (fun size => List.filter (fun f => sf_size f =? size) fields) [8; 4; 2; 1]%list.

Definition field_text (f : spec_field) : list Z :=
  (as_bytes (sf_type f) ++ [32] ++ as_bytes (sf_name f) ++ [32] ++ option_list (sf_length f))%list.
Definition spec_crc_extra (m : message_element) : Z :=
  let text := (as_bytes (e_name m) ++ [32] ++ flat_map field_text (on_the_wire (spec_fields (e_body m))))%list in
  let crc := foldl crc_bitwise 0xFFFF text in Z.lxor (crc mod 256) (crc / 256).

Definition field_bytes (f : spec_field) : Z := sf_size f * default 1 (sf_length f).
Fixpoint spec_offset (name : string) (pos : Z) (fields : list spec_field) : option Z :=
  match fields with
  | [] => None
  | f :: rest =>
      match spec_offset name (pos + field_bytes f) rest with
      | Some o => Some o
      | None => if String.eqb (sf_name f) name && String.eqb (sf_type f) "uint8_t" && bool_decide (sf_length f = None) then Some pos else None
      end
  end%list.
Definition spec_row (m : message_element) : Z * MsgEntry :=
  (decimal 0 (e_id m),
   {| crc_extra := spec_crc_extra m;
      target_sys_offset := spec_offset "target_system" 0 (on_the_wire (spec_fields (e_body m)));
      target_comp_offset := spec_offset "target_component" 0 (on_the_wire (spec_fields (e_body m))) |}).

Definition vendored_messages : list message_element := flat_map (fun file => d_messages file.2) vendored.
#[local] Instance MsgEntry_eq_dec : EqDecision MsgEntry.
Proof. solve_decision. Defined.
Definition has_row (m : message_element) : bool := bool_decide (lookup_msg (spec_row m).1 = Some (spec_row m).2).
Definition has_message (rows : list (Z * MsgEntry)) (row : Z * MsgEntry) : bool := existsb (fun row' => bool_decide (row' = row)) rows.
(** Every field is read: none has a type, a length or a place that the rules do not give. *)
Definition all_read (m : message_element) : bool :=
  forallb (fun e => match e with F _ _ => bool_decide (is_Some (spec_field_of e)) | Ext => true end) (e_body m).

Lemma all_rows : forallb has_row vendored_messages = true.
Proof. vm_compute. reflexivity. Qed.
Lemma all_messages : forallb (has_message (map spec_row vendored_messages)) table = true.
Proof. vm_compute. reflexivity. Qed.
Lemma all_fields : forallb all_read vendored_messages = true.
Proof. vm_compute. reflexivity. Qed.
Lemma table_length : length table = 325%nat.
Proof. reflexivity. Qed.
(** The values the crate's tests give for some messages, as MAVLink publishes them: HEARTBEAT,
    SYS_STATUS, PING, CHANGE_OPERATOR_CONTROL, PARAM_REQUEST_LIST, ATTITUDE, COMMAND_LONG. *)
Definition published : list (Z * MsgEntry) :=
  [(0, {| crc_extra := 50; target_sys_offset := None; target_comp_offset := None |});
   (1, {| crc_extra := 124; target_sys_offset := None; target_comp_offset := None |});
   (4, {| crc_extra := 237; target_sys_offset := Some 12; target_comp_offset := Some 13 |});
   (5, {| crc_extra := 217; target_sys_offset := Some 0; target_comp_offset := None |});
   (21, {| crc_extra := 159; target_sys_offset := Some 0; target_comp_offset := Some 1 |});
   (30, {| crc_extra := 39; target_sys_offset := None; target_comp_offset := None |});
   (76, {| crc_extra := 152; target_sys_offset := Some 30; target_comp_offset := Some 31 |})]%list.
Lemma published_rows : forallb (fun row => bool_decide (lookup_msg row.1 = Some row.2)) published = true.
Proof. vm_compute. reflexivity. Qed.
#[local] Opaque table vendored_messages vendored_table.

(** C36. The table shipped with the program.  On the nine vendored dialect files the build
    script ends with [table] whatever order its hash map yields the entries in, and every row
    of it is right: each vendored message has a row under its id with the CRC seed and the two
    target offsets that MAVLink's serialization rules ([spec_row], independent of the build
    script) give its declaration, every field being of a type the rules know, and every row is
    that of a vendored message: 325 of them, none lost and none invented.  Among them are the
    published values of HEARTBEAT (50) and of the other messages in [published].  The table
    satisfies the interface the framer and the router rely on. *)
Theorem vendored_table_exact iter :
  (forall m, iter m ≡ₚ map_to_list m) ->
  vendored_build iter = Done table /\ MsgTableOk (H := table) /\ length table = 325%nat /\
  (forall m, m ∈ vendored_messages -> lookup_msg (spec_row m).1 = Some (spec_row m).2 /\ all_read m = true) /\
  (forall row, row ∈ table -> exists m, m ∈ vendored_messages /\ spec_row m = row) /\
  (forall row, row ∈ published -> lookup_msg row.1 = Some row.2).
Proof.
  intros Hiter. split_and!; [by apply vendored_build_eq|apply vendored_table_ok|apply table_length|..].
  - intros m Hm%list_elem_of_In. split; [|exact (proj1 (forallb_forall _ _) all_fields m Hm)].
    exact (proj1 (bool_decide_eq_true _) (proj1 (forallb_forall _ _) all_rows m Hm)).
  - intros row Hrow%list_elem_of_In. pose proof (proj1 (forallb_forall _ _) all_messages row Hrow) as Hr.
    apply existsb_exists in Hr as (row' & (m & Hm & Hin)%in_map_iff & He%bool_decide_eq_true).
    exists m. split; [by apply list_elem_of_In|congruence].
  - intros row Hrow%list_elem_of_In. exact (proj1 (bool_decide_eq_true _) (proj1 (forallb_forall _ _) published_rows row Hrow)).
Qed.

Lemma vendored_table_exact_witness : vendored_build map_to_list = Done table.
Proof. exact (proj1 (vendored_table_exact map_to_list (fun m => Permutation_refl _))). Defined.
