(* ===== verification/Testing.v ===== *)
(** * Unit tests as computations

    The files [Test*.v] translate the unit tests of the crate (the [#[cfg(test)]] modules
    under [src/src/]) to computations on the model: a test is a boolean, [true] when every
    assertion of the test holds and nothing it runs panics.  Each module of tests has the
    theorem that all of them hold; a test that quantifies over its inputs (a [proptest]) is a
    function of them and is proved for every input, not sampled.

    [expect p := e in k] is [let p = e.expect(..)] or a call that must not panic: any other
    outcome fails the test.  [x == y] is the comparison of [assert_eq!]. *)

From S2P Require Import Prelude.

Declare Scope test_scope.
Delimit Scope test_scope with test.

Notation "'expect' p := e 'in' k" :=
  (match e with p => k | _ => false end)
  (at level 10, p pattern at level 200, e at level 200, k at level 200) : test_scope.
Notation "x == y" := (bool_decide (x = y)) (at level 70, no associativity) : test_scope.

#[global] Instance outcome_eq_dec `{EqDecision A} : EqDecision (outcome A).
Proof. solve_decision. Defined.
#[global] Instance result_eq_dec `{EqDecision A, EqDecision E} : EqDecision (result A E).
Proof. solve_decision. Defined.

(** Every test of a module. *)
Definition all_pass (tests : list bool) : bool := forallb (fun test => test) tests.

(** [b"..."] *)
Definition bytes_of (s : string) : list Z :=
  map (fun c => Z.of_nat (Ascii.nat_of_ascii c)) (String.list_ascii_of_string s).

(** [x.to_le_bytes()] of an [n]-byte integer. *)
Fixpoint to_le_bytes (n : nat) (x : Z) : list Z :=
  match n with
  | O => []
  | S n' => wrap 8 x :: to_le_bytes n' (Z.shiftr x 8)
  end.

(** [vec[i] = v], in range. *)
Definition set_byte (i : nat) (f : Z -> Z) (l : list Z) : list Z := alter f i l.

Ltac run_tests := vm_compute; reflexivity.

(** ** Tests that drive mutable state

    A test body as a state transformer that fails at the first assertion that does not
    hold; the notations are stdpp's ([x ← m; k] and [m ;; k]). *)

Definition script (S A : Type) : Type := S -> option (A * S).
#[global] Instance script_ret S : MRet (script S) := fun A a s => Some (a, s).
#[global] Instance script_bind S : MBind (script S) :=
  fun A B k m s => match m s with Some (a, s) => k a s | None => None end.

Section Script.
Context {S : Type}.

Definition act {A} (f : S -> A * S) : script S A := fun s => Some (f s).
Definition assert (b : bool) : script S unit := fun s => if b then Some (tt, s) else None.
(** Read the state, or run a function on it. *)
Definition observe_state {A} (f : S -> A) : script S A := fun s => Some (f s, s).
Definition modify (f : S -> S) : script S unit := fun s => Some (tt, f s).
(** [.expect(..)] on an option. *)
Definition unwrap {A} (o : option A) : script S A := fun s => match o with Some a => Some (a, s) | None => None end.
Fixpoint for_each {A} (l : list A) (body : A -> script S unit) : script S unit :=
  match l with
  | [] => mret tt
  | a :: rest => body a ;; for_each rest body
  end.
Definition run_script {A} (m : script S A) (s : S) : bool := match m s with Some _ => true | None => false end.
End Script.
