(* ===== verification/TestMavlink.v ===== *)
(** * The tests of the wire layer ([src/src/mavlink/crc.rs], [msgid_table.rs], [framer.rs])

    The tests run on [Dialect.table], the table built from the vendored dialects.  The two
    property tests of the framer are proved for every input, with sharper bounds. *)

From S2P Require Import Prelude Testing Crc Frame MsgTable Framer FramerSpec FramerProps FramerWire Dialect.
#[local] Open Scope string_scope.
#[local] Open Scope list_scope.
#[local] Open Scope Z_scope.
#[local] Open Scope test_scope.

(** ** [src/src/mavlink/crc.rs] *)
Module CrcTests.
Definition streaming_matches_one_shot : bool :=
  let crc := Crc16_update_slice Crc16_new (bytes_of "123456789") in
  Crc16_finalize crc == 0x6F91.

Definition streaming_byte_by_byte : bool :=
  let crc := foldl Crc16_update Crc16_new (bytes_of "123456789") in
  Crc16_finalize crc == 0x6F91.

Definition empty_returns_init : bool :=
  let crc := Crc16_new in
  Crc16_finalize crc == 0xFFFF.

Theorem crc_tests_pass : all_pass [streaming_matches_one_shot; streaming_byte_by_byte; empty_returns_init] = true.
Proof. run_tests. Qed.
End CrcTests.

(** ** [src/src/mavlink/msgid_table.rs] *)
Module MsgIdTableTests.
Definition heartbeat : bool :=
  expect Some entry := lookup_msg 0 in
  (crc_extra entry == 50) && (target_sys_offset entry == None) && (target_comp_offset entry == None).

Definition sys_status : bool :=
  expect Some entry := lookup_msg 1 in
  (crc_extra entry == 124) && (target_sys_offset entry == None).

Definition ping_target_offsets : bool :=
  expect Some entry := lookup_msg 4 in
  (crc_extra entry == 237) && (target_sys_offset entry == Some 12) && (target_comp_offset entry == Some 13).

Definition attitude : bool :=
  expect Some entry := lookup_msg 30 in
  (crc_extra entry == 39) && (target_sys_offset entry == None).

Definition unknown_msgid_returns_none : bool :=
  expect None := lookup_msg 0x00FFFFFF in true.

(** The loop of the test, [prev] its local. *)
Fixpoint ascending_from (prev : option Z) (rows : list (Z * MsgEntry)) : bool :=
  match rows with
  | [] => true
  | (id, _) :: rest =>
      match prev with Some prev_id => prev_id <? id | None => true end && ascending_from (Some id) rest
  end.
Definition sorted_invariant : bool := ascending_from None SORTED.

Definition table_is_nonempty : bool := (200 <? length SORTED)%nat.

Definition param_request_list_targets_at_start : bool :=
  expect Some entry := lookup_msg 21 in
  (target_sys_offset entry == Some 0) && (target_comp_offset entry == Some 1).

Definition command_long_targets : bool :=
  expect Some entry := lookup_msg 76 in
  (target_sys_offset entry == Some 30) && (target_comp_offset entry == Some 31).

Definition change_operator_control_has_sys_but_not_comp : bool :=
  expect Some entry := lookup_msg 5 in
  (target_sys_offset entry == Some 0) && (target_comp_offset entry == None).

Theorem msgid_table_tests_pass :
  all_pass [heartbeat; sys_status; ping_target_offsets; attitude; unknown_msgid_returns_none; sorted_invariant;
            table_is_nonempty; param_request_list_targets_at_start; command_long_targets;
            change_operator_control_has_sys_but_not_comp] = true.
Proof. run_tests. Qed.
End MsgIdTableTests.

(** ** [src/src/mavlink/framer.rs] *)
Module FramerTests.
(** [fn build_v1(msgid, payload, crc_extra) -> Vec<u8>] *)
Definition build_v1 (msgid : Z) (payload : list Z) (crc_extra : Z) : list Z :=
  let frame := [STX_V1; wrap 8 (Z.of_nat (length payload)); 0; 1; 1; wrap 8 msgid] ++ payload in
  let crc := Crc16_update_slice Crc16_new (drop 1 frame) in
  let crc := Crc16_update crc crc_extra in
  let crc_value := Crc16_finalize crc in
  frame ++ [wrap 8 (Z.land crc_value 0xFF); wrap 8 (Z.shiftr crc_value 8)].

(** [fn build_v2(msgid, payload, crc_extra, incompat_flags, signature) -> Vec<u8>] *)
Definition build_v2 (msgid : Z) (payload : list Z) (crc_extra incompat_flags : Z) (signature : option (list Z)) : list Z :=
  let frame := [STX_V2; wrap 8 (Z.of_nat (length payload)); incompat_flags; 0; 0; 1; 1; wrap 8 (Z.land msgid 0xFF);
                wrap 8 (Z.land (Z.shiftr msgid 8) 0xFF); wrap 8 (Z.land (Z.shiftr msgid 16) 0xFF)] ++ payload in
  let crc := Crc16_update_slice Crc16_new (drop 1 frame) in
  let crc := Crc16_update crc crc_extra in
  let crc_value := Crc16_finalize crc in
  let frame := frame ++ [wrap 8 (Z.land crc_value 0xFF); wrap 8 (Z.shiftr crc_value 8)] in
  match signature with Some sig => frame ++ sig | None => frame end.

Definition heartbeat_payload : list Z := to_le_bytes 4 0 ++ [2; 3; 0; 0; 3].

(** [Framer::new()] with [framer.buffer_mut().put_slice(bytes)] *)
Definition framer_with (bytes : list Z) : Framer := buffer_extend Framer_new bytes.

Definition parses_known_v1_heartbeat : bool :=
  expect Some entry := lookup_msg 0 in
  let frame := build_v1 0 heartbeat_payload (crc_extra entry) in
  expect Done (Some (header, bytes), framer) := try_next_frame (framer_with frame) in
  (version header == Version_V1) && (msgid header == 0) && (sys (source header) == 1) && (payload_len header == 9) &&
  (target_system header == None) && (target_component header == None) && (length bytes == length frame) &&
  (bytes == frame) && (crc_errors framer == 0) && (resync_bytes framer == 0).

Definition parses_known_v2_heartbeat_unsigned : bool :=
  expect Some entry := lookup_msg 0 in
  let frame := build_v2 0 heartbeat_payload (crc_extra entry) 0 None in
  expect Done (Some (header, bytes), framer) := try_next_frame (framer_with frame) in
  (version header == Version_V2) && (msgid header == 0) && (length bytes == length frame).

Definition parses_signed_v2_forwards_signature_opaquely : bool :=
  expect Some entry := lookup_msg 0 in
  let sig := replicate V2_SIGNATURE_LEN 0xAA in
  let frame := build_v2 0 heartbeat_payload (crc_extra entry) V2_IFLAG_SIGNED (Some sig) in
  expect Done (Some (_, bytes), framer) := try_next_frame (framer_with frame) in
  (length bytes == length frame) && (drop (length bytes - V2_SIGNATURE_LEN) bytes == sig) && (crc_errors framer == 0).

Definition unknown_msgid_passes_without_crc_check : bool :=
  expect None := lookup_msg 99999 in
  let payload := [0xDE; 0xAD; 0xBE; 0xEF] in
  let frame := [STX_V2; Z.of_nat (length payload); 0; 0; 0; 1; 1; Z.land 99999 0xFF; Z.land (Z.shiftr 99999 8) 0xFF;
                Z.land (Z.shiftr 99999 16) 0xFF] ++ payload ++ [0x00; 0x00] in
  expect Done (Some (header, _), framer) := try_next_frame (framer_with frame) in
  (msgid header == 99999) && (target_system header == None) && (crc_errors framer == 0).

Definition extracts_ping_targets_v2 : bool :=
  expect Some entry := lookup_msg 4 in
  let payload := to_le_bytes 8 123 ++ to_le_bytes 4 42 ++ [7; 9] in
  let frame := build_v2 4 payload (crc_extra entry) 0 None in
  expect Done (Some (header, _), _) := try_next_frame (framer_with frame) in
  (target_system header == Some 7) && (target_component header == Some 9).

Definition v2_zero_trim_past_target_offset_means_broadcast : bool :=
  expect Some entry := lookup_msg 4 in
  let payload := to_le_bytes 8 123 ++ to_le_bytes 4 42 in
  let frame := build_v2 4 payload (crc_extra entry) 0 None in
  expect Done (Some (header, _), _) := try_next_frame (framer_with frame) in
  (target_system header == None) && (target_component header == None).

Definition resyncs_past_garbage_prefix : bool :=
  expect Some entry := lookup_msg 0 in
  let frame := build_v1 0 heartbeat_payload (crc_extra entry) in
  let input := [0x00; 0xFF; 0xAB; 0xCD] ++ frame in
  expect Done (Some (header, _), framer) := try_next_frame (framer_with input) in
  (msgid header == 0) && (resync_bytes framer == 4).

Definition corrupted_crc_drops_and_resyncs : bool :=
  expect Some entry := lookup_msg 0 in
  let frame := build_v1 0 heartbeat_payload (crc_extra entry) in
  let frame := set_byte (length frame - 1) (Z.lxor 0xFF) frame in
  expect Done (None, framer) := try_next_frame (framer_with frame) in
  (crc_errors framer == 1) && (1 <=? resync_bytes framer).

Definition partial_frame_returns_none_then_completes_when_more_bytes_arrive : bool :=
  expect Some entry := lookup_msg 0 in
  let frame := build_v1 0 heartbeat_payload (crc_extra entry) in
  expect Done (None, framer) := try_next_frame (framer_with (take (length frame - 3) frame)) in
  expect Done (Some (header, _), _) := try_next_frame (buffer_extend framer (drop (length frame - 3) frame)) in
  msgid header == 0.

Definition unknown_v2_incompat_flag_is_dropped : bool :=
  expect Some entry := lookup_msg 0 in
  let frame := build_v2 0 heartbeat_payload (crc_extra entry) 0x02 None in
  expect Done (None, framer) := try_next_frame (framer_with frame) in
  1 <=? resync_bytes framer.

Definition back_to_back_frames_parse : bool :=
  expect Some entry := lookup_msg 0 in
  let frame := build_v1 0 heartbeat_payload (crc_extra entry) in
  expect Done (frames, framer) := drain_frames (buffer_extend (buffer_extend (framer_with frame) frame) frame) in
  (length frames == 3%nat) && (resync_bytes framer == 0) && (crc_errors framer == 0).

(** [impl Default for Framer] is [Framer::new]. *)
Definition default_constructor_is_usable : bool :=
  expect Some entry := lookup_msg 0 in
  let frame := build_v1 0 heartbeat_payload (crc_extra entry) in
  expect Done (Some _, _) := try_next_frame (framer_with frame) in true.

(** [Framer::with_capacity]: the initial capacity of the buffer is not observable. *)
Definition with_capacity (cap : nat) : Framer := {| buf := []; resync_bytes := 0; crc_errors := 0 |}.

Definition with_capacity_zero_still_parses : bool :=
  expect Some entry := lookup_msg 0 in
  let frame := build_v1 0 heartbeat_payload (crc_extra entry) in
  expect Done (Some (header, _), _) := try_next_frame (buffer_extend (with_capacity 0) frame) in
  msgid header == 0.

(** A prefix of a header is kept: no frame, no resync, [n] bytes buffered. *)
Definition waits (bytes : list Z) (n : nat) : bool :=
  expect Done (None, framer) := try_next_frame (framer_with bytes) in
  (resync_bytes framer == 0) && (length (buf framer) == n).
Definition buffer_with_only_stx_byte_waits_without_consuming : bool := waits [STX_V1] 1.
Definition buffer_ending_mid_v1_header_waits : bool := waits [STX_V1; 9; 0] 3.
Definition buffer_ending_mid_v2_header_waits : bool := waits [STX_V2; 9; 0; 0; 7] 5.

Definition large_garbage_prefix_beyond_default_buffer_is_all_counted : bool :=
  let garbage := replicate (Z.to_nat 12000) 0 in
  expect Done (None, framer) := try_next_frame (framer_with garbage) in
  (resync_bytes framer == 12000) && (length (buf framer) == 0%nat) &&
  expect Some entry := lookup_msg 0 in
  let frame := build_v1 0 heartbeat_payload (crc_extra entry) in
  expect Done (Some _, _) := try_next_frame (buffer_extend framer frame) in true.

(** The [for] loop of the test: the frames parsed and the framer at the end. *)
Fixpoint feed_bytewise (framer : Framer) (frame : list Z) (parsed : nat) : bool :=
  match frame with
  | [] => (parsed == 1%nat) && (resync_bytes framer == 0) && (crc_errors framer == 0)
  | byte :: rest =>
      match try_next_frame (buffer_extend framer [byte]) with
      | Done (Some (header, _), framer) => (msgid header == 0) && feed_bytewise framer rest (S parsed)
      | Done (None, framer) => feed_bytewise framer rest parsed
      | _ => false
      end
  end.
Definition byte_by_byte_feeding_yields_same_frame : bool :=
  expect Some entry := lookup_msg 0 in
  feed_bytewise Framer_new (build_v1 0 heartbeat_payload (crc_extra entry)) 0.

Definition half_target_msgid_yields_sys_some_comp_none : bool :=
  expect Some entry := lookup_msg 5 in
  (target_sys_offset entry == Some 0) && (target_comp_offset entry == None) &&
  let payload := set_byte 0 (fun _ => 42) (replicate 27 0) in
  let frame := build_v1 5 payload (crc_extra entry) in
  expect Done (Some (header, _), _) := try_next_frame (framer_with frame) in
  (target_system header == Some 42) && (target_component header == None).

Definition partial_tail_remains_after_full_frames : bool :=
  expect Some entry := lookup_msg 0 in
  let frame := build_v1 0 heartbeat_payload (crc_extra entry) in
  let stream := frame ++ frame ++ take 4 frame in
  expect Done (frames, framer) := drain_frames (framer_with stream) in
  (length frames == 2%nat) && (length (buf framer) == 4%nat) && (resync_bytes framer == 0).

Definition signed_v2_frame_length_includes_signature_trailer : bool :=
  expect Some entry := lookup_msg 0 in
  let sig := replicate V2_SIGNATURE_LEN 0xAA in
  let signed := build_v2 0 heartbeat_payload (crc_extra entry) V2_IFLAG_SIGNED (Some sig) in
  let followup := build_v1 0 heartbeat_payload (crc_extra entry) in
  let stream := signed ++ followup in
  expect Done (Some (_, signed_bytes), framer) := try_next_frame (framer_with stream) in
  (length signed_bytes == length signed) &&
  expect Done (Some (_, followup_bytes), framer) := try_next_frame framer in
  (length followup_bytes == length followup) && (resync_bytes framer == 0) && (crc_errors framer == 0).

Definition signed_v2_bad_crc_increments_counter : bool :=
  expect Some entry := lookup_msg 0 in
  let sig := replicate V2_SIGNATURE_LEN 0x00 in
  let frame := build_v2 0 heartbeat_payload (crc_extra entry) V2_IFLAG_SIGNED (Some sig) in
  let crc_lo_pos := (length frame - V2_SIGNATURE_LEN - CRC_LEN)%nat in
  let frame := set_byte crc_lo_pos (Z.lxor 0x01) frame in
  expect Done (None, framer) := try_next_frame (framer_with frame) in
  crc_errors framer == 1.

Definition extract_targets_offset_bounds_isolate_the_boundary : bool :=
  let ENTRY := {| crc_extra := 0; target_sys_offset := Some 2; target_comp_offset := Some 3 |} in
  let header payload_len :=
    {| version := Version_V2; source := NodeId_new 0 0; msgid := 0; seq := 0; payload_len := payload_len;
       target_system := None; target_component := None |} in
  let frame := replicate (V2_HEADER_LEN + 4 + CRC_LEN) 0 in
  let frame := set_byte (V2_HEADER_LEN + 2) (fun _ => 17) frame in
  let frame := set_byte (V2_HEADER_LEN + 3) (fun _ => 19) frame in
  (extract_targets frame (header 4) (Some ENTRY) == Done (Some 17, Some 19)) &&
  (extract_targets frame (header 3) (Some ENTRY) == Done (Some 17, None)) &&
  (extract_targets frame (header 2) (Some ENTRY) == Done (None, None)) &&
  (extract_targets frame (header 4) None == Done (None, None)).

Theorem framer_tests_pass :
  all_pass [parses_known_v1_heartbeat; parses_known_v2_heartbeat_unsigned; parses_signed_v2_forwards_signature_opaquely;
            unknown_msgid_passes_without_crc_check; extracts_ping_targets_v2; v2_zero_trim_past_target_offset_means_broadcast;
            resyncs_past_garbage_prefix; corrupted_crc_drops_and_resyncs;
            partial_frame_returns_none_then_completes_when_more_bytes_arrive; unknown_v2_incompat_flag_is_dropped;
            back_to_back_frames_parse; default_constructor_is_usable; with_capacity_zero_still_parses;
            buffer_with_only_stx_byte_waits_without_consuming; buffer_ending_mid_v1_header_waits;
            buffer_ending_mid_v2_header_waits; large_garbage_prefix_beyond_default_buffer_is_all_counted;
            byte_by_byte_feeding_yields_same_frame; half_target_msgid_yields_sys_some_comp_none;
            partial_tail_remains_after_full_frames; signed_v2_frame_length_includes_signature_trailer;
            signed_v2_bad_crc_increments_counter; extract_targets_offset_bounds_isolate_the_boundary] = true.
Proof. run_tests. Qed.
End FramerTests.

(** ** The property tests of [src/src/mavlink/framer.rs] *)
Module FramerPropertyTests.
Section Bounds.
Context `{MsgTable}.

Lemma announced_len_le stx b n :
  is_u8 (byte_at b 1) -> announced_len stx b = Some n -> (n <= V2_HEADER_LEN + 255 + CRC_LEN + V2_SIGNATURE_LEN)%nat.
Proof.
  unfold is_u8, in_width, announced_len, V1_HEADER_LEN, V2_HEADER_LEN, CRC_LEN, V2_SIGNATURE_LEN. intros Hb. change (2 ^ 8) with 256 in Hb.
  destruct stx; [intros [= <-]; lia|]. destruct (_ =? 0); [|done]. destruct (_ =? 0); intros [= <-]; lia.
Qed.

Lemma need_more_short stx b :
  is_u8 (byte_at b 1) -> head_verdict stx b = NeedMore ->
  (length b < V2_HEADER_LEN + 255 + CRC_LEN + V2_SIGNATURE_LEN)%nat.
Proof.
  intros Hb. unfold head_verdict. destruct (Nat.ltb_spec (length b) (Stx_header_len stx)) as [Hs|Hs].
  - intros _. unfold V2_HEADER_LEN, CRC_LEN, V2_SIGNATURE_LEN.
    destruct stx; cbn [Stx_header_len] in Hs; unfold V1_HEADER_LEN, V2_HEADER_LEN in Hs; lia.
  - destruct (announced_len stx b) as [n|] eqn:En; [|done]. apply announced_len_le in En; [|done].
    destruct (Nat.ltb_spec (length b) n); [lia|]. by destruct (crc_accepts _ _).
Qed.

(** A scan of [b]: frames of at least eight bytes, at most one for every eight bytes, and a
    rest shorter than the longest frame. *)
Lemma parse_bounds b :
  Forall is_u8 b ->
  Forall (fun fr => 8 <= length fr.2)%nat (sc_frames (parse b)) /\
  (8 * length (sc_frames (parse b)) + length (sc_rest (parse b)) <= length b)%nat /\
  (length (sc_rest (parse b)) < V2_HEADER_LEN + 255 + CRC_LEN + V2_SIGNATURE_LEN)%nat.
Proof.
  induction b as [b IH] using parse_ind. intros Hb. rewrite parse_eq.
  destruct (find_stx b) as [[pos stx]|] eqn:E; [|split_and!; cbn; [done|lia|unfold V2_HEADER_LEN; lia]].
  apply find_stx_Some in E as (Hpos & _). assert (Hd : Forall is_u8 (drop pos b)) by by apply Forall_drop.
  destruct (head_verdict stx (drop pos b)) as [|bad|h fr] eqn:Ev.
  - apply need_more_short in Ev; [|by apply byte_at_u8]. split_and!; cbn [sc_frames sc_rest app length]; [done|rewrite length_drop; lia|done].
  - destruct (IH (drop 1 (drop pos b))) as (H1 & H2 & H3); [rewrite !length_drop; lia|by apply Forall_drop|].
    rewrite !length_drop in H2. split_and!; cbn [scan_cons sc_frames sc_rest app length]; [done|lia|done].
  - pose proof (head_verdict_frame_pos _ _ _ _ Ev) as Hp. rewrite length_drop in Hp.
    destruct (IH (drop (length fr) (drop pos b))) as (H1 & H2 & H3); [rewrite !length_drop; lia|by apply Forall_drop|].
    apply head_verdict_Emit in Ev as (n & Hn & _ & _ & Hl & _). apply announced_len_ge in Hn.
    assert (8 <= length fr)%nat by (destruct stx; cbn in Hn; unfold V1_HEADER_LEN, V2_HEADER_LEN, CRC_LEN in Hn; lia).
    rewrite !length_drop in H2. split_and!; cbn [scan_cons sc_frames sc_rest app length]; [by constructor|lia|done].
Qed.

(** The body of the test; [iterations] is the number of frames. *)
Definition no_panic_no_infinite_loop_on_garbage (input : list Z) : bool :=
  expect Done (frames, framer) := drain_frames (buffer_extend Framer_new input) in
  forallb (fun '(_, bytes) => (8 <=? length bytes)%nat) frames && (length frames <=? length input + 1)%nat &&
  (length (buf framer) <? V2_HEADER_LEN + 256 + CRC_LEN + V2_SIGNATURE_LEN)%nat.

(** C17. Garbage cannot wedge the framer: whatever bytes arrive, draining ends without a
    panic; every frame has at least the eight bytes of the smallest v1 frame, there is at most one
    frame for every eight bytes, and what stays buffered is shorter than the longest possible
    frame (280 bytes), so the buffer of a link that sends only noise stays bounded.  The
    crate's property test samples this; here it holds for every input. *)
Theorem garbage_never_wedges input :
  Forall is_u8 input ->
  no_panic_no_infinite_loop_on_garbage input = true /\
  exists frames framer, drain_frames (buffer_extend Framer_new input) = Done (frames, framer) /\
    Forall (fun fr => 8 <= length fr.2)%nat frames /\
    (8 * length frames + length (buf framer) <= length input)%nat /\ (length (buf framer) < 280)%nat.
Proof.
  intros Hin. unfold no_panic_no_infinite_loop_on_garbage.
  rewrite (drain_frames_spec (buffer_extend Framer_new input)) by auto with rmr.
  change (buf (buffer_extend Framer_new input)) with input.
  destruct (parse_bounds input Hin) as (H1 & H2 & H3). split; [|by eexists _, _].
  rewrite !andb_true_iff. split_and!.
  - apply forallb_forall. intros [h bytes] Hx%list_elem_of_In. apply Nat.leb_le.
    exact (proj1 (Forall_forall _ _) H1 _ Hx).
  - apply Nat.leb_le. lia.
  - apply Nat.ltb_lt. cbn [advanced buf]. lia.
Qed.
End Bounds.

Lemma garbage_never_wedges_witness :
  no_panic_no_infinite_loop_on_garbage (H := table) [0xFE; 1; 0xFD; 0; 0; 0; 0; 0; 0; 0xFF; 0xFF; 0xFF; 0; 0] = true.
Proof.
  exact (proj1 (garbage_never_wedges (H := table) [0xFE; 1; 0xFD; 0; 0; 0; 0; 0; 0; 0xFF; 0xFF; 0xFF; 0; 0]
    ltac:(repeat constructor; vm_compute; intros ?; discriminate))).
Defined.

(** The frame the second test plants. *)
Definition planted (crc_extra : Z) : list Z :=
  let payload := to_le_bytes 4 0 ++ [2; 3; 0; 0; 3] in
  let frame := [STX_V1; 9; 0; 1; 1; 0] ++ payload in
  let crc := Crc16_update_slice Crc16_new (drop 1 frame) in
  let crc := Crc16_update crc crc_extra in
  let crc_value := Crc16_finalize crc in
  frame ++ [wrap 8 (Z.land crc_value 0xFF); wrap 8 (Z.shiftr crc_value 8)].

Definition strip_stx (garbage : list Z) : list Z :=
  map (fun byte => if (byte =? STX_V1) || (byte =? STX_V2) then 0x00 else byte) garbage.

Definition resyncs_to_real_frame_after_garbage (garbage : list Z) : bool :=
  let garbage := strip_stx garbage in
  expect Some entry := lookup_msg 0 in
  let input := garbage ++ planted (crc_extra entry) in
  expect Done (frames, _) := drain_frames (buffer_extend Framer_new input) in
  existsb (fun '(header, _) => (msgid header =? 0) && bool_decide (version header = Version_V1)) frames.

Lemma strip_stx_clean garbage : find_stx (strip_stx garbage) = None.
Proof.
  apply find_stx_None. unfold strip_stx. rewrite Forall_forall. intros x Hx.
  apply list_elem_of_In, in_map_iff in Hx as (y & <- & _). unfold Stx_from_byte.
  destruct (y =? STX_V1) eqn:E1; [done|]. destruct (y =? STX_V2) eqn:E2; [done|]. cbn [orb]. by rewrite E1, E2.
Qed.

Lemma parse_planted : map fst (sc_frames (parse (planted 50))) =
  [{| version := Version_V1; source := NodeId_new 1 1; msgid := 0; seq := 0; payload_len := 9; target_system := None;
      target_component := None |}].
Proof. vm_compute. reflexivity. Qed.

(** The planted heartbeat is found behind any garbage. *)
Theorem resyncs_to_real_frame garbage : resyncs_to_real_frame_after_garbage garbage = true.
Proof.
  unfold resyncs_to_real_frame_after_garbage.
  replace (lookup_msg 0) with (Some {| crc_extra := 50; target_sys_offset := None; target_comp_offset := None |})
    by (vm_compute; reflexivity).
  cbn [crc_extra]. rewrite drain_frames_spec by auto with rmr.
  change (buf (buffer_extend Framer_new (strip_stx garbage ++ planted 50))) with (strip_stx garbage ++ planted 50).
  rewrite parse_garbage by apply strip_stx_clean. cbn [scan_cons sc_frames app].
  pose proof parse_planted as Hp. destruct (sc_frames (parse (planted 50))) as [|[h fr] [|]]; simplify_eq/=. reflexivity.
Qed.
End FramerPropertyTests.
