(* ===== verification/TestFilters.v ===== *)
(** * The tests of the filters ([src/src/endpoint/filters.rs])

    The unit tests, and the property tests as theorems over every value, list and range
    their generators can produce. *)

From S2P Require Import Prelude Testing RustStr Frame Filters TxQueue Identity FilterParse Display.
#[local] Open Scope string_scope.
#[local] Open Scope list_scope.
#[local] Open Scope Z_scope.
#[local] Open Scope test_scope.

#[global] Instance SpecError_eq_dec : EqDecision SpecError.
Proof. solve_decision. Defined.

(** A field of [Filters { <key>: value, .. }]. *)
Definition set_msgids (key : string) (ranges : list MsgIdRange) (f : Filters) : Filters := set_filter key ranges [] [] f.
Definition set_u8s (key : string) (ranges : list U8Range) (f : Filters) : Filters := set_filter key [] ranges [] f.
Definition set_names (key : string) (names : list string) (f : Filters) : Filters := set_filter key [] [] names f.

Definition is_err {A E} (r : result A E) : bool := negb (is_ok r).

(** ** [src/src/endpoint/filters.rs] *)
Module FilterTests.
Definition default_is_all_empty : bool :=
  let filters := Filters_default in
  forallb (fun l => length l =? 0)%nat
    [allow_msgid_in filters; block_msgid_in filters; allow_msgid_out filters; block_msgid_out filters] &&
  forallb (fun l => length l =? 0)%nat
    [allow_src_sys_in filters; block_src_sys_in filters; allow_src_sys_out filters; block_src_sys_out filters;
     allow_src_comp_in filters; block_src_comp_in filters; allow_src_comp_out filters; block_src_comp_out filters] &&
  forallb (fun l => length l =? 0)%nat [allow_src_endpoint_out filters; block_src_endpoint_out filters].

Definition apply_returns_false_on_non_filter_key : bool :=
  expect Ok (consumed, filters) := Filters_apply Filters_default "sniffer" "true" in
  negb consumed &&
  expect Ok (consumed, filters) := Filters_apply filters "tx_queue_frames" "8" in
  negb consumed && (filters == Filters_default).

Definition apply_msgid_lists_parse_ranges_and_singles : bool :=
  expect Ok (consumed, filters) := Filters_apply Filters_default "block_msgid_in" "33,100-150,200" in
  consumed &&
  (block_msgid_in filters == [MsgIdRange_single 33; {| mr_lo := 100; mr_hi := 150 |}; MsgIdRange_single 200]).

Definition apply_u8_lists_reject_out_of_range : bool :=
  is_err (Filters_apply Filters_default "allow_src_sys_in" "256") &&
  is_err (Filters_apply Filters_default "allow_src_sys_in" "100-300").

Definition apply_rejects_inverted_range : bool :=
  is_err (Filters_apply Filters_default "block_msgid_in" "150-100").

Definition apply_rejects_empty_list_entry : bool :=
  is_err (Filters_apply Filters_default "block_msgid_in" "33,,100").

Definition keys_cover_every_filter_field_handled_by_apply : bool :=
  forallb (fun key => expect Ok (consumed, _) := Filters_apply Filters_default key "1" in consumed) Filters_KEYS.

Definition apply_src_endpoint_out_lists_parse_names : bool :=
  expect Ok (consumed, filters) := Filters_apply Filters_default "block_src_endpoint_out" "foo,bar,baz_1" in
  consumed && (block_src_endpoint_out filters == ["foo"; "bar"; "baz_1"]) &&
  expect Ok (consumed, filters) := Filters_apply Filters_default "allow_src_endpoint_out" "alpha,beta-2" in
  consumed && (allow_src_endpoint_out filters == ["alpha"; "beta-2"]).

Definition apply_src_endpoint_out_tolerates_whitespace : bool :=
  expect Ok (consumed, filters) := Filters_apply Filters_default "block_src_endpoint_out" " foo , bar " in
  consumed && (block_src_endpoint_out filters == ["foo"; "bar"]).

Definition apply_src_endpoint_out_rejects_empty_entry : bool :=
  is_err (Filters_apply Filters_default "block_src_endpoint_out" "foo,,bar").

Definition apply_src_endpoint_out_rejects_invalid_characters : bool :=
  is_err (Filters_apply Filters_default "block_src_endpoint_out" "foo.bar") &&
  is_err (Filters_apply Filters_default "block_src_endpoint_out" "parent/127.0.0.1-5760") &&
  is_err (Filters_apply Filters_default "block_src_endpoint_out" "*").

Definition apply_src_endpoint_out_accepts_long_name : bool :=
  let long_name := Nat.iter 200 (String (Ascii.ascii_of_nat 97)) "" in
  is_ok (Filters_apply Filters_default "block_src_endpoint_out" long_name).

Definition default_filters_accept_everything : bool :=
  let filters := Filters_default in
  passes_in_filter filters 0 (NodeId_new 0 0) && passes_in_filter filters u32_max (NodeId_new u8_max u8_max) &&
  passes_out_filter filters 33 (NodeId_new 1 1) "src".

Definition allow_in_restricts_to_listed_msgids : bool :=
  let filters := set_msgids "allow_msgid_in" [MsgIdRange_single 0; {| mr_lo := 30; mr_hi := 40 |}] Filters_default in
  passes_in_filter filters 0 (NodeId_new 1 1) && passes_in_filter filters 30 (NodeId_new 1 1) &&
  passes_in_filter filters 35 (NodeId_new 1 1) && passes_in_filter filters 40 (NodeId_new 1 1) &&
  negb (passes_in_filter filters 29 (NodeId_new 1 1)) && negb (passes_in_filter filters 41 (NodeId_new 1 1)) &&
  negb (passes_in_filter filters 100 (NodeId_new 1 1)).

Definition block_in_rejects_listed_msgids : bool :=
  let filters := set_msgids "block_msgid_in" [MsgIdRange_single 33; {| mr_lo := 100; mr_hi := 150 |}] Filters_default in
  passes_in_filter filters 0 (NodeId_new 1 1) && negb (passes_in_filter filters 33 (NodeId_new 1 1)) &&
  negb (passes_in_filter filters 100 (NodeId_new 1 1)) && negb (passes_in_filter filters 125 (NodeId_new 1 1)) &&
  negb (passes_in_filter filters 150 (NodeId_new 1 1)) && passes_in_filter filters 151 (NodeId_new 1 1).

Definition block_wins_over_allow_on_overlap : bool :=
  let filters := set_msgids "allow_msgid_in" [{| mr_lo := 0; mr_hi := 100 |}]
                   (set_msgids "block_msgid_in" [MsgIdRange_single 33] Filters_default) in
  passes_in_filter filters 0 (NodeId_new 1 1) && passes_in_filter filters 32 (NodeId_new 1 1) &&
  negb (passes_in_filter filters 33 (NodeId_new 1 1)) && passes_in_filter filters 34 (NodeId_new 1 1) &&
  negb (passes_in_filter filters 101 (NodeId_new 1 1)).

(** The overlap on an axis of [u8] ranges: 0 to 10 allowed, 5 blocked. *)
Definition overlap (allow block : string) : Filters :=
  set_u8s allow [{| ur_lo := 0; ur_hi := 10 |}] (set_u8s block [U8Range_single 5] Filters_default).
Definition block_wins_over_allow_on_overlap_src_sys_in : bool :=
  let filters := overlap "allow_src_sys_in" "block_src_sys_in" in
  passes_in_filter filters 0 (NodeId_new 4 0) && negb (passes_in_filter filters 0 (NodeId_new 5 0)) &&
  passes_in_filter filters 0 (NodeId_new 6 0) && negb (passes_in_filter filters 0 (NodeId_new 11 0)).
Definition block_wins_over_allow_on_overlap_src_sys_out : bool :=
  let filters := overlap "allow_src_sys_out" "block_src_sys_out" in
  passes_out_filter filters 0 (NodeId_new 4 0) "src" && negb (passes_out_filter filters 0 (NodeId_new 5 0) "src") &&
  passes_out_filter filters 0 (NodeId_new 6 0) "src" && negb (passes_out_filter filters 0 (NodeId_new 11 0) "src").
Definition block_wins_over_allow_on_overlap_src_comp_in : bool :=
  let filters := overlap "allow_src_comp_in" "block_src_comp_in" in
  passes_in_filter filters 0 (NodeId_new 0 4) && negb (passes_in_filter filters 0 (NodeId_new 0 5)) &&
  passes_in_filter filters 0 (NodeId_new 0 6) && negb (passes_in_filter filters 0 (NodeId_new 0 11)).
Definition block_wins_over_allow_on_overlap_src_comp_out : bool :=
  let filters := overlap "allow_src_comp_out" "block_src_comp_out" in
  passes_out_filter filters 0 (NodeId_new 0 4) "src" && negb (passes_out_filter filters 0 (NodeId_new 0 5) "src") &&
  passes_out_filter filters 0 (NodeId_new 0 6) "src" && negb (passes_out_filter filters 0 (NodeId_new 0 11) "src").

Definition allow_src_endpoint_out_restricts_to_listed_names : bool :=
  let filters := set_names "allow_src_endpoint_out" ["alpha"; "beta"] Filters_default in
  passes_out_filter filters 0 (NodeId_new 1 1) "alpha" && passes_out_filter filters 0 (NodeId_new 1 1) "beta" &&
  negb (passes_out_filter filters 0 (NodeId_new 1 1) "gamma") && negb (passes_out_filter filters 0 (NodeId_new 1 1) "") &&
  negb (passes_out_filter filters 0 (NodeId_new 1 1) "Alpha").

Definition block_src_endpoint_out_rejects_listed_names : bool :=
  let filters := set_names "block_src_endpoint_out" ["noisy"] Filters_default in
  passes_out_filter filters 0 (NodeId_new 1 1) "quiet" && negb (passes_out_filter filters 0 (NodeId_new 1 1) "noisy") &&
  passes_out_filter filters 0 (NodeId_new 1 1) "".

Definition block_wins_over_allow_on_overlap_src_endpoint_out : bool :=
  let filters := set_names "allow_src_endpoint_out" ["alpha"; "beta"]
                   (set_names "block_src_endpoint_out" ["beta"] Filters_default) in
  passes_out_filter filters 0 (NodeId_new 1 1) "alpha" && negb (passes_out_filter filters 0 (NodeId_new 1 1) "beta") &&
  negb (passes_out_filter filters 0 (NodeId_new 1 1) "gamma").

Definition src_endpoint_out_entries_yields_allow_then_block_with_axis_labels : bool :=
  let filters := set_names "allow_src_endpoint_out" ["alpha"; "beta"]
                   (set_names "block_src_endpoint_out" ["gamma"] Filters_default) in
  src_endpoint_out_entries filters ==
  [("allow_src_endpoint_out", "alpha"); ("allow_src_endpoint_out", "beta"); ("block_src_endpoint_out", "gamma")].

Definition src_endpoint_out_entries_empty_when_no_lists_set : bool :=
  length (src_endpoint_out_entries Filters_default) == 0%nat.

Definition src_sys_in_axis_independent_of_msgid_axis : bool :=
  let filters := set_u8s "allow_src_sys_in" [U8Range_single 1] Filters_default in
  passes_in_filter filters 0 (NodeId_new 1 0) && negb (passes_in_filter filters 0 (NodeId_new 2 0)) &&
  let filters := set_u8s "block_src_sys_in" [U8Range_single 255] Filters_default in
  passes_in_filter filters 0 (NodeId_new 1 0) && negb (passes_in_filter filters 0 (NodeId_new 255 0)).

Definition src_comp_in_axis_independent_of_other_axes : bool :=
  let filters := set_u8s "allow_src_comp_in" [{| ur_lo := 1; ur_hi := 10 |}] Filters_default in
  passes_in_filter filters 0 (NodeId_new 0 1) && passes_in_filter filters 0 (NodeId_new 0 10) &&
  negb (passes_in_filter filters 0 (NodeId_new 0 11)) && negb (passes_in_filter filters 0 (NodeId_new 0 0)).

Definition in_filter_requires_every_axis_to_pass : bool :=
  let filters := set_msgids "allow_msgid_in" [MsgIdRange_single 0]
                   (set_u8s "allow_src_sys_in" [U8Range_single 1]
                     (set_u8s "allow_src_comp_in" [U8Range_single 2] Filters_default)) in
  passes_in_filter filters 0 (NodeId_new 1 2) && negb (passes_in_filter filters 1 (NodeId_new 1 2)) &&
  negb (passes_in_filter filters 0 (NodeId_new 2 2)) && negb (passes_in_filter filters 0 (NodeId_new 1 3)).

Definition in_and_out_axes_are_independent : bool :=
  let filters := set_msgids "block_msgid_in" [MsgIdRange_single 33] Filters_default in
  negb (passes_in_filter filters 33 (NodeId_new 1 1)) && passes_out_filter filters 33 (NodeId_new 1 1) "src" &&
  let filters := set_msgids "allow_msgid_out" [MsgIdRange_single 0] Filters_default in
  passes_in_filter filters 99 (NodeId_new 1 1) && negb (passes_out_filter filters 99 (NodeId_new 1 1) "src").

Definition out_filter_mirrors_in_filter_logic_on_out_lists : bool :=
  let filters := set_msgids "allow_msgid_out" [{| mr_lo := 30; mr_hi := 40 |}]
                   (set_msgids "block_msgid_out" [MsgIdRange_single 35]
                     (set_u8s "allow_src_sys_out" [U8Range_single 1]
                       (set_u8s "block_src_comp_out" [U8Range_single 99] Filters_default))) in
  passes_out_filter filters 30 (NodeId_new 1 1) "src" && passes_out_filter filters 40 (NodeId_new 1 1) "src" &&
  negb (passes_out_filter filters 35 (NodeId_new 1 1) "src") && negb (passes_out_filter filters 29 (NodeId_new 1 1) "src") &&
  negb (passes_out_filter filters 30 (NodeId_new 2 1) "src") && negb (passes_out_filter filters 30 (NodeId_new 1 99) "src").

Definition multi_range_allow_accepts_any_matching_range : bool :=
  let filters := set_msgids "allow_msgid_in" [MsgIdRange_single 0; {| mr_lo := 100; mr_hi := 200 |}; MsgIdRange_single 500]
                   Filters_default in
  forallb (fun msgid => passes_in_filter filters msgid (NodeId_new 0 0)) [0; 100; 150; 200; 500] &&
  forallb (fun msgid => negb (passes_in_filter filters msgid (NodeId_new 0 0))) [1; 201; 499; 501].

Definition boundary_values_u8_full_range_allow_or_block : bool :=
  let filters := set_u8s "allow_src_sys_in" [{| ur_lo := 0; ur_hi := 255 |}] Filters_default in
  passes_in_filter filters 0 (NodeId_new 0 0) && passes_in_filter filters 0 (NodeId_new 255 0) &&
  let filters := set_u8s "block_src_comp_in" [{| ur_lo := 0; ur_hi := 255 |}] Filters_default in
  negb (passes_in_filter filters 0 (NodeId_new 0 0)) && negb (passes_in_filter filters 0 (NodeId_new 0 128)) &&
  negb (passes_in_filter filters 0 (NodeId_new 0 255)).

Theorem filter_tests_pass :
  all_pass [default_is_all_empty; apply_returns_false_on_non_filter_key; apply_msgid_lists_parse_ranges_and_singles;
            apply_u8_lists_reject_out_of_range; apply_rejects_inverted_range; apply_rejects_empty_list_entry;
            keys_cover_every_filter_field_handled_by_apply; apply_src_endpoint_out_lists_parse_names;
            apply_src_endpoint_out_tolerates_whitespace; apply_src_endpoint_out_rejects_empty_entry;
            apply_src_endpoint_out_rejects_invalid_characters; apply_src_endpoint_out_accepts_long_name;
            default_filters_accept_everything; allow_in_restricts_to_listed_msgids; block_in_rejects_listed_msgids;
            block_wins_over_allow_on_overlap; block_wins_over_allow_on_overlap_src_sys_in;
            block_wins_over_allow_on_overlap_src_sys_out; block_wins_over_allow_on_overlap_src_comp_in;
            block_wins_over_allow_on_overlap_src_comp_out; allow_src_endpoint_out_restricts_to_listed_names;
            block_src_endpoint_out_rejects_listed_names; block_wins_over_allow_on_overlap_src_endpoint_out;
            src_endpoint_out_entries_yields_allow_then_block_with_axis_labels;
            src_endpoint_out_entries_empty_when_no_lists_set; src_sys_in_axis_independent_of_msgid_axis;
            src_comp_in_axis_independent_of_other_axes; in_filter_requires_every_axis_to_pass;
            in_and_out_axes_are_independent; out_filter_mirrors_in_filter_logic_on_out_lists;
            multi_range_allow_accepts_any_matching_range; boundary_values_u8_full_range_allow_or_block] = true.
Proof. run_tests. Qed.
End FilterTests.

(** ** The property tests of [src/src/endpoint/filters.rs] *)
Module FilterPropertyTests.
(** The generators: a range made from two values, and a range around a pivot. *)
Definition msgid_range (first second : Z) : MsgIdRange := {| mr_lo := Z.min first second; mr_hi := Z.max first second |}.
Definition u8_range (first second : Z) : U8Range := {| ur_lo := Z.min first second; ur_hi := Z.max first second |}.
Definition msgid_range_around (pivot : Z) (r : MsgIdRange) : Prop := 0 <= mr_lo r <= pivot /\ pivot <= mr_hi r <= u32_max.
Definition u8_range_around (pivot : Z) (r : U8Range) : Prop := 0 <= ur_lo r <= pivot /\ pivot <= ur_hi r <= u8_max.

Definition block_wins_on_overlap_msgid (msgid : Z) (allow_with_msgid : list MsgIdRange) (blocker : MsgIdRange)
    (extra_allow extra_block : list MsgIdRange) : bool :=
  let allow_all := allow_with_msgid ++ extra_allow in
  let block_all := extra_block ++ [blocker] in
  let filters := set_msgids "allow_msgid_in" allow_all (set_msgids "block_msgid_in" block_all Filters_default) in
  negb (passes_in_filter filters msgid (NodeId_new 0 0)).

Definition block_wins_on_overlap_src_sys (src_sys : Z) (allow : list U8Range) (blocker : U8Range) : bool :=
  let filters := set_u8s "allow_src_sys_in" allow (set_u8s "block_src_sys_in" [blocker] Filters_default) in
  negb (passes_in_filter filters 0 (NodeId_new src_sys 0)).

Definition block_wins_on_overlap_src_comp (src_comp : Z) (allow : list U8Range) (blocker : U8Range) : bool :=
  let filters := set_u8s "allow_src_comp_in" allow (set_u8s "block_src_comp_in" [blocker] Filters_default) in
  negb (passes_in_filter filters 0 (NodeId_new 0 src_comp)).

Definition block_wins_on_overlap_msgid_out (msgid : Z) (allow_with_msgid : list MsgIdRange) (blocker : MsgIdRange)
    (extra_allow extra_block : list MsgIdRange) : bool :=
  let allow_all := allow_with_msgid ++ extra_allow in
  let block_all := extra_block ++ [blocker] in
  let filters := set_msgids "allow_msgid_out" allow_all (set_msgids "block_msgid_out" block_all Filters_default) in
  negb (passes_out_filter filters msgid (NodeId_new 0 0) "src").

Definition empty_allow_equals_not_blocked (msgid src_sys src_comp : Z) (block_msgid : list MsgIdRange)
    (block_sys block_comp : list U8Range) : bool :=
  let filters := set_msgids "block_msgid_in" block_msgid
                   (set_u8s "block_src_sys_in" block_sys (set_u8s "block_src_comp_in" block_comp Filters_default)) in
  let blocked := existsb (fun range => MsgIdRange_contains range msgid) block_msgid ||
                 existsb (fun range => U8Range_contains range src_sys) block_sys ||
                 existsb (fun range => U8Range_contains range src_comp) block_comp in
  passes_in_filter filters msgid (NodeId_new src_sys src_comp) == negb blocked.

(** [prop_assume!]: an input that does not meet the assumption passes. *)
Definition unlisted_in_nonempty_allow_is_rejected (msgid : Z) (allow block : list MsgIdRange) : bool :=
  existsb (fun range => MsgIdRange_contains range msgid) allow ||
  let filters := set_msgids "allow_msgid_in" allow (set_msgids "block_msgid_in" block Filters_default) in
  negb (passes_in_filter filters msgid (NodeId_new 0 0)).

Definition block_growth_is_monotone_rejection (msgid src_sys src_comp : Z) (allow_msgid block_msgid : list MsgIdRange)
    (extra_block : MsgIdRange) : bool :=
  let filters := set_msgids "allow_msgid_in" allow_msgid (set_msgids "block_msgid_in" block_msgid Filters_default) in
  let before := passes_in_filter filters msgid (NodeId_new src_sys src_comp) in
  let filters := set_msgids "block_msgid_in" (block_msgid_in filters ++ [extra_block]) filters in
  let after := passes_in_filter filters msgid (NodeId_new src_sys src_comp) in
  before || negb after.

Definition allow_growth_is_monotone_acceptance (msgid src_sys src_comp : Z) (allow_msgid block_msgid : list MsgIdRange)
    (extra_allow : MsgIdRange) : bool :=
  let filters := set_msgids "allow_msgid_in" allow_msgid (set_msgids "block_msgid_in" block_msgid Filters_default) in
  let before := passes_in_filter filters msgid (NodeId_new src_sys src_comp) in
  let filters := set_msgids "allow_msgid_in" (allow_msgid_in filters ++ [extra_allow]) filters in
  let after := passes_in_filter filters msgid (NodeId_new src_sys src_comp) in
  negb before || after.

Definition out_lists_do_not_affect_in_filter (msgid src_sys src_comp : Z)
    (allow_msgid_in block_msgid_in allow_msgid_out block_msgid_out : list MsgIdRange)
    (allow_sys_out block_sys_out allow_comp_out block_comp_out : list U8Range) : bool :=
  let baseline := set_msgids "allow_msgid_in" allow_msgid_in (set_msgids "block_msgid_in" block_msgid_in Filters_default) in
  let with_out := set_msgids "allow_msgid_in" allow_msgid_in (set_msgids "block_msgid_in" block_msgid_in
    (set_msgids "allow_msgid_out" allow_msgid_out (set_msgids "block_msgid_out" block_msgid_out
      (set_u8s "allow_src_sys_out" allow_sys_out (set_u8s "block_src_sys_out" block_sys_out
        (set_u8s "allow_src_comp_out" allow_comp_out (set_u8s "block_src_comp_out" block_comp_out Filters_default))))))) in
  passes_in_filter baseline msgid (NodeId_new src_sys src_comp) ==
  passes_in_filter with_out msgid (NodeId_new src_sys src_comp).

Definition in_lists_do_not_affect_out_filter (msgid src_sys src_comp : Z)
    (allow_msgid_out block_msgid_out allow_msgid_in block_msgid_in : list MsgIdRange)
    (allow_sys_in block_sys_in allow_comp_in block_comp_in : list U8Range) : bool :=
  let baseline := set_msgids "allow_msgid_out" allow_msgid_out (set_msgids "block_msgid_out" block_msgid_out Filters_default) in
  let with_in := set_msgids "allow_msgid_out" allow_msgid_out (set_msgids "block_msgid_out" block_msgid_out
    (set_msgids "allow_msgid_in" allow_msgid_in (set_msgids "block_msgid_in" block_msgid_in
      (set_u8s "allow_src_sys_in" allow_sys_in (set_u8s "block_src_sys_in" block_sys_in
        (set_u8s "allow_src_comp_in" allow_comp_in (set_u8s "block_src_comp_in" block_comp_in Filters_default))))))) in
  passes_out_filter baseline msgid (NodeId_new src_sys src_comp) "src" ==
  passes_out_filter with_in msgid (NodeId_new src_sys src_comp) "src".

Definition axes_compose_as_and (msgid src_sys src_comp : Z) (allow_msgid block_msgid : list MsgIdRange)
    (allow_sys block_sys allow_comp block_comp : list U8Range) : bool :=
  let filters := set_msgids "allow_msgid_in" allow_msgid (set_msgids "block_msgid_in" block_msgid
    (set_u8s "allow_src_sys_in" allow_sys (set_u8s "block_src_sys_in" block_sys
      (set_u8s "allow_src_comp_in" allow_comp (set_u8s "block_src_comp_in" block_comp Filters_default))))) in
  let msgid_pass := pass_msgid_axis msgid allow_msgid block_msgid in
  let sys_pass := pass_u8_axis src_sys allow_sys block_sys in
  let comp_pass := pass_u8_axis src_comp allow_comp block_comp in
  passes_in_filter filters msgid (NodeId_new src_sys src_comp) == (msgid_pass && sys_pass && comp_pass).

(** ** The laws behind them, on one axis *)

Section AxisLaws.
Context {E : Type} (matches : E -> Prop).
Implicit Types allow block : list E.

Lemma axis_block_wins allow block e : e ∈ block -> matches e -> ~ axis_admits matches allow block.
Proof. intros He Hm [_ Hb]. exact (proj1 (Forall_forall _ _) Hb e He Hm). Qed.

Lemma axis_block_mono allow block e : axis_admits matches allow (block ++ [e]) -> axis_admits matches allow block.
Proof. intros [Ha Hb]. split; [done|]. by apply Forall_app in Hb as [? _]. Qed.

Lemma axis_allow_mono allow block e :
  allow <> [] -> axis_admits matches allow block -> axis_admits matches (allow ++ [e]) block.
Proof. intros Hne [[->|Ha] Hb]; [done|]. split; [|done]. right. apply Exists_app. by left. Qed.
End AxisLaws.

Lemma msgid_block_wins msgid allow block r :
  r ∈ block -> in_msgid_range msgid r -> pass_msgid_axis msgid allow block = false.
Proof. intros Hr Hm. apply not_true_is_false. rewrite pass_msgid_axis_spec. by eapply axis_block_wins. Qed.

Lemma u8_block_wins v allow block r : r ∈ block -> in_u8_range v r -> pass_u8_axis v allow block = false.
Proof. intros Hr Hm. apply not_true_is_false. rewrite pass_u8_axis_spec. by eapply axis_block_wins. Qed.

Lemma pass_msgid_empty_allow msgid block :
  pass_msgid_axis msgid [] block = negb (existsb (fun range => MsgIdRange_contains range msgid) block).
Proof. reflexivity. Qed.
Lemma pass_u8_empty_allow v block :
  pass_u8_axis v [] block = negb (existsb (fun range => U8Range_contains range v) block).
Proof. reflexivity. Qed.

(** Evaluate the fields a test sets, keeping the axes. *)
Ltac axes :=
  cbv -[pass_msgid_axis pass_u8_axis pass_src_endpoint_axis app MsgIdRange_contains U8Range_contains existsb andb orb negb].

(** The crate's property tests of the filters hold for every input of their strategies. *)
Theorem filter_property_tests_hold msgid src_sys src_comp am bm am' bm' asys bsys acomp bcomp mr mr' ur :
  msgid_range_around msgid mr -> u8_range_around src_sys ur -> am <> [] ->
  all_pass
    [block_wins_on_overlap_msgid msgid am mr am' bm;
     block_wins_on_overlap_msgid_out msgid am mr am' bm;
     block_wins_on_overlap_src_sys src_sys asys ur;
     block_wins_on_overlap_src_comp src_sys acomp ur;
     empty_allow_equals_not_blocked msgid src_sys src_comp bm bsys bcomp;
     unlisted_in_nonempty_allow_is_rejected msgid am bm;
     block_growth_is_monotone_rejection msgid src_sys src_comp am' bm mr';
     allow_growth_is_monotone_acceptance msgid src_sys src_comp am bm mr';
     out_lists_do_not_affect_in_filter msgid src_sys src_comp am' bm am bm' asys bsys acomp bcomp;
     in_lists_do_not_affect_out_filter msgid src_sys src_comp am' bm am bm' asys bsys acomp bcomp;
     axes_compose_as_and msgid src_sys src_comp am' bm asys bsys acomp bcomp] = true.
Proof.
  intros Hmr Hur Hne. assert (Hm : in_msgid_range msgid mr) by (destruct Hmr; split; lia).
  assert (Hu : in_u8_range src_sys ur) by (destruct Hur; split; lia).
  unfold all_pass. apply forallb_forall. intros test Htest. cbn [In] in Htest.
  destruct_or!; subst test; try done.
  - unfold block_wins_on_overlap_msgid. axes. erewrite msgid_block_wins; [done| |exact Hm]. set_solver.
  - unfold block_wins_on_overlap_msgid_out. axes. erewrite msgid_block_wins; [done| |exact Hm]. set_solver.
  - unfold block_wins_on_overlap_src_sys. axes. erewrite (u8_block_wins src_sys); [|by apply list_elem_of_singleton|exact Hu].
    by rewrite andb_false_r.
  - unfold block_wins_on_overlap_src_comp. axes. erewrite (u8_block_wins src_sys); [|by apply list_elem_of_singleton|exact Hu].
    by rewrite andb_false_r.
  - apply bool_decide_eq_true. axes. by rewrite pass_msgid_empty_allow, !pass_u8_empty_allow, !negb_orb.
  - unfold unlisted_in_nonempty_allow_is_rejected. axes. destruct (existsb _ am) eqn:Ea; [done|].
    unfold pass_msgid_axis. rewrite Ea. by destruct am.
  - unfold block_growth_is_monotone_rejection. axes.
    destruct (pass_msgid_axis msgid am' bm) eqn:E1; [done|].
    destruct (pass_msgid_axis msgid am' (bm ++ [mr'])) eqn:E2; [|done].
    apply pass_msgid_axis_spec, axis_block_mono, pass_msgid_axis_spec in E2. congruence.
  - unfold allow_growth_is_monotone_acceptance. axes. destruct (pass_msgid_axis msgid am bm) eqn:E1; [|done].
    apply pass_msgid_axis_spec, (axis_allow_mono _ _ _ mr' Hne), pass_msgid_axis_spec in E1. rewrite E1.
    reflexivity.
  - apply bool_decide_eq_true. axes. reflexivity.
  - apply bool_decide_eq_true. axes. reflexivity.
  - apply bool_decide_eq_true. axes. reflexivity.
Qed.
End FilterPropertyTests.
