(* ===== verification/TestEndpoint.v ===== *)
(** * The tests of the endpoint building blocks ([src/src/endpoint/seq_tracker.rs],
    [identity_flags.rs], [stats.rs], [tx_queue.rs], [mod.rs], [backoff.rs]) *)

From S2P Require Import Prelude Testing RustStr RustNet Crc Frame MsgTable Framer FramerSpec Filters LruVec SeqTracker EndpointStats TxQueue Identity FilterParse Display Backoff Endpoint Dialect TestFilters.
#[local] Open Scope string_scope.
#[local] Open Scope list_scope.
#[local] Open Scope Z_scope.
#[local] Open Scope test_scope.

(** ** [src/src/endpoint/seq_tracker.rs] *)
Module SeqTrackerTests.
(** [fn at(millis) -> Instant], from the start of the test. *)
Definition at_ms (millis : Z) : Z := millis * 1000000.

(** [SeqTracker::with_threshold(capacity, threshold)] *)
Definition with_threshold (capacity : nat) (threshold : Z) : SeqTracker :=
  {| st_entries := []; st_capacity := Nat.max capacity 1; st_threshold := threshold |}.

Abbreviation test := (script SeqTracker).
Definition observe_at (node : NodeId) (seq now : Z) : test Z := act (fun tracker => observe tracker node seq now).
Definition entries_len : test nat := observe_state (fun tracker => length (st_entries tracker)).

Definition first_observation_returns_zero : bool :=
  run_script (
    lost ← observe_at (NodeId_new 1 1) 0 (at_ms 0); assert (lost == 0) ;;
    n ← entries_len; assert (n == 1%nat)
  ) (SeqTracker_new 4).

Definition consecutive_seqs_return_zero_no_bump : bool :=
  run_script (
    observe_at (NodeId_new 1 1) 10 (at_ms 0) ;;
    for_each [11; 12; 13; 14; 15] (fun seq =>
      lost ← observe_at (NodeId_new 1 1) seq (at_ms seq); assert (lost == 0))
  ) (SeqTracker_new 4).

Definition observe_returns_expected_loss (last_seq current_seq threshold expected_loss : Z) : bool :=
  run_script (
    observe_at (NodeId_new 1 1) last_seq (at_ms 0) ;;
    lost ← observe_at (NodeId_new 1 1) current_seq (at_ms 1); assert (lost == expected_loss)
  ) (with_threshold 4 threshold).
(** The cases of the test. *)
Definition loss_cases : list bool :=
  [observe_returns_expected_loss 10 13 DEFAULT_SEQ_GAP_THRESHOLD 2;
   observe_returns_expected_loss 10 200 64 0;
   observe_returns_expected_loss 50 50 64 0;
   observe_returns_expected_loss 50 49 64 0;
   observe_returns_expected_loss 255 0 DEFAULT_SEQ_GAP_THRESHOLD 0;
   observe_returns_expected_loss 254 2 DEFAULT_SEQ_GAP_THRESHOLD 3].

Definition restart_resets_last_seq_to_current : bool :=
  run_script (
    observe_at (NodeId_new 1 1) 10 (at_ms 0) ;;
    lost ← observe_at (NodeId_new 1 1) 200 (at_ms 1); assert (lost == 0) ;;
    lost ← observe_at (NodeId_new 1 1) 201 (at_ms 2); assert (lost == 0)
  ) (with_threshold 4 64).

Definition distinct_identities_are_independent : bool :=
  run_script (
    observe_at (NodeId_new 1 1) 10 (at_ms 0) ;;
    observe_at (NodeId_new 2 1) 20 (at_ms 0) ;;
    lost ← observe_at (NodeId_new 1 1) 11 (at_ms 1); assert (lost == 0) ;;
    lost ← observe_at (NodeId_new 2 1) 22 (at_ms 1); assert (lost == 1)
  ) (SeqTracker_new 4).

Definition lru_eviction_drops_oldest_by_last_seen : bool :=
  run_script (
    observe_at (NodeId_new 1 1) 0 (at_ms 0) ;;
    observe_at (NodeId_new 2 1) 0 (at_ms 10) ;;
    observe_at (NodeId_new 3 1) 0 (at_ms 20) ;;
    n ← entries_len; assert (n == 2%nat) ;;
    lost ← observe_at (NodeId_new 1 1) 5 (at_ms 30); assert (lost == 0) ;;
    lost ← observe_at (NodeId_new 1 1) 7 (at_ms 40); assert (lost == 1)
  ) (SeqTracker_new 2).

Definition capacity_zero_clamps_to_one : bool :=
  run_script (
    capacity ← observe_state st_capacity; assert (capacity == 1%nat) ;;
    observe_at (NodeId_new 1 1) 0 (at_ms 0) ;;
    observe_at (NodeId_new 2 1) 0 (at_ms 10) ;;
    n ← entries_len; assert (n == 1%nat)
  ) (SeqTracker_new 0).

Theorem seq_tracker_tests_pass :
  all_pass ([first_observation_returns_zero; consecutive_seqs_return_zero_no_bump] ++ loss_cases ++
            [restart_resets_last_seq_to_current; distinct_identities_are_independent;
             lru_eviction_drops_oldest_by_last_seen; capacity_zero_clamps_to_one]) = true.
Proof. run_tests. Qed.
End SeqTrackerTests.

(** ** [src/src/endpoint/identity_flags.rs] *)
Module IdentityTests.
Definition default_is_allow_all_no_sniffer_no_group : bool :=
  let identity := IdentityFlags_default in
  (filters identity == Filters_default) && negb (sniffer identity) && (group identity == None).

Definition apply_returns_false_on_unknown_key : bool :=
  expect Ok (consumed, identity) := IdentityFlags_apply IdentityFlags_default "tx_queue_frames" "8" in
  negb consumed && (identity == IdentityFlags_default).

Definition apply_sniffer : bool :=
  expect Ok (consumed, identity) := IdentityFlags_apply IdentityFlags_default "sniffer" "true" in
  consumed && sniffer identity &&
  expect Ok (consumed, identity) := IdentityFlags_apply identity "sniffer" "false" in
  consumed && negb (sniffer identity) && is_err (IdentityFlags_apply identity "sniffer" "yes").

(** A clone shares the [Arc]: here a value and its copy are the same value. *)
Definition apply_group_stores_arc_str : bool :=
  expect Ok (consumed, identity) := IdentityFlags_apply IdentityFlags_default "group" "uplink" in
  consumed && (group identity == Some "uplink").

Definition apply_delegates_filter_keys_to_filters : bool :=
  expect Ok (consumed, identity) := IdentityFlags_apply IdentityFlags_default "block_msgid_in" "33,100-150" in
  consumed && (block_msgid_in (filters identity) == [MsgIdRange_single 33; {| mr_lo := 100; mr_hi := 150 |}]) &&
  expect Ok (consumed, identity) := IdentityFlags_apply identity "allow_src_sys_out" "1" in
  consumed && (allow_src_sys_out (filters identity) == [U8Range_single 1]).

Definition keys_cover_every_non_filter_field_handled_by_apply : bool :=
  let probe_value key := if String.eqb key "sniffer" then "true" else if String.eqb key "group" then "x" else "1" in
  forallb (fun key =>
    expect Ok (consumed, _) := IdentityFlags_apply IdentityFlags_default key (probe_value key) in consumed)
    IdentityFlags_KEYS.

Definition identity_and_filter_key_sets_are_disjoint : bool :=
  forallb (fun identity_key => negb (mem_str identity_key Filters_KEYS)) IdentityFlags_KEYS.

Theorem identity_tests_pass :
  all_pass [default_is_allow_all_no_sniffer_no_group; apply_returns_false_on_unknown_key; apply_sniffer;
            apply_group_stores_arc_str; apply_delegates_filter_keys_to_filters;
            keys_cover_every_non_filter_field_handled_by_apply; identity_and_filter_key_sets_are_disjoint] = true.
Proof. run_tests. Qed.
End IdentityTests.

(** ** [src/src/endpoint/stats.rs] *)
Module StatsTests.
(** [EndpointStats::default()] *)
Definition default_stats : EndpointStats := EndpointStats_new Reconnecting.

Definition add_rx_tx_updates_pairs : bool :=
  let stats := add_tx_frame 7 (add_rx_frame 20 (add_rx_frame 12 default_stats)) in
  (load RxFrames stats == 2) && (load RxBytes stats == 32) && (load TxFrames stats == 1) && (load TxBytes stats == 7).

Definition default_is_zero_and_reconnecting : bool :=
  let stats := default_stats in
  (load RxFrames stats == 0) && (load DroppedTx stats == 0) && (load ResyncBytes stats == 0) &&
  (load_state stats == Reconnecting).

Definition as_u8_from_u8_roundtrip_every_variant : bool :=
  forallb (fun state => from_u8 (as_u8 state) == state) [Reconnecting; Connected; Idle; Down; Unknown].

Definition new_with_connected_lands_in_connected : bool :=
  let stats := EndpointStats_new Connected in
  (load_state stats == Connected) && (load RxFrames stats == 0).

Definition store_load_each_variant_roundtrips : bool :=
  run_script (for_each [Connected; Reconnecting; Idle; Down; Unknown] (fun state =>
    modify (store_state state) ;; loaded ← observe_state load_state; assert (loaded == state))) default_stats.

Definition from_u8_falls_back_to_unknown_out_of_range : bool :=
  (from_u8 0 == Reconnecting) && (from_u8 3 == Down) && (from_u8 4 == Unknown) && (from_u8 5 == Unknown) &&
  (from_u8 255 == Unknown).

(** [stats.state.store(99, Relaxed)] *)
Definition store_raw_state (raw : Z) (s : EndpointStats) : EndpointStats :=
  {| s_rx_frames := s_rx_frames s; s_tx_frames := s_tx_frames s; s_rx_bytes := s_rx_bytes s; s_tx_bytes := s_tx_bytes s;
     s_dropped_tx := s_dropped_tx s; s_crc_errors := s_crc_errors s; s_resync_bytes := s_resync_bytes s;
     s_in_filter_drops := s_in_filter_drops s; s_out_filter_drops := s_out_filter_drops s; s_dedup_drops := s_dedup_drops s;
     s_rx_lost_est := s_rx_lost_est s; s_learn_entries := s_learn_entries s; s_state := raw |}.
Definition load_state_returns_unknown_on_out_of_range_raw_value : bool :=
  load_state (store_raw_state 99 default_stats) == Unknown.

Definition framer_counters_propagates_deltas_then_no_ops : bool :=
  let stats := default_stats in
  expect Done (_, framer) := drain_frames (buffer_extend Framer_new [0; 0; 0; 0]) in
  (resync_bytes framer == 4) &&
  let '(counters, stats) := sync FramerCounters_new framer stats in
  (load ResyncBytes stats == 4) &&
  let '(counters, stats) := sync counters framer stats in
  load ResyncBytes stats == 4.

Theorem endpoint_stats_tests_pass :
  all_pass [add_rx_tx_updates_pairs; default_is_zero_and_reconnecting; as_u8_from_u8_roundtrip_every_variant;
            new_with_connected_lands_in_connected; store_load_each_variant_roundtrips;
            from_u8_falls_back_to_unknown_out_of_range; load_state_returns_unknown_on_out_of_range_raw_value;
            framer_counters_propagates_deltas_then_no_ops] = true.
Proof. run_tests. Qed.
End StatsTests.

(** ** [src/src/endpoint/tx_queue.rs] *)
Module TxQueueTests.
Abbreviation test := (script (World ListQueue.t)).

(** [fn make_queue(capacity) -> (TxQueue, Arc<EndpointStats>)] *)
Definition make_queue (capacity : nat) : test (TxQueue * nat) :=
  stats ← act (stats_alloc Reconnecting);
  queue ← act (TxQueue_new capacity stats);
  mret (queue, stats).
Definition empty_world : World ListQueue.t := {| w_stats := ∅; w_queues := ∅; w_notified := ∅ |}.
Definition run_world (m : test unit) : bool := run_script m empty_world.

Definition push (queue : TxQueue) (frame : string) : test unit := modify (TxQueue_push queue (bytes_of frame)).
Definition pop (queue : TxQueue) : test (option (list Z)) := act (TxQueue_pop queue).
Definition len (queue : TxQueue) : test nat := observe_state (TxQueue_len queue).
Definition drain (queue : TxQueue) : test nat :=
  fun w => match drain_and_discard queue w with Done r => Some r | _ => None end.
Definition dropped_tx (stats : nat) : test Z :=
  s ← observe_state (fun w => w_stats w !! stats); s ← unwrap s; mret (load DroppedTx s).

Definition push_under_capacity_no_evict : bool :=
  run_world (
    '(queue, stats) ← make_queue 4;
    push queue "a" ;; push queue "b" ;;
    n ← len queue; assert (n == 2%nat) ;;
    d ← dropped_tx stats; assert (d == 0)).

Definition push_over_capacity_evicts_head : bool :=
  run_world (
    '(queue, stats) ← make_queue 2;
    push queue "a" ;; push queue "b" ;; push queue "c" ;;
    d ← dropped_tx stats; assert (d == 1) ;;
    got ← pop queue; assert (got == Some (bytes_of "b")) ;;
    got ← pop queue; assert (got == Some (bytes_of "c")) ;;
    got ← pop queue; assert (got == None)).

Definition drain_and_discard_counts : bool :=
  run_world (
    '(queue, stats) ← make_queue 4;
    push queue "a" ;; push queue "b" ;; push queue "c" ;;
    drained ← drain queue; assert (drained == 3%nat) ;;
    n ← len queue; assert (n == 0%nat) ;;
    d ← dropped_tx stats; assert (d == 3)).

Definition drain_empty_increments_nothing : bool :=
  run_world (
    '(queue, stats) ← make_queue 4;
    drained ← drain queue; assert (drained == 0%nat) ;;
    d ← dropped_tx stats; assert (d == 0)).

Definition new_clamps_zero_capacity_to_one : bool :=
  run_world (
    '(queue, _) ← make_queue 0;
    q ← observe_state (fun w => w_queues w !! tq_inner queue); q ← unwrap q;
    assert (1 <=? ListQueue.limit q)%nat).

(** The waiter's task between two suspensions: it runs while it can, [fuel] steps at most. *)
Fixpoint poll (fuel : nat) (queue : TxQueue) (pc : writer_pc) (w : World ListQueue.t) : writer_pc * World ListQueue.t :=
  match fuel with
  | O => (pc, w)
  | S fuel' =>
      match pc with
      | Returned frame => (pc, w)
      | AtPop =>
          match TxQueue_pop queue w with
          | (Some frame, w) => (Returned frame, w)
          | (None, w) => poll fuel' queue AtNotified w
          end
      | AtNotified =>
          if decide (tq_inner queue ∈ w_notified w) then poll fuel' queue AtPop (take_permit (tq_inner queue) w)
          else (pc, w)
      end
  end.

(** It takes the steps of the model of [pop_or_wait]. *)
Lemma poll_steps fuel queue pc w : rtc (pop_or_wait queue) (pc, w) (poll fuel queue pc w).
Proof.
  revert pc w; induction fuel as [|fuel IH]; intros pc w; cbn [poll]; [done|]. destruct pc as [| |frame]; [| |done].
  - destruct (TxQueue_pop queue w) as [[frame|] w'] eqn:E; [apply rtc_once; by apply pw_frame|].
    eapply rtc_l; [by apply pw_empty|apply IH].
  - destruct (decide (tq_inner queue ∈ w_notified w)); [|done]. eapply rtc_l; [by apply pw_notified|apply IH].
Qed.

(** [tokio::spawn(async move { queue.pop_or_wait().await })], and letting the task run. *)
Definition poll_waiter (queue : TxQueue) (pc : writer_pc) : test writer_pc := act (poll 4 queue pc).

Definition pop_or_wait_wakes_on_push : bool :=
  run_world (
    '(queue, _) ← make_queue 2;
    waiter ← poll_waiter queue AtPop;
    assert (match waiter with AtNotified => true | _ => false end) ;;
    push queue "x" ;;
    popped ← poll_waiter queue waiter;
    assert (match popped with Returned frame => frame == bytes_of "x" | _ => false end)).

(** Aborting a task drops its suspended future: its place in the waiters' list goes with it. *)
Definition aborted_waiter_does_not_break_subsequent_wakeup : bool :=
  run_world (
    '(queue, _) ← make_queue 2;
    aborted ← poll_waiter queue AtPop;
    new_waiter ← poll_waiter queue AtPop;
    push queue "x" ;;
    popped ← poll_waiter queue new_waiter;
    assert (match popped with Returned frame => frame == bytes_of "x" | _ => false end)).

Theorem tx_queue_tests_pass :
  all_pass [push_under_capacity_no_evict; push_over_capacity_evicts_head; drain_and_discard_counts;
            drain_empty_increments_nothing; new_clamps_zero_capacity_to_one; pop_or_wait_wakes_on_push;
            aborted_waiter_does_not_break_subsequent_wakeup] = true.
Proof. run_tests. Qed.
End TxQueueTests.

(** ** [src/src/endpoint/mod.rs] *)
Module EndpointModTests.
Definition peer_name_ipv4 : bool :=
  let addr := SocketAddr_new (V4 [192; 168; 1; 10]) 14550 in
  peer_endpoint_name "bus" addr == "bus/192.168.1.10-14550".

Definition peer_name_ipv6 : bool :=
  expect Some ip := parse_ip "2001:db8::1" in
  let addr := SocketAddr_new ip 14550 in
  peer_endpoint_name "bus" addr == "bus/[2001:db8::1]-14550".

Definition peer_name_v4_mapped_v6_uses_v6_form : bool :=
  let addr := SocketAddr_new (V6 [0; 0; 0; 0; 0; 0xFFFF; 0x7F00; 0x0001]) 14550 in
  let name := peer_endpoint_name "bus" addr in
  String.prefix "bus/[" name && String.prefix (str_rev "]-14550") (str_rev name).

Definition allocator_returns_unique_ids : bool :=
  let '(id0, allocator) := alloc EndpointIdAllocator_new in
  let '(id1, allocator) := alloc allocator in
  let '(id2, allocator) := alloc allocator in
  (id0 == 0) && (id1 == 1) && (id2 == 2) && negb (id0 == id1).

Definition endpoint_id_display : bool :=
  let '(id, _) := alloc EndpointIdAllocator_new in
  EndpointId_fmt id == "0".

(** The token is cancelled from the start, at time 0. *)
Definition wait_or_cancel_returns_false_when_cancelled : bool :=
  let '(result, _) := wait_or_cancel (Some 0) 0 60000 in
  negb result.

Definition wait_or_cancel_returns_true_after_delay : bool :=
  let start := 0 in
  let '(result, now) := wait_or_cancel None start 20 in
  result && (20 <=? now - start).

Theorem endpoint_mod_tests_pass :
  all_pass [peer_name_ipv4; peer_name_ipv6; peer_name_v4_mapped_v6_uses_v6_form; allocator_returns_unique_ids;
            endpoint_id_display; wait_or_cancel_returns_false_when_cancelled;
            wait_or_cancel_returns_true_after_delay] = true.
Proof. run_tests. Qed.
End EndpointModTests.

(** ** [src/src/endpoint/backoff.rs]

    [Backoff::new] seeds its generator from the clock, so a test is a function of what the
    clock shows and is proved for every reading. *)
Module BackoffTests.
Abbreviation test := (script Backoff).
Definition current : test Z := observe_state bo_current.
Definition set_current (ms : Z) : test unit :=
  modify (fun b => {| bo_initial := bo_initial b; bo_max := bo_max b; bo_current := ms; bo_rng := bo_rng b |}).
Definition delay_once : test Z := act next_delay.
Definition within (lo hi delay : Z) : bool := (lo <=? delay) && (delay <=? hi).
Definition times (n : nat) (body : test unit) : test unit := for_each (List.seq 0 n) (fun _ => body).

Section Clock.
Context (clock : option Z).

Definition initial_step_matches_initial_ms : bool :=
  let backoff := Backoff_new 250 30000 clock in
  bo_current backoff == 250.

Definition next_delay_within_jitter_band : bool :=
  run_script (
    times 32 (delay ← delay_once; modify Backoff_reset ;; assert (within 800 1200 delay))
  ) (Backoff_new 1000 30000 clock).

(** One sample of the band with the base held. *)
Definition sample (lo hi : Z) : test unit :=
  held ← current; delay ← delay_once; assert (within lo hi delay) ;; set_current held.
(** [while backoff.current < limit], [fuel] rounds at most. *)
Fixpoint advance_to (fuel : nat) (limit : Z) : test unit :=
  match fuel with
  | O => assert false
  | S fuel' => now ← current; if now <? limit then delay_once ;; advance_to fuel' limit else mret tt
  end.
Definition next_delay_jitter_band_holds_after_advance_and_at_cap : bool :=
  run_script (
    delay_once ;;
    ms ← current; assert (ms == 2000) ;;
    times 32 (sample 1600 2400) ;;
    advance_to 8 4000 ;;
    ms ← current; assert (ms == 4000) ;;
    times 32 (sample 3200 4800)
  ) (Backoff_new 1000 4000 clock).

Definition next_delay_doubles_and_caps : bool :=
  run_script (
    delay_once ;; ms ← current; assert (ms == 200) ;;
    delay_once ;; ms ← current; assert (ms == 400) ;;
    delay_once ;; ms ← current; assert (ms == 800) ;;
    delay_once ;; ms ← current; assert (ms == 800)
  ) (Backoff_new 100 800 clock).

Definition reset_returns_to_initial : bool :=
  run_script (
    times 10 (delay_once ;; mret tt) ;;
    ms ← current; assert (ms == 800) ;;
    modify Backoff_reset ;;
    ms ← current; assert (ms == 100)
  ) (Backoff_new 100 800 clock).

Definition max_below_initial_is_clamped_to_initial : bool :=
  let backoff := Backoff_new 500 100 clock in
  bo_current backoff == 500.

Definition zero_initial_is_floored : bool :=
  let backoff := Backoff_new 0 30000 clock in
  bo_current backoff == 1.
End Clock.

(** The loop of the test: [seen_distinct] and [last] its locals. *)
Fixpoint distinct_values (n : nat) (rng seen_distinct last : Z) : option Z :=
  match n with
  | O => Some seen_distinct
  | S n' =>
      let value := xorshift_next rng in
      if value =? 0 then None
      else if negb (value =? last) then distinct_values n' value (seen_distinct + 1) value
      else distinct_values n' value seen_distinct last
  end.
Definition xorshift_does_not_get_stuck_on_zero : bool :=
  expect Some seen_distinct := distinct_values 16 1 0 0 in 4 <? seen_distinct.

(** A body that keeps [P] and never fails can be repeated. *)
Lemma for_each_keeps {A} (P : Backoff -> Prop) (l : list A) body b :
  (forall a b, P b -> exists b', body a b = Some (tt, b') /\ P b') -> P b ->
  exists b', for_each l body b = Some (tt, b') /\ P b'.
Proof.
  intros Hbody. revert b; induction l as [|a l IH]; intros b Hb; [by exists b|]. cbn [for_each].
  destruct (Hbody a b Hb) as (b1 & H1 & Hb1). destruct (IH b1 Hb1) as (b2 & H2 & Hb2). exists b2.
  unfold mbind, script_bind. by rewrite H1.
Qed.

(** At rest on a base within a curve from [i] to [m]. *)
Definition resting (i m base : Z) (b : Backoff) : Prop :=
  backoff_ok b /\ bo_initial b = i /\ bo_max b = m /\ bo_current b = base.

Lemma within_band b base lo hi :
  backoff_ok b -> bo_current b = base -> lo = base - base / 5 -> hi = base + base / 5 -> within lo hi (next_delay b).1 = true.
Proof.
  intros Hok <- -> ->. destruct (next_delay_spec b Hok) as (_ & _ & _ & _ & _ & Hb). unfold within.
  rewrite andb_true_iff, !Z.leb_le. lia.
Qed.

Lemma sample_holds i m base lo hi b :
  lo = base - base / 5 -> hi = base + base / 5 -> resting i m base b ->
  exists b', sample lo hi b = Some (tt, b') /\ resting i m base b'.
Proof.
  intros Hlo Hhi (Hok & Hi & Hm & Hc). unfold sample, current, delay_once, observe_state, act, mbind, script_bind, modify, set_current.
  pose proof (within_band b base lo hi Hok Hc Hlo Hhi) as Hw. destruct (next_delay_spec b Hok) as (Hok' & _ & Hi' & Hm' & _).
  destruct (next_delay b) as [d b1]. cbn [fst snd] in *. unfold assert. rewrite Hw. eexists; split; [reflexivity|].
  split_and!; cbn; [|congruence|congruence|done]. destruct Hok, Hok'. split; cbn; try done; try lia.
Qed.

Lemma advance_resting i m base b :
  resting i m base b -> resting i m (Z.min (base * 2) m) (next_delay b).2.
Proof.
  intros (Hok & Hi & Hm & Hc). destruct (next_delay_spec b Hok) as (Hok' & Hc' & Hi' & Hm' & _).
  split_and!; [done|congruence|congruence|]. by rewrite Hc', Hc, Hm.
Qed.

Lemma advance_to_step n limit b :
  (bo_current b <? limit) = true -> advance_to (S n) limit b = advance_to n limit (next_delay b).2.
Proof.
  intros Hlt. cbn [advance_to]. unfold current, delay_once, observe_state, act, mbind, script_bind. rewrite Hlt.
  by destruct (next_delay b).
Qed.
Lemma advance_to_done n limit b : (bo_current b <? limit) = false -> advance_to (S n) limit b = Some (tt, b).
Proof. intros Hge. cbn [advance_to]. unfold current, observe_state, mbind, script_bind. by rewrite Hge. Qed.

Lemma jitter_band_at_initial clock : next_delay_within_jitter_band clock = true.
Proof.
  unfold next_delay_within_jitter_band, run_script, times.
  edestruct (for_each_keeps (resting 1000 30000 1000) (List.seq 0 32)) as (b' & -> & _); [| |reflexivity].
  - intros _ b (Hok & Hi & Hm & Hc). unfold delay_once, act, mbind, script_bind, modify.
    pose proof (within_band b 1000 800 1200 Hok Hc eq_refl eq_refl) as Hw. destruct (next_delay_spec b Hok) as (Hok' & _ & Hi' & Hm' & _).
    destruct (next_delay b) as [d b1]. cbn [fst snd] in *. unfold assert. rewrite Hw. eexists; split; [reflexivity|].
    split_and!; [by apply Backoff_reset_ok|..]; cbn; congruence.
  - split_and!; [apply Backoff_new_ok; lia|reflexivity..].
Qed.

Lemma jitter_band_after_advance clock : next_delay_jitter_band_holds_after_advance_and_at_cap clock = true.
Proof.
  unfold next_delay_jitter_band_holds_after_advance_and_at_cap, run_script, times, current, delay_once, observe_state, act.
  unfold mbind, script_bind.
  assert (H0 : resting 1000 4000 1000 (Backoff_new 1000 4000 clock)) by (split_and!; [apply Backoff_new_ok; lia|reflexivity..]).
  apply advance_resting in H0. destruct (next_delay (Backoff_new 1000 4000 clock)) as [d b1]. cbn [fst snd] in *.
  change (Z.min (1000 * 2) 4000) with 2000 in H0. pose proof H0 as (_ & _ & _ & ->).
  change (assert (2000 == 2000) b1) with (Some (tt, b1)). cbv iota beta.
  edestruct (for_each_keeps (resting 1000 4000 2000) (List.seq 0 32)) as (b2 & -> & H2); [|exact H0|].
  { intros a b Hb. by apply (sample_holds 1000 4000 2000). }
  assert (Hadv : exists b3, advance_to 8 4000 b2 = Some (tt, b3) /\ resting 1000 4000 4000 b3).
  { pose proof H2 as (_ & _ & _ & Hc2). rewrite advance_to_step by (rewrite Hc2; reflexivity).
    apply advance_resting in H2. change (Z.min (2000 * 2) 4000) with 4000 in H2. pose proof H2 as (_ & _ & _ & Hc3).
    exists (next_delay b2).2. split; [|done]. apply advance_to_done. rewrite Hc3. reflexivity. }
  destruct Hadv as (b3 & -> & H3). pose proof H3 as (_ & _ & _ & ->).
  change (assert (4000 == 4000) b3) with (Some (tt, b3)). cbv iota beta.
  edestruct (for_each_keeps (resting 1000 4000 4000) (List.seq 0 32)) as (b4 & -> & _); [|exact H3|reflexivity].
  intros a b Hb. by apply (sample_holds 1000 4000 4000).
Qed.

Theorem backoff_tests_pass clock :
  all_pass [initial_step_matches_initial_ms clock; next_delay_within_jitter_band clock;
            next_delay_jitter_band_holds_after_advance_and_at_cap clock; next_delay_doubles_and_caps clock;
            reset_returns_to_initial clock; max_below_initial_is_clamped_to_initial clock; zero_initial_is_floored clock;
            xorshift_does_not_get_stuck_on_zero] = true.
Proof.
  unfold all_pass. cbn [forallb]. rewrite jitter_band_at_initial, jitter_band_after_advance.
  assert (next_delay_doubles_and_caps clock = true) as -> by reflexivity.
  assert (reset_returns_to_initial clock = true) as -> by reflexivity.
  assert (xorshift_does_not_get_stuck_on_zero = true) as -> by run_tests. reflexivity.
Qed.
End BackoffTests.
