(* ===== verification/TestSpec.v ===== *)
(** * The tests of the endpoint specs ([src/src/endpoint/spec/bounds.rs], [parse.rs],
    [query.rs])

    The edit distance of the tests is [levenshtein], the textbook recurrence on the rows of
    the distance matrix. *)

From Stdlib Require Import Ascii.
From S2P Require Import Prelude Testing RustStr RustNet Frame Filters TxQueue Identity FilterParse Spec Config Display TestFilters.
#[local] Open Scope string_scope.
#[local] Open Scope list_scope.
#[local] Open Scope Z_scope.
#[local] Open Scope test_scope.

(** [reason.contains(needle)] *)
Definition str_contains (needle text : string) : bool :=
  match String.index 0 needle text with Some _ => true | None => false end.

(** The next row of the matrix, for the character [a] of the first string. *)
Fixpoint edit_row (a : ascii) (b : string) (diag left : nat) (above : list nat) : list nat :=
  match b, above with
  | String c b', up :: above' =>
      let cost := if Ascii.eqb a c then diag else S (Nat.min diag (Nat.min left up)) in
      cost :: edit_row a b' up cost above'
  | _, _ => []
  end.
Fixpoint edit_rows (a b : string) (i : nat) (row : list nat) : nat :=
  match a with
  | EmptyString => List.last row i
  | String c a' => edit_rows a' b (S i) (edit_row c b i (S i) row)
  end.
(** [strsim::levenshtein] *)
Definition levenshtein (a b : string) : nat := edit_rows a b 0 (List.seq 1 (String.length b)).

Example levenshtein_kitten : levenshtein "kitten" "sitting" = 3%nat.
Proof. reflexivity. Qed.

(** ** [src/src/endpoint/spec/bounds.rs] *)
Module BoundsTests.
Definition u64_in_range_passes_through : bool :=
  expect Ok value := check_u64_range 500 "ms" 100 1000 in value == 500.

(** A value out of range: the key, and a reason that names the range and the value. *)
Definition rejected_with_bounds (value : Z) (got : string) : bool :=
  expect Err (InvalidQueryValue key reason) := check_u64_range value "ms" 100 1000 in
  (key == "ms") && str_contains "100..=1000" reason && str_contains got reason.
Definition u64_below_min_rejected_with_bounds_in_reason : bool := rejected_with_bounds 99 "got 99".
Definition u64_above_max_rejected_with_bounds_in_reason : bool := rejected_with_bounds 1001 "got 1001".

Theorem bounds_tests_pass :
  all_pass [u64_in_range_passes_through; u64_below_min_rejected_with_bounds_in_reason;
            u64_above_max_rejected_with_bounds_in_reason] = true.
Proof. run_tests. Qed.
End BoundsTests.

(** ** [src/src/endpoint/spec/parse.rs] *)

(** [fn parse_ok(input) -> EndpointSpec] and [fn parse_err(input) -> SpecError] *)
Definition parse_ok (input : string) : option EndpointSpec :=
  match EndpointSpec_parse levenshtein input with Ok spec => Some spec | Err _ => None end.
Definition parse_err (input : string) : option SpecError :=
  match EndpointSpec_parse levenshtein input with Ok _ => None | Err e => Some e end.
Definition as_serial (spec : EndpointSpec) : option SerialEndpoint :=
  match spec_kind spec with Kind_Serial endpoint => Some endpoint | _ => None end.
Definition as_udps (spec : EndpointSpec) : option UdpServerEndpoint :=
  match spec_kind spec with Kind_UdpServer endpoint => Some endpoint | _ => None end.
Definition as_tcpc (spec : EndpointSpec) : option TcpClientEndpoint :=
  match spec_kind spec with Kind_TcpClient endpoint => Some endpoint | _ => None end.

Module ParseTests.
Definition serial_body_parses (input path : string) (baud : Z) : bool :=
  expect Some spec := parse_ok input in
  expect Some endpoint := as_serial spec in
  (se_path endpoint == path) && (se_baud endpoint == baud).
Definition serial_body_cases : list bool :=
  [serial_body_parses "serial:/dev/ttyUSB0:921600" "/dev/ttyUSB0" 921600;
   serial_body_parses "serial:/dev/ttyUSB0,921600" "/dev/ttyUSB0" 921600;
   serial_body_parses "serial:COM3:115200" "COM3" 115200;
   serial_body_parses "serial:COM3,115200" "COM3" 115200;
   serial_body_parses "serial:\\.\COM10:115200" "\\.\COM10" 115200;
   serial_body_parses "serial:/dev/serial/by-id/usb-FTDI-port0:57600" "/dev/serial/by-id/usb-FTDI-port0" 57600].

Definition serial_with_explicit_name : bool :=
  expect Some spec := parse_ok "serial:/dev/ttyUSB0:921600#vehicle" in spec_name spec == "vehicle".

Definition serial_body_rejects_malformed (input : string) : bool :=
  expect Some (MalformedBody scheme _ _) := parse_err input in scheme == Scheme_Serial.
Definition serial_reject_cases : list bool :=
  map serial_body_rejects_malformed ["serial:COM3"; "serial:/dev/foo:abc"; "serial::921600"; "serial:/dev/foo:0"].

Definition listen_addr_parses (input expected_addr : string) (expected_name : option string) : bool :=
  expect Some spec := parse_ok input in
  let bind := match spec_kind spec with
              | Kind_UdpServer endpoint => Some (us_bind_addr endpoint)
              | Kind_TcpServer endpoint => Some (ts_bind_addr endpoint)
              | _ => None
              end in
  expect Some bind := bind in
  (SocketAddr_to_string bind == expected_addr) &&
  match expected_name with Some name => spec_name spec == name | None => true end.
Definition listen_cases : list bool :=
  [listen_addr_parses "udps:0.0.0.0:14550" "0.0.0.0:14550" (Some "udps-0_0_0_0-14550");
   listen_addr_parses "udps:[::]:14550" "[::]:14550" (Some "udps-__-14550");
   listen_addr_parses "tcps:[2001:db8::1]:5760" "[2001:db8::1]:5760" None].

Definition dial_host_port_parses (input expected_host : string) (expected_port : Z) : bool :=
  expect Some spec := parse_ok input in
  let host_port := match spec_kind spec with
                   | Kind_UdpClient endpoint => Some (uc_host endpoint, uc_port endpoint)
                   | Kind_TcpClient endpoint => Some (tc_host endpoint, tc_port endpoint)
                   | _ => None
                   end in
  expect Some (host, port) := host_port in
  (host == expected_host) && (port == expected_port).
Definition dial_cases : list bool :=
  [dial_host_port_parses "udpc:192.168.1.5:14550" "192.168.1.5" 14550;
   dial_host_port_parses "tcpc:companion.local:5760" "companion.local" 5760;
   dial_host_port_parses "udpc:gcs.example:14550" "gcs.example" 14550].

Definition tcpc_hostname_explicit_name : bool :=
  expect Some spec := parse_ok "tcpc:companion.local:5760#vehicle" in
  expect Some endpoint := as_tcpc spec in
  (tc_host endpoint == "companion.local") && (tc_port endpoint == 5760) && (spec_name spec == "vehicle").

Definition host_port_body_rejects_malformed (input : string) (expected_reason_substr : option string) : bool :=
  expect Some (MalformedBody _ _ reason) := parse_err input in
  match expected_reason_substr with Some needle => str_contains needle reason | None => true end.
Definition host_port_reject_cases : list bool :=
  [host_port_body_rejects_malformed "udps:nohost" None;
   host_port_body_rejects_malformed "udps:foo:abc" None;
   host_port_body_rejects_malformed "udps:foo:99999" None;
   host_port_body_rejects_malformed "udps::14550" None;
   host_port_body_rejects_malformed "udps:[::1" None;
   host_port_body_rejects_malformed "udps:[::1]" None;
   host_port_body_rejects_malformed "udps:[::1]x14550" None;
   host_port_body_rejects_malformed "udpc:::14550" (Some "must be bracketed");
   host_port_body_rejects_malformed "tcpc:::5760" (Some "must be bracketed");
   host_port_body_rejects_malformed "tcps:localhost:5760" (Some "must be an IP literal");
   host_port_body_rejects_malformed "udps:gcs.local:14550" (Some "must be an IP literal")].

Definition long_name_ok : bool :=
  let name := Nat.iter 200 (String "a") "" in
  expect Some spec := parse_ok ("udps:0.0.0.0:1#" ++s name) in spec_name spec == name.

Definition name_empty_fails : bool := expect Some (InvalidName _) := parse_err "udps:0.0.0.0:1#" in true.
Definition name_with_dot_fails : bool := expect Some (InvalidName _) := parse_err "udps:0.0.0.0:1#a.b" in true.
Definition name_with_slash_fails : bool := expect Some (InvalidName _) := parse_err "udps:0.0.0.0:1#a/b" in true.

Definition name_with_underscore_hyphen_digit_ok : bool :=
  expect Some spec := parse_ok "udps:0.0.0.0:1#abc_DEF-123" in spec_name spec == "abc_DEF-123".

Definition auto_names_satisfy_explicit_name_regex : bool :=
  forallb (fun input => expect Some spec := parse_ok input in is_ok (validate_name (spec_name spec)))
    ["serial:/dev/ttyUSB0:921600"; "serial:\\.\COM10:115200"; "udps:0.0.0.0:14550"; "udps:[::]:14550";
     "tcps:[2001:db8::1]:5760"; "tcpc:gcs.local:5760"; "udpc:companion.local:14550"].

Definition sanitize_for_name_replaces_disallowed_chars : bool :=
  (sanitize_for_name "0.0.0.0" == "0_0_0_0") && (sanitize_for_name "/dev/ttyUSB0" == "_dev_ttyUSB0") &&
  (sanitize_for_name "::1" == "__1") && (sanitize_for_name "gcs.local" == "gcs_local") &&
  (sanitize_for_name "\\.\COM10" == "____COM10") && (sanitize_for_name "abc_DEF-123" == "abc_DEF-123").

Definition missing_scheme_fails : bool := expect Some (MissingScheme _) := parse_err "nothing-here" in true.
Definition empty_scheme_fails : bool := expect Some (MissingScheme _) := parse_err ":body" in true.
Definition unknown_scheme_fails : bool := expect Some (UnknownScheme _) := parse_err "http:host:80" in true.
Definition empty_input_fails : bool := expect Some (MissingScheme _) := parse_err "" in true.

Definition fragment_before_query_order_locked : bool :=
  expect Some spec := parse_ok "udps:0.0.0.0:1#name?group=g" in
  (spec_name spec == "name") &&
  expect Some endpoint := as_udps spec in
  group (us_identity endpoint) == Some "g".

Definition query_before_fragment_rejected : bool :=
  expect Some (MalformedQuery _) := parse_err "udps:0.0.0.0:1?group=val#nope" in true.

Theorem parse_tests_pass :
  all_pass (serial_body_cases ++ serial_reject_cases ++ listen_cases ++ dial_cases ++ host_port_reject_cases ++
            [serial_with_explicit_name; tcpc_hostname_explicit_name; long_name_ok; name_empty_fails; name_with_dot_fails;
             name_with_slash_fails; name_with_underscore_hyphen_digit_ok; auto_names_satisfy_explicit_name_regex;
             sanitize_for_name_replaces_disallowed_chars; missing_scheme_fails; empty_scheme_fails; unknown_scheme_fails;
             empty_input_fails; fragment_before_query_order_locked; query_before_fragment_rejected]) = true.
Proof. run_tests. Qed.
End ParseTests.

(** ** [src/src/endpoint/spec/query.rs] *)
Module QueryTests.
(** The identity of a parsed [udps:] or [tcpc:] spec. *)
Definition udps_identity (input : string) : option IdentityFlags :=
  spec ← parse_ok input; endpoint ← as_udps spec; Some (us_identity endpoint).
Definition tcpc_identity (input : string) : option IdentityFlags :=
  spec ← parse_ok input; endpoint ← as_tcpc spec; Some (tc_identity endpoint).
(** The parse fails on the value of [key]. *)
Definition invalid_value (input key : string) : bool :=
  expect Some (InvalidQueryValue actual_key _) := parse_err input in actual_key == key.
(** The parse fails because the scheme has no such key. *)
Definition unknown_key (input key : string) (scheme : Scheme) : bool :=
  expect Some (UnknownQueryKey actual_scheme actual_key _) := parse_err input in
  (actual_key == key) && (actual_scheme == scheme).

Definition udps_with_sniffer_query : bool :=
  expect Some spec := parse_ok "udps:0.0.0.0:14551#tap?sniffer=true" in
  expect Some endpoint := as_udps spec in
  (spec_name spec == "tap") && sniffer (us_identity endpoint).
Definition sniffer_false_explicit : bool :=
  expect Some identity := udps_identity "udps:0.0.0.0:1?sniffer=false" in negb (sniffer identity).
Definition sniffer_default_is_false : bool :=
  expect Some identity := udps_identity "udps:0.0.0.0:1" in negb (sniffer identity).
Definition sniffer_invalid_value_rejected : bool := invalid_value "udps:0.0.0.0:1?sniffer=yes" "sniffer".

(** [fn assert_bounds_err(input, key, min, max, got_value)] *)
Definition assert_bounds_err (input key : string) (min max got_value : Z) : bool :=
  expect Some (InvalidQueryValue actual_key reason) := parse_err input in
  (actual_key == key) && str_contains (show_uint min ++s "..=" ++s show_uint max) reason &&
  str_contains ("got " ++s show_uint got_value) reason.
Definition idle_secs_zero_rejected : bool := assert_bounds_err "udps:0.0.0.0:1?idle_secs=0" "idle_secs" 1 86400 0.
Definition idle_secs_above_max_rejected : bool :=
  assert_bounds_err "udps:0.0.0.0:1?idle_secs=86401" "idle_secs" 1 86400 86401.
Definition latch_idle_secs_zero_rejected : bool :=
  assert_bounds_err "udpc:1.2.3.4:14550?latch_idle_secs=0" "latch_idle_secs" 1 86400 0.
Definition latch_idle_secs_above_max_rejected : bool :=
  assert_bounds_err "udpc:1.2.3.4:14550?latch_idle_secs=86401" "latch_idle_secs" 1 86400 86401.

Definition msgid_filter_list_typed : bool :=
  expect Some identity := tcpc_identity "tcpc:gcs.local:5760?block_msgid_in=33,100-150,32" in
  block_msgid_in (filters identity) == [MsgIdRange_single 33; {| mr_lo := 100; mr_hi := 150 |}; MsgIdRange_single 32].
Definition msgid_filter_list_with_whitespace : bool :=
  expect Some identity := tcpc_identity "tcpc:gcs.local:5760?allow_msgid_out=1, 2 , 3-5" in
  (length (allow_msgid_out (filters identity)) == 3%nat) &&
  (allow_msgid_out (filters identity) !! 2%nat == Some {| mr_lo := 3; mr_hi := 5 |}).
Definition msgid_filter_list_lo_gt_hi_rejected : bool :=
  invalid_value "tcpc:gcs.local:5760?block_msgid_in=10-5" "block_msgid_in".
Definition msgid_filter_list_hex_rejected : bool :=
  invalid_value "tcpc:gcs.local:5760?block_msgid_in=0x21" "block_msgid_in".
Definition msgid_filter_list_symbolic_name_rejected : bool :=
  invalid_value "tcpc:gcs.local:5760?block_msgid_in=HEARTBEAT" "block_msgid_in".
Definition msgid_filter_empty_entry_rejected : bool :=
  invalid_value "tcpc:gcs.local:5760?block_msgid_in=1,,2" "block_msgid_in".

Definition src_sys_filter_typed_as_u8 : bool :=
  expect Some identity := tcpc_identity "tcpc:gcs.local:5760?allow_src_sys_out=1,5-10,200" in
  allow_src_sys_out (filters identity) == [U8Range_single 1; {| ur_lo := 5; ur_hi := 10 |}; U8Range_single 200].
Definition src_sys_filter_overflow_rejected : bool :=
  invalid_value "tcpc:gcs.local:5760?allow_src_sys_out=256" "allow_src_sys_out".

Definition is_rtscts (f : SerialFlowControl) : bool :=
  match f with FlowControl_RtsCts => true | FlowControl_None => false end.
Definition serial_flow (input : string) : option SerialFlowControl :=
  spec ← parse_ok input; endpoint ← as_serial spec; Some (se_flow_control endpoint).
Definition serial_flow_control_default_none : bool :=
  expect Some flow := serial_flow "serial:/dev/foo:9600" in negb (is_rtscts flow).
Definition serial_flow_control_rtscts : bool :=
  expect Some flow := serial_flow "serial:/dev/foo:9600?flow_control=rtscts" in is_rtscts flow.
Definition serial_flow_control_explicit_none : bool :=
  expect Some flow := serial_flow "serial:/dev/foo:9600?flow_control=none" in negb (is_rtscts flow).
Definition serial_flow_control_invalid_value_rejected : bool :=
  invalid_value "serial:/dev/foo:9600?flow_control=hw" "flow_control".
Definition serial_flow_control_rejected_on_non_serial_scheme : bool :=
  unknown_key "udps:0.0.0.0:1?flow_control=rtscts" "flow_control" Scheme_UdpServer.

Definition idle_secs_typed_on_udps : bool :=
  expect Some spec := parse_ok "udps:0.0.0.0:14550?idle_secs=30" in
  expect Some endpoint := as_udps spec in us_idle_secs endpoint == Some 30.
Definition tcpc_with_group : bool :=
  expect Some spec := parse_ok "tcpc:companion.local:5760#vehicle?group=uplink" in
  expect Some endpoint := as_tcpc spec in
  (group (tc_identity endpoint) == Some "uplink") && (spec_name spec == "vehicle").

Definition udpc_specific_key_on_udps_is_unknown : bool :=
  unknown_key "udps:0.0.0.0:14550?latch_idle_secs=15" "latch_idle_secs" Scheme_UdpServer.
Definition udps_specific_key_on_udpc_is_unknown : bool :=
  unknown_key "udpc:1.2.3.4:14550?idle_secs=15" "idle_secs" Scheme_UdpClient.

Definition unknown_query_key_with_close_suggestion : bool :=
  expect Some (UnknownQueryKey _ key suggestion) := parse_err "udps:0.0.0.0:1?snifer=true" in
  (key == "snifer") && (suggestion == Some "sniffer").
Definition unknown_query_key_no_suggestion_when_distant : bool :=
  expect Some (UnknownQueryKey _ key None) := parse_err "udps:0.0.0.0:1?xyz=1" in key == "xyz".

Definition duplicate_query_key_fails : bool :=
  expect Some (DuplicateQueryKey k) := parse_err "udps:0.0.0.0:1?sniffer=true&sniffer=false" in k == "sniffer".
Definition query_keys_case_insensitive : bool :=
  expect Some identity := udps_identity "udps:0.0.0.0:1?SNIFFER=true" in
  sniffer identity &&
  expect Some identity := udps_identity "udps:0.0.0.0:1?Sniffer=true" in
  sniffer identity &&
  expect Some identity := tcpc_identity "tcpc:gcs.local:5760?Group=Up-link" in
  group identity == Some "Up-link".
Definition duplicate_query_key_detected_across_cases : bool :=
  expect Some (DuplicateQueryKey k) := parse_err "udps:0.0.0.0:1?Sniffer=true&SNIFFER=false" in k == "sniffer".
Definition duplicate_filter_key_fails_no_accumulation : bool :=
  expect Some (DuplicateQueryKey k) := parse_err "udps:0.0.0.0:1?block_msgid_in=33&block_msgid_in=34" in k == "block_msgid_in".
Definition malformed_query_no_eq_fails : bool :=
  expect Some (MalformedQuery _) := parse_err "udps:0.0.0.0:1?just_a_key" in true.
Definition malformed_query_empty_key_fails : bool :=
  expect Some (MalformedQuery _) := parse_err "udps:0.0.0.0:1?=value" in true.
Definition empty_query_after_question_mark_ok : bool :=
  expect Some identity := udps_identity "udps:0.0.0.0:1?" in (group identity == None) && negb (sniffer identity).
Definition trailing_ampersand_tolerated : bool :=
  expect Some identity := udps_identity "udps:0.0.0.0:1?sniffer=true&" in sniffer identity.
Definition empty_value_for_group_rejected : bool := invalid_value "udps:0.0.0.0:1?group=" "group".
Definition group_value_with_embedded_equals_rejected : bool := invalid_value "udps:0.0.0.0:1?group=a=b" "group".
Definition group_value_accepts_allowed_characters : bool :=
  expect Some identity := udps_identity "udps:0.0.0.0:1?group=Up-link_1" in group identity == Some "Up-link_1".

Definition all_filter_keys_accepted_on_tcpc : bool :=
  let query := "allow_msgid_in=1&block_msgid_in=2&allow_msgid_out=3&block_msgid_out=4" ++s
    "&allow_src_sys_in=5&block_src_sys_in=6&allow_src_sys_out=7&block_src_sys_out=8" ++s
    "&allow_src_comp_in=9&block_src_comp_in=10&allow_src_comp_out=11&block_src_comp_out=12" ++s
    "&allow_src_endpoint_out=alpha&block_src_endpoint_out=beta" in
  expect Some identity := tcpc_identity ("tcpc:x:1?" ++s query) in
  let f := filters identity in
  (allow_msgid_in f == [MsgIdRange_single 1]) && (block_msgid_in f == [MsgIdRange_single 2]) &&
  (allow_msgid_out f == [MsgIdRange_single 3]) && (block_msgid_out f == [MsgIdRange_single 4]) &&
  (allow_src_sys_in f == [U8Range_single 5]) && (block_src_sys_in f == [U8Range_single 6]) &&
  (allow_src_sys_out f == [U8Range_single 7]) && (block_src_sys_out f == [U8Range_single 8]) &&
  (allow_src_comp_in f == [U8Range_single 9]) && (block_src_comp_in f == [U8Range_single 10]) &&
  (allow_src_comp_out f == [U8Range_single 11]) && (block_src_comp_out f == [U8Range_single 12]) &&
  (allow_src_endpoint_out f == ["alpha"]) && (block_src_endpoint_out f == ["beta"]).

Definition no_query_leaves_identity_at_default : bool :=
  expect Some identity := udps_identity "udps:0.0.0.0:1" in identity == IdentityFlags_default.

(** [KEYS.windows(2)] in strict order; strict order leaves no duplicates to drop. *)
Fixpoint windows_ascending (keys : list string) : bool :=
  match keys with
  | a :: (b :: _) as rest => String.ltb a b && windows_ascending rest
  | _ => true
  end.
Definition sorted_and_unique (keys : list string) : bool :=
  (length (remove_dups keys) == length keys) && windows_ascending keys.
Definition identity_keys_sorted_and_unique : bool := sorted_and_unique IdentityFlags_KEYS.
Definition filters_keys_sorted_and_unique : bool := sorted_and_unique Filters_KEYS.

Theorem query_tests_pass :
  all_pass [udps_with_sniffer_query; sniffer_false_explicit; sniffer_default_is_false; sniffer_invalid_value_rejected;
            idle_secs_zero_rejected; idle_secs_above_max_rejected; latch_idle_secs_zero_rejected;
            latch_idle_secs_above_max_rejected; msgid_filter_list_typed; msgid_filter_list_with_whitespace;
            msgid_filter_list_lo_gt_hi_rejected; msgid_filter_list_hex_rejected; msgid_filter_list_symbolic_name_rejected;
            msgid_filter_empty_entry_rejected; src_sys_filter_typed_as_u8; src_sys_filter_overflow_rejected;
            serial_flow_control_default_none; serial_flow_control_rtscts; serial_flow_control_explicit_none;
            serial_flow_control_invalid_value_rejected; serial_flow_control_rejected_on_non_serial_scheme;
            idle_secs_typed_on_udps; tcpc_with_group; udpc_specific_key_on_udps_is_unknown;
            udps_specific_key_on_udpc_is_unknown; unknown_query_key_with_close_suggestion;
            unknown_query_key_no_suggestion_when_distant; duplicate_query_key_fails; query_keys_case_insensitive;
            duplicate_query_key_detected_across_cases; duplicate_filter_key_fails_no_accumulation;
            malformed_query_no_eq_fails; malformed_query_empty_key_fails; empty_query_after_question_mark_ok;
            trailing_ampersand_tolerated; empty_value_for_group_rejected; group_value_with_embedded_equals_rejected;
            group_value_accepts_allowed_characters; all_filter_keys_accepted_on_tcpc; no_query_leaves_identity_at_default;
            identity_keys_sorted_and_unique; filters_keys_sorted_and_unique] = true.
Proof. run_tests. Qed.
End QueryTests.
