(* ===== verification/TestBuild.v ===== *)
(** * The tests of the build script ([src/build_support/xml_loader.rs], [dialect_parse.rs],
    [crc_extra.rs]) *)

From S2P Require Import Prelude Testing RustStr Crc MsgTable BuildTable ErrorText TestSpec.
#[local] Open Scope string_scope.
#[local] Open Scope list_scope.
#[local] Open Scope Z_scope.
#[local] Open Scope test_scope.

#[global] Instance ParseArrayError_eq_dec : EqDecision ParseArrayError.
Proof. solve_decision. Defined.

(** ** [src/build_support/xml_loader.rs] *)
Module XmlLoaderTests.
Abbreviation Graph := (gmap string (list string)).

(** [fn loader_from(graph)]; the state is what a loader records. *)
Definition loader_from (graph : Graph) (key : string) (s : list string) : outcome (result (list string) string * list string) :=
  Done (ok_or (graph !! key) ("not in graph: " ++s key), s).
(** [walk_includes(root, loader)] *)
Definition walk (load : string -> list string -> outcome (result (list string) string * list string)) (root : string)
    : outcome (result (gset string * gset string) (WalkError string) * list string) :=
  walk_includes load 10 root [].
(** [.is_ok()], and [WalkError::Cycle(key)] of [.unwrap_err()]. *)
Definition walk_ok (graph : Graph) : bool := expect Done (Ok _, _) := walk (loader_from graph) "a" in true.
Definition walk_cycle (graph : Graph) : option string :=
  match walk (loader_from graph) "a" with Done (Err (Cycle key), _) => Some key | _ => None end.

Definition leaf_only : bool :=
  let graph : Graph := {["a" := []]} in walk_ok graph.
Definition linear_chain : bool :=
  let graph : Graph := {["a" := ["b"]; "b" := ["c"]; "c" := []]} in walk_ok graph.
Definition self_include_is_cycle : bool :=
  let graph : Graph := {["a" := ["a"]]} in expect Some key := walk_cycle graph in key == "a".
Definition two_node_cycle : bool :=
  let graph : Graph := {["a" := ["b"]; "b" := ["a"]]} in expect Some _ := walk_cycle graph in true.
Definition longer_cycle : bool :=
  let graph : Graph := {["a" := ["b"]; "b" := ["c"]; "c" := ["a"]]} in expect Some _ := walk_cycle graph in true.

(** [visited_keys.sort()]: insertion into a sorted list. *)
Fixpoint insert_key (key : string) (l : list string) : list string :=
  match l with
  | [] => [key]
  | x :: rest => if String.leb key x then key :: l else x :: insert_key key rest
  end.
Definition sort_keys (l : list string) : list string := foldr insert_key [] l.

Definition diamond_visits_each_node_once : bool :=
  let graph : Graph := {["a" := ["b"; "c"]; "b" := ["d"]; "c" := ["d"]; "d" := []]} in
  let load key visited := Done (ok_or (graph !! key) "", visited ++ [key]) in
  expect Done (Ok _, visited) := walk load "a" in
  sort_keys visited == ["a"; "b"; "c"; "d"].

Definition cycle_below_diamond_is_still_detected : bool :=
  let graph : Graph := {["a" := ["b"; "c"]; "b" := ["d"]; "c" := ["d"]; "d" := ["e"]; "e" := ["d"]]} in
  expect Some _ := walk_cycle graph in true.

Definition load_error_propagates : bool :=
  let load (key : string) (s : list string) := Done (Err "simulated read failure", s) in
  expect Done (Err (LoadFailed key reason), _) := walk load "root" in
  (key == "root") && str_contains "simulated read failure" reason.

Theorem xml_loader_tests_pass :
  all_pass [leaf_only; linear_chain; self_include_is_cycle; two_node_cycle; longer_cycle; diamond_visits_each_node_once;
            cycle_below_diamond_is_still_detected; load_error_propagates] = true.
Proof. run_tests. Qed.
End XmlLoaderTests.

(** ** [src/build_support/dialect_parse.rs] *)
Module DialectParseTests.
Definition parses_to (type_name elem : string) (len : Z) : bool := parse_array_suffix type_name == Done (Ok (elem, len)).
Definition scalar_returns_zero_length : bool := parses_to "uint8_t" "uint8_t" 0.
Definition typical_u8_array : bool := parses_to "uint8_t[16]" "uint8_t" 16.
Definition char_array_50 : bool := parses_to "char[50]" "char" 50.
Definition array_length_at_u8_boundary : bool := parses_to "uint8_t[255]" "uint8_t" 255.

Definition missing_closing_bracket_is_malformed : bool :=
  expect Done (Err err) := parse_array_suffix "uint8_t[16" in
  (err == Malformed "uint8_t[16") && str_contains "malformed array type" (ParseArrayError_to_string err) &&
  str_contains "uint8_t[16" (ParseArrayError_to_string err).
Definition non_numeric_length_is_bad_length : bool :=
  expect Done (Err err) := parse_array_suffix "uint8_t[abc]" in
  (err == BadLength "uint8_t[abc]") && str_contains "bad array length" (ParseArrayError_to_string err).
Definition length_exceeding_u8_is_bad_length : bool :=
  expect Done (Err err) := parse_array_suffix "uint8_t[256]" in err == BadLength "uint8_t[256]".
Definition zero_length_is_rejected : bool :=
  expect Done (Err err) := parse_array_suffix "uint8_t[0]" in
  (err == ZeroLength "uint8_t[0]") && str_contains "zero-length" (ParseArrayError_to_string err).

Definition seeded : gmap Z MsgEntryGen :=
  {[0 := {| g_name := "HEARTBEAT"; g_crc_extra := 50; g_target_sys_offset := None; g_target_comp_offset := None |}]}.

Definition merge_inserts_into_empty : bool :=
  expect Ok entries := merge_entry 0 "HEARTBEAT" 50 None None ∅ in
  (size entries == 1%nat) &&
  expect Some entry := entries !! 0 in (g_name entry == "HEARTBEAT") && (g_crc_extra entry == 50).
Definition merge_identical_is_idempotent : bool :=
  expect Ok entries := merge_entry 0 "HEARTBEAT" 50 None None seeded in size entries == 1%nat.
(** On an error the map is the one the call was made with. *)
Definition merge_with_different_crc_extra_is_fatal : bool :=
  expect Err (CrcExtraConflict id _ _ prev_crc new_crc) := merge_entry 0 "HEARTBEAT" 99 None None seeded in
  (id == 0) && (prev_crc == 50) && (new_crc == 99) &&
  expect Some entry := seeded !! 0 in g_crc_extra entry == 50.
Definition merge_with_same_id_different_name_is_fatal : bool :=
  expect Err (NameConflict id prev_name new_name) := merge_entry 0 "OTHER" 50 None None seeded in
  (id == 0) && (prev_name == "HEARTBEAT") && (new_name == "OTHER") &&
  expect Some entry := seeded !! 0 in g_name entry == "HEARTBEAT".
Definition merge_distinct_ids_both_inserted : bool :=
  expect Ok entries := merge_entry 1 "SYS_STATUS" 124 None None seeded in
  (size entries == 2%nat) &&
  (g_name <$> entries !! 0 == Some "HEARTBEAT") && (g_name <$> entries !! 1 == Some "SYS_STATUS").
Definition merge_targets_are_preserved : bool :=
  expect Ok entries := merge_entry 4 "PING" 237 (Some 12) (Some 13) ∅ in
  expect Some entry := entries !! 4 in
  (g_target_sys_offset entry == Some 12) && (g_target_comp_offset entry == Some 13).

Definition merge_error_display_includes_key_facts : bool :=
  let crc_text := MergeError_to_string (CrcExtraConflict 42 "FOO" "BAR" 11 22) in
  forallb (fun fact => str_contains fact crc_text) ["42"; "FOO"; "BAR"; "11"; "22"] &&
  let name_text := MergeError_to_string (NameConflict 7 "OLD" "NEW") in
  forallb (fun fact => str_contains fact name_text) ["7"; "OLD"; "NEW"].

Theorem dialect_parse_tests_pass :
  all_pass [scalar_returns_zero_length; typical_u8_array; char_array_50; array_length_at_u8_boundary;
            missing_closing_bracket_is_malformed; non_numeric_length_is_bad_length; length_exceeding_u8_is_bad_length;
            zero_length_is_rejected; merge_inserts_into_empty; merge_identical_is_idempotent;
            merge_with_different_crc_extra_is_fatal; merge_with_same_id_different_name_is_fatal;
            merge_distinct_ids_both_inserted; merge_targets_are_preserved; merge_error_display_includes_key_facts] = true.
Proof. run_tests. Qed.
End DialectParseTests.

(** ** [src/build_support/crc_extra.rs] *)
Module CrcExtraTests.
Definition crc16_mcrf4xx (bytes : list Z) : Z := foldl build_crc16_update CRC_INIT bytes.
Definition field (name type_name : string) : ParsedField :=
  {| f_name := name; f_type_name := type_name; f_array_length := 0; f_is_extension := false |}.
Definition extension_field (name type_name : string) : ParsedField :=
  {| f_name := name; f_type_name := type_name; f_array_length := 0; f_is_extension := true |}.
Definition array_field (name type_name : string) (len : Z) : ParsedField :=
  {| f_name := name; f_type_name := type_name; f_array_length := len; f_is_extension := false |}.

Definition crc16_check_vector : bool := crc16_mcrf4xx (bytes_of "123456789") == 0x6F91.
Definition crc16_init_empty : bool := crc16_mcrf4xx (bytes_of "") == CRC_INIT.

Definition crc_extra_heartbeat : bool :=
  let fields := [field "type" "uint8_t"; field "autopilot" "uint8_t"; field "base_mode" "uint8_t";
                 field "custom_mode" "uint32_t"; field "system_status" "uint8_t";
                 field "mavlink_version" "uint8_t_mavlink_version"] in
  crc_extra_for_message "HEARTBEAT" fields == Done 50.
Definition crc_extra_sys_status : bool :=
  let fields := [field "onboard_control_sensors_present" "uint32_t"; field "onboard_control_sensors_enabled" "uint32_t";
                 field "onboard_control_sensors_health" "uint32_t"; field "load" "uint16_t"; field "voltage_battery" "uint16_t";
                 field "current_battery" "int16_t"; field "battery_remaining" "int8_t"; field "drop_rate_comm" "uint16_t";
                 field "errors_comm" "uint16_t"; field "errors_count1" "uint16_t"; field "errors_count2" "uint16_t";
                 field "errors_count3" "uint16_t"; field "errors_count4" "uint16_t";
                 extension_field "onboard_control_sensors_present_extended" "uint32_t";
                 extension_field "onboard_control_sensors_enabled_extended" "uint32_t";
                 extension_field "onboard_control_sensors_health_extended" "uint32_t"] in
  crc_extra_for_message "SYS_STATUS" fields == Done 124.
Definition crc_extra_system_time : bool :=
  let fields := [field "time_unix_usec" "uint64_t"; field "time_boot_ms" "uint32_t"] in
  crc_extra_for_message "SYSTEM_TIME" fields == Done 137.
Definition crc_extra_ping : bool :=
  let fields := [field "time_usec" "uint64_t"; field "seq" "uint32_t"; field "target_system" "uint8_t";
                 field "target_component" "uint8_t"] in
  crc_extra_for_message "PING" fields == Done 237.
Definition crc_extra_attitude : bool :=
  let fields := [field "time_boot_ms" "uint32_t"; field "roll" "float"; field "pitch" "float"; field "yaw" "float";
                 field "rollspeed" "float"; field "pitchspeed" "float"; field "yawspeed" "float"] in
  crc_extra_for_message "ATTITUDE" fields == Done 39.
Definition crc_extra_gps_status_arrays : bool :=
  let fields := [field "satellites_visible" "uint8_t"; array_field "satellite_prn" "uint8_t" 20;
                 array_field "satellite_used" "uint8_t" 20; array_field "satellite_elevation" "uint8_t" 20;
                 array_field "satellite_azimuth" "uint8_t" 20; array_field "satellite_snr" "uint8_t" 20] in
  crc_extra_for_message "GPS_STATUS" fields == Done 23.

Theorem crc_extra_tests_pass :
  all_pass [crc16_check_vector; crc16_init_empty; crc_extra_heartbeat; crc_extra_sys_status; crc_extra_system_time;
            crc_extra_ping; crc_extra_attitude; crc_extra_gps_status_arrays] = true.
Proof. run_tests. Qed.
End CrcExtraTests.
