(* ===== verification/TestConfig.v ===== *)
(** * The tests of the configuration ([src/src/config.rs], [parsers/cli.rs],
    [parsers/toml.rs], [lib.rs])

    [clap] and the [toml] crate are not modelled: a test that starts from an argument vector
    or a TOML text starts here from the [Cli] or [TomlFile] those crates make of it, and the
    tests of what the crates themselves reject are left out. *)

From S2P Require Import Prelude Testing RustStr RustNet Frame Filters TxQueue Identity FilterParse Spec Endpoint UdpServer Config Display ErrorText TestFilters TestSpec.
#[local] Open Scope string_scope.
#[local] Open Scope list_scope.
#[local] Open Scope Z_scope.
#[local] Open Scope test_scope.

#[global] Instance LogLevel_eq_dec : EqDecision LogLevel.
Proof. solve_decision. Defined.
#[global] Instance LogFormat_eq_dec : EqDecision LogFormat.
Proof. solve_decision. Defined.

(** ** [src/src/config.rs] *)
Module ConfigTests.
(** [fn endpoint(spec) -> EndpointSpec], [vec![endpoint(..), ..]] *)
Definition endpoint (spec : string) : option EndpointSpec := parse_ok spec.
Definition endpoints (specs : list string) : option (list EndpointSpec) := mapM endpoint specs.

(** [Config { .., endpoints, ..Config::default() }] *)
Definition config_with (dedup_ms stats_interval_secs : Z) (eps : list EndpointSpec) : Config :=
  {| cf_log_level := LogInfo; cf_log_format := LogText; cf_stats := false; cf_stats_interval_secs := stats_interval_secs;
     cf_dedup_ms := dedup_ms; cf_skip_config_log := false; cf_endpoints := eps; cf_merged := false |}.
Definition config_of (eps : list EndpointSpec) : Config := config_with DEFAULT_DEDUP_MS DEFAULT_STATS_INTERVAL_SECS eps.
(** [TomlConfig { endpoints, ..TomlConfig::default() }], and likewise [CliConfig]. *)
Definition source_of (eps : list EndpointSpec) : SourceConfig :=
  {| sc_log_level := None; sc_log_format := None; sc_stats := None; sc_stats_interval_secs := None; sc_dedup_ms := None;
     sc_skip_config_log := None; sc_endpoints := eps |}.
(** A merge of TOML and command-line endpoints, and of command-line endpoints alone. *)
Definition merge_both (toml cli : list string) : option (result MergeOutcome Error) :=
  toml ← endpoints toml; cli ← endpoints cli; Some (Config_merge (Some (source_of toml)) (source_of cli)).
Definition merge_cli (cli : list string) : option (result MergeOutcome Error) :=
  cli ← endpoints cli; Some (Config_merge None (source_of cli)).
Definition names (c : Config) : list string := map spec_name (cf_endpoints c).

Definition defaults_match_documented_defaults : bool :=
  let config := Config_default in
  (cf_log_level config == LogInfo) && (cf_log_format config == LogText) && negb (cf_stats config) &&
  (cf_stats_interval_secs config == 5) && (cf_dedup_ms config == 0) && negb (cf_skip_config_log config) &&
  (length (cf_endpoints config) == 0%nat).

Definition validate_passes_on_unique_names : bool :=
  expect Some eps := endpoints ["udps:0.0.0.0:1#a"; "udps:0.0.0.0:2#b"] in
  expect Ok _ := Config_validate (config_of eps) in true.

Definition validate_detects_duplicate_explicit_names : bool :=
  expect Some eps := endpoints ["udps:0.0.0.0:1#foo"; "udps:0.0.0.0:2#foo"] in
  expect Err (DuplicateName name) := Config_validate (config_of eps) in name == "foo".

Definition validate_accepts_dedup_ms_at_cap : bool :=
  expect Some eps := endpoints ["udps:0.0.0.0:1#a"] in
  expect Ok _ := Config_validate (config_with MAX_DEDUP_MS DEFAULT_STATS_INTERVAL_SECS eps) in true.

Definition validate_rejects_dedup_ms_above_cap : bool :=
  expect Some eps := endpoints ["udps:0.0.0.0:1#a"] in
  expect Err (DedupMsTooLarge requested max) :=
    Config_validate (config_with (MAX_DEDUP_MS + 1) DEFAULT_STATS_INTERVAL_SECS eps) in
  (requested == MAX_DEDUP_MS + 1) && (max == MAX_DEDUP_MS).

Definition validate_rejects_zero_stats_interval : bool :=
  expect Some eps := endpoints ["udps:0.0.0.0:1#a"] in
  expect Err (StatsIntervalTooSmall requested min) := Config_validate (config_with DEFAULT_DEDUP_MS 0 eps) in
  (requested == 0) && (min == MIN_STATS_INTERVAL_SECS).

Definition validate_accepts_stats_interval_at_floor : bool :=
  expect Some eps := endpoints ["udps:0.0.0.0:1#a"] in
  expect Ok _ := Config_validate (config_with DEFAULT_DEDUP_MS MIN_STATS_INTERVAL_SECS eps) in true.

Definition validate_detects_duplicate_auto_names : bool :=
  expect Some eps := endpoints ["udps:0.0.0.0:1"; "udps:0.0.0.0:1"] in
  expect Err (DuplicateName _) := Config_validate (config_of eps) in true.

Definition merge_globals_cli_overrides_toml : bool :=
  let toml := {| sc_log_level := Some LogWarn; sc_log_format := Some LogText; sc_stats := Some false;
                 sc_stats_interval_secs := Some 7; sc_dedup_ms := Some 50; sc_skip_config_log := Some false;
                 sc_endpoints := [] |} in
  expect Some eps := endpoints ["udps:0.0.0.0:1#a"] in
  let cli := {| sc_log_level := Some LogDebug; sc_log_format := Some LogJson; sc_stats := Some true;
                sc_stats_interval_secs := Some 15; sc_dedup_ms := Some 250; sc_skip_config_log := Some true;
                sc_endpoints := eps |} in
  expect Ok outcome := Config_merge (Some toml) cli in
  let cfg := mo_config outcome in
  (cf_log_level cfg == LogDebug) && (cf_log_format cfg == LogJson) && cf_stats cfg && (cf_stats_interval_secs cfg == 15) &&
  (cf_dedup_ms cfg == 250) && cf_skip_config_log cfg && (mo_overridden_names outcome == []).

Definition merge_globals_toml_overrides_defaults_when_cli_unset : bool :=
  let toml := {| sc_log_level := Some LogTrace; sc_log_format := None; sc_stats := Some true; sc_stats_interval_secs := None;
                 sc_dedup_ms := Some 99; sc_skip_config_log := Some true; sc_endpoints := [] |} in
  expect Some eps := endpoints ["udps:0.0.0.0:1#a"] in
  expect Ok outcome := Config_merge (Some toml) (source_of eps) in
  let cfg := mo_config outcome in
  (cf_log_level cfg == LogTrace) && (cf_log_format cfg == LogText) && cf_stats cfg &&
  (cf_stats_interval_secs cfg == DEFAULT_STATS_INTERVAL_SECS) && (cf_dedup_ms cfg == 99) && cf_skip_config_log cfg.

Definition merge_globals_defaults_when_neither_source_sets_them : bool :=
  expect Some (Ok outcome) := merge_cli ["udps:0.0.0.0:1#a"] in
  let cfg := mo_config outcome in
  (cf_log_level cfg == LogInfo) && (cf_log_format cfg == LogText) && negb (cf_stats cfg) &&
  (cf_stats_interval_secs cfg == DEFAULT_STATS_INTERVAL_SECS) && (cf_dedup_ms cfg == DEFAULT_DEDUP_MS) &&
  negb (cf_skip_config_log cfg).

Definition merge_skip_config_log_toml_fallthrough : bool :=
  let toml := {| sc_log_level := None; sc_log_format := None; sc_stats := None; sc_stats_interval_secs := None;
                 sc_dedup_ms := None; sc_skip_config_log := Some true; sc_endpoints := [] |} in
  expect Some eps := endpoints ["udps:0.0.0.0:1#a"] in
  expect Ok outcome := Config_merge (Some toml) (source_of eps) in
  cf_skip_config_log (mo_config outcome).

Definition merge_toml_only_endpoints_pass_through : bool :=
  expect Some (Ok outcome) := merge_both ["udps:0.0.0.0:1#a"; "tcpc:gcs.local:5760#b"] [] in
  (mo_overridden_names outcome == []) && (names (mo_config outcome) == ["a"; "b"]).

Definition merge_cli_only_endpoints_pass_through : bool :=
  expect Some (Ok outcome) := merge_cli ["udps:0.0.0.0:1#a"; "tcpc:gcs.local:5760#b"] in
  (mo_overridden_names outcome == []) && (names (mo_config outcome) == ["a"; "b"]).

Definition merge_cli_endpoint_overrides_toml_same_name : bool :=
  expect Some (Ok outcome) := merge_both ["udps:0.0.0.0:14550#bus?sniffer=true&group=uplink"] ["tcpc:gcs.local:5760#bus"] in
  (mo_overridden_names outcome == ["bus"]) && (names (mo_config outcome) == ["bus"]) &&
  match cf_endpoints (mo_config outcome) with
  | e :: _ => match spec_kind e with Kind_TcpClient _ => true | _ => false end
  | [] => false
  end.

Definition merge_cli_endpoint_override_preserves_order : bool :=
  expect Some (Ok outcome) :=
    merge_both ["udps:0.0.0.0:1#keep1"; "udps:0.0.0.0:2#override-me"; "udps:0.0.0.0:3#keep2"]
               ["tcpc:host:1#override-me"; "tcpc:host:2#extra"] in
  (mo_overridden_names outcome == ["override-me"]) &&
  (names (mo_config outcome) == ["keep1"; "keep2"; "override-me"; "extra"]).

Definition merge_multiple_overrides_reported_in_order : bool :=
  expect Some (Ok outcome) :=
    merge_both ["udps:0.0.0.0:1#a"; "udps:0.0.0.0:2#b"; "udps:0.0.0.0:3#c"] ["tcpc:h:1#a"; "tcpc:h:2#c"] in
  mo_overridden_names outcome == ["a"; "c"].

Definition merge_duplicate_name_within_cli_is_fatal : bool :=
  expect Some (Err (DuplicateName name)) := merge_cli ["udps:0.0.0.0:1#foo"; "udps:0.0.0.0:2#foo"] in name == "foo".

Definition merge_duplicate_name_within_toml_is_fatal : bool :=
  expect Some (Err (DuplicateName name)) := merge_both ["udps:0.0.0.0:1#foo"; "udps:0.0.0.0:2#foo"] [] in name == "foo".

Definition merge_within_toml_duplicate_fires_before_override_pass : bool :=
  expect Some (Err (DuplicateName name)) := merge_both ["udps:0.0.0.0:1#foo"; "udps:0.0.0.0:2#foo"] ["tcpc:h:1#foo"] in
  name == "foo".

Definition merge_within_cli_duplicate_fires_before_override_pass : bool :=
  expect Some (Err (DuplicateName name)) := merge_both ["udps:0.0.0.0:1#foo"] ["tcpc:h:1#foo"; "tcpc:h:2#foo"] in
  name == "foo".

Definition merge_no_overrides_when_no_collisions : bool :=
  expect Some (Ok outcome) := merge_both ["udps:0.0.0.0:1#a"] ["tcpc:h:1#b"] in mo_overridden_names outcome == [].

Definition merge_flag_false_when_no_toml_loaded : bool :=
  expect Some (Ok outcome) := merge_cli ["udps:0.0.0.0:1#a"] in negb (cf_merged (mo_config outcome)).

Definition merge_flag_false_when_toml_loaded_but_empty : bool :=
  expect Some (Ok outcome) := merge_both [] ["udps:0.0.0.0:1#a"] in negb (cf_merged (mo_config outcome)).

Definition merge_flag_false_when_cli_empty : bool :=
  expect Some (Ok outcome) := merge_both ["udps:0.0.0.0:1#a"] [] in negb (cf_merged (mo_config outcome)).

Definition merge_flag_true_when_both_sides_contribute_endpoints : bool :=
  expect Some (Ok outcome) := merge_both ["udps:0.0.0.0:1#a"] ["tcpc:h:1#b"] in cf_merged (mo_config outcome).

Definition validates (specs : list string) : bool :=
  expect Some eps := endpoints specs in expect Ok _ := Config_validate (config_of eps) in true.
Definition validate_accepts_filter_naming_existing_endpoint : bool :=
  validates ["udps:0.0.0.0:1#local_service"; "tcpc:radio.local:5760#radio?block_src_endpoint_out=local_service"].

Definition validate_rejects_unknown_endpoint_reference : bool :=
  expect Some eps := endpoints ["tcpc:radio.local:5760#radio?block_src_endpoint_out=does_not_exist"] in
  expect Err (FilterReferencesUnknownEndpoint endpoint_name axis referenced_name) := Config_validate (config_of eps) in
  (endpoint_name == "radio") && (axis == "block_src_endpoint_out") && (referenced_name == "does_not_exist").

Definition validate_accepts_block_self_reference : bool :=
  validates ["tcps:0.0.0.0:5760#radio?block_src_endpoint_out=radio"].
Definition validate_accepts_allow_self_reference : bool :=
  validates ["udps:0.0.0.0:1#peer"; "tcpc:gcs.local:5760#radio?allow_src_endpoint_out=peer,radio"].

Definition merge_flag_true_when_cli_only_contributes_a_global : bool :=
  expect Some eps := endpoints ["udps:0.0.0.0:1#a"] in
  let cli := {| sc_log_level := Some LogDebug; sc_log_format := None; sc_stats := None; sc_stats_interval_secs := None;
                sc_dedup_ms := None; sc_skip_config_log := None; sc_endpoints := [] |} in
  expect Ok outcome := Config_merge (Some (source_of eps)) cli in cf_merged (mo_config outcome).

Theorem config_tests_pass :
  all_pass [defaults_match_documented_defaults; validate_passes_on_unique_names; validate_detects_duplicate_explicit_names;
            validate_accepts_dedup_ms_at_cap; validate_rejects_dedup_ms_above_cap; validate_rejects_zero_stats_interval;
            validate_accepts_stats_interval_at_floor; validate_detects_duplicate_auto_names;
            merge_globals_cli_overrides_toml; merge_globals_toml_overrides_defaults_when_cli_unset;
            merge_globals_defaults_when_neither_source_sets_them; merge_skip_config_log_toml_fallthrough;
            merge_toml_only_endpoints_pass_through; merge_cli_only_endpoints_pass_through;
            merge_cli_endpoint_overrides_toml_same_name; merge_cli_endpoint_override_preserves_order;
            merge_multiple_overrides_reported_in_order; merge_duplicate_name_within_cli_is_fatal;
            merge_duplicate_name_within_toml_is_fatal; merge_within_toml_duplicate_fires_before_override_pass;
            merge_within_cli_duplicate_fires_before_override_pass; merge_no_overrides_when_no_collisions;
            merge_flag_false_when_no_toml_loaded; merge_flag_false_when_toml_loaded_but_empty;
            merge_flag_false_when_cli_empty; merge_flag_true_when_both_sides_contribute_endpoints;
            validate_accepts_filter_naming_existing_endpoint; validate_rejects_unknown_endpoint_reference;
            validate_accepts_block_self_reference; validate_accepts_allow_self_reference;
            merge_flag_true_when_cli_only_contributes_a_global] = true.
Proof. run_tests. Qed.
End ConfigTests.
