(* ===== verification/TestParsers.v ===== *)
(** * The tests of the two configuration front ends and of the program's edges
    ([src/src/parsers/cli.rs], [parsers/toml.rs], [lib.rs], [shutdown.rs], [log.rs])

    [clap] and the [toml] crate are not modelled: a test that starts from an argument vector
    or a TOML text starts here from the [Cli] or the [TomlFile] those crates make of it, and
    the tests of what only the crates decide (flags, help text, TOML syntax, unknown and
    ill-typed keys) are left out. *)

From Stdlib Require Import Ascii.
From S2P Require Import Prelude Testing RustStr RustNet Frame Filters TxQueue Identity FilterParse Spec Endpoint UdpServer StatsTask Config Shutdown Log ErrorText Display Version TestFilters TestSpec TestConfig.
#[local] Open Scope string_scope.
#[local] Open Scope list_scope.
#[local] Open Scope Z_scope.
#[local] Open Scope test_scope.

(** ** [src/src/parsers/cli.rs] *)
Module CliTests.
(** [Cli::try_parse_from(["rmr", <flags>, <endpoints>])] *)
Definition cli_of (stats skip_config_log : bool) (dedup_ms : option Z) (endpoints : list string) : Cli :=
  {| cli_config := None; cli_log_level := None; cli_log_format := None; cli_stats := stats; cli_stats_interval_secs := None;
     cli_dedup_ms := dedup_ms; cli_skip_config_log := skip_config_log; cli_dry_run := false; cli_endpoints := endpoints |}.

Definition into_cli_config_builds_typed_config : bool :=
  let cli := cli_of true false (Some 300) ["udps:0.0.0.0:14550#bus"; "tcpc:gcs.local:5760#vehicle"] in
  expect Ok cfg := into_cli_config levenshtein cli in
  (sc_stats cfg == Some true) && (sc_dedup_ms cfg == Some 300) && (map spec_name (sc_endpoints cfg) == ["bus"; "vehicle"]).

Definition into_cli_config_leaves_unset_globals_as_none : bool :=
  expect Ok cfg := into_cli_config levenshtein (cli_of false false None ["udps:0.0.0.0:1#a"]) in
  (sc_log_level cfg == None) && (sc_log_format cfg == None) && (sc_stats cfg == None) &&
  (sc_stats_interval_secs cfg == None) && (sc_dedup_ms cfg == None) && (sc_skip_config_log cfg == None).

Definition skip_config_log_flag_present_becomes_some_true : bool :=
  expect Ok cfg := into_cli_config levenshtein (cli_of false true None ["udps:0.0.0.0:1#a"]) in
  sc_skip_config_log cfg == Some true.

Definition into_cli_config_propagates_spec_error : bool :=
  expect Err (SpecInArg index arg _) := into_cli_config levenshtein (cli_of false false None ["bogus-not-an-endpoint"]) in
  (index == 0%nat) && (arg == "bogus-not-an-endpoint").

Definition parse_specs_ok : bool :=
  expect Ok specs := parse_specs levenshtein ["udps:0.0.0.0:14550#bus"; "tcpc:gcs.local:5760#vehicle"] in
  map spec_name specs == ["bus"; "vehicle"].

Definition parse_specs_propagates_spec_error : bool :=
  expect Err (SpecInArg index arg _) := parse_specs levenshtein ["bogus-not-an-endpoint"] in
  (index == 0%nat) && (arg == "bogus-not-an-endpoint").

Definition parse_specs_reports_offending_arg_position : bool :=
  expect Err (SpecInArg index arg _) :=
    parse_specs levenshtein ["udps:0.0.0.0:14550"; "tcpc:bad-no-port"; "serial:/dev/ttyUSB0:115200"] in
  (index == 1%nat) && (arg == "tcpc:bad-no-port").

Definition spec_in_arg_message_includes_position_and_raw_arg : bool :=
  expect Err err := parse_specs levenshtein ["tcpc:bad-no-port"] in
  let rendered := Error_to_string err in
  str_contains "#1" rendered && str_contains "'tcpc:bad-no-port'" rendered.

Theorem cli_tests_pass :
  all_pass [into_cli_config_builds_typed_config; into_cli_config_leaves_unset_globals_as_none;
            skip_config_log_flag_present_becomes_some_true; into_cli_config_propagates_spec_error; parse_specs_ok;
            parse_specs_propagates_spec_error; parse_specs_reports_offending_arg_position;
            spec_in_arg_message_includes_position_and_raw_arg] = true.
Proof. run_tests. Qed.

(** [version_string.starts_with(pkg_version)], in whatever tree and with whatever [git] and
    clock the crate is built. *)
Definition version_string_starts_with_cargo_pkg_version {T} (pkg_version : string) (in_git : bool)
    (git : list string -> option Output) (now_utc now_utc_again : T) (replace_nanosecond : Z -> T -> option T)
    (format_rfc3339 : T -> option string) : bool :=
  String.prefix pkg_version (version_string pkg_version in_git git now_utc now_utc_again replace_nanosecond format_rfc3339).

Lemma prefix_append s t : String.prefix s (s ++s t) = true.
Proof. induction s as [|c s IH]; simpl; [by destruct t|]. by destruct (ascii_dec c c). Qed.
Lemma prefix_refl s : String.prefix s s = true.
Proof. induction s as [|c s IH]; simpl; [done|]. by destruct (ascii_dec c c). Qed.

Theorem version_string_test_passes T pkg_version in_git git (now_utc now_utc_again : T) replace_nanosecond format_rfc3339 :
  version_string_starts_with_cargo_pkg_version pkg_version in_git git now_utc now_utc_again replace_nanosecond format_rfc3339 = true.
Proof.
  unfold version_string_starts_with_cargo_pkg_version, version_string. cbv zeta.
  destruct (negb in_git || _); [apply prefix_refl|apply prefix_append].
Qed.
End CliTests.

(** ** [src/src/parsers/toml.rs] *)
Module TomlTests.
Inductive toml_value := TStr (s : string) | TInt (n : Z) | TBool (b : bool).

(** The [TomlEndpoint] of a table with these keys. *)
Section Entry.
Context (table : list (string * toml_value)).
Definition get (key : string) : option toml_value := snd <$> List.find (fun p => String.eqb p.1 key) table.
Definition str (key : string) : option string := match get key with Some (TStr s) => Some s | _ => None end.
Definition int (key : string) : option Z := match get key with Some (TInt n) => Some n | _ => None end.
Definition bool_of (key : string) : option bool := match get key with Some (TBool b) => Some b | _ => None end.
Definition entry : TomlEndpoint := {|
  te_scheme := default "" (str "type"); te_path := str "path"; te_baud := int "baud"; te_flow_control := str "flow_control";
  te_bind := str "bind"; te_host := str "host"; te_port := int "port"; te_idle_secs := int "idle_secs";
  te_latch_idle_secs := int "latch_idle_secs"; te_sniffer := bool_of "sniffer"; te_group := str "group";
  te_allow_msgid_in := str "allow_msgid_in"; te_block_msgid_in := str "block_msgid_in";
  te_allow_msgid_out := str "allow_msgid_out"; te_block_msgid_out := str "block_msgid_out";
  te_allow_src_sys_in := str "allow_src_sys_in"; te_block_src_sys_in := str "block_src_sys_in";
  te_allow_src_sys_out := str "allow_src_sys_out"; te_block_src_sys_out := str "block_src_sys_out";
  te_allow_src_comp_in := str "allow_src_comp_in"; te_block_src_comp_in := str "block_src_comp_in";
  te_allow_src_comp_out := str "allow_src_comp_out"; te_block_src_comp_out := str "block_src_comp_out";
  te_allow_src_endpoint_out := str "allow_src_endpoint_out"; te_block_src_endpoint_out := str "block_src_endpoint_out" |}.
End Entry.

(** A file of [[endpoint.<name>]] tables and no globals, through [TomlConfig::parse_str]. *)
Definition file_of (tables : list (string * list (string * toml_value))) : TomlFile :=
  {| tf_log_level := None; tf_log_format := None; tf_stats := None; tf_stats_interval_secs := None; tf_dedup_ms := None;
     tf_skip_config_log := None; tf_endpoint := map (fun t => (t.1, Ok (entry t.2))) tables |}.
Definition parse_file (f : TomlFile) : result SourceConfig Error := TomlConfig_parse_str levenshtein (fun _ => Ok f) "".
Definition parse_tables (tables : list (string * list (string * toml_value))) : result SourceConfig Error :=
  parse_file (file_of tables).
(** The one endpoint of such a file. *)
Definition one_endpoint (name : string) (table : list (string * toml_value)) : option EndpointSpec :=
  match parse_tables [(name, table)] with Ok cfg => match sc_endpoints cfg with [spec] => Some spec | _ => None end | Err _ => None end.

Definition empty_yields_no_endpoints : bool :=
  expect Ok cfg := parse_tables [] in
  (length (sc_endpoints cfg) == 0%nat) && (sc_log_level cfg == None) && (sc_log_format cfg == None) && (sc_stats cfg == None) &&
  (sc_stats_interval_secs cfg == None) && (sc_dedup_ms cfg == None).

Definition globals_only : bool :=
  let f := {| tf_log_level := Some LogDebug; tf_log_format := Some LogJson; tf_stats := Some true;
              tf_stats_interval_secs := Some 10; tf_dedup_ms := Some 200; tf_skip_config_log := None; tf_endpoint := [] |} in
  expect Ok cfg := parse_file f in
  (sc_log_level cfg == Some LogDebug) && (sc_log_format cfg == Some LogJson) && (sc_stats cfg == Some true) &&
  (sc_stats_interval_secs cfg == Some 10) && (sc_dedup_ms cfg == Some 200).

Definition serial_endpoint : bool :=
  expect Some spec := one_endpoint "fc"
    [("type", TStr "serial"); ("path", TStr "/dev/ttyUSB0"); ("baud", TInt 921600); ("flow_control", TStr "rtscts")] in
  expect Kind_Serial ep := spec_kind spec in
  (spec_name spec == "fc") && (se_path ep == "/dev/ttyUSB0") && (se_baud ep == 921600) &&
  match se_flow_control ep with FlowControl_RtsCts => true | _ => false end.

Definition udps_endpoint_with_filters : bool :=
  expect Some spec := one_endpoint "bus"
    [("type", TStr "udps"); ("bind", TStr "0.0.0.0:14550"); ("idle_secs", TInt 30); ("sniffer", TBool false);
     ("group", TStr "uplink"); ("block_msgid_in", TStr "33,100-150"); ("allow_src_sys_out", TStr "1,5-10")] in
  expect Kind_UdpServer ep := spec_kind spec in
  (spec_name spec == "bus") && (SocketAddr_to_string (us_bind_addr ep) == "0.0.0.0:14550") && (us_idle_secs ep == Some 30) &&
  (group (us_identity ep) == Some "uplink") && negb (sniffer (us_identity ep)) &&
  (length (block_msgid_in (filters (us_identity ep))) == 2%nat) &&
  (length (allow_src_sys_out (filters (us_identity ep))) == 2%nat).

Definition tcpc_table (rest : list (string * toml_value)) : list (string * toml_value) :=
  ("type", TStr "tcpc") :: ("host", TStr "h") :: ("port", TInt 1) :: rest.

Definition tcpc_endpoint_with_src_endpoint_out_filter : bool :=
  expect Some spec := one_endpoint "radio"
    [("type", TStr "tcpc"); ("host", TStr "radio.local"); ("port", TInt 5760);
     ("block_src_endpoint_out", TStr "local_service,fc")] in
  expect Kind_TcpClient ep := spec_kind spec in
  (spec_name spec == "radio") && (block_src_endpoint_out (filters (tc_identity ep)) == ["local_service"; "fc"]).

Definition toml_invalid_endpoint_name_in_filter_rejected : bool :=
  expect Err err := parse_tables [("radio", tcpc_table [("block_src_endpoint_out", TStr "bad.name")])] in
  str_contains "block_src_endpoint_out" (Error_to_string err).

Definition udpc_ipv6_host_brackets_synthesized_body : bool :=
  expect Some spec := one_endpoint "tap"
    [("type", TStr "udpc"); ("host", TStr "::1"); ("port", TInt 14550); ("latch_idle_secs", TInt 15)] in
  expect Kind_UdpClient ep := spec_kind spec in
  (uc_host ep == "::1") && (uc_port ep == 14550) && (uc_latch_idle_secs ep == Some 15).

Definition tcpc_hostname : bool :=
  expect Some spec := one_endpoint "vehicle" [("type", TStr "tcpc"); ("host", TStr "gcs.local"); ("port", TInt 5760)] in
  expect Kind_TcpClient ep := spec_kind spec in
  (tc_host ep == "gcs.local") && (tc_port ep == 5760) && (spec_name spec == "vehicle").

Definition tcps_endpoint : bool :=
  expect Some spec := one_endpoint "uplink" [("type", TStr "tcps"); ("bind", TStr "[::]:5760")] in
  expect Kind_TcpServer ep := spec_kind spec in SocketAddr_to_string (ts_bind_addr ep) == "[::]:5760".

(** The rejection matrices, case by case. *)
Definition wrong_scheme_field_rejected (type_name wrong_field : string) (value : toml_value) : bool :=
  expect Err (ConfigSchema name reason) := parse_tables [("ep", [("type", TStr type_name); (wrong_field, value)])] in
  (name == "ep") && str_contains ("'" ++s wrong_field ++s "'") reason && str_contains ("'" ++s type_name ++s "'") reason.
Definition wrong_scheme_cases : list bool :=
  [wrong_scheme_field_rejected "serial" "bind" (TStr "0.0.0.0:1"); wrong_scheme_field_rejected "serial" "idle_secs" (TInt 30);
   wrong_scheme_field_rejected "udps" "host" (TStr "gcs.local"); wrong_scheme_field_rejected "udps" "flow_control" (TStr "rtscts");
   wrong_scheme_field_rejected "udps" "latch_idle_secs" (TInt 30); wrong_scheme_field_rejected "tcps" "host" (TStr "gcs.local");
   wrong_scheme_field_rejected "tcps" "idle_secs" (TInt 30); wrong_scheme_field_rejected "udpc" "bind" (TStr "0.0.0.0:1");
   wrong_scheme_field_rejected "udpc" "idle_secs" (TInt 30); wrong_scheme_field_rejected "tcpc" "latch_idle_secs" (TInt 30);
   wrong_scheme_field_rejected "tcpc" "flow_control" (TStr "rtscts")].

Definition missing_required_field_rejected (type_name : string) (other_fields : list (string * toml_value)) (missing_field : string) : bool :=
  expect Err (ConfigSchema name reason) := parse_tables [("ep", ("type", TStr type_name) :: other_fields)] in
  (name == "ep") && str_contains ("'" ++s missing_field ++s "'") reason.
Definition missing_field_cases : list bool :=
  [missing_required_field_rejected "serial" [("baud", TInt 115200)] "path";
   missing_required_field_rejected "serial" [("path", TStr "/dev/x")] "baud";
   missing_required_field_rejected "udps" [] "bind"; missing_required_field_rejected "tcps" [] "bind";
   missing_required_field_rejected "udpc" [("port", TInt 1)] "host"; missing_required_field_rejected "udpc" [("host", TStr "h")] "port";
   missing_required_field_rejected "tcpc" [("port", TInt 1)] "host"; missing_required_field_rejected "tcpc" [("host", TStr "h")] "port"].

Definition unknown_endpoint_type_rejected : bool :=
  expect Err (ConfigSchema _ reason) := parse_tables [("mystery", [("type", TStr "carrier_pigeon")])] in
  str_contains "unknown endpoint type" reason.

Definition propagates_spec_errors_for_invalid_query_value : bool :=
  expect Err (SpecInToml name _) := parse_tables [("vehicle", tcpc_table [("block_msgid_in", TStr "10-5")])] in name == "vehicle".

Definition udps_table (rest : list (string * toml_value)) : list (string * toml_value) :=
  ("type", TStr "udps") :: ("bind", TStr "0.0.0.0:14550") :: rest.

Definition table_key_becomes_endpoint_name : bool :=
  expect Some spec := one_endpoint "bus" (udps_table []) in spec_name spec == "bus".

Definition empty_quoted_endpoint_name_rejected : bool :=
  expect Err (SpecInToml name _) := parse_tables [("", udps_table [])] in name == "".

Definition from_path_round_trip : bool :=
  let vehicle := [("type", TStr "tcpc"); ("host", TStr "gcs.local"); ("port", TInt 5760)] in
  let f := {| tf_log_level := None; tf_log_format := None; tf_stats := Some true; tf_stats_interval_secs := None; tf_dedup_ms := None;
              tf_skip_config_log := None; tf_endpoint := [("vehicle", Ok (entry vehicle))] |} in
  let toml_from_str text := if String.eqb text "the file" then Ok f else Err "no such text" in
  let read_to_string path := if String.eqb path "rmr.toml" then Ok "the file" else Err "not found" in
  expect Ok cfg := TomlConfig_from_path levenshtein toml_from_str read_to_string "rmr.toml" in
  (sc_stats cfg == Some true) && (length (sc_endpoints cfg) == 1%nat).

Definition from_path_io_error : bool :=
  expect Err (ConfigIo path _) :=
    TomlConfig_from_path levenshtein (fun _ => Ok (file_of [])) (fun _ => Err "not found") "/nonexistent/path/rmr.toml" in
  str_contains "nonexistent" path.

Definition invalid_explicit_name_rejected : bool :=
  expect Err (SpecInToml name _) := parse_tables [("has spaces", udps_table [])] in name == "has spaces".

Definition serial_path_containing_colon : bool :=
  expect Some spec := one_endpoint "fc"
    [("type", TStr "serial"); ("path", TStr "/dev/serial/by-id/usb-FTDI:port0"); ("baud", TInt 57600)] in
  expect Kind_Serial ep := spec_kind spec in
  (se_path ep == "/dev/serial/by-id/usb-FTDI:port0") && (se_baud ep == 57600).

Definition kind_name (k : EndpointKind) : string :=
  match k with
  | Kind_Serial _ => "serial" | Kind_UdpServer _ => "udps" | Kind_UdpClient _ => "udpc" | Kind_TcpServer _ => "tcps" | Kind_TcpClient _ => "tcpc"
  end.
Definition multiple_endpoints_preserve_order_and_kind : bool :=
  expect Ok cfg := parse_tables
    [("fc", [("type", TStr "serial"); ("path", TStr "/dev/ttyUSB0"); ("baud", TInt 921600)]); ("bus", udps_table []);
     ("tap", [("type", TStr "udpc"); ("host", TStr "192.168.1.5"); ("port", TInt 14550)]);
     ("uplink", [("type", TStr "tcps"); ("bind", TStr "0.0.0.0:5760")]);
     ("vehicle", [("type", TStr "tcpc"); ("host", TStr "gcs.local"); ("port", TInt 5760)])] in
  map (fun spec => (spec_name spec, kind_name (spec_kind spec))) (sc_endpoints cfg) ==
  [("fc", "serial"); ("bus", "udps"); ("tap", "udpc"); ("uplink", "tcps"); ("vehicle", "tcpc")].

(** [fn filter_axis_count(filters, axis) -> usize] *)
Definition filter_axis_count (f : Filters) (axis : string) : option nat :=
  if String.eqb axis "allow_msgid_in" then Some (length (allow_msgid_in f))
  else if String.eqb axis "block_msgid_in" then Some (length (block_msgid_in f))
  else if String.eqb axis "allow_msgid_out" then Some (length (allow_msgid_out f))
  else if String.eqb axis "block_msgid_out" then Some (length (block_msgid_out f))
  else if String.eqb axis "allow_src_sys_in" then Some (length (allow_src_sys_in f))
  else if String.eqb axis "block_src_sys_in" then Some (length (block_src_sys_in f))
  else if String.eqb axis "allow_src_sys_out" then Some (length (allow_src_sys_out f))
  else if String.eqb axis "block_src_sys_out" then Some (length (block_src_sys_out f))
  else if String.eqb axis "allow_src_comp_in" then Some (length (allow_src_comp_in f))
  else if String.eqb axis "block_src_comp_in" then Some (length (block_src_comp_in f))
  else if String.eqb axis "allow_src_comp_out" then Some (length (allow_src_comp_out f))
  else if String.eqb axis "block_src_comp_out" then Some (length (block_src_comp_out f))
  else if String.eqb axis "allow_src_endpoint_out" then Some (length (allow_src_endpoint_out f))
  else if String.eqb axis "block_src_endpoint_out" then Some (length (block_src_endpoint_out f))
  else None.

Definition each_filter_knob_round_trips (axis : string) : bool :=
  expect Some spec := one_endpoint "ep" (tcpc_table [(axis, TStr "1,5-10")]) in
  expect Kind_TcpClient ep := spec_kind spec in
  filter_axis_count (filters (tc_identity ep)) axis == Some 2%nat.
Definition knob_cases : list bool :=
  map each_filter_knob_round_trips
    ["allow_msgid_in"; "block_msgid_in"; "allow_msgid_out"; "block_msgid_out"; "allow_src_sys_in"; "block_src_sys_in";
     "allow_src_sys_out"; "block_src_sys_out"; "allow_src_comp_in"; "block_src_comp_in"; "allow_src_comp_out";
     "block_src_comp_out"; "allow_src_endpoint_out"; "block_src_endpoint_out"].

Definition explicit_stats_false_distinguishable_from_unset : bool :=
  let f := {| tf_log_level := None; tf_log_format := None; tf_stats := Some false; tf_stats_interval_secs := None; tf_dedup_ms := None;
              tf_skip_config_log := None; tf_endpoint := [] |} in
  expect Ok cfg := parse_file f in sc_stats cfg == Some false.

Definition sniffer_true_propagates_to_identity : bool :=
  expect Some spec := one_endpoint "bus" (udps_table [("sniffer", TBool true)]) in
  expect Kind_UdpServer ep := spec_kind spec in sniffer (us_identity ep).

Definition disallowed_field_takes_priority_over_missing_field : bool :=
  expect Err (ConfigSchema _ reason) := parse_tables [("fc", [("type", TStr "serial"); ("bind", TStr "0.0.0.0:14550")])] in
  str_contains "'bind'" reason && str_contains "'serial'" reason.

Definition config_schema_error_carries_endpoint_name : bool :=
  expect Err (ConfigSchema name _) := parse_tables [("fleet-bus", udps_table [("host", TStr "192.168.1.1")])] in name == "fleet-bus".

Definition error_message_quotes_endpoint_table_and_name : bool :=
  expect Err err := parse_tables
    [("bus", udps_table []); ("fleet-bus", [("type", TStr "udps"); ("host", TStr "drone.local")])] in
  let rendered := Error_to_string err in
  str_contains "[endpoint.fleet-bus]" rendered && str_contains "allowed fields:" rendered.

Theorem toml_tests_pass :
  all_pass [empty_yields_no_endpoints; globals_only; serial_endpoint; udps_endpoint_with_filters;
            tcpc_endpoint_with_src_endpoint_out_filter; toml_invalid_endpoint_name_in_filter_rejected;
            udpc_ipv6_host_brackets_synthesized_body; tcpc_hostname; tcps_endpoint; all_pass wrong_scheme_cases;
            all_pass missing_field_cases; unknown_endpoint_type_rejected; propagates_spec_errors_for_invalid_query_value;
            table_key_becomes_endpoint_name; empty_quoted_endpoint_name_rejected; from_path_round_trip; from_path_io_error;
            invalid_explicit_name_rejected; serial_path_containing_colon; multiple_endpoints_preserve_order_and_kind;
            all_pass knob_cases; explicit_stats_false_distinguishable_from_unset; sniffer_true_propagates_to_identity;
            disallowed_field_takes_priority_over_missing_field; config_schema_error_carries_endpoint_name;
            error_message_quotes_endpoint_table_and_name] = true.
Proof. run_tests. Qed.
End TomlTests.

(** ** [src/src/lib.rs] *)
Module LibTests.
Definition specs_of (inputs : list string) : option (list EndpointSpec) := mapM parse_ok inputs.
(** [groups_needing_dedup_warning], the hash map iterated in any one order. *)
Definition warned (inputs : list string) (dedup_ms : Z) : option (list (string * nat)) :=
  specs ← specs_of inputs; Some (groups_needing_dedup_warning map_to_list specs dedup_ms).

Definition estimate_registry_size_counts_top_level_only_for_clients : bool :=
  expect Some specs := specs_of ["tcpc:127.0.0.1:1"; "udpc:127.0.0.1:2"; "serial:/dev/null:115200"] in
  estimate_registry_size specs == 3.

Definition estimate_registry_size_adds_peer_budgets_for_listeners : bool :=
  expect Some specs := specs_of ["udps:0.0.0.0:1"; "tcps:0.0.0.0:2"] in
  estimate_registry_size specs == 2 + Z.of_nat DEFAULT_PEER_CAPACITY + Z.of_nat DEFAULT_TCPS_PEER_BUDGET.

Definition groups_needing_dedup_warning_ignores_lone_leaves_and_groupless : bool :=
  warned ["tcpc:127.0.0.1:1?group=alone"; "tcpc:127.0.0.1:2"] 0 == Some [].

Definition groups_needing_dedup_warning_fires_on_two_leaves : bool :=
  warned ["tcpc:127.0.0.1:1?group=uplink"; "udpc:127.0.0.1:2?group=uplink"] 0 == Some [("uplink", 2%nat)].

Definition groups_needing_dedup_warning_ignores_lone_listener_parent : bool :=
  forallb (fun body => warned [body] 0 == Some []) ["tcps:0.0.0.0:1?group=uplink"; "udps:0.0.0.0:1?group=uplink"].

Definition groups_needing_dedup_warning_sorts_by_name : bool :=
  warned ["tcpc:127.0.0.1:1?group=zeta"; "tcpc:127.0.0.1:2?group=alpha"; "udpc:127.0.0.1:3?group=zeta";
          "serial:/dev/null:115200?group=alpha"] 0 == Some [("alpha", 2%nat); ("zeta", 2%nat)].

Definition groups_needing_dedup_warning_excludes_sniffers_from_count : bool :=
  warned ["tcpc:127.0.0.1:1?group=g"; "udpc:127.0.0.1:2?group=g&sniffer=true"] 0 == Some [].

Definition groups_needing_dedup_warning_short_circuits_when_dedup_enabled : bool :=
  warned ["tcpc:127.0.0.1:1?group=uplink"; "udpc:127.0.0.1:2?group=uplink"] 100 == Some [].

Definition groups_needing_dedup_warning_fires_on_two_listeners : bool :=
  warned ["tcps:0.0.0.0:1?group=uplink"; "udps:0.0.0.0:2?group=uplink"] 0 == Some [("uplink", 2%nat)].

Theorem lib_tests_pass :
  all_pass [estimate_registry_size_counts_top_level_only_for_clients; estimate_registry_size_adds_peer_budgets_for_listeners;
            groups_needing_dedup_warning_ignores_lone_leaves_and_groupless; groups_needing_dedup_warning_fires_on_two_leaves;
            groups_needing_dedup_warning_ignores_lone_listener_parent; groups_needing_dedup_warning_sorts_by_name;
            groups_needing_dedup_warning_excludes_sniffers_from_count;
            groups_needing_dedup_warning_short_circuits_when_dedup_enabled;
            groups_needing_dedup_warning_fires_on_two_listeners] = true.
Proof. run_tests. Qed.
End LibTests.

(** ** [src/src/shutdown.rs]

    The Windows tests are left out: they ask the operating system. *)
Module ShutdownTests.
Definition millis (n : Z) : Z := n * 1000000.
(** [n] tasks that sleep and then add one to the counter; an abort is served at once.  A task
    has counted when it was not aborted. *)
Definition sleepers (n : nat) (nanos : Z) : list JoinTask := repeat {| jt_returns := Some nanos; jt_abort_latency := Some 0 |} n.
Definition shutdown_counts (tasks : list JoinTask) (wall_clock : Z) : Z * nat :=
  let '(_, elapsed, aborted) := shutdown tasks wall_clock 0 0 in (elapsed, (length tasks - length aborted)%nat).

Definition empty_joinset_returns_immediately : bool :=
  let '(elapsed, _) := shutdown_counts [] (from_secs 5) in elapsed <? millis 50.

Definition waits_for_tasks_that_finish_within_grace : bool :=
  let '(_, counter) := shutdown_counts (sleepers 3 (millis 20)) (from_secs 5) in counter == 3%nat.

Definition aborts_tasks_that_outlast_grace : bool :=
  let '(elapsed, counter) := shutdown_counts (sleepers 2 (from_secs 3600)) (millis 100) in
  (millis 100 <=? elapsed) && (elapsed <? from_secs 2) && (counter == 0%nat).

Definition aborts_tasks_exceeding_per_task_drain : bool :=
  let '(elapsed, counter) := shutdown_counts (sleepers 2 (from_secs 60)) (from_secs 5) in
  (PER_TASK_DRAIN <=? elapsed) && (elapsed <? from_secs 3) && (counter == 0%nat).

Definition task_completing_within_per_task_drain_is_not_aborted : bool :=
  let '(elapsed, counter) := shutdown_counts (sleepers 3 (millis 100)) (from_secs 5) in
  (elapsed <? PER_TASK_DRAIN) && (counter == 3%nat).

(** With no signal at all, and the token cancelled at the start. *)
Definition watch_returns_when_token_already_cancelled : bool :=
  expect Some at_time := watch_for_shutdown_signal (Ok None) (TerminateUnix (Ok None)) (Some 0) in at_time <? millis 100.

Theorem shutdown_tests_pass :
  all_pass [empty_joinset_returns_immediately; waits_for_tasks_that_finish_within_grace; aborts_tasks_that_outlast_grace;
            aborts_tasks_exceeding_per_task_drain; task_completing_within_per_task_drain_is_not_aborted;
            watch_returns_when_token_already_cancelled] = true.
Proof. run_tests. Qed.
End ShutdownTests.

(** ** [src/src/log.rs] *)
Module LogTests.
#[global] Instance Level_eq_dec : EqDecision Level.
Proof. solve_decision. Defined.

Definition log_level_to_tracing_level : bool :=
  (Level_from LogTrace == TRACE) && (Level_from LogDebug == DEBUG) && (Level_from LogInfo == INFO) &&
  (Level_from LogWarn == WARN) && (Level_from LogError == ERROR).

Theorem log_tests_pass : all_pass [log_level_to_tracing_level] = true.
Proof. run_tests. Qed.
End LogTests.
