(* ===== verification/TestRouter.v ===== *)
(** * The tests of the router ([src/src/router/learn.rs], [dedup.rs], [group.rs],
    [decide.rs], [mod.rs])

    An instant of a test is its offset from the start of the test.  The frame hash of the
    tests is [content_hash], which no two different frames share. *)

From S2P Require Import Prelude Testing Frame Filters LruVec Learn Dedup Group EndpointStats TxQueue Identity Decide Router RouterExamples RustStr FilterParse Display.
#[local] Open Scope string_scope.
#[local] Open Scope list_scope.
#[local] Open Scope Z_scope.
#[local] Open Scope test_scope.

(** ** [src/src/router/learn.rs] *)
Module LearnTests.
(** [fn now_plus(offset) -> Instant] *)
Definition now_plus (offset : Z) : Z := offset.
Definition from_secs (s : Z) : Z := s * 1000000000.

(** [table.touch(node, now)] with the result dropped. *)
Definition touched (table : LearnTable) (node : NodeId) (now : Z) : LearnTable := (touch table node now).2.

Definition capacity_zero_clamped_to_one : bool :=
  let table := LearnTable_new 0 in
  capacity table == 1%nat.

Definition touch_new_returns_true_then_false : bool :=
  let table := LearnTable_new 4 in
  let '(added, table) := touch table (NodeId_new 1 1) (now_plus 0) in
  added && (LearnTable_len table == 1%nat) &&
  let '(added, table) := touch table (NodeId_new 1 1) (now_plus (from_secs 1)) in
  negb added && (LearnTable_len table == 1%nat).

Definition contains_distinguishes_compids : bool :=
  let table := LearnTable_new 4 in
  let table := touched table (NodeId_new 1 1) (now_plus 0) in
  let table := touched table (NodeId_new 1 2) (now_plus 0) in
  contains table (NodeId_new 1 1) && contains table (NodeId_new 1 2) &&
  negb (contains table (NodeId_new 1 3)) && negb (contains table (NodeId_new 2 1)).

Definition contains_sys_ignores_compid : bool :=
  let table := LearnTable_new 4 in
  let table := touched table (NodeId_new 7 199) (now_plus 0) in
  contains_sys table 7 && negb (contains_sys table 8).

Definition capacity_lru_evicts_oldest_last_seen : bool :=
  let table := LearnTable_new 3 in
  let table := touched table (NodeId_new 1 1) (now_plus (from_secs 0)) in
  let table := touched table (NodeId_new 2 1) (now_plus (from_secs 10)) in
  let table := touched table (NodeId_new 3 1) (now_plus (from_secs 20)) in
  (LearnTable_len table == 3%nat) &&
  let '(inserted, table) := touch table (NodeId_new 4 1) (now_plus (from_secs 30)) in
  inserted && (LearnTable_len table == 3%nat) && negb (contains table (NodeId_new 1 1)) &&
  contains table (NodeId_new 2 1) && contains table (NodeId_new 3 1) && contains table (NodeId_new 4 1).

Definition touch_return_value_correct_after_capacity_eviction : bool :=
  let table := LearnTable_new 3 in
  let table := touched table (NodeId_new 1 1) (now_plus (from_secs 0)) in
  let table := touched table (NodeId_new 2 1) (now_plus (from_secs 10)) in
  let table := touched table (NodeId_new 3 1) (now_plus (from_secs 20)) in
  let table := touched table (NodeId_new 1 1) (now_plus (from_secs 30)) in
  let table := touched table (NodeId_new 4 1) (now_plus (from_secs 40)) in
  (LearnTable_len table == 3%nat) &&
  let '(added, table) := touch table (NodeId_new 1 1) (now_plus (from_secs 50)) in
  negb added &&
  let '(added, table) := touch table (NodeId_new 2 1) (now_plus (from_secs 60)) in
  added.

Definition refreshed_entry_survives_capacity_pressure : bool :=
  let table := LearnTable_new 3 in
  let table := touched table (NodeId_new 1 1) (now_plus (from_secs 0)) in
  let table := touched table (NodeId_new 2 1) (now_plus (from_secs 10)) in
  let table := touched table (NodeId_new 3 1) (now_plus (from_secs 20)) in
  let '(added, table) := touch table (NodeId_new 1 1) (now_plus (from_secs 30)) in
  negb added &&
  let table := touched table (NodeId_new 4 1) (now_plus (from_secs 40)) in
  contains table (NodeId_new 1 1) && negb (contains table (NodeId_new 2 1)) &&
  contains table (NodeId_new 3 1) && contains table (NodeId_new 4 1).

Definition is_empty_and_len_track_inserts : bool :=
  let table := LearnTable_new 4 in
  (length (entries table) == 0%nat) && (LearnTable_len table == 0%nat) &&
  let table := touched table (NodeId_new 1 1) (now_plus 0) in
  negb (length (entries table) == 0%nat) && (LearnTable_len table == 1%nat).

Theorem learn_tests_pass :
  all_pass [capacity_zero_clamped_to_one; touch_new_returns_true_then_false; contains_distinguishes_compids;
            contains_sys_ignores_compid; capacity_lru_evicts_oldest_last_seen;
            touch_return_value_correct_after_capacity_eviction; refreshed_entry_survives_capacity_pressure;
            is_empty_and_len_track_inserts] = true.
Proof. run_tests. Qed.
End LearnTests.

(** ** [src/src/router/dedup.rs] *)

(** The bytes as the digits of a number, after a leading one. *)
Definition content_hash (frame : list Z) : Z := foldl (fun acc byte => acc * 256 + byte) 1 frame.

Module DedupTests.
(** [fn at(millis) -> Instant] *)
Definition at_ms (millis : Z) : Z := from_millis millis.
(** [fn make_frame(bytes) -> Bytes] *)
Definition make_frame (bytes : string) : list Z := bytes_of bytes.

(** [window.check_and_insert(frame, now)] *)
Definition check (frame : list Z) (now : Z) : script DedupWindow bool :=
  fun window => Some (check_and_insert content_hash window frame now).
Definition ring_len : script DedupWindow nat := observe_state (fun window => length (dw_ring window)).

Definition disabled_window_never_hits_and_stays_empty : bool :=
  run_script (
    enabled ← observe_state is_enabled; assert (negb enabled) ;;
    for_each (List.seq 0 10) (fun _ => hit ← check (make_frame "abc") 0; assert (negb hit)) ;;
    n ← ring_len; assert (n == 0%nat)
  ) (DedupWindow_new 0 16).

Definition first_insert_misses_second_identical_hits : bool :=
  let frame := make_frame "hello" in
  run_script (
    hit ← check frame (at_ms 0); assert (negb hit) ;;
    hit ← check frame (at_ms 0); assert hit
  ) (DedupWindow_new (from_millis 100) 16).

Definition distinct_frames_both_admitted : bool :=
  run_script (
    hit ← check (make_frame "frame-a") (at_ms 0); assert (negb hit) ;;
    hit ← check (make_frame "frame-b") (at_ms 0); assert (negb hit) ;;
    n ← ring_len; assert (n == 2%nat)
  ) (DedupWindow_new (from_millis 100) 16).

Definition ttl_expiry_drops_old_entries_then_admits_repeat : bool :=
  let frame := make_frame "telemetry" in
  run_script (
    hit ← check frame (at_ms 0); assert (negb hit) ;;
    hit ← check frame (at_ms 25); assert hit ;;
    hit ← check frame (at_ms 55); assert (negb hit)
  ) (DedupWindow_new (from_millis 50) 16).

Definition capacity_oldest_evicted_when_full : bool :=
  run_script (
    hit ← check (make_frame "a") (at_ms 0); assert (negb hit) ;;
    hit ← check (make_frame "b") (at_ms 10); assert (negb hit) ;;
    hit ← check (make_frame "c") (at_ms 20); assert (negb hit) ;;
    n ← ring_len; assert (n == 2%nat) ;;
    hit ← check (make_frame "a") (at_ms 30); assert (negb hit) ;;
    n ← ring_len; assert (n == 2%nat) ;;
    hit ← check (make_frame "b") (at_ms 40); assert (negb hit)
  ) (DedupWindow_new (from_millis 1000) 2).

Definition ttl_expiry_releases_set_membership_for_replay : bool :=
  let frame := make_frame "repeat" in
  run_script (
    hit ← check frame (at_ms 0); assert (negb hit) ;;
    hit ← check frame (at_ms 30); assert (negb hit) ;;
    n ← ring_len; assert (n == 1%nat)
  ) (DedupWindow_new (from_millis 10) 16).

Definition capacity_zero_is_clamped_to_one : bool :=
  run_script (
    hit ← check (make_frame "a") (at_ms 0); assert (negb hit) ;;
    hit ← check (make_frame "b") (at_ms 0); assert (negb hit) ;;
    n ← ring_len; assert (n == 1%nat)
  ) (DedupWindow_new (from_millis 50) 0).

(** The two copies of the source are separate allocations; a value has no address here. *)
Definition hit_is_content_based_not_pointer_based : bool :=
  let content := [0xFD; 9; 0; 0; 0; 1; 1; 0; 0; 0; 1; 2; 3; 4] in
  run_script (
    hit ← check content (at_ms 0); assert (negb hit) ;;
    hit ← check content (at_ms 0); assert hit
  ) (DedupWindow_new (from_millis 100) 16).

Theorem dedup_tests_pass :
  all_pass [disabled_window_never_hits_and_stays_empty; first_insert_misses_second_identical_hits;
            distinct_frames_both_admitted; ttl_expiry_drops_old_entries_then_admits_repeat;
            capacity_oldest_evicted_when_full; ttl_expiry_releases_set_membership_for_replay;
            capacity_zero_is_clamped_to_one; hit_is_content_based_not_pointer_based] = true.
Proof. run_tests. Qed.
End DedupTests.

(** ** [src/src/router/group.rs] *)
Module GroupTests.
Definition join_creates_group_with_first_member_capacity : bool :=
  let '(members, registry) := join GroupRegistry_new "uplink" 7 in
  (members == 1%nat) &&
  expect Some entry := registry !! "uplink" in
  (capacity (gl_learn entry) == 7%nat) && (gl_members entry == 1%nat).

Definition join_existing_group_keeps_capacity_silently : bool :=
  let '(_, registry) := join GroupRegistry_new "uplink" 7 in
  let '(members, registry) := join registry "uplink" 99 in
  (members == 2%nat) &&
  expect Some entry := registry !! "uplink" in
  (capacity (gl_learn entry) == 7%nat) && (gl_members entry == 2%nat).

Definition leave_drops_group_when_last_member_leaves : bool :=
  let '(_, registry) := join GroupRegistry_new "uplink" 4 in
  let '(_, registry) := join registry "uplink" 4 in
  (size registry == 1%nat) &&
  let registry := leave registry "uplink" in
  expect Some _ := registry !! "uplink" in
  let registry := leave registry "uplink" in
  expect None := registry !! "uplink" in
  size registry == 0%nat.

Definition leave_unknown_group_is_a_noop : bool :=
  let registry := leave GroupRegistry_new "does-not-exist" in
  size registry == 0%nat.

Definition shared_learn_is_observable_from_every_handle : bool :=
  let '(_, registry) := join GroupRegistry_new "uplink" 4 in
  let registry := group_touch registry "uplink" (NodeId_new 7 1) 0 in
  expect Some group_ref := registry !! "uplink" in
  contains (gl_learn group_ref) (NodeId_new 7 1).

Theorem group_tests_pass :
  all_pass [join_creates_group_with_first_member_capacity; join_existing_group_keeps_capacity_silently;
            leave_drops_group_when_last_member_leaves; leave_unknown_group_is_a_noop;
            shared_learn_is_observable_from_every_handle] = true.
Proof. run_tests. Qed.
End GroupTests.

(** ** [src/src/router/decide.rs] *)

(** [Filters { <key>: value, ..Filters::default() }] *)
Definition msgid_filter (key : string) (ranges : list MsgIdRange) : Filters := set_filter key ranges [] [] Filters_default.
Definition u8_filter (key : string) (ranges : list U8Range) : Filters := set_filter key [] ranges [] Filters_default.
Definition name_filter (key : string) (names : list string) : Filters := set_filter key [] [] names Filters_default.

Module DecideTests.
Definition header_at (sysid compid : Z) (target_system target_component : option Z) : ParsedHeader :=
  {| version := Version_V2; source := NodeId_new sysid compid; msgid := 0; seq := 0; payload_len := 0;
     target_system := target_system; target_component := target_component |}.
Definition header_with_msgid (msgid sysid compid : Z) : ParsedHeader :=
  {| version := Version_V2; source := NodeId_new sysid compid; msgid := msgid; seq := 0; payload_len := 0;
     target_system := None; target_component := None |}.
Definition empty_learn : LearnTable := LearnTable_new 8.
Definition learn_with (entries : list (Z * Z)) : LearnTable :=
  foldl (fun table '(index, (sysid, compid)) => (touch table (NodeId_new sysid compid) (from_millis (Z.of_nat index))).2)
    (LearnTable_new 8) (imap pair entries).
Definition plain_identity : IdentityFlags := IdentityFlags_default.
Definition sniffer_identity : IdentityFlags := {| filters := Filters_default; sniffer := true; group := None |}.
Definition identity_with_filters (filters : Filters) : IdentityFlags :=
  {| filters := filters; sniffer := false; group := None |}.

Definition broadcast_no_target_field_admitted_with_empty_learn : bool :=
  let header := header_at 1 1 None None in
  decide_for_dest header empty_learn plain_identity "src" == Admit.

Definition broadcast_target_sys_zero_admitted : bool :=
  let header := header_at 1 1 (Some 0) (Some 7) in
  decide_for_dest header empty_learn plain_identity "src" == Admit.

Definition fully_targeted_match_admitted : bool :=
  let header := header_at 99 99 (Some 5) (Some 10) in
  decide_for_dest header (learn_with [(5, 10)]) plain_identity "src" == Admit.

Definition fully_targeted_miss_rejected_as_target_mismatch : bool :=
  let header := header_at 99 99 (Some 5) (Some 10) in
  decide_for_dest header (learn_with [(5, 11); (6, 10)]) plain_identity "src" == TargetMismatch.

Definition half_target_compid_zero_matches_any_compid : bool :=
  let header := header_at 99 99 (Some 5) (Some 0) in
  (decide_for_dest header (learn_with [(5, 200)]) plain_identity "src" == Admit) &&
  (decide_for_dest header (learn_with [(6, 200)]) plain_identity "src" == TargetMismatch).

Definition half_target_no_compid_field_matches_any_compid : bool :=
  let header := header_at 99 99 (Some 5) None in
  (decide_for_dest header (learn_with [(5, 200)]) plain_identity "src" == Admit) &&
  (decide_for_dest header (learn_with [(6, 200)]) plain_identity "src" == TargetMismatch).

Definition loop_prevention_drops_known_source : bool :=
  let header := header_at 1 1 (Some 5) (Some 10) in
  let learn := learn_with [(1, 1); (5, 10)] in
  decide_for_dest header learn plain_identity "src" == LoopBlocked.

Definition loop_prevention_beats_broadcast : bool :=
  let header := header_at 1 1 (Some 0) None in
  let learn := learn_with [(1, 1)] in
  decide_for_dest header learn plain_identity "src" == LoopBlocked.

Definition empty_learn_rejects_fully_targeted_frame : bool :=
  let header := header_at 99 99 (Some 5) (Some 10) in
  decide_for_dest header empty_learn plain_identity "src" == TargetMismatch.

Definition empty_learn_rejects_half_target_compid_zero : bool :=
  let header := header_at 99 99 (Some 5) (Some 0) in
  decide_for_dest header empty_learn plain_identity "src" == TargetMismatch.

Definition empty_learn_rejects_half_target_no_compid_field : bool :=
  let header := header_at 99 99 (Some 5) None in
  decide_for_dest header empty_learn plain_identity "src" == TargetMismatch.

Definition out_filter_block_rejects_with_out_filter_blocked : bool :=
  let header := header_with_msgid 33 1 1 in
  let identity := identity_with_filters (msgid_filter "block_msgid_out" [MsgIdRange_single 33]) in
  decide_for_dest header empty_learn identity "src" == OutFilterBlocked.

Definition out_filter_block_runs_after_loop_prevent : bool :=
  let header := header_with_msgid 33 1 1 in
  let identity := identity_with_filters (msgid_filter "block_msgid_out" [MsgIdRange_single 33]) in
  let learn := learn_with [(1, 1)] in
  decide_for_dest header learn identity "src" == LoopBlocked.

Definition out_filter_allow_admits_listed_msgid_and_rejects_others : bool :=
  let identity := identity_with_filters (msgid_filter "allow_msgid_out" [MsgIdRange_single 0]) in
  let allowed := header_with_msgid 0 1 1 in
  let blocked := header_with_msgid 1 1 1 in
  (decide_for_dest allowed empty_learn identity "src" == Admit) &&
  (decide_for_dest blocked empty_learn identity "src" == OutFilterBlocked).

Definition out_filter_src_sys_axis_independent_of_msgid : bool :=
  let identity := identity_with_filters (u8_filter "block_src_sys_out" [U8Range_single 7]) in
  let header_blocked := header_with_msgid 0 7 1 in
  let header_passes := header_with_msgid 0 8 1 in
  (decide_for_dest header_blocked empty_learn identity "src" == OutFilterBlocked) &&
  (decide_for_dest header_passes empty_learn identity "src" == Admit).

Definition out_filter_src_comp_axis_independent_of_msgid : bool :=
  let identity := identity_with_filters (u8_filter "block_src_comp_out" [U8Range_single 9]) in
  let header_blocked := header_with_msgid 0 1 9 in
  let header_passes := header_with_msgid 0 1 10 in
  (decide_for_dest header_blocked empty_learn identity "src" == OutFilterBlocked) &&
  (decide_for_dest header_passes empty_learn identity "src" == Admit).

Definition out_filter_src_endpoint_axis_block_rejects : bool :=
  let identity := identity_with_filters (name_filter "block_src_endpoint_out" ["noisy"]) in
  let header := header_with_msgid 0 1 1 in
  (decide_for_dest header empty_learn identity "noisy" == OutFilterBlocked) &&
  (decide_for_dest header empty_learn identity "quiet" == Admit).

Definition out_filter_src_endpoint_axis_allow_restricts : bool :=
  let identity := identity_with_filters (name_filter "allow_src_endpoint_out" ["alpha"; "beta"]) in
  let header := header_with_msgid 0 1 1 in
  (decide_for_dest header empty_learn identity "alpha" == Admit) &&
  (decide_for_dest header empty_learn identity "beta" == Admit) &&
  (decide_for_dest header empty_learn identity "gamma" == OutFilterBlocked).

Definition out_filter_runs_before_target_match : bool :=
  let header := header_at 1 1 (Some 99) (Some 99) in
  let identity := identity_with_filters (msgid_filter "block_msgid_out" [MsgIdRange_single 0]) in
  decide_for_dest header empty_learn identity "src" == OutFilterBlocked.

Definition sniffer_admits_even_when_looped : bool :=
  let header := header_at 1 1 None None in
  let learn := learn_with [(1, 1)] in
  decide_for_dest header learn sniffer_identity "src" == Admit.

Definition sniffer_admits_even_when_out_filter_would_block : bool :=
  let header := header_with_msgid 33 1 1 in
  let identity := {| filters := msgid_filter "block_msgid_out" [MsgIdRange_single 33]; sniffer := true; group := None |} in
  decide_for_dest header empty_learn identity "src" == Admit.

Definition sniffer_admits_even_when_target_would_mismatch : bool :=
  let header := header_at 99 99 (Some 5) (Some 10) in
  decide_for_dest header empty_learn sniffer_identity "src" == Admit.

Theorem decide_tests_pass :
  all_pass [broadcast_no_target_field_admitted_with_empty_learn; broadcast_target_sys_zero_admitted;
            fully_targeted_match_admitted; fully_targeted_miss_rejected_as_target_mismatch;
            half_target_compid_zero_matches_any_compid; half_target_no_compid_field_matches_any_compid;
            loop_prevention_drops_known_source; loop_prevention_beats_broadcast; empty_learn_rejects_fully_targeted_frame;
            empty_learn_rejects_half_target_compid_zero; empty_learn_rejects_half_target_no_compid_field;
            out_filter_block_rejects_with_out_filter_blocked; out_filter_block_runs_after_loop_prevent;
            out_filter_allow_admits_listed_msgid_and_rejects_others; out_filter_src_sys_axis_independent_of_msgid;
            out_filter_src_comp_axis_independent_of_msgid; out_filter_src_endpoint_axis_block_rejects;
            out_filter_src_endpoint_axis_allow_restricts; out_filter_runs_before_target_match;
            sniffer_admits_even_when_looped; sniffer_admits_even_when_out_filter_would_block;
            sniffer_admits_even_when_target_would_mismatch] = true.
Proof. run_tests. Qed.
End DecideTests.

(** ** [src/src/router/mod.rs] *)
Module RouterTests.
#[global] Instance StatsEvent_eq_dec : EqDecision StatsEvent.
Proof. solve_decision. Defined.

(** What a test holds: the router, the shared store, the id allocator. *)
Record Bench := {
  b_router : Router ListChan.t;
  b_world : World ListQueue.t;
  b_alloc : EndpointIdAllocator;
}.
Abbreviation test := (script Bench).

(** [mpsc::channel::<StatsEvent>(capacity)] and [Router::new]. *)
Definition make_router_with (capacity : nat) (dedup_ms : Z) (dedup_window_capacity : nat) : Bench :=
  {| b_router := Router_new {| ListChan.log := []; ListChan.room := capacity |} dedup_ms dedup_window_capacity;
     b_world := {| w_stats := ∅; w_queues := ∅; w_notified := ∅ |};
     b_alloc := EndpointIdAllocator_new |}.
(** [fn make_router(dedup_ms, dedup_window_capacity)] *)
Definition make_router (dedup_ms : Z) (dedup_window_capacity : nat) : Bench :=
  make_router_with 64 dedup_ms dedup_window_capacity.

(** [struct EndpointFixture] *)
Record EndpointFixture := { fx_id : EndpointId; fx_stats : nat; fx_tx_queue : TxQueue }.

Definition alloc_id : test EndpointId :=
  fun b => let '(id, next) := alloc (b_alloc b) in
           Some (id, {| b_router := b_router b; b_world := b_world b; b_alloc := next |}).

(** [fn make_endpoint(alloc, top_level) -> EndpointFixture] *)
Definition make_endpoint (top_level : bool) : test EndpointFixture :=
  id ← alloc_id;
  act (fun b =>
    let w := b_world b in
    let h := fresh (dom (w_stats w)) in
    let stats := EndpointStats_new (if top_level then Reconnecting else Connected) in
    let w := {| w_stats := <[h := stats]> (w_stats w); w_queues := w_queues w; w_notified := w_notified w |} in
    let '(tx_queue, w) := TxQueue_new 8 h w in
    ({| fx_id := id; fx_stats := h; fx_tx_queue := tx_queue |},
     {| b_router := b_router b; b_world := w; b_alloc := b_alloc b |})).

Definition endpoint_added_with_identity (fx : EndpointFixture) (name : string) (identity : IdentityFlags) : EndpointEvent :=
  EndpointAdded (fx_id fx) name (fx_stats fx)
    (Some {| rt_tx_queue := fx_tx_queue fx; rt_identity := identity; rt_endpoint_name := name |}).
Definition endpoint_added (fx : EndpointFixture) (name : string) : EndpointEvent :=
  endpoint_added_with_identity fx name IdentityFlags_default.
Definition parent_listener_added (fx : EndpointFixture) (name : string) : EndpointEvent :=
  EndpointAdded (fx_id fx) name (fx_stats fx) None.
Definition peer_added (parent : EndpointId) (fx : EndpointFixture) (name : string) : EndpointEvent :=
  PeerAdded parent (fx_id fx) name (fx_stats fx)
    {| rt_tx_queue := fx_tx_queue fx; rt_identity := IdentityFlags_default; rt_endpoint_name := name |}.
Definition header (sysid compid : Z) (target_system : option Z) : ParsedHeader :=
  {| version := Version_V2; source := NodeId_new sysid compid; msgid := 0; seq := 0; payload_len := 0;
     target_system := target_system; target_component := None |}.

(** [router.handle_event(event).await] *)
Definition handle (event : EndpointEvent) : test unit :=
  fun b => let '(r, w) := handle_event (b_router b) event (b_world b) in
           Some (tt, {| b_router := r; b_world := w; b_alloc := b_alloc b |}).
(** [router.handle_frame(RouterFrame { .. })], at the start of the test. *)
Definition frame_from (id : EndpointId) (frame : list Z) (header : ParsedHeader) : test unit :=
  fun b => match handle_frame content_hash map_to_list true (b_router b)
                   {| rf_endpoint_id := id; rf_frame := frame; rf_header := header |} 0 (b_world b) with
           | Done (r, w) => Some (tt, {| b_router := r; b_world := w; b_alloc := b_alloc b |})
           | _ => None
           end.
(** [router.shutdown_sweep().await] *)
Definition sweep : test unit :=
  modify (fun b => let '(r, w) := shutdown_sweep map_to_list (b_router b) (b_world b) in
                   {| b_router := r; b_world := w; b_alloc := b_alloc b |}).
(** [fx.tx_queue.pop()] *)
Definition pop (fx : EndpointFixture) : test (option (list Z)) :=
  fun b => let '(frame, w) := TxQueue_pop (fx_tx_queue fx) (b_world b) in
           Some (frame, {| b_router := b_router b; b_world := w; b_alloc := b_alloc b |}).
(** [fx.stats.<c>.load(Relaxed)] and [fx.stats.load_state()] *)
Definition counter (fx : EndpointFixture) (c : Counter) : test Z :=
  stats ← observe_state (fun b => w_stats (b_world b) !! fx_stats fx);
  stats ← unwrap stats; mret (load c stats).
Definition state_of (fx : EndpointFixture) : test EndpointState :=
  stats ← observe_state (fun b => w_stats (b_world b) !! fx_stats fx);
  stats ← unwrap stats; mret (load_state stats).
Definition registered : test nat := observe_state (fun b => size (routing (b_router b))).
Definition events_dropped : test Z := observe_state (fun b => stats_events_dropped (b_router b)).

(** [fn drain_stats(rx) -> Vec<StatsEvent>]: the receiver frees the slots it takes. *)
Definition drain_stats : test (list StatsEvent) :=
  fun b => let r := b_router b in
           let c := stats_event_tx r in
           Some (ListChan.log c,
                 {| b_router := {| routing := routing r; groups := groups r; dedup := dedup r;
                                   stats_event_tx := {| ListChan.log := [];
                                                        ListChan.room := ListChan.room c + length (ListChan.log c) |};
                                   stats_events_dropped := stats_events_dropped r |};
                    b_world := b_world b; b_alloc := b_alloc b |}).
(** [fn count_registers(events) -> usize] *)
Definition count_registers (events : list StatsEvent) : nat :=
  length (List.filter (fun ev => match ev with Register _ _ _ _ => true | Finalize _ => false end) events).
Definition finalized_ids (events : list StatsEvent) : list EndpointId :=
  omap (fun ev => match ev with Finalize id => Some id | Register _ _ _ _ => None end) events.
(** [fn expect_one_finalize(events) -> EndpointId] *)
Definition expect_one_finalize (events : list StatsEvent) : test EndpointId :=
  match finalized_ids events with [id] => mret id | _ => fun _ => None end.

Definition is_none {A} (o : option A) : bool := match o with None => true | Some _ => false end.
Definition is_some {A} (o : option A) : bool := negb (is_none o).

Definition endpoint_added_forwards_register : bool :=
  run_script (
    fx ← make_endpoint true;
    handle (endpoint_added fx "top") ;;
    events ← drain_stats;
    match events with
    | Register id name _ _ :: _ => assert (id == fx_id fx) ;; assert (name == "top")
    | _ => assert false
    end
  ) (make_router 0 16).

Definition frame_routes_to_other_endpoints : bool :=
  run_script (
    src ← make_endpoint true;
    dst ← make_endpoint true;
    handle (endpoint_added src "src") ;;
    handle (endpoint_added dst "dst") ;;
    let body := bytes_of "hello" in
    frame_from (fx_id src) body (header 7 1 None) ;;
    got ← pop dst; assert (got == Some body) ;;
    got ← pop src; assert (is_none got)
  ) (make_router 0 16).

(** The handlers are functions here: none of them can wait on the channel. *)
Definition full_stats_channel_never_blocks_registration_or_routing : bool :=
  run_script (
    src ← make_endpoint true;
    dst ← make_endpoint true;
    extra ← make_endpoint true;
    for_each [(src, "src"); (dst, "dst"); (extra, "extra")] (fun '(fixture, name) => handle (endpoint_added fixture name)) ;;
    n ← registered; assert (n == 3%nat) ;;
    dropped ← events_dropped; assert (dropped == 2) ;;
    let body := bytes_of "hello" in
    frame_from (fx_id src) body (header 7 1 None) ;;
    got ← pop dst; assert (got == Some body) ;;
    got ← pop extra; assert (got == Some body) ;;
    handle (PeerRemoved (fx_id src) (fx_id dst) Disconnected) ;;
    n ← registered; assert (n == 2%nat) ;;
    sweep ;;
    n ← registered; assert (n == 0%nat) ;;
    state ← state_of src; assert (state == Down) ;;
    state ← state_of extra; assert (state == Down) ;;
    dropped ← events_dropped; assert (dropped == 5) ;;
    delivered ← drain_stats;
    assert (length delivered == 1%nat) ;;
    match delivered with
    | Register id _ _ _ :: _ => assert (id == fx_id src)
    | _ => assert false
    end
  ) (make_router_with 1 0 16).

Definition frame_targeted_skips_destinations_without_learn : bool :=
  run_script (
    src ← make_endpoint true;
    dst ← make_endpoint true;
    handle (endpoint_added src "src") ;;
    handle (endpoint_added dst "dst") ;;
    frame_from (fx_id src) (bytes_of "targeted") (header 7 1 (Some 99)) ;;
    got ← pop dst; assert (is_none got)
  ) (make_router 0 16).

Definition frame_updates_source_learn_entries_counter : bool :=
  run_script (
    src ← make_endpoint true;
    dst ← make_endpoint true;
    handle (endpoint_added src "src") ;;
    handle (endpoint_added dst "dst") ;;
    for_each [1; 2; 3] (fun compid => frame_from (fx_id src) (bytes_of "x") (header 7 compid None)) ;;
    n ← counter src LearnEntries; assert (n == 3)
  ) (make_router 0 16).

(** The two tests of a removed peer differ in the reason and the final state. *)
Definition peer_removed_writes (reason : PeerRemovalReason) (final : EndpointState) : bool :=
  run_script (
    parent ← make_endpoint true;
    child ← make_endpoint false;
    handle (endpoint_added parent "p") ;;
    handle (peer_added (fx_id parent) child "c") ;;
    handle (PeerRemoved (fx_id parent) (fx_id child) reason) ;;
    events ← drain_stats;
    assert (count_registers events == 2%nat) ;;
    id ← expect_one_finalize events; assert (id == fx_id child) ;;
    state ← state_of child; assert (state == final)
  ) (make_router 0 16).
Definition peer_removed_idle_writes_idle_state : bool := peer_removed_writes Reason_Idle Idle.
Definition peer_removed_disconnected_writes_down_state : bool := peer_removed_writes Disconnected Down.

Definition shutdown_sweep_writes_down_and_finalizes_remaining : bool :=
  run_script (
    first ← make_endpoint true;
    second ← make_endpoint true;
    handle (endpoint_added first "a") ;;
    handle (endpoint_added second "b") ;;
    sweep ;;
    events ← drain_stats;
    let finalized := sort_by_key id (finalized_ids events) in
    let expected := sort_by_key id [fx_id first; fx_id second] in
    assert (finalized == expected) ;;
    state ← state_of first; assert (state == Down) ;;
    state ← state_of second; assert (state == Down)
  ) (make_router 0 16).

Definition parent_listener_does_not_receive_broadcast : bool :=
  run_script (
    src ← make_endpoint true;
    parent ← make_endpoint true;
    handle (endpoint_added src "src") ;;
    handle (parent_listener_added parent "parent") ;;
    frame_from (fx_id src) (bytes_of "x") (header 7 1 None) ;;
    got ← pop parent; assert (is_none got) ;;
    n ← counter parent DroppedTx; assert (n == 0)
  ) (make_router 0 16).

Definition out_filter_blocks_destination_and_increments_drop_counter : bool :=
  let block_msgid_0 := {| filters := msgid_filter "block_msgid_out" [MsgIdRange_single 0]; sniffer := false; group := None |} in
  run_script (
    src ← make_endpoint true;
    dst ← make_endpoint true;
    handle (endpoint_added src "src") ;;
    handle (endpoint_added_with_identity dst "dst" block_msgid_0) ;;
    frame_from (fx_id src) (bytes_of "x") (header 7 1 None) ;;
    n ← counter dst OutFilterDrops; assert (n == 1) ;;
    got ← pop dst; assert (is_none got)
  ) (make_router 0 16).

Definition sniffer_destination_bypasses_loop_prevention_and_target_match : bool :=
  let sniffer := {| filters := Filters_default; sniffer := true; group := None |} in
  run_script (
    src ← make_endpoint true;
    tap ← make_endpoint true;
    plain ← make_endpoint true;
    handle (endpoint_added src "src") ;;
    handle (endpoint_added_with_identity tap "tap" sniffer) ;;
    handle (endpoint_added plain "plain") ;;
    frame_from (fx_id plain) (bytes_of "prime") (header 7 1 None) ;;
    pop src ;; pop tap ;;
    n ← counter plain LearnEntries; assert (n == 1) ;;
    frame_from (fx_id src) (bytes_of "echo") (header 7 1 None) ;;
    got ← pop tap; assert (got == Some (bytes_of "echo")) ;;
    got ← pop plain; assert (is_none got) ;;
    frame_from (fx_id src) (bytes_of "targeted") (header 7 1 (Some 99)) ;;
    got ← pop tap; assert (got == Some (bytes_of "targeted")) ;;
    got ← pop plain; assert (is_none got)
  ) (make_router 0 16).

Definition sniffer_destination_admits_through_out_filter_block : bool :=
  let sniffer_with_block :=
    {| filters := msgid_filter "block_msgid_out" [MsgIdRange_single 0]; sniffer := true; group := None |} in
  run_script (
    src ← make_endpoint true;
    tap ← make_endpoint true;
    handle (endpoint_added src "src") ;;
    handle (endpoint_added_with_identity tap "tap" sniffer_with_block) ;;
    frame_from (fx_id src) (bytes_of "x") (header 7 1 None) ;;
    got ← pop tap; assert (is_some got) ;;
    n ← counter tap OutFilterDrops; assert (n == 0)
  ) (make_router 0 16).

Definition group_members_share_learn_set : bool :=
  let in_group := {| filters := Filters_default; sniffer := false; group := Some "uplink" |} in
  run_script (
    lte ← make_endpoint true;
    rfd ← make_endpoint true;
    gcs ← make_endpoint true;
    handle (endpoint_added_with_identity lte "lte" in_group) ;;
    handle (endpoint_added_with_identity rfd "rfd" in_group) ;;
    handle (endpoint_added gcs "gcs") ;;
    frame_from (fx_id lte) (bytes_of "telemetry") (header 7 1 None) ;;
    got ← pop gcs; assert (is_some got) ;;
    got ← pop rfd; assert (is_none got) ;;
    n ← counter lte LearnEntries; assert (n == 1) ;;
    frame_from (fx_id rfd) (bytes_of "echo") (header 7 1 None) ;;
    n ← counter rfd LearnEntries; assert (n == 1)
  ) (make_router 0 16).

Definition group_members_do_not_share_filters_or_stats : bool :=
  let strict_id :=
    {| filters := msgid_filter "block_msgid_out" [MsgIdRange_single 0]; sniffer := false; group := Some "downlink" |} in
  let permissive_id := {| filters := Filters_default; sniffer := false; group := Some "downlink" |} in
  run_script (
    src ← make_endpoint true;
    strict ← make_endpoint true;
    permissive ← make_endpoint true;
    handle (endpoint_added src "src") ;;
    handle (endpoint_added_with_identity strict "strict" strict_id) ;;
    handle (endpoint_added_with_identity permissive "permissive" permissive_id) ;;
    frame_from (fx_id src) (bytes_of "x") (header 7 1 None) ;;
    got ← pop permissive; assert (is_some got) ;;
    got ← pop strict; assert (is_none got) ;;
    n ← counter strict OutFilterDrops; assert (n == 1) ;;
    n ← counter permissive OutFilterDrops; assert (n == 0)
  ) (make_router 0 16).

Definition dedup_disabled_admits_duplicate_frames : bool :=
  run_script (
    src ← make_endpoint true;
    dst ← make_endpoint true;
    handle (endpoint_added src "src") ;;
    handle (endpoint_added dst "dst") ;;
    for_each [0; 1; 2] (fun _ => frame_from (fx_id src) (bytes_of "identical") (header 7 1 None)) ;;
    for_each [0; 1; 2] (fun _ => got ← pop dst; assert (is_some got)) ;;
    n ← counter src DedupDrops; assert (n == 0)
  ) (make_router 0 16).

Definition dedup_suppresses_redundant_uplink_at_router_ingress : bool :=
  run_script (
    lte ← make_endpoint true;
    rfd ← make_endpoint true;
    gcs ← make_endpoint true;
    handle (endpoint_added lte "lte") ;;
    handle (endpoint_added rfd "rfd") ;;
    handle (endpoint_added gcs "gcs") ;;
    frame_from (fx_id lte) (bytes_of "vehicle-telemetry") (header 7 1 None) ;;
    got ← pop gcs; assert (is_some got) ;;
    frame_from (fx_id rfd) (bytes_of "vehicle-telemetry") (header 7 1 None) ;;
    got ← pop gcs; assert (is_none got) ;;
    n ← counter rfd DedupDrops; assert (n == 1) ;;
    n ← counter lte DedupDrops; assert (n == 0)
  ) (make_router 500 16).

Definition sniffer_sees_post_dedup_traffic : bool :=
  let sniffer := {| filters := Filters_default; sniffer := true; group := None |} in
  run_script (
    lte ← make_endpoint true;
    rfd ← make_endpoint true;
    tap ← make_endpoint true;
    handle (endpoint_added lte "lte") ;;
    handle (endpoint_added rfd "rfd") ;;
    handle (endpoint_added_with_identity tap "tap" sniffer) ;;
    frame_from (fx_id lte) (bytes_of "telem") (header 7 1 None) ;;
    got ← pop tap; assert (is_some got) ;;
    frame_from (fx_id rfd) (bytes_of "telem") (header 7 1 None) ;;
    got ← pop tap; assert (is_none got)
  ) (make_router 500 16).

Definition dedup_does_not_run_learn_on_suppressed_frame : bool :=
  run_script (
    src ← make_endpoint true;
    dst ← make_endpoint true;
    handle (endpoint_added src "src") ;;
    handle (endpoint_added dst "dst") ;;
    frame_from (fx_id src) (bytes_of "telem") (header 7 1 None) ;;
    got ← pop dst; assert (is_some got) ;;
    n ← counter src LearnEntries; assert (n == 1) ;;
    frame_from (fx_id src) (bytes_of "telem") (header 8 1 None) ;;
    n ← counter src LearnEntries; assert (n == 1) ;;
    n ← counter src DedupDrops; assert (n == 1)
  ) (make_router 500 16).

Definition frame_from_unknown_endpoint_is_dropped_safely : bool :=
  run_script (
    dst ← make_endpoint true;
    ghost ← alloc_id;
    handle (endpoint_added dst "dst") ;;
    drain_stats ;;
    frame_from ghost (bytes_of "x") (header 1 1 None) ;;
    got ← pop dst; assert (is_none got) ;;
    events ← drain_stats; assert (events == [])
  ) (make_router 0 16).

Theorem router_tests_pass :
  all_pass [endpoint_added_forwards_register; frame_routes_to_other_endpoints;
            full_stats_channel_never_blocks_registration_or_routing; frame_targeted_skips_destinations_without_learn;
            frame_updates_source_learn_entries_counter; peer_removed_idle_writes_idle_state;
            peer_removed_disconnected_writes_down_state; shutdown_sweep_writes_down_and_finalizes_remaining;
            parent_listener_does_not_receive_broadcast; out_filter_blocks_destination_and_increments_drop_counter;
            sniffer_destination_bypasses_loop_prevention_and_target_match;
            sniffer_destination_admits_through_out_filter_block; group_members_share_learn_set;
            group_members_do_not_share_filters_or_stats; dedup_disabled_admits_duplicate_frames;
            dedup_suppresses_redundant_uplink_at_router_ingress; sniffer_sees_post_dedup_traffic;
            dedup_does_not_run_learn_on_suppressed_frame; frame_from_unknown_endpoint_is_dropped_safely] = true.
Proof. run_tests. Qed.
End RouterTests.
