(* ===== verification/TestTasks.v ===== *)
(** * The tests of the stats task and of the sessions ([src/src/stats.rs],
    [src/src/endpoint/session.rs])

    What a test does from outside a task (events it sends, intervals it sleeps through, the
    cancellation) is the sequence of inputs the task's loop meets.  A JSON line is the
    [StatsLine] it is made of. *)

From S2P Require Import Prelude Testing Crc Frame MsgTable Framer LruVec SeqTracker Filters FilterParse EndpointStats TxQueue Identity Router Session Endpoint StatsTask Display Dialect TestFilters TestEndpoint.
Import StatsTests.
#[local] Open Scope string_scope.
#[local] Open Scope list_scope.
#[local] Open Scope Z_scope.
#[local] Open Scope test_scope.

(** ** [src/src/stats.rs] *)
Module StatsTaskTests.
#[global] Instance StatsLine_eq_dec : EqDecision StatsLine.
Proof. solve_decision. Defined.

(** [fn make_register], [fn make_register_listener] *)
Definition make_register (id : EndpointId) (name : string) (stats : nat) : StatsEvent := Register id name stats true.
Definition make_register_listener (id : EndpointId) (name : string) (stats : nat) : StatsEvent := Register id name stats false.

(** [fn disabled_config], [fn enabled_config] *)
Definition disabled_config : StatsRunConfig :=
  {| cfg_enabled := false; cfg_interval := Endpoint.from_secs 60; cfg_queue_capacity := DEFAULT_STATS_QUEUE_LINES |}.
Definition enabled_config (interval_ms : Z) (queue_capacity : nat) : StatsRunConfig :=
  {| cfg_enabled := true; cfg_interval := from_millis interval_ms; cfg_queue_capacity := queue_capacity |}.

Definition build_line_serialises_full_counter_schema : bool :=
  let stats := store_state Connected (foldr (fun p => fetch_add p.1 p.2) default_stats
    [(RxFrames, 7); (TxFrames, 8); (RxBytes, 9); (TxBytes, 10); (DroppedTx, 11); (CrcErrors, 12); (ResyncBytes, 13);
     (RxLostEst, 14); (InFilterDrops, 15); (OutFilterDrops, 16); (DedupDrops, 17); (LearnEntries, 18)]) in
  build_line "vehicle" stats "2026-05-15T19:00:00Z" true ==
  Line_Routable "2026-05-15T19:00:00Z" "vehicle" "connected" 7 8 9 10 11 12 13 14 15 16 17 18.

Definition build_line_for_listener_omits_counter_fields : bool :=
  let stats := store_state Connected (fetch_add RxFrames 99 default_stats) in
  build_line "input" stats "2026-05-15T19:00:00Z" false == Line_NonRoutable "2026-05-15T19:00:00Z" "input" "connected".

Definition state_label_covers_every_variant : bool :=
  (state_label Reconnecting == "reconnecting") && (state_label Connected == "connected") && (state_label Idle == "idle") &&
  (state_label Down == "down") && (state_label Unknown == "unknown").

(** [fn make_line(endpoint)], [fn entry_endpoints(queue)] *)
Definition make_line (endpoint : string) : StatsLine := build_line endpoint default_stats "t" true.
Definition entry_endpoints (queue : list QueueEntry) : list string := map (fun e => StatsLine_endpoint (qe_line e)) queue.

(** A queue and its drop counter. *)
Abbreviation queue_test := (script (list QueueEntry * Z)).
Definition regular (cap : nat) (name : string) : queue_test unit :=
  modify (fun s => enqueue_regular s.1 cap (make_line name) s.2).
Definition synthetic (cap : nat) (name : string) : queue_test unit :=
  modify (fun s => enqueue_synthetic s.1 cap (make_line name) s.2).
Definition queue_is (dropped : Z) (names : list string) : queue_test unit :=
  s ← observe_state (fun s => s); assert ((s.2 == dropped) && (entry_endpoints s.1 == names)).
Definition run_queue (m : queue_test unit) : bool := run_script m ([], 0).

Definition regular_enqueue_drops_oldest_when_capacity_exceeded : bool :=
  run_queue (regular 2 "a" ;; regular 2 "b" ;; regular 2 "c" ;; queue_is 1 ["b"; "c"]).
Definition regular_enqueue_zero_capacity_drops_everything : bool :=
  run_queue (regular 0 "a" ;; queue_is 1 []).
Definition synthetic_enqueue_evicts_oldest_regular_first : bool :=
  run_queue (regular 3 "reg-a" ;; synthetic 3 "syn-x" ;; regular 3 "reg-b" ;; synthetic 3 "syn-y" ;;
             queue_is 1 ["syn-x"; "reg-b"; "syn-y"]).
Definition synthetic_enqueue_falls_back_to_oldest_synthetic_when_no_regular : bool :=
  run_queue (synthetic 2 "syn-a" ;; synthetic 2 "syn-b" ;; synthetic 2 "syn-c" ;; queue_is 1 ["syn-b"; "syn-c"]).
Definition synthetic_enqueue_zero_capacity_drops_and_warns : bool :=
  run_queue (synthetic 0 "syn-a" ;; queue_is 1 []).

(** [warn_on_new_drops(total, &mut last)], from and to [last]. *)
Definition warn_at (total last : Z) : Z :=
  sk_last_warned (warn_on_new_drops
    {| sk_registry := ∅; sk_queue := []; sk_total_dropped := total; sk_last_warned := last; sk_broken_pipe_warned := false;
       sk_out := []; sk_writes := 0 |}).
Definition warn_on_new_drops_only_fires_when_total_advances : bool :=
  (warn_at 0 0 == 0) && (warn_at 3 0 == 3) && (warn_at 3 3 == 3) && (warn_at 5 3 == 5).

(** [run(rx, cancel, cfg, writer)] from time 0, to the lines on its output.  The registry is
    iterated by [map_to_list]. *)
Definition day : Z := Endpoint.from_secs 86400.
Definition task (writer : nat -> write_result) (cfg : StatsRunConfig) (inputs : list stats_input) (late : list (Z * late_answer))
    : outcome StatsTask := stats_run map_to_list writer day 0 cfg inputs 0 late.
Definition healthy_task := task (fun _ => WriteOk).
(** [alloc.alloc()], the first and the second of an allocator. *)
Definition id_a : EndpointId := 0.
Definition id_b : EndpointId := 1.
Definition all_default : nat -> EndpointStats := fun _ => default_stats.
Definition states (s : nat -> EndpointState) : nat -> EndpointStats := fun k => store_state (s k) default_stats.

Definition task_exits_on_cancel_with_sender_alive_disabled : bool :=
  expect Done _ := healthy_task disabled_config [StatsCancel] [(0, LateElapsed)] in true.

Definition post_cancel_drain_processes_finalize_arriving_after_cancel : bool :=
  let up := states (fun _ => Connected) in
  let down := states (fun _ => Down) in
  expect Done t := healthy_task (enabled_config 60000 32)
    [StatsRecv (make_register id_a "ep" 0%nat) "t" up; StatsCancel] [(0, LateEvent (Finalize id_a) "t" down); (0, LateClosed)] in
  match sk_out t with line :: _ => line == build_line "ep" (down 0%nat) "t" true | [] => false end.

Definition task_exits_when_router_drops_sender : bool :=
  expect Done _ := healthy_task disabled_config [StatsClosed] [(0, LateClosed)] in true.

Definition disabled_task_emits_no_lines_on_finalize : bool :=
  let up := states (fun _ => Connected) in
  expect Done t := healthy_task disabled_config
    [StatsRecv (make_register id_a "ep" 0%nat) "t" up; StatsRecv (Finalize id_a) "t" up; StatsClosed] [(0, LateClosed)] in
  sk_out t == [].

Definition enabled_task_emits_one_line_per_endpoint_per_interval : bool :=
  let stats k := match k with
                 | O => store_state Connected (add_rx_frame 10 default_stats)
                 | _ => store_state Reconnecting (add_tx_frame 20 default_stats)
                 end in
  expect Done t := healthy_task (enabled_config 100 32)
    [StatsRecv (make_register id_a "alpha" 0%nat) "t" stats; StatsRecv (make_register id_b "beta" 1%nat) "t" stats;
     StatsTick "t" stats; StatsClosed] [(0, LateClosed)] in
  let endpoints := map StatsLine_endpoint (sk_out t) in
  (length endpoints == 2%nat) && bool_decide ("alpha" ∈ endpoints) && bool_decide ("beta" ∈ endpoints).

Definition enabled_task_emits_state_only_line_for_listener_endpoint : bool :=
  let stats (_ : nat) := fetch_add RxFrames 42 (store_state Connected default_stats) in
  expect Done t := healthy_task (enabled_config 100 32)
    [StatsRecv (make_register_listener id_a "input" 0%nat) "t" stats; StatsTick "t" stats; StatsClosed] [(0, LateClosed)] in
  match sk_out t with line :: _ => line == Line_NonRoutable "t" "input" "connected" | [] => false end.

Definition finalize_emits_synthetic_line_with_terminal_state : bool :=
  let up := states (fun _ => Connected) in
  let down := states (fun _ => Down) in
  expect Done t := healthy_task (enabled_config 60000 32)
    [StatsRecv (make_register id_a "ep" 0%nat) "t" up; StatsRecv (Finalize id_a) "t" down; StatsClosed] [(0, LateClosed)] in
  sk_out t == [build_line "ep" (down 0%nat) "t" true].

(** Every write fails: the task still ends, and never tries a second one. *)
Definition broken_pipe_logs_once_and_swallows_subsequent_writes : bool :=
  expect Done t := task (fun _ => WriteBrokenPipe) (enabled_config 10 32)
    (StatsRecv (make_register id_a "ep" 0%nat) "t" all_default :: repeat (StatsTick "t" all_default) 8 ++ [StatsClosed])
    [(0, LateClosed)] in
  sk_broken_pipe_warned t && (sk_writes t == 1%nat) && (sk_out t == []).

Theorem stats_task_tests_pass :
  all_pass [build_line_serialises_full_counter_schema; build_line_for_listener_omits_counter_fields;
            state_label_covers_every_variant; regular_enqueue_drops_oldest_when_capacity_exceeded;
            regular_enqueue_zero_capacity_drops_everything; synthetic_enqueue_evicts_oldest_regular_first;
            synthetic_enqueue_falls_back_to_oldest_synthetic_when_no_regular;
            synthetic_enqueue_zero_capacity_drops_and_warns; warn_on_new_drops_only_fires_when_total_advances;
            task_exits_on_cancel_with_sender_alive_disabled; post_cancel_drain_processes_finalize_arriving_after_cancel;
            task_exits_when_router_drops_sender; disabled_task_emits_no_lines_on_finalize;
            enabled_task_emits_one_line_per_endpoint_per_interval;
            enabled_task_emits_state_only_line_for_listener_endpoint;
            finalize_emits_synthetic_line_with_terminal_state;
            broken_pipe_logs_once_and_swallows_subsequent_writes] = true.
Proof. run_tests. Qed.
End StatsTaskTests.

(** ** [src/src/endpoint/session.rs] *)
Module SessionTests.
#[global] Instance SessionOutcome_eq_dec : EqDecision SessionOutcome.
Proof. solve_decision. Defined.
#[global] Instance ControlFlow_eq_dec `{EqDecision B} : EqDecision (ControlFlow B).
Proof. solve_decision. Defined.

Definition no_filter : Filters := Filters_default.
Definition fresh_tracker : SeqTracker := SeqTracker_new 8.
Definition fresh_id : EndpointId := (alloc EndpointIdAllocator_new).1.

(** [fn build_v1_heartbeat_with_seq(seq)], [fn build_v1_heartbeat()] *)
Definition build_v1_heartbeat_with_seq (seq : Z) : Bytes :=
  let payload := repeat 0 9 in
  let frame := [STX_V1; wrap 8 (Z.of_nat (length payload)); seq; 1; 1; 0] ++ payload in
  let crc := Crc16_update_slice Crc16_new (drop 1 frame) in
  let crc := Crc16_update crc 50 in
  let crc_value := Crc16_finalize crc in
  frame ++ [wrap 8 (Z.land crc_value 0xFF); wrap 8 (Z.shiftr crc_value 8)].
Definition build_v1_heartbeat : Bytes := build_v1_heartbeat_with_seq 0.

(** The world of a test: the one stats object, at handle 0.  [rx] is alive, or dropped. *)
Definition world : World ListQueue.t := {| w_stats := {[0%nat := default_stats]}; w_queues := ∅; w_notified := ∅ |}.
Definition channel (alive : bool) : ListSender.t RouterFrame := {| ListSender.items := []; ListSender.open := alive |}.
Definition ctx_with (f : Filters) : SessionCtx := {| ctx_endpoint_id := fresh_id; ctx_stats := 0; ctx_filters := f |}.
Definition reader (framer : Framer) : ReaderState :=
  {| rd_framer := framer; rd_counters := FramerCounters_new; rd_tracker := fresh_tracker |}.
Definition stat (c : Counter) (w : World ListQueue.t) : Z :=
  match w_stats w !! 0%nat with Some s => load c s | None => -1 end.

(** [handle_read_result] on bytes just read, and [forward_inbound_frames] on a filled
    buffer: what they say, the frames the router gets, and the stats. *)
Definition handle_read (res : read_result) (alive : bool) : outcome (ControlFlow SessionOutcome * list RouterFrame * World ListQueue.t) :=
  let! (flow, _, tx, w) := handle_read_result (ctx_with no_filter) 0 res (reader Framer_new) (channel alive) world in
  Done (flow, ListSender.items tx, w).
Definition forward (f : Filters) (bytes : Bytes) (alive : bool) : outcome (ControlFlow unit * list RouterFrame * World ListQueue.t) :=
  let! (flow, _, _, tx, w) :=
    forward_inbound_frames (ctx_with f) 0 (buffer_extend Framer_new bytes) fresh_tracker (channel alive) world in
  Done (flow, ListSender.items tx, w).

Definition handle_read_eof_breaks_disconnected : bool :=
  expect Done (flow, _, _) := handle_read (ReadOk []) true in flow == Break SessionDisconnected.
Definition handle_read_err_breaks_disconnected : bool :=
  expect Done (flow, _, _) := handle_read ReadErr true in flow == Break SessionDisconnected.

Definition handle_read_partial_frame_continues_without_send : bool :=
  expect Done (flow, received, w) := handle_read (ReadOk [STX_V1; 9; 0]) true in
  (flow == Continue) && (length received == 0%nat) && (stat RxFrames w == 0).

Definition handle_read_complete_frame_forwards_and_bumps_stats : bool :=
  let bytes := build_v1_heartbeat in
  expect Done (flow, [router_frame], w) := handle_read (ReadOk bytes) true in
  (flow == Continue) && (rf_endpoint_id router_frame == fresh_id) && (rf_frame router_frame == bytes) &&
  (stat RxFrames w == 1) && (stat RxBytes w == Z.of_nat (length bytes)).

Definition handle_read_router_closed_breaks_terminated_but_counts_rx : bool :=
  expect Done (flow, _, w) := handle_read (ReadOk build_v1_heartbeat) false in
  (flow == Break Terminated) && (stat RxFrames w == 1).

Definition handle_read_syncs_framer_counters_to_stats : bool :=
  expect Done (flow, _, w) := handle_read (ReadOk (repeat 0 4 ++ build_v1_heartbeat)) true in
  (flow == Continue) && (stat ResyncBytes w == 4).

Definition handle_read_terminated_path_skips_framer_sync : bool :=
  expect Done (flow, _, w) := handle_read (ReadOk (repeat 0 4 ++ build_v1_heartbeat)) false in
  (flow == Break Terminated) && (stat ResyncBytes w == 0).

Definition handle_read_corrupted_crc_propagates_to_stats : bool :=
  let frame := build_v1_heartbeat in
  let frame := set_byte (length frame - 1) (fun b => Z.lxor b 255) frame in
  expect Done (flow, received, w) := handle_read (ReadOk frame) true in
  (flow == Continue) && (stat CrcErrors w == 1) && (stat RxFrames w == 0) && (length received == 0%nat).

Definition handle_read_multiple_frames_in_one_buffer_fill_all_forward : bool :=
  let frame := build_v1_heartbeat in
  expect Done (flow, received, w) := handle_read (ReadOk (frame ++ frame)) true in
  (flow == Continue) && (length received == 2%nat) && (stat RxFrames w == 2) &&
  (stat RxBytes w == 2 * Z.of_nat (length frame)).

Definition forward_inbound_frames_empty_continues : bool :=
  expect Done (flow, received, w) := forward no_filter [] true in
  (flow == Continue) && (length received == 0%nat) && (stat RxFrames w == 0).

Definition forward_inbound_frames_drains_all_buffered : bool :=
  let bytes := build_v1_heartbeat in
  expect Done (flow, received, w) := forward no_filter (bytes ++ bytes) true in
  (flow == Continue) && (length received == 2%nat) && (stat RxFrames w == 2) &&
  (stat RxBytes w == 2 * Z.of_nat (length bytes)).

Definition forward_inbound_frames_breaks_when_router_channel_closed : bool :=
  expect Done (flow, _, _) := forward no_filter build_v1_heartbeat false in flow == Break tt.

(** [Filters { block_msgid_in: vec![MsgIdRange::single(0)], ..default }], and the allow list. *)
Definition block_heartbeat : Filters := set_msgids "block_msgid_in" [MsgIdRange_single 0] Filters_default.
Definition allow_heartbeat : Filters := set_msgids "allow_msgid_in" [MsgIdRange_single 0] Filters_default.

Definition in_filter_blocks_frame_and_bumps_drop_counter : bool :=
  expect Done (flow, received, w) := forward block_heartbeat build_v1_heartbeat true in
  (flow == Continue) && (length received == 0%nat) && (stat RxFrames w == 1) && (stat InFilterDrops w == 1).

Definition in_filter_pass_lets_frame_through_without_counter_bump : bool :=
  expect Done (flow, received, w) := forward allow_heartbeat build_v1_heartbeat true in
  (flow == Continue) && (length received == 1%nat) && (stat InFilterDrops w == 0).

Definition seq_tracker_bumps_rx_lost_est_on_small_gap : bool :=
  expect Done (flow, _, w) := forward no_filter (build_v1_heartbeat_with_seq 0 ++ build_v1_heartbeat_with_seq 3) true in
  (flow == Continue) && (stat RxFrames w == 2) && (stat RxLostEst w == 2).

Definition seq_tracker_runs_before_in_filter_so_blocked_frame_still_counts : bool :=
  expect Done (flow, received, w) := forward block_heartbeat (build_v1_heartbeat_with_seq 0 ++ build_v1_heartbeat_with_seq 4) true in
  (flow == Continue) && (length received == 0%nat) && (stat InFilterDrops w == 2) && (stat RxLostEst w == 3).

Definition seq_tracker_consecutive_seqs_no_bump : bool :=
  expect Done (_, _, w) := forward no_filter (concat (map build_v1_heartbeat_with_seq [0; 1; 2; 3; 4])) true in
  (stat RxFrames w == 5) && (stat RxLostEst w == 0).

Definition seq_tracker_large_gap_treated_as_restart_no_bump : bool :=
  expect Done (_, _, w) := forward no_filter (build_v1_heartbeat_with_seq 0 ++ build_v1_heartbeat_with_seq 200) true in
  (stat RxFrames w == 2) && (stat RxLostEst w == 0).

Definition write_outbound_frame_success_bumps_tx_stats : bool :=
  let frame := bytes_of "some bytes" in
  let '(flow, w) := write_outbound_frame frame true 0 world in
  (flow == Continue) && (stat TxFrames w == 1) && (stat TxBytes w == Z.of_nat (length frame)).

Definition write_outbound_frame_io_error_breaks_disconnected : bool :=
  let '(flow, w) := write_outbound_frame (bytes_of "hi") false 0 world in
  (flow == Break SessionDisconnected) && (stat TxFrames w == 0) && (stat TxBytes w == 0).

Theorem session_tests_pass :
  all_pass [handle_read_eof_breaks_disconnected; handle_read_err_breaks_disconnected;
            handle_read_partial_frame_continues_without_send; handle_read_complete_frame_forwards_and_bumps_stats;
            handle_read_router_closed_breaks_terminated_but_counts_rx; handle_read_syncs_framer_counters_to_stats;
            handle_read_terminated_path_skips_framer_sync; handle_read_corrupted_crc_propagates_to_stats;
            handle_read_multiple_frames_in_one_buffer_fill_all_forward; forward_inbound_frames_empty_continues;
            forward_inbound_frames_drains_all_buffered; forward_inbound_frames_breaks_when_router_channel_closed;
            in_filter_blocks_frame_and_bumps_drop_counter; in_filter_pass_lets_frame_through_without_counter_bump;
            seq_tracker_bumps_rx_lost_est_on_small_gap;
            seq_tracker_runs_before_in_filter_so_blocked_frame_still_counts; seq_tracker_consecutive_seqs_no_bump;
            seq_tracker_large_gap_treated_as_restart_no_bump; write_outbound_frame_success_bumps_tx_stats;
            write_outbound_frame_io_error_breaks_disconnected] = true.
Proof. run_tests. Qed.
End SessionTests.
