(* ===== verification/TestTransport.v ===== *)
(** * The tests of the transports ([src/src/endpoint/udp/client.rs], [udp/server.rs],
    [tcp/client.rs], [tcp/server.rs], [serial.rs])

    What sockets, resolvers and devices answer is given by each test.  The tests of
    [socket.rs], which only ask the operating system, are left out. *)

From S2P Require Import Prelude Testing RustStr RustNet Crc Frame MsgTable Framer LruVec SeqTracker Filters FilterParse EndpointStats TxQueue Identity Spec Session Backoff Endpoint UdpServer UdpClient Stream TcpServer Display Dialect TestFilters TestEndpoint TestTasks.
Import StatsTests SessionTests.
#[local] Open Scope string_scope.
#[local] Open Scope list_scope.
#[local] Open Scope Z_scope.
#[local] Open Scope test_scope.

#[global] Instance InboundDecision_eq_dec : EqDecision InboundDecision.
Proof. solve_decision. Defined.
#[global] Instance PeerRemovalReason_eq_dec : EqDecision PeerRemovalReason.
Proof. solve_decision. Defined.

(** ** [src/src/endpoint/udp/client.rs] *)
Module UdpClientTests.
Definition make_dest (ips : list IpAddr) (port : Z) : Destination :=
  {| dest_host := "example"; dest_port := port; resolved_ips := ips; latch := None |}.
Definition v4 (a b c d : Z) : IpAddr := V4 [a; b; c; d].
Definition at_port (ip : IpAddr) (port : Z) : SocketAddr := SocketAddr_new ip port.
(** [dest.latch = Some(LatchInfo { addr, last_inbound })] *)
Definition latched (dest : Destination) (addr : SocketAddr) (last : Z) : Destination :=
  set_latch dest (Some {| latch_addr := addr; last_inbound := last |}).
(** ["2001:db8::1"] *)
Definition v6_doc : IpAddr := V6 [0x2001; 0xdb8; 0; 0; 0; 0; 0; 1].

Definition udpc_spec_defaults_when_endpoint_unset : bool :=
  let spec := UdpClientSpec_from_endpoint UdpClientEndpoint_default 0 "n" in
  (ucp_latch_idle_secs spec == DEFAULT_LATCH_IDLE_SECS) && (ucp_reconnect_initial_ms spec == DEFAULT_RECONNECT_INITIAL_MS) &&
  (ucp_reconnect_max_ms spec == DEFAULT_RECONNECT_MAX_MS).

Definition spec_overrides_from_endpoint : bool :=
  let endpoint := {| uc_host := uc_host UdpClientEndpoint_default; uc_port := uc_port UdpClientEndpoint_default;
                     uc_latch_idle_secs := Some 5; uc_identity := uc_identity UdpClientEndpoint_default |} in
  ucp_latch_idle_secs (UdpClientSpec_from_endpoint endpoint 0 "n") == 5.

Definition classify_configured_matching_ip_latches : bool :=
  classify_inbound (make_dest [v4 192 168 1 5] 14550) (v4 192 168 1 5) == AcceptAndLatch.
Definition classify_configured_unrelated_ip_rejected : bool :=
  classify_inbound (make_dest [v4 192 168 1 5] 14550) (v4 10 0 0 9) == Reject.
Definition classify_configured_any_resolved_ip_latches : bool :=
  classify_inbound (make_dest [v4 192 168 1 5; v4 192 168 1 6] 14550) (v4 192 168 1 6) == AcceptAndLatch.
Definition classify_latched_same_ip_accepts_update : bool :=
  let dest := latched (make_dest [v4 192 168 1 5] 14550) (at_port (v4 192 168 1 5) 50000) 0 in
  classify_inbound dest (v4 192 168 1 5) == AcceptUpdate.
Definition classify_latched_other_ip_rejected_even_if_in_resolved : bool :=
  let dest := latched (make_dest [v4 192 168 1 5; v4 192 168 1 6] 14550) (at_port (v4 192 168 1 5) 50000) 0 in
  classify_inbound dest (v4 192 168 1 6) == Reject.

(** [Ipv4Addr::new(127, 0, 0, 1).to_ipv6_mapped()] *)
Definition canonical_ipv4_mapped_v6_collapses_to_v4 : bool :=
  canonical_ip (V6 [0; 0; 0; 0; 0; 0xFFFF; 127 * 256 + 0; 0 * 256 + 1]) == v4 127 0 0 1.
Definition canonical_pure_v6_unchanged : bool := canonical_ip v6_doc == v6_doc.

Definition current_target_prefers_latch_over_resolved : bool :=
  let dest := make_dest [v4 192 168 1 5] 14550 in
  let addr := at_port (v4 10 0 0 1) 50000 in
  (current_target dest == Some (at_port (v4 192 168 1 5) 14550)) && (current_target (latched dest addr 0) == Some addr).
Definition current_target_none_when_empty_and_no_latch : bool := current_target (make_dest [] 14550) == None.

Definition pick_local_bind_all_v4_uses_v4 : bool :=
  addr_ip (pick_local_bind [v4 192 168 1 1; v4 10 0 0 1]) == V4 [0; 0; 0; 0].
Definition pick_local_bind_any_v6_uses_dual_stack : bool :=
  addr_ip (pick_local_bind [v4 192 168 1 1; v6_doc]) == V6 [0; 0; 0; 0; 0; 0; 0; 0].
Definition pick_local_bind_empty_defaults_to_dual_stack : bool :=
  addr_ip (pick_local_bind []) == V6 [0; 0; 0; 0; 0; 0; 0; 0].

Definition check_latch_idle_reverts_after_threshold : bool :=
  let now := from_secs 1000 in
  let dest := latched (make_dest [v4 127 0 0 1] 14550) (at_port (v4 127 0 0 1) 50000) (now - from_secs 120) in
  match latch (check_latch_idle dest (from_secs 30) now None) with None => true | Some _ => false end.
Definition check_latch_idle_keeps_fresh_latch : bool :=
  let now := from_secs 1000 in
  let dest := latched (make_dest [v4 127 0 0 1] 14550) (at_port (v4 127 0 0 1) 50000) now in
  match latch (check_latch_idle dest (from_secs 30) now None) with None => false | Some _ => true end.

(** The stats of a test, at handle 0, start in a given state. *)
Definition world_in (state : EndpointState) : World ListQueue.t :=
  {| w_stats := {[0%nat := EndpointStats_new state]}; w_queues := ∅; w_notified := ∅ |}.
Definition state_is (w : World ListQueue.t) (state : EndpointState) : bool :=
  match w_stats w !! 0%nat with Some s => load_state s == state | None => false end.

Definition send_frame_success_writes_connected : bool :=
  let dest := make_dest [v4 127 0 0 1] 40000 in
  let '(_, w) := send_frame 0 (Some 5%nat) None dest (world_in Reconnecting) in
  state_is w Connected && (stat TxFrames w == 1).
Definition send_frame_send_to_error_writes_reconnecting : bool :=
  let dest := make_dest [v4 127 0 0 1] 0 in
  let '(_, w) := send_frame 0 None None dest (world_in Connected) in
  state_is w Reconnecting && (stat TxFrames w == 0).
Definition send_frame_no_target_after_failed_reresolve_writes_reconnecting : bool :=
  let '(_, w) := send_frame 0 (Some 5%nat) None (make_dest [] 14550) (world_in Connected) in state_is w Reconnecting.
Definition send_frame_no_target_then_reresolve_succeeds_keeps_state : bool :=
  let '(dest, w) := send_frame 0 (Some 5%nat) (Some [at_port (v4 127 0 0 1) 14550]) (make_dest [] 14550) (world_in Connected) in
  state_is w Connected && negb (resolved_ips dest == []).
Definition send_frame_recovers_from_reconnecting_on_success : bool :=
  let '(_, w) := send_frame 0 None None (make_dest [v4 127 0 0 1] 0) (world_in Connected) in
  state_is w Reconnecting &&
  let '(_, w) := send_frame 0 (Some 1%nat) None (make_dest [v4 127 0 0 1] 40000) w in state_is w Connected.

(** [handle_inbound(data, src, ..)] on a fresh endpoint at [dest]: the frames the router
    gets, the destination and the stats. *)
Definition inbound (f : Filters) (state : EndpointState) (dest : Destination) (data : Bytes) (src : SocketAddr)
    : outcome (list RouterFrame * Destination * World ListQueue.t) :=
  let! s := handle_inbound {| ctx_endpoint_id := 0; ctx_stats := 0; ctx_filters := f |} data src 0
    {| uc_dest := dest; uc_reader := reader Framer_new; uc_tx := channel true; uc_world := world_in state |} in
  Done (ListSender.items (uc_tx s), uc_dest s, uc_world s).

Definition accepted_inbound_writes_connected : bool :=
  expect Done (_, dest, w) :=
    inbound no_filter Reconnecting (make_dest [v4 127 0 0 1] 14550) [] (at_port (v4 127 0 0 1) 50000) in
  state_is w Connected && match latch dest with Some _ => true | None => false end.
Definition rejected_inbound_does_not_write_connected : bool :=
  expect Done (_, dest, w) :=
    inbound no_filter Reconnecting (make_dest [v4 192 168 1 5] 14550) [] (at_port (v4 10 0 0 9) 50000) in
  state_is w Reconnecting && match latch dest with Some _ => false | None => true end && (stat InFilterDrops w == 1).
Definition in_filter_drops_blocked_msgid : bool :=
  expect Done (received, _, w) :=
    inbound block_heartbeat Connected (make_dest [v4 127 0 0 1] 14550) build_v1_heartbeat (at_port (v4 127 0 0 1) 50000) in
  (length received == 0%nat) && (stat RxFrames w == 1) && (stat InFilterDrops w == 1).

Theorem udp_client_tests_pass :
  all_pass [udpc_spec_defaults_when_endpoint_unset; spec_overrides_from_endpoint; classify_configured_matching_ip_latches;
            classify_configured_unrelated_ip_rejected; classify_configured_any_resolved_ip_latches;
            classify_latched_same_ip_accepts_update; classify_latched_other_ip_rejected_even_if_in_resolved;
            canonical_ipv4_mapped_v6_collapses_to_v4; canonical_pure_v6_unchanged; current_target_prefers_latch_over_resolved;
            current_target_none_when_empty_and_no_latch; pick_local_bind_all_v4_uses_v4;
            pick_local_bind_any_v6_uses_dual_stack; pick_local_bind_empty_defaults_to_dual_stack;
            check_latch_idle_reverts_after_threshold; check_latch_idle_keeps_fresh_latch; send_frame_success_writes_connected;
            send_frame_send_to_error_writes_reconnecting;
            send_frame_no_target_after_failed_reresolve_writes_reconnecting;
            send_frame_no_target_then_reresolve_succeeds_keeps_state; send_frame_recovers_from_reconnecting_on_success;
            accepted_inbound_writes_connected; rejected_inbound_does_not_write_connected; in_filter_drops_blocked_msgid] = true.
Proof. run_tests. Qed.
End UdpClientTests.

(** ** [src/src/endpoint/udp/server.rs] *)
Module UdpServerTests.
Definition udps_spec_defaults_when_endpoint_unset : bool :=
  let spec := UdpServerSpec_from_endpoint UdpServerEndpoint_default 0 "n" in
  (usp_idle_secs spec == DEFAULT_IDLE_SECS) && (usp_peer_capacity spec == DEFAULT_PEER_CAPACITY) &&
  (usp_reconnect_initial_ms spec == DEFAULT_RECONNECT_INITIAL_MS) && (usp_reconnect_max_ms spec == DEFAULT_RECONNECT_MAX_MS).

Definition spec_overrides_idle_secs_via_endpoint : bool :=
  let ep := {| us_bind_addr := us_bind_addr UdpServerEndpoint_default; us_idle_secs := Some 10;
               us_identity := us_identity UdpServerEndpoint_default |} in
  let spec := UdpServerSpec_from_endpoint ep 0 "n" in
  (usp_idle_secs spec == 10) && (usp_reconnect_initial_ms spec == DEFAULT_RECONNECT_INITIAL_MS) &&
  (usp_reconnect_max_ms spec == DEFAULT_RECONNECT_MAX_MS).

(** [Instant::now()] of a test. *)
Definition now : Z := from_secs 1000.
Definition dummy_peer (child_id : EndpointId) (age : Z) : PeerEntry :=
  {| pe_child_id := child_id; pe_framer := Framer_new; pe_last_seen := now - age; pe_framer_counters := FramerCounters_new;
     pe_seq_tracker := SeqTracker_new 8; pe_stats := 0 |}.
Definition addr (port : Z) : SocketAddr := SocketAddr_new (V4 [127; 0; 0; port]) port.

Abbreviation listener := (Listener ListQueue.t (ListSender.t RouterFrame) (ListSender.t EndpointEvent)).
(** A listener with these peers; the event receiver is alive, or dropped. *)
Definition with_peers (peers : list (SocketAddr * PeerEntry)) (alive : bool) : listener :=
  {| ls_peers := list_to_map peers; ls_allocator := 1; ls_frame_tx := channel true;
     ls_event_tx := {| ListSender.items := []; ListSender.open := alive |}; ls_world := world; ls_cancelled := ∅; ls_writers := [] |}.
Definition contains_key (st : listener) (a : SocketAddr) : bool := match ls_peers st !! a with Some _ => true | None => false end.
Definition events (st : listener) : list EndpointEvent := ListSender.items (ls_event_tx st).

Definition evict_lru_drops_oldest_peer : bool :=
  let st := evict_lru_peer map_to_list (with_peers [(addr 1, dummy_peer 0 (from_secs 30)); (addr 2, dummy_peer 1 (from_secs 60));
                                                   (addr 3, dummy_peer 2 (from_secs 5))] true) 99 in
  expect PeerRemoved _ child_id reason :: _ := events st in
  negb (contains_key st (addr 2)) && contains_key st (addr 1) && contains_key st (addr 3) &&
  (reason == LruEvicted) && (child_id == 1).

Definition evict_lru_no_op_on_empty_table : bool :=
  length (events (evict_lru_peer map_to_list (with_peers [] true) 0)) == 0%nat.

(** The child of each event, when all are removals of idle peers. *)
Definition idle_removals (es : list EndpointEvent) : option (list EndpointId) :=
  mapM (fun e => match e with PeerRemoved _ child_id Reason_Idle => Some child_id | _ => None end) es.
Definition reap_idle_removes_only_stale_peers : bool :=
  let st := reap_idle_peers map_to_list 99 (from_secs 60) now
    (with_peers [(addr 1, dummy_peer 0 (from_secs 120)); (addr 2, dummy_peer 1 (from_secs 5)); (addr 3, dummy_peer 2 (from_secs 120))] true) in
  expect Some removed := idle_removals (events st) in
  negb (contains_key st (addr 1)) && contains_key st (addr 2) && negb (contains_key st (addr 3)) &&
  (length removed == 2%nat) && bool_decide (0 ∈ removed) && bool_decide (2 ∈ removed).

(** [admission_fixture(peer_capacity)]: the spec of the listener. *)
Definition admission_fixture (peer_capacity : nat) : UdpServerSpec :=
  {| usp_listen_addr := SocketAddr_new (V4 [127; 0; 0; 1]) 0; usp_parent_id := 0; usp_parent_name := "test";
     usp_idle_secs := DEFAULT_IDLE_SECS; usp_peer_capacity := peer_capacity;
     usp_reconnect_initial_ms := DEFAULT_RECONNECT_INITIAL_MS; usp_reconnect_max_ms := DEFAULT_RECONNECT_MAX_MS;
     usp_identity := IdentityFlags_default |}.

Definition admit_new_peer_evicts_lru_when_at_capacity : bool :=
  let spec := admission_fixture 3 in
  let st := with_peers [(addr 1, dummy_peer 10 (from_secs 30)); (addr 2, dummy_peer 11 (from_secs 60)); (addr 3, dummy_peer 12 (from_secs 5))] true in
  (size (ls_peers st) == 3%nat) &&
  let '(admitted, st) := admit_new_peer map_to_list spec (addr 4) now st in
  expect [PeerAdded _ _ name _ _; PeerRemoved _ child_id reason] := events st in
  admitted && (size (ls_peers st) == 3%nat) && negb (contains_key st (addr 2)) && contains_key st (addr 1) &&
  contains_key st (addr 3) && contains_key st (addr 4) && (name == peer_endpoint_name (usp_parent_name spec) (addr 4)) &&
  (reason == LruEvicted) && (child_id == 11).

Definition admit_new_peer_with_closed_event_tx_does_not_evict : bool :=
  let st := with_peers [(addr 1, dummy_peer 10 (from_secs 30)); (addr 2, dummy_peer 11 (from_secs 60))] false in
  let '(admitted, st) := admit_new_peer map_to_list (admission_fixture 2) (addr 3) now st in
  negb admitted && (size (ls_peers st) == 2%nat) && contains_key st (addr 1) && contains_key st (addr 2) &&
  (length (ls_writers st) == 0%nat).

(** Three writers, of which two have ended; then the third has too. *)
Definition reap_finished_drops_only_completed_writers : bool :=
  let tq := (TxQueue_new DEFAULT_TX_QUEUE_FRAMES 0 world).1 in
  let st := with_peers [] true in
  let st := {| ls_peers := ls_peers st; ls_allocator := ls_allocator st; ls_frame_tx := ls_frame_tx st; ls_event_tx := ls_event_tx st;
               ls_world := ls_world st; ls_cancelled := ls_cancelled st;
               ls_writers := [(addr 1, tq, 1); (addr 2, tq, 2); (addr 3, tq, 3)] |} in
  let st := reap_finished {[1; 2]} st in
  (length (ls_writers st) == 1%nat) && (length (ls_writers (reap_finished {[3]} st)) == 0%nat).

Theorem udp_server_tests_pass :
  all_pass [udps_spec_defaults_when_endpoint_unset; spec_overrides_idle_secs_via_endpoint; evict_lru_drops_oldest_peer;
            evict_lru_no_op_on_empty_table; reap_idle_removes_only_stale_peers; admit_new_peer_evicts_lru_when_at_capacity;
            admit_new_peer_with_closed_event_tx_does_not_evict; reap_finished_drops_only_completed_writers] = true.
Proof. run_tests. Qed.
End UdpServerTests.

(** ** [src/src/endpoint/tcp/client.rs] *)
Module TcpClientTests.
Definition tcpc_spec_defaults_when_endpoint_unset : bool :=
  let spec := TcpClientSpec_from_endpoint TcpClientEndpoint_default 0 "n" in
  (tcp_reconnect_initial_ms spec == DEFAULT_RECONNECT_INITIAL_MS) && (tcp_reconnect_max_ms spec == DEFAULT_RECONNECT_MAX_MS).

Definition resolve_ipv4_literal_short_circuits_dns : bool :=
  resolve_to_socket_addrs "127.0.0.1" 5760 None == [SocketAddr_new (V4 [127; 0; 0; 1]) 5760].
Definition resolve_ipv6_literal_short_circuits_dns : bool :=
  resolve_to_socket_addrs "::1" 5760 None == [SocketAddr_new (V6 [0; 0; 0; 0; 0; 0; 0; 1]) 5760].

Definition loopback (port : Z) : SocketAddr := SocketAddr_new (V4 [127; 0; 0; 1]) port.
Definition connect_one_returns_cancelled_when_cancel_already_fired : bool :=
  expect DialCancelled := connect_one (loopback 1) ConnCancelled in true.
Definition connect_one_failures_and_successes_are_independent : bool :=
  expect DialFailed := connect_one (loopback 1) ConnErr in
  expect DialConnected _ := connect_one (loopback 40000) ConnOk in true.

Theorem tcp_client_tests_pass :
  all_pass [tcpc_spec_defaults_when_endpoint_unset; resolve_ipv4_literal_short_circuits_dns;
            resolve_ipv6_literal_short_circuits_dns; connect_one_returns_cancelled_when_cancel_already_fired;
            connect_one_failures_and_successes_are_independent] = true.
Proof. run_tests. Qed.
End TcpClientTests.

(** ** [src/src/endpoint/tcp/server.rs] *)
Module TcpServerTests.
Definition tcps_spec_defaults_when_endpoint_unset : bool :=
  let spec := TcpServerSpec_from_endpoint TcpServerEndpoint_default 0 "n" in
  (tsp_reconnect_initial_ms spec == DEFAULT_RECONNECT_INITIAL_MS) && (tsp_reconnect_max_ms spec == DEFAULT_RECONNECT_MAX_MS).

(** Three spawned tasks of which [running] have not ended. *)
Definition spawned (running : list EndpointId) : TcpsState ListQueue.t (ListSender.t RouterFrame) (LiveSender.t EndpointEvent) :=
  let '(tq, w) := TxQueue_new DEFAULT_TX_QUEUE_FRAMES 0 world in
  let child := {| ch_tq := tq; ch_stats := 0; ch_reader := ReaderState_new |} in
  {| ts_phase := Accepting; ts_backoff := Backoff_new 250 30000 None; ts_allocator := 4; ts_frame_tx := channel true;
     ts_event_tx := {| LiveSender.log := [] |}; ts_world := w; ts_children := list_to_map (map (fun id => (id, child)) running);
     ts_handles := [1; 2; 3] |}.

(** The third task waits for the token; then it has ended as well. *)
Definition reap_finished_drops_only_completed_children : bool :=
  (length (ts_handles (tcps_reap_finished (spawned [3]))) == 1%nat) &&
  (ts_handles (tcps_reap_finished (spawned [])) == []).

Theorem tcp_server_tests_pass :
  all_pass [tcps_spec_defaults_when_endpoint_unset; reap_finished_drops_only_completed_children] = true.
Proof. run_tests. Qed.
End TcpServerTests.

(** ** [src/src/endpoint/serial.rs] *)
Module SerialTests.
(** No device of that path exists. *)
Definition no_device : serial_driver := fun _ _ _ => false.
Definition bogus : string := "/this/path/definitely/does/not/exist".

(** The open fails, and the token fires during the delay. *)
Definition open_until_cancel_yields_on_cancel_during_sleep : bool :=
  let '(tq, w) := TxQueue_new DEFAULT_TX_QUEUE_FRAMES 0 world in
  let l := {| lf_tx := channel true; lf_world := w |} in
  expect Done (OpenCancelled, _) :=
    open_until_cancel bogus 115200 FlowControl_None tq
      [{| oa_cancelled := false; oa_driver := no_device; oa_while_waiting := []; oa_waited := false |}] l in true.

Definition try_open_runs_both_flow_control_variants_without_panicking : bool :=
  forallb (fun fc => negb (try_open no_device bogus 115200 fc)) [FlowControl_None; FlowControl_RtsCts].

Theorem serial_tests_pass :
  all_pass [open_until_cancel_yields_on_cancel_during_sleep; try_open_runs_both_flow_control_variants_without_panicking] = true.
Proof. run_tests. Qed.
End SerialTests.
